(** * Datacmd widgets: a shallow embedding of the update and draw logic

    The development follows the Go sources of the repository:
    - the funnel and the pie chart widgets          : [Funnel], [PieChart]
    - [widgets/radar.go]                            : [Radar]
    - [widgets/table.go]                            : [Table]
    - the histogram widget and [widgets/scatter.go] : [Histogram], [ScatterPlot]
    - [dynamicGridLayout] of the main package       : [Layout]
    - [createWidgets] of the main package           : [Main]
    - the loader package                            : [loader]
    - the widget constructors of the main package   : [Creators]
    - the generate package                          : [generate]

    Go values are represented as follows.
    - [int] is a 64-bit two's complement integer, carried as a [Z].  The sums
      of numbers the caller supplies are written with their wrap-around
      ([GoInt.add]); the arithmetic of [Draw] on canvas sizes, loop indexes
      and page numbers stays far inside [int] and is written with the
      operations of [Z].
    - [float64] is IEEE 754 binary64, carried as a [spec_float] with the
      operations of the standard library at precision 53; no operation is
      fused with another.
    - [error] is [option string]: [None] is Go's [nil].
    - a method with a pointer receiver takes the receiver's state and returns
      the new state next to its results; the mutex every method takes plays
      no part in what one call computes.
    - what belongs to termdash or to Go's library is either written out after
      its documented behaviour ([canvas], [cell], [image], [button.New],
      the validation of [grid.Builder.Build]) or
      taken as an operation of the class [Host].
    - what reads a file, a URL or the system, and the parsers of [strconv],
      are variables of the sections that use them; the goroutines the
      constructors start with [periodic] run after the constructor has
      returned and are left out. *)

From Stdlib Require Import ZArith List Lia Bool String SpecFloat.
From stdpp Require Import base option list gmap strings pretty sorting.

Local Open Scope Z_scope.

(** * Part I: the embedding *)

(** ** Go's [int] *)

Module GoInt.

Definition int_bits : Z := 64.
Definition min_int : Z := - 2 ^ (int_bits - 1).
Definition max_int : Z := 2 ^ (int_bits - 1) - 1.

(** Reduction of a mathematical integer into the range of [int]. *)
Definition wrap (z : Z) : Z :=
  (z + 2 ^ (int_bits - 1)) mod 2 ^ int_bits - 2 ^ (int_bits - 1).

Definition in_range (z : Z) : Prop := min_int <= z <= max_int.

(** [a + b] on [int]. *)
Definition add (a b : Z) : Z := wrap (a + b).

End GoInt.

(** ** Go's [float64] *)

Module Float64.

Definition prec : Z := 53.
Definition emax : Z := 1024.

Definition t : Type := spec_float.

Definition NaN : t := S754_nan.
Definition zero : t := S754_zero false.

(** The conversion [float64(n)] of an [int]: round to nearest even. *)
Definition of_int (n : Z) : t := binary_normalize prec emax n 0 false.

Definition add (x y : t) : t := SFadd prec emax x y.
Definition sub (x y : t) : t := SFsub prec emax x y.
Definition mul (x y : t) : t := SFmul prec emax x y.
Definition div (x y : t) : t := SFdiv prec emax x y.

(** [x < y], [x <= y], [x == y]: all false when an operand is NaN. *)
Definition ltb (x y : t) : bool := SFltb x y.
Definition leb (x y : t) : bool := SFleb x y.
Definition eqb (x y : t) : bool := SFeqb x y.

Definition is_nan (x : t) : bool :=
  match x with S754_nan => true | _ => false end.

(** Integer part of a finite float, rounded toward zero. *)
Definition trunc_finite (s : bool) (m : positive) (e : Z) : Z :=
  let mag := if 0 <=? e then Z.shiftl (Zpos m) e else Z.shiftr (Zpos m) (- e) in
  if s then - mag else mag.

(** The conversion [int(x)]: truncation toward zero.  Go leaves the result
    for NaN, infinities and values outside [int] to the platform; the
    64-bit x86 conversion instruction gives the smallest [int] there. *)
Definition to_int (x : t) : Z :=
  match x with
  | S754_zero _ => 0
  | S754_finite s m e =>
      let z := trunc_finite s m e in
      if (GoInt.min_int <=? z) && (z <=? GoInt.max_int) then z else GoInt.min_int
  | _ => GoInt.min_int
  end.

(** [math.Ceil]. *)
Definition ceil (x : t) : t :=
  match x with
  | S754_finite s m e =>
      if 0 <=? e then x
      else
        let q := Z.shiftr (Zpos m) (- e) in
        let exact := Zpos m =? Z.shiftl q (- e) in
        if s then (if q =? 0 then S754_zero true else of_int (- q))
        else of_int (if exact then q else q + 1)
  | _ => x
  end.

(** [math.Max] with Go's special cases for NaN, infinities and zeros. *)
Definition max (x y : t) : t :=
  match x, y with
  | S754_infinity false, _ | _, S754_infinity false => S754_infinity false
  | S754_nan, _ | _, S754_nan => S754_nan
  | S754_zero sx, S754_zero sy => S754_zero (sx && sy)
  | _, _ => if ltb y x then x else y
  end.

(** [math.Min] with Go's special cases. *)
Definition min (x y : t) : t :=
  match x, y with
  | S754_infinity true, _ | _, S754_infinity true => S754_infinity true
  | S754_nan, _ | _, S754_nan => S754_nan
  | S754_zero sx, S754_zero sy => S754_zero (sx || sy)
  | _, _ => if ltb x y then x else y
  end.

End Float64.

(** ** Errors, results and termdash's [cell] package *)

(** Go's [error]: [None] stands for [nil], [Some msg] for an error value.
    Formatted messages keep their format string only. *)
Definition error : Type := option string.

(** A returned pair of a pointer and an [error], of which exactly one is set. *)
Inductive result (A : Type) : Type :=
  | Ok (a : A)
  | Err (msg : string).
Arguments Ok {A} a.
Arguments Err {A} msg.

Definition is_ok {A} (r : result A) : bool :=
  match r with Ok _ => true | Err _ => false end.

(** [cell.Color] of termdash is an integer type. *)
Abbreviation Color := Z (only parsing).

Module cell.

(** The colour constants the widgets use, numbered as in termdash. *)
Definition ColorDefault : Color := 0.
Definition ColorBlack : Color := 1.
Definition ColorGreen : Color := 3.
Definition ColorRed : Color := 10.
Definition ColorBlue : Color := 13.
Definition ColorWhite : Color := 16.

(** [cell.ColorNumber]: a colour of the 256-colour palette. *)
Definition ColorNumber (n : Z) : Color :=
  if (n <? 0) || (255 <? n) then ColorDefault else n + 1.

(** [cell.Option]: the two options the widgets pass. *)
Inductive Option : Type :=
  | FgColor (c : Color)
  | BgColor (c : Color).

End cell.

(** ** [image.Point] and [image.Rectangle] *)

Module image.

(** A point is the pair of its [X] and [Y]. *)
Definition Point : Type := (Z * Z)%type.
Definition mkPoint (x y : Z) : Point := (x, y).
Definition X (p : Point) : Z := fst p.
Definition Y (p : Point) : Z := snd p.

Record Rectangle : Type := mkRect { Min : Point; Max : Point }.

Definition ZR : Rectangle := mkRect (mkPoint 0 0) (mkPoint 0 0).

(** [image.Rect]: the rectangle with the given corners, put in order. *)
Definition Rect (x0 y0 x1 y1 : Z) : Rectangle :=
  let '(x0, x1) := if x1 <? x0 then (x1, x0) else (x0, x1) in
  let '(y0, y1) := if y1 <? y0 then (y1, y0) else (y0, y1) in
  mkRect (mkPoint x0 y0) (mkPoint x1 y1).

Definition Dx (r : Rectangle) : Z := X (Max r) - X (Min r).
Definition Dy (r : Rectangle) : Z := Y (Max r) - Y (Min r).

(** [p.In(r)] *)
Definition In (p : Point) (r : Rectangle) : bool :=
  (X (Min r) <=? X p) && (X p <? X (Max r)) &&
  (Y (Min r) <=? Y p) && (Y p <? Y (Max r)).

End image.

(** ** The host canvas *)

(** The canvas termdash hands to [Draw]: a zero-based grid of cells, each
    with a rune and its cell options.  Cells nobody has set are absent. *)
Module canvas.

Record Cell : Type := mkCell { Rune : Z; Fg : Color; Bg : Color }.

Definition blank : Cell := mkCell 0 cell.ColorDefault cell.ColorDefault.

Definition apply (c : Cell) (o : cell.Option) : Cell :=
  match o with
  | cell.FgColor col => mkCell (Rune c) col (Bg c)
  | cell.BgColor col => mkCell (Rune c) (Fg c) col
  end.

Record t : Type := mk { width : nat; height : nat; cells : gmap image.Point Cell }.

(** [cvs.Area()]: always starts at the point zero. *)
Definition Area (c : t) : image.Rectangle :=
  image.Rect 0 0 (Z.of_nat (width c)) (Z.of_nat (height c)).

(** [cvs.SetCell(p, r, opts...)] for a rune one cell wide: the rune replaces
    the cell's rune and the options are applied over the cell's options; a
    point outside the area is an error and changes nothing. *)
Definition SetCell (c : t) (p : image.Point) (r : Z) (opts : list cell.Option) : t * error :=
  if image.In p (Area c) then
    let old := default blank (cells c !! p) in
    let new := fold_left apply opts (mkCell r (Fg old) (Bg old)) in
    (mk (width c) (height c) (<[p := new]> (cells c)), None)
  else (c, Some "cell falls outside of the canvas"%string).

End canvas.

(** How a call of [Draw] ends: it returns its [error], or it panics;
    [StillRunning] is the answer of a loop whose budget of turns ran out. *)
Inductive completion : Type :=
  | Returns (e : error)
  | Panics
  | StillRunning.

(** ** Loops *)

(** [for x := lo; x < hi; x++ { body }] over a state. *)
Definition for_range {S} (lo hi : Z) (body : Z -> S -> S) (s : S) : S :=
  fold_left (fun s x => body x s) (seqZ lo (hi - lo)) s.

(** [for i, v := range l { body }] over a state. *)
Definition for_each {A S} (l : list A) (body : Z -> A -> S -> S) (s : S) : S :=
  fold_left (fun s iv => body (Z.of_nat (fst iv)) (snd iv) s) (imap pair l) s.

(** An order in which [range] may visit the entries of a map. *)
Definition map_order : Type := list (image.Point * Z) -> list (image.Point * Z).

(** ** Braille dots *)

Module braille.

Definition ColMult : Z := 2.
Definition RowMult : Z := 4.

(** The maps [brailleMap] and [colorMap] of a draw. *)
Definition dots : Type := (gmap image.Point Z * gmap image.Point Color)%type.

Definition no_dots : dots := (∅, ∅).

(** The [switch] of [setDot]: the bit of a dot position, 0 when no case
    applies. *)
Definition mask_of (subX subY : Z) : Z :=
  if (subX =? 0) && (subY =? 0) then 0x01
  else if (subX =? 0) && (subY =? 1) then 0x02
  else if (subX =? 0) && (subY =? 2) then 0x04
  else if (subX =? 0) && (subY =? 3) then 0x40
  else if (subX =? 1) && (subY =? 0) then 0x08
  else if (subX =? 1) && (subY =? 1) then 0x10
  else if (subX =? 1) && (subY =? 2) then 0x20
  else if (subX =? 1) && (subY =? 3) then 0x80
  else 0.

(** The closure [setDot] of [ScatterPlot.Draw]; Go's [/] and [%] round
    toward zero. *)
Definition setDot_plain (bx by_ : Z) (brailleMap : gmap image.Point Z) : gmap image.Point Z :=
  let cellX := Z.quot bx 2 in
  let cellY := Z.quot by_ 4 in
  let subX := Z.rem bx 2 in
  let subY := Z.rem by_ 4 in
  let mask := mask_of subX subY in
  let p := image.mkPoint cellX cellY in
  match brailleMap !! p with
  | Some r => <[p := Z.lor r mask]> brailleMap
  | None => <[p := Z.lor 0x2800 mask]> brailleMap
  end.

(** The closure [setDot] of [Histogram.Draw]: the same, and the cell takes
    the colour of the call. *)
Definition setDot (bx by_ : Z) (col : Color) (st : dots) : dots :=
  let '(brailleMap, colorMap) := st in
  let cellX := Z.quot bx 2 in
  let cellY := Z.quot by_ 4 in
  let subX := Z.rem bx 2 in
  let subY := Z.rem by_ 4 in
  let mask := mask_of subX subY in
  let pt := image.mkPoint cellX cellY in
  let brailleMap :=
    match brailleMap !! pt with
    | Some r => <[pt := Z.lor r mask]> brailleMap
    | None => <[pt := Z.lor 0x2800 mask]> brailleMap
    end in
  (brailleMap, <[pt := col]> colorMap).

(** The last loop of both draws: every entry of [brailleMap] is written to
    the canvas with its colour; a failing [SetCell] is skipped. *)
Definition write_cells (entries : list (image.Point * Z)) (color_of : image.Point -> Color)
    (cvs : canvas.t) : canvas.t :=
  fold_left (fun cvs e => fst (canvas.SetCell cvs (fst e) (snd e) [cell.FgColor (color_of (fst e))]))
            entries cvs.

End braille.

(** ** What the widgets call outside this repository *)

(** The drawing primitives of termdash and the library functions of Go that
    [Draw] methods call.  Each is a function of its arguments: it returns the
    canvas it leaves and its [error]. *)
Class Host : Type := {
  (** [draw.Text(cvs, text, start, opts...)] *)
  draw_Text : canvas.t -> string -> image.Point -> list cell.Option -> canvas.t * error;
  (** [cvs.SetAreaCells(area, rune, opts...)] *)
  SetAreaCells : canvas.t -> image.Rectangle -> Z -> list cell.Option -> canvas.t * error;
  (** [strings.ToUpper] *)
  ToUpper : string -> string;
  (** [braille.Canvas], [braille.New(area)] *)
  BrailleCanvas : Type;
  braille_New : image.Rectangle -> result BrailleCanvas;
  (** [draw.BrailleLine(bc, start, end, opts...)] *)
  BrailleLine : BrailleCanvas -> image.Point -> image.Point -> list cell.Option
                -> BrailleCanvas * error;
  (** [draw.BrailleCircle(bc, mid, radius, opts...)] *)
  BrailleCircle : BrailleCanvas -> image.Point -> Z -> list cell.Option
                  -> BrailleCanvas * error;
  (** [bc.CopyTo(cvs)] *)
  CopyTo : BrailleCanvas -> canvas.t -> canvas.t * error;
  (** [math.Cos], [math.Sin] *)
  Cos : Float64.t -> Float64.t;
  Sin : Float64.t -> Float64.t
}.

(** A loop whose body may leave the method: [None] goes on with the next
    element, [Some c] ends the call with [c]. *)
Fixpoint loop_until {A S} (l : list A) (body : A -> S -> S * option completion) (s : S)
  : S * option completion :=
  match l with
  | [] => (s, None)
  | a :: rest =>
      match body a s with
      | (s', None) => loop_until rest body s'
      | (s', Some c) => (s', Some c)
      end
  end.

(** [if err != nil { return err }] after a call. *)
Definition leave_on_error {S} (r : S * error) : S * option completion :=
  match r with
  | (s, Some e) => (s, Some (Returns (Some e)))
  | (s, None) => (s, None)
  end.

(** [if err != nil { return fmt.Errorf(msg, err) }] after a call. *)
Definition leave_wrapped {S} (msg : string) (r : S * error) : S * option completion :=
  match r with
  | (s, Some _) => (s, Some (Returns (Some msg)))
  | (s, None) => (s, None)
  end.

(** ** Segment series: [Funnel] and [PieChart] *)

(** The [for _, v := range values] loop of both [Values] methods: it adds
    into [total] and leaves at the first negative value. *)
Fixpoint range_sum (vs : list Z) (total : Z) : Z * error :=
  match vs with
  | [] => (total, None)
  | v :: vs' =>
      if v <? 0 then (total, Some "all values must be non-negative"%string)
      else range_sum vs' (GoInt.add total v)
  end.

Module Funnel.

Record t : Type := mk { values : list Z; colors : list Color; total : Z }.

(** [NewFunnel]: the zero value of the struct. *)
Definition NewFunnel : t := {| values := []; colors := []; total := 0 |}.

(** [func (f *Funnel) Values(values []int, colors []cell.Color) error]:
    the fields are assigned before the loop runs. *)
Definition Values (f : t) (vs : list Z) (cs : list Color) : t * error :=
  if (length vs =? 0)%nat then (f, Some "values cannot be empty"%string)
  else if (length cs =? 0)%nat then (f, Some "colors cannot be empty"%string)
  else
    let '(tot, err) := range_sum vs 0 in
    ({| values := vs; colors := cs; total := tot |}, err).

(** [f.colors[i%len(f.colors)]]; [None] is the run-time panic on an empty
    slice. *)
Definition color_at (colors : list Color) (i : Z) : option Color :=
  if (length colors =? 0)%nat then None
  else colors !! Z.to_nat (Z.rem i (Z.of_nat (length colors))).

(** The variables the segment loop carries. *)
Record cursor `{Host} : Type := mkCursor {
  bc : BrailleCanvas;
  currentY : Z;
  cumulativeValue : Z
}.
Arguments mkCursor {_} _ _ _.

(** The body of [for i, value := range f.values]. *)
Definition draw_segment `{Host} (f : t) (centerX funnelHeight topWidth bottomWidth : Z)
    (iv : nat * Z) (cur : cursor) : cursor * option completion :=
  let i := Z.of_nat (fst iv) in
  let value := snd iv in
  let segmentHeight :=
    Float64.to_int (Float64.mul (Float64.div (Float64.of_int value) (Float64.of_int (total f)))
                                (Float64.of_int funnelHeight)) in
  let segmentHeight := if segmentHeight <? 1 then 1 else segmentHeight in
  let topProportion :=
    Float64.div (Float64.of_int (cumulativeValue cur)) (Float64.of_int (total f)) in
  let bottomProportion :=
    Float64.div (Float64.of_int (GoInt.add (cumulativeValue cur) value))
                (Float64.of_int (total f)) in
  let currentTopWidth :=
    Float64.to_int (Float64.sub (Float64.of_int topWidth)
                      (Float64.mul (Float64.of_int (topWidth - bottomWidth)) topProportion)) in
  let currentBottomWidth :=
    Float64.to_int (Float64.sub (Float64.of_int topWidth)
                      (Float64.mul (Float64.of_int (topWidth - bottomWidth)) bottomProportion)) in
  match color_at (colors f) i with
  | None => (cur, Some Panics)
  | Some color =>
      let '(bc', stop) :=
        loop_until (seqZ 0 (segmentHeight - 0))
          (fun y bc =>
             let lineProportion :=
               Float64.div (Float64.of_int y) (Float64.of_int segmentHeight) in
             let lineWidth :=
               Float64.to_int
                 (Float64.sub (Float64.of_int currentTopWidth)
                    (Float64.mul (Float64.of_int (currentTopWidth - currentBottomWidth))
                                 lineProportion)) in
             let lineStart := image.mkPoint (centerX - Z.quot lineWidth 2) (currentY cur + y) in
             let lineEnd := image.mkPoint (centerX + Z.quot lineWidth 2) (currentY cur + y) in
             leave_wrapped "failed to draw funnel segment line: %v"
               (BrailleLine bc lineStart lineEnd [cell.FgColor color]))
          (bc cur) in
      match stop with
      | Some c => (mkCursor bc' (currentY cur) (cumulativeValue cur), Some c)
      | None =>
          (mkCursor bc' (currentY cur + segmentHeight) (GoInt.add (cumulativeValue cur) value),
           None)
      end
  end.

(** [func (f *Funnel) Draw(cvs *canvas.Canvas, meta *widgetapi.Meta) error] *)
Definition Draw `{Host} (f : t) (cvs : canvas.t) : t * canvas.t * completion :=
  if total f <=? 0 then (f, cvs, Returns None)
  else
    match braille_New (canvas.Area cvs) with
    | Err _ => (f, cvs, Returns (Some "braille.New => %v"%string))
    | Ok bc0 =>
        let ar := canvas.Area cvs in
        let centerX := image.X (image.Min ar) * braille.ColMult
                       + Z.quot (image.Dx ar * braille.ColMult) 2 in
        let funnelHeight := image.Dy ar * braille.RowMult - 2 in
        let topWidth := image.Dx ar * braille.ColMult - 2 in
        let bottomWidth := 5 in
        let currentY := image.Y (image.Min ar) * braille.RowMult + 1 in
        match loop_until (imap pair (values f))
                (draw_segment f centerX funnelHeight topWidth bottomWidth)
                (mkCursor bc0 currentY 0) with
        | (_, Some c) => (f, cvs, c)
        | (cur, None) =>
            match CopyTo (bc cur) cvs with
            | (cvs, Some e) => (f, cvs, Returns (Some e))
            | (cvs, None) => (f, cvs, Returns None)
            end
        end
    end.

End Funnel.

Module PieChart.

Record t : Type := mk { values : list Z; colors : list Color; total : Z }.

(** [NewPieChart]: the zero value of the struct. *)
Definition NewPieChart : t := {| values := []; colors := []; total := 0 |}.

(** [func (p *PieChart) Values(values []int, colors []cell.Color) error] *)
Definition Values (p : t) (vs : list Z) (cs : list Color) : t * error :=
  if (length vs =? 0)%nat then (p, Some "values cannot be empty"%string)
  else if (length cs =? 0)%nat then (p, Some "colors cannot be empty"%string)
  else
    let '(tot, err) := range_sum vs 0 in
    ({| values := vs; colors := cs; total := tot |}, err).

(** The constants [0.01], [0.6], [2] and [math.Pi] as [float64]. *)
Definition angle_step : Float64.t := S754_finite false 5764607523034235 (-59).
Definition inner_ratio : Float64.t := S754_finite false 5404319552844595 (-53).
Definition two : Float64.t := Float64.of_int 2.
Definition Pi : Float64.t := S754_finite false 7074237752028440 (-51).

(** [pieChartMidAndRadii] *)
Definition pieChartMidAndRadii (ar : image.Rectangle) : image.Point * Z * Z :=
  let width := image.Dx ar * braille.ColMult in
  let height := image.Dy ar * braille.RowMult in
  let radiusX := Z.quot width 2 - 2 in
  let radiusY := Z.quot height 2 - 2 in
  let radiusX := if radiusX <? 1 then 1 else radiusX in
  let radiusY := if radiusY <? 1 then 1 else radiusY in
  let mid := image.mkPoint (image.X (image.Min ar) * braille.ColMult + Z.quot width 2)
                           (image.Y (image.Min ar) * braille.RowMult + Z.quot height 2) in
  (mid, radiusX, radiusY).

Definition color_at (colors : list Color) (i : Z) : option Color :=
  if (length colors =? 0)%nat then None
  else colors !! Z.to_nat (Z.rem i (Z.of_nat (length colors))).

(** [for angle := currentAngle; angle < endAngle; angle += 0.01]: the loop
    is bounded by a count of turns; [StillRunning] says the count ran out. *)
Fixpoint sweep `{Host} (turns : nat) (mid : image.Point)
    (innerRadiusX innerRadiusY radiusX radiusY : Z) (color : Color)
    (angle endAngle : Float64.t) (bc : BrailleCanvas) : BrailleCanvas * option completion :=
  match turns with
  | O => (bc, Some StillRunning)
  | S turns' =>
      if Float64.ltb angle endAngle then
        let startX := image.X mid + Float64.to_int (Float64.mul (Float64.of_int innerRadiusX) (Cos angle)) in
        let startY := image.Y mid + Float64.to_int (Float64.mul (Float64.of_int innerRadiusY) (Sin angle)) in
        let endX := image.X mid + Float64.to_int (Float64.mul (Float64.of_int radiusX) (Cos angle)) in
        let endY := image.Y mid + Float64.to_int (Float64.mul (Float64.of_int radiusY) (Sin angle)) in
        match BrailleLine bc (image.mkPoint startX startY) (image.mkPoint endX endY)
                [cell.FgColor color] with
        | (bc, Some _) => (bc, Some (Returns (Some "failed to draw donut slice line: %v"%string)))
        | (bc, None) =>
            sweep turns' mid innerRadiusX innerRadiusY radiusX radiusY color
                  (Float64.add angle angle_step) endAngle bc
        end
      else (bc, None)
  end.

(** The body of [for i, value := range p.values]; the state is the braille
    canvas and [currentAngle]. *)
Definition draw_slice `{Host} (turns : nat) (p : t) (mid : image.Point)
    (innerRadiusX innerRadiusY radiusX radiusY : Z) (iv : nat * Z)
    (st : BrailleCanvas * Float64.t) : (BrailleCanvas * Float64.t) * option completion :=
  let '(bc, currentAngle) := st in
  let i := Z.of_nat (fst iv) in
  let value := snd iv in
  let endAngle :=
    Float64.add currentAngle
      (Float64.mul (Float64.mul (Float64.div (Float64.of_int value) (Float64.of_int (total p)))
                                two) Pi) in
  match color_at (colors p) i with
  | None => (st, Some Panics)
  | Some color =>
      match sweep turns mid innerRadiusX innerRadiusY radiusX radiusY color
                  currentAngle endAngle bc with
      | (bc, Some c) => ((bc, currentAngle), Some c)
      | (bc, None) => ((bc, endAngle), None)
      end
  end.

(** [func (p *PieChart) Draw(cvs *canvas.Canvas, meta *widgetapi.Meta) error] *)
Definition Draw `{Host} (turns : nat) (p : t) (cvs : canvas.t) : t * canvas.t * completion :=
  if total p <=? 0 then (p, cvs, Returns None)
  else
    match braille_New (canvas.Area cvs) with
    | Err _ => (p, cvs, Returns (Some "braille.New => %v"%string))
    | Ok bc0 =>
        let '(mid, radiusX, radiusY) := pieChartMidAndRadii (canvas.Area cvs) in
        let innerRadiusX := Float64.to_int (Float64.mul (Float64.of_int radiusX) inner_ratio) in
        let innerRadiusY := Float64.to_int (Float64.mul (Float64.of_int radiusY) inner_ratio) in
        match loop_until (imap pair (values p))
                (draw_slice turns p mid innerRadiusX innerRadiusY radiusX radiusY)
                (bc0, Float64.zero) with
        | (_, Some c) => (p, cvs, c)
        | ((bc, _), None) =>
            match CopyTo bc cvs with
            | (cvs, Some e) => (p, cvs, Returns (Some e))
            | (cvs, None) => (p, cvs, Returns None)
            end
        end
    end.

End PieChart.

(** Mathematical sum of a list of integers. *)
Definition sumZ (l : list Z) : Z := fold_right Z.add 0 l.

(** ** [Radar] *)

Module Radar.

Record radarOptions : Type := mkOptions {
  axisCellOpts : list cell.Option;
  dataCellOpts : list cell.Option
}.

Definition newRadarOptions : radarOptions :=
  {| axisCellOpts := [cell.FgColor (cell.ColorNumber 240)];
     dataCellOpts := [cell.FgColor (cell.ColorNumber 42)] |}.

(** The two implementations of the [RadarOption] interface. *)
Inductive RadarOption : Type :=
  | WithAxisColor (c : Z)
  | WithDataColor (c : Z).

Definition set (o : RadarOption) (opts : radarOptions) : radarOptions :=
  match o with
  | WithAxisColor c =>
      {| axisCellOpts := [cell.FgColor (cell.ColorNumber c)];
         dataCellOpts := dataCellOpts opts |}
  | WithDataColor c =>
      {| axisCellOpts := axisCellOpts opts;
         dataCellOpts := [cell.FgColor (cell.ColorNumber c)] |}
  end.

Definition validate (o : radarOptions) : error := None.

Record Values : Type := mkValues {
  Data : gmap string Float64.t;
  Max : Float64.t
}.

(** [values] is a pointer: [None] is [nil]. *)
Record t : Type := mk { values : option Values; opts : radarOptions }.

Definition NewRadar (os : list RadarOption) : result t :=
  let opt := fold_left (fun acc o => set o acc) os newRadarOptions in
  match validate opt with
  | Some e => Err e
  | None => Ok {| values := None; opts := opt |}
  end.

(** The test of the range loop's body. *)
Definition out_of_range (max v : Float64.t) : bool :=
  Float64.ltb v Float64.zero || Float64.ltb max v.

(** [for _, v := range vals.Data]: the loop visits the entries in an order
    Go does not fix; the error (its format string) is the same whichever
    offending entry is met first. *)
Fixpoint range_check (max : Float64.t) (entries : list (string * Float64.t)) : error :=
  match entries with
  | [] => None
  | (_, v) :: rest =>
      if out_of_range max v
      then Some "value %f is outside the valid range [0, %f]"%string
      else range_check max rest
  end.

(** [func (r *Radar) SetValues(vals *Values, opts ...RadarOption) error] *)
Definition SetValues (r : t) (vals : option Values) (os : list RadarOption) : t * error :=
  match vals with
  | None =>
      (r, Some "values cannot be nil or empty, and a radar chart requires at least 3 data points"%string)
  | Some v =>
      if (size (Data v) <? 3)%nat then
        (r, Some "values cannot be nil or empty, and a radar chart requires at least 3 data points"%string)
      else if Float64.leb (Max v) Float64.zero then
        (r, Some "maximum value must be greater than zero"%string)
      else
        match range_check (Max v) (map_to_list (Data v)) with
        | Some e => (r, Some e)
        | None =>
            let opts' := fold_left (fun acc o => set o acc) os (opts r) in
            match validate opts' with
            | Some e => ({| values := values r; opts := opts' |}, Some e)
            | None => ({| values := Some v; opts := opts' |}, None)
            end
        end
  end.

(** The constants [2 * math.Pi] and [math.Pi / 2] as [float64]. *)
Definition two_Pi : Float64.t := S754_finite false 7074237752028440 (-50).
Definition half_Pi : Float64.t := S754_finite false 7074237752028440 (-52).

(** [midAndRadii] *)
Definition midAndRadii (ar : image.Rectangle) : image.Point * Z * Z :=
  let width := image.Dx ar * braille.ColMult in
  let height := image.Dy ar * braille.RowMult in
  let radiusX := Z.quot width 2 - 2 in
  let radiusY := Z.quot height 2 - 2 in
  let radiusX := if radiusX <? 1 then 1 else radiusX in
  let radiusY := if radiusY <? 1 then 1 else radiusY in
  let mid := image.mkPoint (image.X (image.Min ar) * braille.ColMult + Z.quot width 2)
                           (image.Y (image.Min ar) * braille.RowMult + Z.quot height 2) in
  (mid, radiusX, radiusY).

(** Byte-wise order of strings, the order of [sort.Strings]. *)
Definition string_le (a b : string) : Prop := String.leb a b = true.

Global Instance string_le_dec (a b : string) : Decision (string_le a b).
Proof. unfold string_le. apply _. Defined.

(** The keys of the map, sorted. *)
Definition sorted_keys (m : gmap string Float64.t) : list string :=
  merge_sort string_le (fst <$> map_to_list m).

(** The body of [for i, label := range keys]: an axis is drawn and a data
    point is added. *)
Definition draw_axis `{Host} (r : t) (v : Values) (mid : image.Point) (radiusX radiusY : Z)
    (angleStep : Float64.t) (il : nat * string)
    (st : BrailleCanvas * list image.Point)
  : (BrailleCanvas * list image.Point) * option completion :=
  let '(bc, dataPoints) := st in
  let i := Z.of_nat (fst il) in
  let value := default Float64.zero (Data v !! snd il) in
  let angle := Float64.sub (Float64.mul (Float64.of_int i) angleStep) half_Pi in
  let endX := image.X mid + Float64.to_int (Float64.mul (Float64.of_int radiusX) (Cos angle)) in
  let endY := image.Y mid + Float64.to_int (Float64.mul (Float64.of_int radiusY) (Sin angle)) in
  match BrailleLine bc mid (image.mkPoint endX endY) (axisCellOpts (opts r)) with
  | (bc, Some _) => ((bc, dataPoints), Some (Returns (Some "failed to draw axis: %v"%string)))
  | (bc, None) =>
      let valRx := Float64.mul (Float64.div value (Max v)) (Float64.of_int radiusX) in
      let valRy := Float64.mul (Float64.div value (Max v)) (Float64.of_int radiusY) in
      let pointX := image.X mid + Float64.to_int (Float64.mul valRx (Cos angle)) in
      let pointY := image.Y mid + Float64.to_int (Float64.mul valRy (Sin angle)) in
      ((bc, dataPoints ++ [image.mkPoint pointX pointY]), None)
  end.

(** [for j := 0; j < len(dataPoints)-1; j++]: the edges of the polygon. *)
Fixpoint draw_edges `{Host} (r : t) (pts : list image.Point) (bc : BrailleCanvas)
  : BrailleCanvas * option completion :=
  match pts with
  | p :: ((q :: _) as rest) =>
      match BrailleLine bc p q (dataCellOpts (opts r)) with
      | (bc, Some _) => (bc, Some (Returns (Some "failed to draw data line: %v"%string)))
      | (bc, None) => draw_edges r rest bc
      end
  | _ => (bc, None)
  end.

(** [func (r *Radar) Draw(cvs *canvas.Canvas, meta *widgetapi.Meta) error] *)
Definition Draw `{Host} (r : t) (cvs : canvas.t) : t * canvas.t * completion :=
  match values r with
  | None => (r, cvs, Returns None)
  | Some v =>
      if (size (Data v) <? 3)%nat then (r, cvs, Returns None)
      else
        match braille_New (canvas.Area cvs) with
        | Err _ => (r, cvs, Returns (Some "braille.New => %v"%string))
        | Ok bc =>
            let '(mid, radiusX, radiusY) := midAndRadii (canvas.Area cvs) in
            match BrailleCircle bc mid radiusX (axisCellOpts (opts r)) with
            | (_, Some _) => (r, cvs, Returns (Some "failed to draw external circle: %v"%string))
            | (bc, None) =>
                let numAxes := Z.of_nat (size (Data v)) in
                let angleStep := Float64.div two_Pi (Float64.of_int numAxes) in
                let keys := sorted_keys (Data v) in
                match loop_until (imap pair keys)
                        (draw_axis r v mid radiusX radiusY angleStep) (bc, []) with
                | (_, Some c) => (r, cvs, c)
                | ((bc, dataPoints), None) =>
                    match draw_edges r dataPoints bc with
                    | (_, Some c) => (r, cvs, c)
                    | (bc, None) =>
                        match last dataPoints, head dataPoints with
                        | Some pl, Some p0 =>
                            match BrailleLine bc pl p0 (dataCellOpts (opts r)) with
                            | (_, Some _) =>
                                (r, cvs, Returns (Some "failed to close data polygon: %v"%string))
                            | (bc, None) =>
                                match CopyTo bc cvs with
                                | (cvs, Some e) => (r, cvs, Returns (Some e))
                                | (cvs, None) => (r, cvs, Returns None)
                                end
                            end
                        | _, _ => (r, cvs, Panics)
                        end
                    end
                end
            end
        end
  end.

End Radar.

(** ** The layout builder of the main package *)

Module Layout.

(** The fields of [loader.WidgetConfig] the layout reads. *)
Record WidgetConfig : Type := mkConfig { Type_ : string; Title : string }.

Section Grid.

(** Values implementing [widgetapi.Widget]. *)
Variable Widget : Type.

(** A value of the [map[string]interface{}]: a widget or something else. *)
Inductive Iface : Type :=
  | IsWidget (w : Widget)
  | NotWidget.

(** [grid.Widget(widget, Border(Light), BorderTitle(title))], kept with the
    configured type in [widgetWithConfig]. *)
Record widgetWithConfig : Type := mkWWC {
  element : Widget;
  typ : string;
  title : string
}.

(** [grid.ColWidthPerc(widthPerc, element)] *)
Record Column : Type := ColWidthPerc { widthPerc : Z; col_widget : widgetWithConfig }.

(** [grid.RowHeightPerc(heightPerc, columns...)] *)
Record Row : Type := RowHeightPerc { heightPerc : Z; columns : list Column }.

(** The [switch w.typ] of the loop. *)
Definition widgetWidth (typ : string) : Z :=
  if (String.eqb typ "pie" || String.eqb typ "donut" ||
      String.eqb typ "gauge" || String.eqb typ "radar")%string
  then 30 else 50.

(** The variables [rows], [currentRow] and [currentWidth] of the loop. *)
Record packer : Type := mkPacker {
  rows : list (list Column);
  currentRow : list Column;
  currentWidth : Z
}.

Definition pack_init : packer :=
  {| rows := []; currentRow := []; currentWidth := 0 |}.

(** One turn of [for _, w := range widgetList]. *)
Definition pack_step (st : packer) (w : widgetWithConfig) : packer :=
  let widgetWidth := widgetWidth (typ w) in
  if (100 <? currentWidth st + widgetWidth) && (0 <? length (currentRow st))%nat then
    {| rows := rows st ++ [currentRow st];
       currentRow := [ColWidthPerc widgetWidth w];
       currentWidth := widgetWidth |}
  else
    {| rows := rows st;
       currentRow := currentRow st ++ [ColWidthPerc widgetWidth w];
       currentWidth := currentWidth st + widgetWidth |}.

(** The loop, followed by the test that adds the last row when it is not empty. *)
Definition pack (ws : list widgetWithConfig) : list (list Column) :=
  let st := fold_left pack_step ws pack_init in
  if (0 <? length (currentRow st))%nat then rows st ++ [currentRow st] else rows st.

(** The first loop: look each configured widget up by title. *)
Fixpoint collect (widgets : gmap string Iface) (confs : list WidgetConfig)
  : result (list widgetWithConfig) :=
  match confs with
  | [] => Ok []
  | conf :: rest =>
      match widgets !! Title conf with
      | Some (IsWidget w) =>
          match collect widgets rest with
          | Ok l => Ok ({| element := w; typ := Type_ conf; title := Title conf |} :: l)
          | Err e => Err e
          end
      | _ => Err "the widget '%s' is not a valid widget"
      end
  end.

(** termdash's [grid.Builder.Build] on the elements [dynamicGridLayout]
    adds: the title row, holding a widget, and the rows of columns, each
    column holding a widget.  Its [validate] goes through the elements of one
    level in order: the height of a row and the width of a column must lie
    strictly between 0 and 100, the elements below are validated, and at the
    end of the level neither the summed heights nor the summed widths may
    exceed 100.  A widget alone under its row or column is valid. *)
Definition out_of_range (perc : Z) : bool := (perc <=? 0) || (100 <=? perc).

(** The errors of the validation, by their format strings. *)
Definition invalid_row : string :=
  "invalid row %v, must be a value in the range %d < v < %d".

Definition invalid_column : string :=
  "invalid column %v, must be a value in the range %d < v < %d".

Definition sum_error : string :=
  "the sum of all height percentages(%d) and width percentages(%d) at one element level cannot be larger than %d".

(** The level of the columns of one row. *)
Fixpoint validate_columns (cols : list Column) (widthSum : Z) : error :=
  match cols with
  | [] => if 100 <? widthSum then Some sum_error else None
  | c :: rest =>
      if out_of_range (widthPerc c)
      then Some invalid_column
      else validate_columns rest (GoInt.add widthSum (widthPerc c))
  end.

(** The level of the rows. *)
Fixpoint validate_rows (rows : list Row) (heightSum : Z) : error :=
  match rows with
  | [] => if 100 <? heightSum then Some sum_error else None
  | r :: rest =>
      if out_of_range (heightPerc r)
      then Some invalid_row
      else
        let heightSum := GoInt.add heightSum (heightPerc r) in
        match validate_columns (columns r) 0 with
        | Some e => Some e
        | None => validate_rows rest heightSum
        end
  end.

(** [builder.Build()] after the title row and the rows [body] were added:
    the error of the validation, if any. *)
Definition Build (title_row : Z * Widget) (body : list Row) : error :=
  if out_of_range (fst title_row)
  then Some invalid_row
  else validate_rows body (GoInt.add 0 (fst title_row)).

(** How [dynamicGridLayout] ends: with the options built from the title row
    and the rows below it, with an error, or in Go's run-time panic on a
    division by zero. *)
Inductive outcome : Type :=
  | Built (title_row : Z * Widget) (body : list Row)
  | Failed (msg : string)
  | Panic.

(** [gridOpts, err := builder.Build()] and the test of [err] that follows. *)
Definition build (title_row : Z * Widget) (body : list Row) : outcome :=
  match Build title_row body with
  | Some err => Failed err
  | None => Built title_row body
  end.

Definition dynamicGridLayout (widgets : gmap string Iface) (confs : list WidgetConfig)
  : outcome :=
  match widgets !! "title"%string with
  | Some (IsWidget titleWidget) =>
      let widgets := delete "title"%string widgets in
      if (size widgets =? 0)%nat then build (5, titleWidget) []
      else
        match collect widgets confs with
        | Err e => Failed e
        | Ok widgetList =>
            let rows := pack widgetList in
            if (length rows =? 0)%nat then Panic
            else
              let rowHeightPerc := (100 - 5) / Z.of_nat (length rows) in
              build (5, titleWidget) (map (RowHeightPerc rowHeightPerc) rows)
        end
  | _ => Failed "the title widget is not a valid widget"
  end.

End Grid.

Arguments IsWidget {Widget} w.
Arguments NotWidget {Widget}.
Arguments mkWWC {Widget} _ _ _.
Arguments ColWidthPerc {Widget} _ _.
Arguments RowHeightPerc {Widget} _ _.
Arguments widthPerc {Widget} _.
Arguments typ {Widget} _.
Arguments pack {Widget} ws.
Arguments pack_step {Widget} st w.
Arguments pack_init {Widget}.
Arguments rows {Widget} _.
Arguments currentRow {Widget} _.
Arguments currentWidth {Widget} _.

(** Summed width of a row. *)
Definition row_width {Widget} (row : list (Column Widget)) : Z :=
  sumZ (map widthPerc row).

End Layout.

(** ** [createWidgets] of the main package *)

Module Main.

Section Widgets.

Variable Widget : Type.

(** The constructors [createWidgets] chooses from, one for each supported
    type; each one reads the configured widget and the loaded data and
    returns its widget or an error.  The two text widgets are made by
    [text.New] without options, which does not fail: the message for a type
    that is not supported, and the title of the dashboard. *)
Record makers : Type := mkMakers {
  createSparkline : Layout.WidgetConfig -> result Widget;
  createGauge : Layout.WidgetConfig -> result Widget;
  createLineChart : Layout.WidgetConfig -> result Widget;
  createBarChart : Layout.WidgetConfig -> result Widget;
  createDonut : Layout.WidgetConfig -> result Widget;
  createPieChart : Layout.WidgetConfig -> result Widget;
  createText : Layout.WidgetConfig -> result Widget;
  createRadarChart : Layout.WidgetConfig -> result Widget;
  createTable : Layout.WidgetConfig -> result Widget;
  createFunnel : Layout.WidgetConfig -> result Widget;
  unsupported : string -> Widget;
  titleText : string -> Widget
}.

Variable mk : makers.

(** The [switch w.Type] of the loop. *)
Definition create (w : Layout.WidgetConfig) : result Widget :=
  let ty := Layout.Type_ w in
  if String.eqb ty "sparkline" then createSparkline mk w
  else if String.eqb ty "gauge" then createGauge mk w
  else if String.eqb ty "line" then createLineChart mk w
  else if String.eqb ty "bar" then createBarChart mk w
  else if String.eqb ty "donut" then createDonut mk w
  else if String.eqb ty "pie" then createPieChart mk w
  else if String.eqb ty "text" then createText mk w
  else if String.eqb ty "radar" then createRadarChart mk w
  else if String.eqb ty "table" then createTable mk w
  else if String.eqb ty "funnel" then createFunnel mk w
  else Ok (unsupported mk ty).

(** [for _, w := range config.Widgets]: every widget is stored under its
    title; the first error ends the call. *)
Fixpoint create_all (confs : list Layout.WidgetConfig)
    (widgets : gmap string (Layout.Iface Widget)) : result (gmap string (Layout.Iface Widget)) :=
  match confs with
  | [] => Ok widgets
  | w :: rest =>
      match create w with
      | Err _ => Err "Error creating widget '%s': %w"
      | Ok widget => create_all rest (<[Layout.Title w := Layout.IsWidget widget]> widgets)
      end
  end.

(** [func createWidgets(ctx, config, csvData, t) (map[string]interface{}, error)];
    [title] and [confs] are [config.Title] and [config.Widgets]. *)
Definition createWidgets (title : string) (confs : list Layout.WidgetConfig)
  : result (gmap string (Layout.Iface Widget)) :=
  match create_all confs ∅ with
  | Err e => Err e
  | Ok widgets => Ok (<["title"%string := Layout.IsWidget (titleText mk title)]> widgets)
  end.

(** The two calls of [main] one after the other; an error of either makes
    [main] panic. *)
Definition dashboard (title : string) (confs : list Layout.WidgetConfig)
  : Layout.outcome Widget :=
  match createWidgets title confs with
  | Err e => Layout.Failed Widget e
  | Ok dynamicWidgets => Layout.dynamicGridLayout Widget dynamicWidgets confs
  end.

End Widgets.

Arguments create_all {Widget} mk confs widgets.
Arguments createWidgets {Widget} mk title confs.
Arguments dashboard {Widget} mk title confs.
Arguments create {Widget} mk w.
Arguments titleText {Widget} _ _.

End Main.

(** ** [Table] *)

Module tableOptions.

Record t : Type := mk {
  minColWidth : Z;
  rowsPerPage : Z;
  cellFillColor : Color;
  cellTextColor : Color;
  headerFillColor : Color;
  headerTextColor : Color;
  pageIndicatorBgColor : Color;
  pageIndicatorFgColor : Color
}.

End tableOptions.

Module Table.

(** [Cell] holds the text of one table cell. *)
Record Cell : Type := NewCell { text : string }.

Definition newTableOptions : tableOptions.t :=
  {| tableOptions.minColWidth := 10;
     tableOptions.rowsPerPage := 5;
     tableOptions.cellFillColor := cell.ColorDefault;
     tableOptions.cellTextColor := cell.ColorDefault;
     tableOptions.headerFillColor := cell.ColorBlack;
     tableOptions.headerTextColor := cell.ColorWhite;
     tableOptions.pageIndicatorBgColor := cell.ColorBlack;
     tableOptions.pageIndicatorFgColor := cell.ColorWhite |}.

(** The three option constructors; each stands for the closure it returns. *)
Inductive TableOption : Type :=
  | CellFillColor (c : Color)
  | HeaderFillColor (c : Color)
  | RowsPerPage (count : Z).

Definition set (o : TableOption) (opts : tableOptions.t) : tableOptions.t :=
  let '(tableOptions.mk mcw rpp cf ct hf ht pbg pfg) := opts in
  match o with
  | CellFillColor c => tableOptions.mk mcw rpp c ct hf ht pbg pfg
  | HeaderFillColor c => tableOptions.mk mcw rpp cf ct c ht pbg pfg
  | RowsPerPage count =>
      if 0 <? count then tableOptions.mk mcw count cf ct hf ht pbg pfg else opts
  end.

(** The two closures [NewTable] passes to [button.New]. *)
Inductive Callback : Type :=
  | CallPrevPage
  | CallNextPage.

Record Button : Type := mkButton { label : string; callback : Callback }.

(** [button.New] of termdash: it refuses a nil callback and an empty text. *)
Definition button_New (text : string) (cFn : option Callback) : result Button :=
  match cFn with
  | None => Err "the CallbackFn argument cannot be nil"
  | Some f =>
      if String.eqb text "" then Err "text chunks cannot be empty"
      else Ok {| label := text; callback := f |}
  end.

Record t : Type := mk {
  headers : list Cell;
  rows : list (list Cell);
  opts : tableOptions.t;
  currentPage : Z;
  rowsPerPage : Z;
  numPages : Z;
  prevButton : option Button;
  nextButton : option Button;
  prevButtonRect : image.Rectangle;
  nextButtonRect : image.Rectangle
}.

Definition set_currentPage (n : Z) (tb : t) : t :=
  let '(mk h r o _ rpp np pb nb pr nr) := tb in mk h r o n rpp np pb nb pr nr.

Definition len {A} (l : list A) : Z := Z.of_nat (length l).

(** The column count [NewTable] and [Draw] expect of every row. *)
Definition expected_cols (headers : list Cell) (rows : list (list Cell)) : Z :=
  if 0 <? len headers then len headers
  else match rows with
       | row0 :: _ => len row0
       | [] => 0
       end.

(** [for _, row := range rows]: the first row of another length is an error. *)
Fixpoint check_rows (numCols : Z) (rows : list (list Cell)) : error :=
  match rows with
  | [] => None
  | row :: rest =>
      if negb (len row =? numCols)
      then Some "all rows must have the same number of columns as the headers, expected %d, got %d"%string
      else check_rows numCols rest
  end.

(** The page count computed at construction. *)
Definition page_count (numRows rowsPerPage : Z) : Z :=
  let numPages :=
    if (0 <? numRows) && (0 <? rowsPerPage)
    then Float64.to_int
           (Float64.ceil (Float64.div (Float64.of_int numRows) (Float64.of_int rowsPerPage)))
    else 0 in
  if (numPages =? 0) && (0 <? numRows) then 1 else numPages.

(** [func NewTable(headers []*Cell, rows [][]*Cell, opts ...TableOption)], which
    returns the table or an error. *)
Definition NewTable (headers : list Cell) (rows : list (list Cell)) (os : list TableOption)
  : result t :=
  let numCols := expected_cols headers rows in
  match check_rows numCols rows with
  | Some e => Err e
  | None =>
      let opt := fold_left (fun acc o => set o acc) os newTableOptions in
      let numRows := len rows in
      let numPages := page_count numRows (tableOptions.rowsPerPage opt) in
      match button_New "Prev" (Some CallPrevPage) with
      | Err e => Err e
      | Ok prev =>
          match button_New "Next" (Some CallNextPage) with
          | Err e => Err e
          | Ok next =>
              Ok {| headers := headers; rows := rows; opts := opt;
                    currentPage := 0;
                    rowsPerPage := tableOptions.rowsPerPage opt;
                    numPages := numPages;
                    prevButton := Some prev; nextButton := Some next;
                    prevButtonRect := image.ZR; nextButtonRect := image.ZR |}
          end
      end
  end.

(** [func (t *Table) nextPage()] *)
Definition nextPage (tb : t) : t :=
  if numPages tb <=? 1 then tb
  else if numPages tb <=? currentPage tb + 1 then tb
  else set_currentPage (currentPage tb + 1) tb.

(** [func (t *Table) prevPage()] *)
Definition prevPage (tb : t) : t :=
  if numPages tb <=? 1 then tb
  else if currentPage tb <=? 0 then tb
  else set_currentPage (currentPage tb - 1) tb.

(** Pressing a button runs its closure: the page method, then [nil]. *)
Definition press (b : Button) (tb : t) : t * error :=
  match callback b with
  | CallPrevPage => (prevPage tb, None)
  | CallNextPage => (nextPage tb, None)
  end.

(** The fields of [terminalapi.Mouse]. *)
Record MouseEvent : Type := mkMouse { Position : image.Point; MouseButton : Z }.

(** [func (t *Table) Mouse(m *terminalapi.Mouse, meta *widgetapi.EventMeta) error] *)
Definition Mouse (tb : t) (m : MouseEvent) : t * error :=
  if 0 <? MouseButton m then
    if image.In (Position m) (prevButtonRect tb) then (prevPage tb, None)
    else if image.In (Position m) (nextButtonRect tb) then (nextPage tb, None)
    else (tb, None)
  else (tb, None).

Definition set_prevButtonRect (r : image.Rectangle) (tb : t) : t :=
  let '(mk h rs o cp rpp np pb nb _ nr) := tb in mk h rs o cp rpp np pb nb r nr.

Definition set_nextButtonRect (r : image.Rectangle) (tb : t) : t :=
  let '(mk h rs o cp rpp np pb nb pr _) := tb in mk h rs o cp rpp np pb nb pr r.

(** The rune of a space. *)
Definition space : Z := 32.

(** [for _, c := range row] of [drawRow]: one text per column. *)
Fixpoint drawCells `{Host} (rowAr : image.Rectangle) (colWidth : Z) (isHeader : bool)
    (textColor : Color) (row : list Cell) (curX : Z) (cvs : canvas.t) : canvas.t * error :=
  match row with
  | [] => (cvs, None)
  | c :: rest =>
      let colAr := image.Rect (curX + 1) (image.Y (image.Min rowAr))
                              (curX + colWidth - 1) (image.Y (image.Max rowAr)) in
      let text := if isHeader then ToUpper (text c) else text c in
      match draw_Text cvs text (image.Min colAr) [cell.FgColor textColor] with
      | (cvs, Some e) => (cvs, Some e)
      | (cvs, None) => drawCells rowAr colWidth isHeader textColor rest (curX + colWidth) cvs
      end
  end.

(** [func (t *Table) drawRow(cvs, cvsAr, row, colWidth, curY, isHeader) error];
    the pointer [curY] is returned next to the canvas. *)
Definition drawRow `{Host} (o : tableOptions.t) (cvsAr : image.Rectangle) (row : list Cell)
    (colWidth : Z) (isHeader : bool) (st : canvas.t * Z) : (canvas.t * Z) * error :=
  let '(cvs, curY) := st in
  let rowAr := image.Rect (image.X (image.Min cvsAr)) curY
                          (image.X (image.Max cvsAr)) (curY + 1) in
  if image.Dy rowAr =? 0 then ((cvs, curY), None)
  else
    let fillColor := if isHeader then tableOptions.headerFillColor o
                     else tableOptions.cellFillColor o in
    let textColor := if isHeader then tableOptions.headerTextColor o
                     else tableOptions.cellTextColor o in
    match SetAreaCells cvs rowAr space [cell.BgColor fillColor] with
    | (cvs, Some e) => ((cvs, curY), Some e)
    | (cvs, None) =>
        match drawCells rowAr colWidth isHeader textColor row 0 cvs with
        | (cvs, Some e) => ((cvs, curY), Some e)
        | (cvs, None) => ((cvs, curY + 1), None)
        end
    end.

(** The column count [Draw] divides the width by. *)
Definition draw_cols (tb : t) : Z :=
  let numCols := len (headers tb) in
  if (numCols =? 0) && (0 <? len (rows tb))
  then match rows tb with row0 :: _ => len row0 | [] => numCols end
  else numCols.

(** The bounds of the page [currentPage]. *)
Definition page_bounds (tb : t) : Z * Z :=
  let startIndex := currentPage tb * rowsPerPage tb in
  let endIndex := startIndex + rowsPerPage tb in
  let endIndex := if len (rows tb) <? endIndex then len (rows tb) else endIndex in
  (startIndex, endIndex).

(** "Handle the case where the current page has no content": the page is
    reset to the last one. *)
Definition reset_page (tb : t) : t :=
  if (len (rows tb) <=? fst (page_bounds tb)) && (0 <? len (rows tb))
  then set_currentPage (numPages tb - 1) tb
  else tb.

(** The slice expression [s[lo:hi]]; [None] is the run-time panic. *)
Definition slice {A} (s : list A) (lo hi : Z) : option (list A) :=
  if (0 <=? lo) && (lo <=? hi) && (hi <=? len s)
  then Some (take (Z.to_nat (hi - lo)) (drop (Z.to_nat lo) s))
  else None.

(** The last part of [Draw]: the pagination row, or its clearing. *)
Definition drawPagination `{Host} (tb : t) (cvs : canvas.t) : t * canvas.t * completion :=
  let cvsAr := canvas.Area cvs in
  let maxX := image.X (image.Max cvsAr) in
  let maxY := image.Y (image.Max cvsAr) in
  if 1 <? numPages tb then
    let prevButtonText := " < Prev"%string in
    let nextButtonText := "Next > "%string in
    let prevButtonWidth := Z.of_nat (String.length prevButtonText) in
    let nextButtonWidth := Z.of_nat (String.length nextButtonText) in
    let paginationAr := image.Rect (image.X (image.Min cvsAr)) (maxY - 1) maxX maxY in
    let pMin := image.Min paginationAr in
    let pMax := image.Max paginationAr in
    let tb := set_prevButtonRect
                (image.Rect (image.X pMin) (image.Y pMin)
                            (image.X pMin + prevButtonWidth) (image.Y pMax)) tb in
    match draw_Text cvs prevButtonText (image.Min (prevButtonRect tb))
            [cell.BgColor cell.ColorBlue; cell.FgColor cell.ColorWhite] with
    | (cvs, Some e) => (tb, cvs, Returns (Some e))
    | (cvs, None) =>
        let tb := set_nextButtonRect
                    (image.Rect (image.X pMax - nextButtonWidth) (image.Y pMin)
                                (image.X pMax) (image.Y pMax)) tb in
        match draw_Text cvs nextButtonText (image.Min (nextButtonRect tb))
                [cell.BgColor cell.ColorBlue; cell.FgColor cell.ColorWhite] with
        | (cvs, Some e) => (tb, cvs, Returns (Some e))
        | (cvs, None) =>
            let pageIndicator :=
              ("Page " ++ pretty (currentPage tb + 1) ++ " of " ++ pretty (numPages tb))%string in
            let textAr := image.Rect (image.X (image.Max (prevButtonRect tb))) (maxY - 1)
                                     (image.X (image.Min (nextButtonRect tb))) maxY in
            match draw_Text cvs pageIndicator
                    (image.mkPoint
                       (Z.quot (image.X (image.Min textAr) + image.X (image.Max textAr)) 2)
                       (image.Y (image.Max textAr) - 1))
                    [cell.BgColor (tableOptions.pageIndicatorBgColor (opts tb));
                     cell.FgColor (tableOptions.pageIndicatorFgColor (opts tb))] with
            | (cvs, Some e) => (tb, cvs, Returns (Some e))
            | (cvs, None) => (tb, cvs, Returns None)
            end
        end
    end
  else
    let bottomAr := image.Rect (image.X (image.Min cvsAr)) (maxY - 1) maxX maxY in
    let '(cvs, _) := SetAreaCells cvs bottomAr space [cell.BgColor cell.ColorDefault] in
    (tb, cvs, Returns None).

(** [func (t *Table) Draw(cvs *canvas.Canvas, meta *widgetapi.Meta) error] *)
Definition Draw `{Host} (tb : t) (cvs : canvas.t) : t * canvas.t * completion :=
  let cvsAr := canvas.Area cvs in
  let numCols := draw_cols tb in
  if numCols =? 0 then
    (tb, cvs, Returns (Some "cannot draw table without headers or rows"%string))
  else
    let colWidth := Z.quot (image.Dx cvsAr) numCols in
    if colWidth =? 0 then
      (tb, cvs, Returns (Some "not enough space to draw the table"%string))
    else
      let curY := 0 in
      match (if 0 <? len (headers tb)
             then drawRow (opts tb) cvsAr (headers tb) colWidth true (cvs, curY)
             else ((cvs, curY), None)) with
      | ((cvs, _), Some e) => (tb, cvs, Returns (Some e))
      | ((cvs, curY), None) =>
          let tb := reset_page tb in
          let '(startIndex, endIndex) := page_bounds tb in
          match slice (rows tb) startIndex endIndex with
          | None => (tb, cvs, Panics)
          | Some page =>
              match loop_until page
                      (fun row st => leave_on_error (drawRow (opts tb) cvsAr row colWidth false st))
                      (cvs, curY) with
              | ((cvs, _), Some c) => (tb, cvs, c)
              | ((cvs, _), None) => drawPagination tb cvs
              end
          end
      end.

End Table.

(** ** [Histogram] and [ScatterPlot]: the state and its setters *)

Module Histogram.

Record t : Type := mk {
  bins : list Z;
  min : Float64.t;
  max : Float64.t;
  labels : list string;
  barColor : Color;
  alertBin : Z;
  alertCol : Color
}.

(** [NewHistogram] *)
Definition NewHistogram : t :=
  {| bins := []; min := Float64.zero; max := Float64.zero; labels := [];
     barColor := cell.ColorNumber 42;
     alertBin := -1;
     alertCol := cell.ColorRed |}.

(** [func (h *Histogram) SetBins(bins []int, min, max float64, labels []string, alertBin int) error] *)
Definition SetBins (h : t) (bins : list Z) (min max : Float64.t) (labels : list string)
    (alertBin : Z) : t * error :=
  ({| bins := bins; min := min; max := max; labels := labels;
      barColor := barColor h;
      alertBin := alertBin;
      alertCol := alertCol h |}, None).

(** [func (h *Histogram) SetAlertColor(col cell.Color)] *)
Definition SetAlertColor (h : t) (col : Color) : t :=
  {| bins := bins h; min := min h; max := max h; labels := labels h;
     barColor := barColor h; alertBin := alertBin h; alertCol := col |}.

(** [maxBin]: the largest bin, at least 0, and 1 when that is 0. *)
Definition max_bin (bins : list Z) : Z :=
  let maxBin := fold_left (fun maxBin v => if maxBin <? v then v else maxBin) bins 0 in
  if maxBin =? 0 then 1 else maxBin.

(** [barWidth := int(math.Max(1, float64(plotW)/float64(barCount)))] *)
Definition bar_width (plotW barCount : Z) : Z :=
  Float64.to_int (Float64.max (Float64.of_int 1)
                    (Float64.div (Float64.of_int plotW) (Float64.of_int barCount))).

(** [height := int((float64(v) / float64(maxBin)) * float64(plotH))] *)
Definition bar_height (v maxBin plotH : Z) : Z :=
  Float64.to_int (Float64.mul (Float64.div (Float64.of_int v) (Float64.of_int maxBin))
                              (Float64.of_int plotH)).

(** The values [Draw] derives from the canvas size before it paints. *)
Record geometry : Type := mkGeometry {
  brailleW : Z;
  brailleH : Z;
  plotW : Z;
  plotH : Z;
  barWidth : Z;
  actualBarWidth : Z;
  originX : Z;
  originY : Z
}.

Definition padding : Z := 4.

Definition geometry_of (h : t) (cvs : canvas.t) : geometry :=
  let ar := canvas.Area cvs in
  let brailleW := image.Dx ar * 2 in
  let brailleH := image.Dy ar * 4 in
  let plotH := brailleH - padding * 2 in
  let plotW := brailleW - padding * 2 in
  let barCount := Z.of_nat (length (bins h)) in
  let barWidth := bar_width plotW barCount in
  let gap := if 2 <? barWidth then 1 else 0 in
  {| brailleW := brailleW; brailleH := brailleH; plotW := plotW; plotH := plotH;
     barWidth := barWidth; actualBarWidth := barWidth - gap;
     originX := padding; originY := brailleH - padding |}.

(** The colour of bar [i]. *)
Definition bar_color (h : t) (i : Z) : Color :=
  if alertBin h =? i then alertCol h else barColor h.

(** The body of [for i, v := range h.bins]: the two nested loops that fill
    the rectangle of bar [i]. *)
Definition draw_bar (h : t) (g : geometry) (maxBin : Z) (i v : Z) (st : braille.dots)
  : braille.dots :=
  let height := bar_height v maxBin (plotH g) in
  let col := bar_color h i in
  let startX := originX g + i * barWidth g in
  for_range 0 (actualBarWidth g) (fun x st =>
    for_range 0 height (fun y st =>
      let bx := startX + x in
      let by_ := originY g - 1 - y in
      if (bx <? brailleW g) && (0 <=? by_) then braille.setDot bx by_ col st else st) st) st.

(** Steps 2 to 4 of [Draw]: the maps once every bar is painted. *)
Definition paint (h : t) (g : geometry) : braille.dots :=
  for_each (bins h) (draw_bar h g (max_bin (bins h))) braille.no_dots.

(** [func (h *Histogram) Draw(cvs *canvas.Canvas, meta *widgetapi.Meta) error];
    [ord] is the order in which the last loop visits [brailleMap]. *)
Definition Draw (ord : map_order) (h : t) (cvs : canvas.t) : t * canvas.t * completion :=
  if (length (bins h) =? 0)%nat then (h, cvs, Returns None)
  else
    let g := geometry_of h cvs in
    if (plotW g <=? 0) || (plotH g <=? 0) then (h, cvs, Returns None)
    else
      let '(brailleMap, colorMap) := paint h g in
      let cvs := braille.write_cells (ord (map_to_list brailleMap))
                   (fun pt => default 0 (colorMap !! pt)) cvs in
      (h, cvs, Returns None).

End Histogram.

Module ScatterPlot.

Record ScatterPoint : Type := mkPoint { X : Float64.t; Y : Float64.t }.

Record t : Type := mk {
  points : list ScatterPoint;
  xLabel : string;
  yLabel : string;
  color : Color
}.

(** [NewScatterPlot] *)
Definition NewScatterPlot : t :=
  {| points := []; xLabel := ""; yLabel := ""; color := cell.ColorNumber 45 |}.

(** [func (s *ScatterPlot) SetPoints(points []ScatterPoint, xLabel, yLabel string) error] *)
Definition SetPoints (s : t) (points : list ScatterPoint) (xLabel yLabel : string) : t * error :=
  ({| points := points; xLabel := xLabel; yLabel := yLabel; color := color s |}, None).

(** [math.MaxFloat64] *)
Definition MaxFloat64 : Float64.t := S754_finite false (2 ^ 53 - 1) 971.

(** The first loop: the bounds of both coordinates. *)
Definition bounds (pts : list ScatterPoint) : (Float64.t * Float64.t) * (Float64.t * Float64.t) :=
  fold_left (fun '((minX, maxX), (minY, maxY)) pt =>
               ((Float64.min minX (X pt), Float64.max maxX (X pt)),
                (Float64.min minY (Y pt), Float64.max maxY (Y pt))))
            pts
            ((MaxFloat64, SFopp MaxFloat64), (MaxFloat64, SFopp MaxFloat64)).

(** [if max == min { max += 1; min -= 1 }] *)
Definition widen (mm : Float64.t * Float64.t) : Float64.t * Float64.t :=
  let '(mn, mx) := mm in
  if Float64.eqb mx mn
  then (Float64.sub mn (Float64.of_int 1), Float64.add mx (Float64.of_int 1))
  else (mn, mx).

Definition padding : Z := 4.

(** The body of the loop over the data points. *)
Definition plot_point (brailleW brailleH plotW plotH originX originY : Z)
    (minX maxX minY maxY : Float64.t) (pt : ScatterPoint)
    (brailleMap : gmap image.Point Z) : gmap image.Point Z :=
  let xNorm := Float64.div (Float64.sub (X pt) minX) (Float64.sub maxX minX) in
  let yNorm := Float64.div (Float64.sub (Y pt) minY) (Float64.sub maxY minY) in
  let bx := originX + Float64.to_int (Float64.mul xNorm (Float64.of_int plotW)) in
  let by_ := originY - Float64.to_int (Float64.mul yNorm (Float64.of_int plotH)) in
  if (0 <=? bx) && (bx <? brailleW) && (0 <=? by_) && (by_ <? brailleH)
  then braille.setDot_plain bx by_ brailleMap else brailleMap.

(** Steps 3 and 4 of [Draw]: the axes, then the points. *)
Definition paint (s : t) (brailleW brailleH : Z) : gmap image.Point Z :=
  let plotW := brailleW - padding * 2 in
  let plotH := brailleH - padding * 2 in
  let '((minX, maxX), (minY, maxY)) := bounds (points s) in
  let '(minX, maxX) := widen (minX, maxX) in
  let '(minY, maxY) := widen (minY, maxY) in
  let originX := padding in
  let originY := brailleH - padding in
  let m := for_range padding originY (fun y m => braille.setDot_plain originX y m) ∅ in
  let m := for_range originX (brailleW - padding) (fun x m => braille.setDot_plain x originY m) m in
  fold_left (fun m pt => plot_point brailleW brailleH plotW plotH originX originY
                           minX maxX minY maxY pt m)
            (points s) m.

(** [func (s *ScatterPlot) Draw(cvs *canvas.Canvas, meta *widgetapi.Meta) error];
    [ord] is the order in which the last loop visits [brailleMap]. *)
Definition Draw (ord : map_order) (s : t) (cvs : canvas.t) : t * canvas.t * completion :=
  if (length (points s) =? 0)%nat then (s, cvs, Returns None)
  else
    let ar := canvas.Area cvs in
    let brailleW := image.Dx ar * 2 in
    let brailleH := image.Dy ar * 4 in
    let plotW := brailleW - padding * 2 in
    let plotH := brailleH - padding * 2 in
    if (plotW <=? 0) || (plotH <=? 0) then (s, cvs, Returns None)
    else
      let brailleMap := paint s brailleW brailleH in
      let cvs := braille.write_cells (ord (map_to_list brailleMap)) (fun _ => color s) cvs in
      (s, cvs, Returns None).

End ScatterPlot.

(** ** The loader package: the configuration and the data *)

Module loader.

Record WidgetConfig : Type := mkWidgetConfig {
  Type_ : string;
  Title : string;
  ValueCol : string;
  LabelCol : string;
  XCol : string;
  YCol : string;
  ZCol : string;
  CatCol : string;
  Aggregation : string;
  MaxValue : Z
}.

Record DataDataSource : Type := mkData {
  Header : list string;
  Records : list (list string)
}.

(** What [os.Open] and [csv.Reader.ReadAll] give for the path. *)
Inductive csv_file : Type :=
  | CannotOpen
  | CannotRead
  | Parsed (records : list (list string)).

(** [for _, record := range records[1:]] of [Load]. *)
Fixpoint check_records (header : list string) (records : list (list string)) : error :=
  match records with
  | [] => None
  | record :: rest =>
      if negb (length record =? length header)%nat
      then Some "record with number of columns not matching header: %v"%string
      else check_records header rest
  end.

(** [func (c *CSVDataSource) Load()], which returns the data or an error. *)
Definition Load (file : csv_file) : result DataDataSource :=
  match file with
  | CannotOpen => Err "Unable to open CSV file: %w"
  | CannotRead => Err "Unable to read CSV file: %w"
  | Parsed records =>
      match records with
      | [] => Err "CSV file is empty"
      | header :: rest =>
          match check_records header rest with
          | Some e => Err e
          | None => Ok {| Header := header; Records := rest |}
          end
      end
  end.

Module Source.
Record t : Type := mk { Type_ : string; Path : string; URL : string }.
End Source.

(** The four implementations of the [DataSource] interface. *)
Inductive DataSource : Type :=
  | CSVDataSource (Path : string)
  | JSONDataSource (Path : string)
  | APIDataSource (URL : string)
  | SystemMetricsDataSource.

(** The [switch config.Source.Type] of [LoadConfigAndData]: the data source
    it then loads, or its error. *)
Definition source_of (src : Source.t) : result DataSource :=
  if String.eqb (Source.Type_ src) "csv" then Ok (CSVDataSource (Source.Path src))
  else if String.eqb (Source.Type_ src) "json" then Ok (JSONDataSource (Source.Path src))
  else if String.eqb (Source.Type_ src) "api" then Ok (APIDataSource (Source.URL src))
  else if String.eqb (Source.Type_ src) "system" then Ok SystemMetricsDataSource
  else Err "Unsupported data source type: %s".

End loader.

(** ** The widget constructors of the main package *)

Module Creators.

(** How a constructor ends: with its widget, with an error, or in a run-time
    panic of Go (an index out of range). *)
Inductive created (A : Type) : Type :=
  | Created (a : A)
  | Refused (msg : string)
  | Panicked.
Arguments Created {A} a.
Arguments Refused {A} msg.
Arguments Panicked {A}.

(** [for i, header := range csvData.Header { if header == col { index = i; break } }],
    begun with the index -1. *)
Fixpoint index_from (col : string) (header : list string) (i : Z) : Z :=
  match header with
  | [] => -1
  | h :: rest => if String.eqb h col then i else index_from col rest (i + 1)
  end.

Definition first_index (col : string) (header : list string) : Z := index_from col header 0.

(** The loop of [createLineChart] and [createBarChart], which looks two
    columns up and has no [break]. *)
Definition xy_indexes (xCol yCol : string) (header : list string) : Z * Z :=
  fold_left (fun idx ih =>
               (if String.eqb (snd ih) xCol then Z.of_nat (fst ih) else fst idx,
                if String.eqb (snd ih) yCol then Z.of_nat (fst ih) else snd idx))
            (imap pair header) (-1, -1).

(** What both constructors do before they build their chart: the error of
    a column that is not found. *)
Definition chart_columns (w : loader.WidgetConfig) (csvData : loader.DataDataSource)
  : result (Z * Z) :=
  let '(xColIndex, yColIndex) :=
    xy_indexes (loader.XCol w) (loader.YCol w) (loader.Header csvData) in
  if (xColIndex =? -1) || (yColIndex =? -1)
  then Err "column 'x_col' or 'y_col' not found for widget '%s'"
  else Ok (xColIndex, yColIndex).

Section Parsing.

(** [strconv.Atoi]: the integer, or [None] for its error. *)
Variable Atoi : string -> option Z.

(** [for _, record := range csvData.Records] with [strconv.Atoi(record[index])]:
    the values that parse, in order; [None] is the panic on a record that
    has no field [index]. *)
Fixpoint column_values (index : nat) (records : list (list string)) (values : list Z)
  : option (list Z) :=
  match records with
  | [] => Some values
  | record :: rest =>
      match record !! index with
      | None => None
      | Some field =>
          match Atoi field with
          | None => column_values index rest values
          | Some val => column_values index rest (values ++ [val])
          end
      end
  end.

(** The nine colours of [createPieChart]. *)
Definition pie_colors : list Z :=
  cell.ColorNumber <$> [42; 197; 214; 255; 39; 45; 51; 57; 63].

(** [func createPieChart(ctx, w, csvData, refresh)], which returns the pie
    chart or an error. *)
Definition createPieChart (w : loader.WidgetConfig) (csvData : loader.DataDataSource)
  : created PieChart.t :=
  let valueColIndex := first_index (loader.ValueCol w) (loader.Header csvData) in
  if valueColIndex =? -1 then Refused "column '%s' not found for widget '%s'"
  else
    match column_values (Z.to_nat valueColIndex) (loader.Records csvData) [] with
    | None => Panicked
    | Some values =>
        match PieChart.Values PieChart.NewPieChart values pie_colors with
        | (_, Some e) => Refused e
        | (pc, None) => Created pc
        end
    end.

(** The loop of [createFunnel]: the field 1 of every record, and one more
    colour for every value that parses. *)
Fixpoint funnel_values (records : list (list string)) (data : list Z) (colors : list Z)
  : option (list Z * list Z) :=
  match records with
  | [] => Some (data, colors)
  | record :: rest =>
      match record !! 1%nat with
      | None => None
      | Some field =>
          match Atoi field with
          | None => funnel_values rest data colors
          | Some value =>
              funnel_values rest (data ++ [value])
                (colors ++ [cell.ColorNumber (Z.of_nat (length colors) + 1)])
          end
      end
  end.

(** [func createFunnel(ctx, w, csvData, refresh)], which returns the funnel
    or an error. *)
Definition createFunnel (w : loader.WidgetConfig) (csvData : loader.DataDataSource)
  : created Funnel.t :=
  match funnel_values (loader.Records csvData) [] [] with
  | None => Panicked
  | Some (data, colors) =>
      match Funnel.Values Funnel.NewFunnel data colors with
      | (_, Some e) => Refused e
      | (funnel, None) => Created funnel
      end
  end.

(** [strconv.ParseFloat(s, 64)]: the number, or [None] for its error. *)
Variable ParseFloat : string -> option Float64.t.

(** The first loop of [createRadarChart]: the label is the field 0 and the
    value the field 1 of the record; a later record of the same label
    replaces the value. *)
Fixpoint radar_data (records : list (list string)) (data : gmap string Float64.t)
  : option (gmap string Float64.t) :=
  match records with
  | [] => Some data
  | record :: rest =>
      match record !! 0%nat with
      | None => None
      | Some label =>
          match record !! 1%nat with
          | None => None
          | Some field =>
              match ParseFloat field with
              | None => radar_data rest data
              | Some value => radar_data rest (<[label := value]> data)
              end
          end
      end
  end.

(** [func createRadarChart(ctx, w, csvData, refresh)], which returns the
    radar or an error; [ord] is the order in which the second loop visits
    the map. *)
Definition createRadarChart (ord : list (string * Float64.t) -> list (string * Float64.t))
    (w : loader.WidgetConfig) (csvData : loader.DataDataSource) : created Radar.t :=
  match radar_data (loader.Records csvData) ∅ with
  | None => Panicked
  | Some data =>
      let max := fold_left (fun max kv => if Float64.ltb max (snd kv) then snd kv else max)
                           (ord (map_to_list data)) Float64.zero in
      if (size data =? 0)%nat then Refused "no valid data found for radar chart"
      else
        let values := Radar.mkValues data max in
        match Radar.NewRadar [] with
        | Err e => Refused e
        | Ok r =>
            match Radar.SetValues r (Some values) [] with
            | (_, Some e) => Refused e
            | (r, None) => Created r
            end
        end
  end.

(** [fmt.Sprintf("%.2f", avg)] *)
Variable format_avg : Float64.t -> string.

(** [sort.Ints] *)
Definition sort_Ints (values : list Z) : list Z := merge_sort Z.le values.

(** The [switch w.Aggregation] of [createText]: the text of the result;
    [values] is not empty. *)
Definition aggregate (aggregation : string) (values : list Z) : option string :=
  if String.eqb aggregation "sum" then
    let sum := fold_left GoInt.add values 0 in
    Some ("Sum: " ++ pretty sum)%string
  else if String.eqb aggregation "avg" then
    let sum := fold_left GoInt.add values 0 in
    let avg := Float64.div (Float64.of_int sum)
                           (Float64.of_int (Z.of_nat (length values))) in
    Some ("Avg: " ++ format_avg avg)%string
  else if String.eqb aggregation "median" then
    let values := sort_Ints values in
    let n := length values in
    if (n mod 2 =? 0)%nat then
      match values !! (n / 2 - 1)%nat, values !! (n / 2)%nat with
      | Some a, Some b => Some ("Median: " ++ pretty (Z.quot (GoInt.add a b) 2))%string
      | _, _ => None
      end
    else
      match values !! (n / 2)%nat with
      | Some median => Some ("Median: " ++ pretty median)%string
      | None => None
      end
  else if String.eqb aggregation "max" then
    match values with
    | [] => None
    | v0 :: _ =>
        let max := fold_left (fun max v => if max <? v then v else max) values v0 in
        Some ("Max: " ++ pretty max)%string
    end
  else if String.eqb aggregation "min" then
    match values with
    | [] => None
    | v0 :: _ =>
        let min := fold_left (fun min v => if v <? min then v else min) values v0 in
        Some ("Min: " ++ pretty min)%string
    end
  else Some "Invalid aggregation type"%string.

(** [func createText(ctx, w, csvData, refresh)], which returns the segment
    display or an error: the display is told by the text rolled onto it,
    [None] when nothing is written. *)
Definition createText (w : loader.WidgetConfig) (csvData : loader.DataDataSource)
  : created (option string) :=
  let valueColIndex := first_index (loader.ValueCol w) (loader.Header csvData) in
  if valueColIndex =? -1 then Refused "colonna '%s' non trovata per il widget '%s'"
  else if (0 <? length (loader.Records csvData))%nat then
    match column_values (Z.to_nat valueColIndex) (loader.Records csvData) [] with
    | None => Panicked
    | Some values =>
        if (length values =? 0)%nat
        then Created (Some (loader.Title w ++ ": No valid data")%string)
        else
          match aggregate (loader.Aggregation w) values with
          | None => Panicked
          | Some result => Created (Some result)
          end
    end
  else Created None.

End Parsing.

(** [func createTable(ctx, w, csvData, refresh)], which returns the table or
    an error. *)
Definition createTable (w : loader.WidgetConfig) (csvData : loader.DataDataSource)
  : result Table.t :=
  let headers := Table.NewCell <$> loader.Header csvData in
  let rows := (fun record : list string => Table.NewCell <$> record)
                <$> loader.Records csvData in
  let opts := [Table.CellFillColor cell.ColorDefault; Table.HeaderFillColor cell.ColorBlack] in
  match Table.NewTable headers rows opts with
  | Err _ => Err "error creating table: %w"
  | Ok table => Ok table
  end.

End Creators.

(** ** The generate package *)

Module generate.

(** [strings.HasSuffix] and [strings.HasPrefix], as Go defines them. *)
Definition HasSuffix (s suffix : string) : bool :=
  (String.length suffix <=? String.length s)%nat &&
  String.eqb (String.substring (String.length s - String.length suffix)
                               (String.length suffix) s) suffix.

Definition HasPrefix (s prefix : string) : bool :=
  (String.length prefix <=? String.length s)%nat &&
  String.eqb (String.substring 0 (String.length prefix) s) prefix.

Module TableColumn.
Record t : Type := mk { Title : string; DataIndex : string }.
End TableColumn.

Module WidgetConfig.
Record t : Type := mk {
  Type_ : string;
  Title : string;
  ValueCol : string;
  LabelCol : string;
  XCol : string;
  YCol : string;
  CatCol : string;
  Aggregation : string;
  Columns : list TableColumn.t
}.
End WidgetConfig.

Module Source.
Record t : Type := mk { Type_ : string; Path : string; URL : string }.
End Source.

Module Config.
Record t : Type := mk {
  Title : string;
  Refresh : Z;
  Source : Source.t;
  Widgets : list WidgetConfig.t
}.
End Config.

(** The four implementations of the [DataSource] interface. *)
Inductive DataSource : Type :=
  | CSVDataSource (Path : string)
  | JSONDataSource (Path : string)
  | APIDataSource (URL : string)
  | SystemMetricsDataSource.

(** The variables of the column analysis. *)
Record analysis : Type := mkAnalysis {
  numericCols : gmap string bool;
  firstNumericCol : string;
  firstCategoricCol : string
}.

Section Generate.

(** The [Load] methods read a file, a URL or the system; [isNumeric] is
    the success of [strconv.ParseFloat]; [column_title] stands for
    [strings.Title(strings.ReplaceAll(header, "_", " "))]. *)
Variable Load : DataSource -> result loader.DataDataSource.
Variable isNumeric : string -> bool.
Variable column_title : string -> string.

(** The first part of [GenerateDashboardConfig]: the type of the source. *)
Definition source_type (sourcePath : string) : string :=
  if HasSuffix sourcePath ".csv" then "csv"
  else if HasSuffix sourcePath ".json" then "json"
  else if HasPrefix sourcePath "http://" || HasPrefix sourcePath "https://" then "api"
  else "system".

(** The [switch sourceType]: the data source and the title, or an error. *)
Definition data_source (sourceType sourcePath : string) : result (DataSource * string) :=
  if String.eqb sourceType "csv" then
    if String.eqb sourcePath "" then Err "error: path is required for 'csv' type"
    else Ok (CSVDataSource sourcePath, ("Dashboard for " ++ sourcePath)%string)
  else if String.eqb sourceType "json" then
    if String.eqb sourcePath "" then Err "error: path is required for 'json' type"
    else Ok (JSONDataSource sourcePath, ("Dashboard for " ++ sourcePath)%string)
  else if String.eqb sourceType "api" then
    if String.eqb sourcePath "" then Err "error: URL is required for 'api' type"
    else Ok (APIDataSource sourcePath, ("Dashboard for " ++ sourcePath)%string)
  else if String.eqb sourceType "system" then
    Ok (SystemMetricsDataSource, "System Metrics Dashboard"%string)
  else Err "error: unsupported data source type: %s".

(** [for i := 0; i < 5 && i < len(data.Records); i++], over the records it
    visits; [None] is the panic on a record without the field. *)
Fixpoint scan (header : string) (data : loader.DataDataSource) (records : list (list string))
    (isNum : bool) : option bool :=
  match records with
  | [] => Some isNum
  | record :: rest =>
      let colIndex := Creators.first_index header (loader.Header data) in
      if colIndex =? -1 then scan header data rest isNum
      else
        match record !! Z.to_nat colIndex with
        | None => None
        | Some field =>
            if isNumeric field then scan header data rest true else Some false
        end
  end.

(** The value of [isNum] for one header. *)
Definition column_is_numeric (header : string) (data : loader.DataDataSource) : option bool :=
  if (0 <? length (loader.Records data))%nat
  then scan header data (take 5 (loader.Records data)) false
  else Some false.

(** [for _, header := range data.Header] of the column analysis. *)
Fixpoint analyse (headers : list string) (data : loader.DataDataSource) (st : analysis)
  : option analysis :=
  match headers with
  | [] => Some st
  | header :: rest =>
      match column_is_numeric header data with
      | None => None
      | Some isNum =>
          analyse rest data
            {| numericCols := <[header := isNum]> (numericCols st);
               firstNumericCol :=
                 if isNum && String.eqb (firstNumericCol st) ""
                 then header else firstNumericCol st;
               firstCategoricCol :=
                 if negb isNum && String.eqb (firstCategoricCol st) ""
                 then header else firstCategoricCol st |}
      end
  end.

(** The table widget, which is always there. *)
Definition table_widget (data : loader.DataDataSource) : WidgetConfig.t :=
  WidgetConfig.mk "table" "Table" "" "" "" "" "" ""
    ((fun header => TableColumn.mk (column_title header) header) <$> loader.Header data).

(** The widgets of one turn of the last loop. *)
Definition widgets_of (st : analysis) (header : string) : list WidgetConfig.t :=
  let isNum := default false (numericCols st !! header) in
  if isNum then
    (if negb (String.eqb (firstCategoricCol st) "") then
       [WidgetConfig.mk "pie" ("Pie Chart (" ++ header ++ ")") header (firstCategoricCol st)
          "" "" "" "" [];
        WidgetConfig.mk "bar" ("Bar Chart (" ++ header ++ ")") "" ""
          (firstCategoricCol st) header "" "" [];
        WidgetConfig.mk "line" ("Line Chart (" ++ header ++ ")") "" ""
          (firstCategoricCol st) header "" "" [];
        WidgetConfig.mk "radar" ("Radar Chart (" ++ header ++ ")") header ""
          "" "" (firstCategoricCol st) "" []]
     else []) ++
    [WidgetConfig.mk "gauge" ("Gauge (" ++ header ++ ")") header "" "" "" "" "" [];
     WidgetConfig.mk "text" ("Text (" ++ header ++ " - Sum)") header "" "" "" "" "sum" []]
  else [].

(** [func GenerateDashboardConfig(sourcePath string)], which returns the
    configuration or an error. *)
Definition GenerateDashboardConfig (sourcePath : string) : Creators.created Config.t :=
  let sourceType := source_type sourcePath in
  match data_source sourceType sourcePath with
  | Err e => Creators.Refused e
  | Ok (dataSource, sourceTitle) =>
      match Load dataSource with
      | Err _ => Creators.Refused "error loading data: %w"
      | Ok data =>
          match analyse (loader.Header data) data (mkAnalysis ∅ "" "") with
          | None => Creators.Panicked
          | Some st =>
              let widgets :=
                [table_widget data] ++ (loader.Header data ≫= widgets_of st) in
              Creators.Created
                (Config.mk sourceTitle 5 (Source.mk sourceType sourcePath "") widgets)
          end
      end
  end.

End Generate.

End generate.

(** ** The widgets behind [widgetapi.Widget] *)

(** The six widgets of the repository; termdash sees each of them through
    the [Draw] method of the interface. *)
Inductive Widget : Type :=
  | OfTable (tb : Table.t)
  | OfFunnel (f : Funnel.t)
  | OfPieChart (p : PieChart.t)
  | OfRadar (r : Radar.t)
  | OfScatterPlot (s : ScatterPlot.t)
  | OfHistogram (h : Histogram.t).

(** What one call of [Draw] may depend on besides the widget and the canvas:
    the order in which [range] visits a map, and the loop budget of the pie
    chart's sweep. *)
Record schedule : Type := mkSchedule { visit : map_order; turns : nat }.

(** [w.Draw(cvs, meta)] *)
Definition Draw `{Host} (sch : schedule) (w : Widget) (cvs : canvas.t)
  : Widget * canvas.t * completion :=
  match w with
  | OfTable tb => let '(tb, cvs, c) := Table.Draw tb cvs in (OfTable tb, cvs, c)
  | OfFunnel f => let '(f, cvs, c) := Funnel.Draw f cvs in (OfFunnel f, cvs, c)
  | OfPieChart p =>
      let '(p, cvs, c) := PieChart.Draw (turns sch) p cvs in (OfPieChart p, cvs, c)
  | OfRadar r => let '(r, cvs, c) := Radar.Draw r cvs in (OfRadar r, cvs, c)
  | OfScatterPlot s =>
      let '(s, cvs, c) := ScatterPlot.Draw (visit sch) s cvs in (OfScatterPlot s, cvs, c)
  | OfHistogram h =>
      let '(h, cvs, c) := Histogram.Draw (visit sch) h cvs in (OfHistogram h, cvs, c)
  end.

(** The widget a draw leaves, and what the caller sees of the draw. *)
Definition widget_after {A} (r : A * canvas.t * completion) : A := fst (fst r).
Definition output {A} (r : A * canvas.t * completion) : canvas.t * completion :=
  (snd (fst r), snd r).

(** ** Vocabulary of the statements about [Radar] and the layout *)

(** The value [&Values{Data: ..., Max: max}] with the entries of [l]. *)
Definition radar_values (l : list (string * Float64.t)) (max : Float64.t) : Radar.Values :=
  Radar.mkValues (list_to_map l) max.

(** [x] lies in the closed interval from [lo] to [hi]. *)
Definition float_between (lo hi x : Float64.t) : Prop :=
  Float64.leb lo x = true /\ Float64.leb x hi = true.

(** Every row break is forced: the first column of a row did not fit into
    the row before it. *)
Fixpoint breaks_forced {W} (rows : list (list (Layout.Column W))) : Prop :=
  match rows with
  | r :: ((r' :: _) as rest) =>
      match r' with
      | c :: _ => 100 < Layout.row_width r + Layout.widthPerc c
      | [] => False
      end /\ breaks_forced rest
  | _ => True
  end.

(** The column the packing loop builds for a widget. *)
Definition column_of {W} (w : Layout.widgetWithConfig W) : Layout.Column W :=
  Layout.ColWidthPerc (Layout.widgetWidth (Layout.typ w)) w.

(** The rows of the packer once the pending row is added. *)
Definition closed_rows {W} (st : Layout.packer W) : list (list (Layout.Column W)) :=
  if (0 <? length (Layout.currentRow st))%nat
  then Layout.rows st ++ [Layout.currentRow st] else Layout.rows st.

(** What holds of the loop's variables after the widgets [ws] are handled. *)
Record pack_inv {W} (ws : list (Layout.widgetWithConfig W)) (st : Layout.packer W) : Prop := {
  inv_order : concat (Layout.rows st) ++ Layout.currentRow st = map column_of ws;
  inv_width : Layout.currentWidth st = Layout.row_width (Layout.currentRow st);
  inv_bound : Forall (fun r => r <> [] /\ Layout.row_width r <= 100) (Layout.rows st);
  inv_cur : Layout.row_width (Layout.currentRow st) <= 100;
  inv_empty : Layout.currentRow st = [] -> Layout.rows st = [];
  inv_breaks : breaks_forced (closed_rows st)
}.

(** ** Vocabulary of the statements about the dot canvas *)

(** One call [setDot(bx, by, col)]. *)
Record dot_call : Type := mkCall { call_x : Z; call_y : Z; call_col : Color }.

Global Instance dot_call_eq_dec : EqDecision dot_call.
Proof. solve_decision. Defined.

(** The terminal cell a call targets, and the bit it sets there. *)
Definition cell_of (c : dot_call) : image.Point :=
  image.mkPoint (Z.quot (call_x c) 2) (Z.quot (call_y c) 4).

Definition bit_of (c : dot_call) : Z :=
  braille.mask_of (Z.rem (call_x c) 2) (Z.rem (call_y c) 4).

(** A sequence of calls, made in order. *)
Definition run_dots (calls : list dot_call) (st : braille.dots) : braille.dots :=
  fold_left (fun st c => braille.setDot (call_x c) (call_y c) (call_col c) st) calls st.

Definition run_dots_plain (calls : list dot_call) (m : gmap image.Point Z) : gmap image.Point Z :=
  fold_left (fun m c => braille.setDot_plain (call_x c) (call_y c) m) calls m.

(** The calls of a sequence that target the cell [pt]. *)
Definition hits (pt : image.Point) (calls : list dot_call) : list dot_call :=
  filter (fun c => cell_of c = pt) calls.

(** Bitwise OR of a list of masks. *)
Definition or_all (l : list Z) : Z := fold_right Z.lor 0 l.

(** The number of the Unicode braille dot at a position inside a cell,
    counted from 0: dots 1 to 3 and 7 in the left column, 4 to 6 and 8 in
    the right one. *)
Definition dot_index (subX subY : Z) : Z :=
  if subY =? 3 then 6 + subX else 3 * subX + subY.

(** The braille dot a call sets in the cell it targets: the dot at the
    position the call computes with [%].  Go's [%] takes the sign of the
    dividend, so below 0 a coordinate that is no multiple of the cell size
    gives no position, and the call sets no dot. *)
Definition dot_of (c : dot_call) : option Z :=
  let subX := Z.rem (call_x c) 2 in
  let subY := Z.rem (call_y c) 4 in
  if (0 <=? subX) && (0 <=? subY) then Some (dot_index subX subY) else None.

(** ** Vocabulary of the statements about [Histogram.Draw] *)

(** The [setDot] calls of bar [i], in the order of the two nested loops. *)
Definition bar_calls (h : Histogram.t) (g : Histogram.geometry) (maxBin i v : Z)
  : list dot_call :=
  x ← seqZ 0 (Histogram.actualBarWidth g - 0);
  y ← seqZ 0 (Histogram.bar_height v maxBin (Histogram.plotH g) - 0);
  let bx := Histogram.originX g + i * Histogram.barWidth g + x in
  let by_ := Histogram.originY g - 1 - y in
  if (bx <? Histogram.brailleW g) && (0 <=? by_)
  then [mkCall bx by_ (Histogram.bar_color h i)] else [].

(** All calls of the bars, each with the index of its bin. *)
Definition tagged_calls (h : Histogram.t) (g : Histogram.geometry) : list (Z * dot_call) :=
  concat (imap (fun i v =>
                  pair (Z.of_nat i) <$>
                    bar_calls h g (Histogram.max_bin (Histogram.bins h)) (Z.of_nat i) v)
               (Histogram.bins h)).

(** The calls [Draw] makes on a canvas: none when it returns early. *)
Definition drawn_calls (h : Histogram.t) (cvs : canvas.t) : list (Z * dot_call) :=
  let g := Histogram.geometry_of h cvs in
  if (length (Histogram.bins h) =? 0)%nat then []
  else if (Histogram.plotW g <=? 0) || (Histogram.plotH g <=? 0) then []
  else tagged_calls h g.

(** [Draw] paints the cell [pt] for the bin [i]: a dot of bar [i] lies in it. *)
Definition painted_for (h : Histogram.t) (cvs : canvas.t) (i : Z) (pt : image.Point) : Prop :=
  exists c, (i, c) ∈ drawn_calls h cvs /\ cell_of c = pt.

(** The foreground colour of a canvas cell, if the cell was set. *)
Definition fg_at (cvs : canvas.t) (pt : image.Point) : option Color :=
  canvas.Fg <$> canvas.cells cvs !! pt.

(** The canvas a draw was given and the canvas it leaves. *)
Definition canvas_after {A} (r : A * canvas.t * completion) : canvas.t := snd (fst r).

(** The canvas after the entries of [brailleMap] have been written to it,
    told without the order of the visit. *)
Definition written (brailleMap : gmap image.Point Z) (color_of : image.Point -> Color)
    (cvs : canvas.t) : canvas.t :=
  canvas.mk (canvas.width cvs) (canvas.height cvs)
    (map_imap (fun pt r =>
                 if image.In pt (canvas.Area cvs)
                 then Some (canvas.mkCell r (color_of pt)
                              (canvas.Bg (default canvas.blank (canvas.cells cvs !! pt))))
                 else None) brailleMap
     ∪ canvas.cells cvs).

(** The histogram of the claim: the bins 1 to 5 with the alert on index 2,
    set on a new histogram. *)
Definition histogram_1_to_5 : Histogram.t :=
  fst (Histogram.SetBins Histogram.NewHistogram [1; 2; 3; 4; 5]
         (Float64.of_int 0) (Float64.of_int 5) ["a"; "b"; "c"; "d"; "e"]%string 2).

Definition empty_canvas (w h : nat) : canvas.t := canvas.mk w h ∅.

(** ** Vocabulary of the statements about [Draw] *)

(** Two table states that differ at most in the page shown and in the
    rectangles of the buttons. *)
Definition same_data (t1 t2 : Table.t) : Prop :=
  Table.headers t1 = Table.headers t2 /\
  Table.rows t1 = Table.rows t2 /\
  Table.opts t1 = Table.opts t2 /\
  Table.rowsPerPage t1 = Table.rowsPerPage t2 /\
  Table.numPages t1 = Table.numPages t2.

Definition with_rects (pr nr : image.Rectangle) (tb : Table.t) : Table.t :=
  Table.set_prevButtonRect pr (Table.set_nextButtonRect nr tb).

(** A host whose primitives do nothing, for closed examples. *)
Definition idle_host : Host :=
  {| draw_Text := fun cvs _ _ _ => (cvs, None);
     SetAreaCells := fun cvs _ _ _ => (cvs, None);
     ToUpper := fun s => s;
     BrailleCanvas := unit;
     braille_New := fun _ => Ok tt;
     BrailleLine := fun bc _ _ _ => (bc, None);
     BrailleCircle := fun bc _ _ _ => (bc, None);
     CopyTo := fun _ cvs => (cvs, None);
     Cos := fun x => x;
     Sin := fun x => x |}.

(** ** Vocabulary of the further statements about the widgets *)

(** The rows-per-page a list of table options leaves: the last positive
    [RowsPerPage], or the default. *)
Definition effective_rows_per_page (os : list Table.TableOption) : Z :=
  fold_left (fun acc o => match o with
                          | Table.RowsPerPage count => if 0 <? count then count else acc
                          | _ => acc
                          end) os 5.

(** What may reach a table between two draws: a mouse event sent to the
    widget, or a press of one of its two buttons. *)
Inductive table_event : Type :=
  | MouseAt (m : Table.MouseEvent)
  | Pressed (b : Table.Button).

Definition handle (tb : Table.t) (ev : table_event) : Table.t :=
  match ev with
  | MouseAt m => fst (Table.Mouse tb m)
  | Pressed b => fst (Table.press b tb)
  end.

(** The rows [Draw] slices out for the page [p]. *)
Definition page_rows (tb : Table.t) (p : Z) : option (list (list Table.Cell)) :=
  let tb := Table.set_currentPage p tb in
  Table.slice (Table.rows tb) (fst (Table.page_bounds tb)) (snd (Table.page_bounds tb)).

(** The chunk of [n] elements of [l] that starts at the position [p * n]. *)
Definition chunk {A} (n : nat) (l : list A) (p : nat) : list A :=
  take n (drop (p * n) l).

(** A table whose page count is the count of pages its rows fill and whose
    page is one of them (page 0 when there are none). *)
Definition well_paged (tb : Table.t) : Prop :=
  0 < Table.rowsPerPage tb /\
  Table.numPages tb
  = (Table.len (Table.rows tb) + Table.rowsPerPage tb - 1) / Table.rowsPerPage tb /\
  0 <= Table.currentPage tb /\
  (Table.currentPage tb = 0 \/ Table.currentPage tb < Table.numPages tb).

(** One step in the life of a table: an event, or a draw on some canvas. *)
Inductive table_step : Type :=
  | Event (ev : table_event)
  | Drawn (cvs : canvas.t).

Definition step `{Host} (tb : Table.t) (s : table_step) : Table.t :=
  match s with
  | Event ev => handle tb ev
  | Drawn cvs => widget_after (Table.Draw tb cvs)
  end.

(** The funnel and the pie chart after a history of [Values] calls, the
    failed ones included. *)
Definition funnel_after (calls : list (list Z * list Z)) : Funnel.t :=
  fold_left (fun f c => fst (Funnel.Values f (fst c) (snd c))) calls Funnel.NewFunnel.

Definition pie_after (calls : list (list Z * list Z)) : PieChart.t :=
  fold_left (fun p c => fst (PieChart.Values p (fst c) (snd c))) calls PieChart.NewPieChart.

(** A rune of the braille block that shows at least one dot. *)
Definition braille_rune (r : Z) : Prop := 0x2800 < r <= 0x28FF.

(** The dots of the two axes of the scatter plot, the vertical one first;
    the colour of a call plays no part there. *)
Definition axis_dots (brailleW brailleH : Z) : list dot_call :=
  (seqZ ScatterPlot.padding (brailleH - ScatterPlot.padding - ScatterPlot.padding)
     ≫= fun y => [mkCall ScatterPlot.padding y 0]) ++
  (seqZ ScatterPlot.padding (brailleW - ScatterPlot.padding - ScatterPlot.padding)
     ≫= fun x => [mkCall x (brailleH - ScatterPlot.padding) 0]).

(** The cells of the canvas the axes run through: the column 2 from the
    row 1 to the row above the last, and the last row from the column 2 on,
    two columns short of the right edge. *)
Definition on_axes (cvs : canvas.t) (pt : image.Point) : Prop :=
  (image.X pt = 2 /\ 1 <= image.Y pt <= Z.of_nat (canvas.height cvs) - 2) \/
  (image.Y pt = Z.of_nat (canvas.height cvs) - 1 /\
   2 <= image.X pt <= Z.of_nat (canvas.width cvs) - 3).

(** The configured widget that stands last among those with the title [k]. *)
Definition last_titled (confs : list Layout.WidgetConfig) (k : string)
  : option Layout.WidgetConfig :=
  last (filter (fun c => Layout.Title c = k) confs).

(** Constructors that always succeed, for closed examples: a widget is the
    text of its title. *)
Definition plain_makers : Main.makers string :=
  let by_title := fun w : Layout.WidgetConfig => Ok (Layout.Title w) in
  Main.mkMakers string by_title by_title by_title by_title by_title by_title by_title
    by_title by_title by_title (fun ty => ty) (fun title => title).

(** ** Vocabulary of the statements about the constructors *)

(** Data in which every record has as many fields as the header. *)
Definition well_formed (d : loader.DataDataSource) : Prop :=
  Forall (fun r => length r = length (loader.Header d)) (loader.Records d).

(** The integers in the column [i] of the records: the fields that parse. *)
Definition parsed_column (Atoi : string -> option Z) (i : nat) (records : list (list string))
  : list Z :=
  omap (fun r : list string => r !! i ≫= Atoi) records.

(** How a constructor ends that hands a series and its colours (at least
    one) to [Values]. *)
Definition values_outcome {A} (mk : list Z -> list Z -> Z -> A) (values colors : list Z)
  : Creators.created A :=
  if decide (values = []) then Creators.Refused "values cannot be empty"
  else if decide (Forall (fun v => 0 <= v) values)
       then Creators.Created (mk values colors (GoInt.wrap (sumZ values)))
       else Creators.Refused "all values must be non-negative".

(** A parser for closed examples: the decimal digits 1 to 3, and the text
    -1. *)
Definition small_Atoi (s : string) : option Z :=
  if String.eqb s "1" then Some 1
  else if String.eqb s "2" then Some 2
  else if String.eqb s "3" then Some 3
  else if String.eqb s "-1" then Some (-1)
  else None.

(** ** Vocabulary of the statements about the generated configuration *)

(** A column counts as numeric for the generator when there is a record
    and, in each of the first five records, the field of the first column
    of that name parses as a number. *)
Definition numeric_column (isNumeric : string -> bool) (data : loader.DataDataSource)
    (header : string) : bool :=
  let index := Z.to_nat (Creators.first_index header (loader.Header data)) in
  (0 <? length (loader.Records data))%nat &&
  forallb (fun r : list string => default false (isNumeric <$> r !! index))
          (take 5 (loader.Records data)).

(** The first header with a name that is not numeric, or the empty string. *)
Fixpoint first_categoric (numeric : string -> bool) (headers : list string) : string :=
  match headers with
  | [] => ""
  | h :: rest =>
      if negb (numeric h) && negb (String.eqb h "") then h else first_categoric numeric rest
  end.

(** A generated widget as [LoadConfigAndData] reads it back from the YAML
    file [main] writes: the fields are matched by their yaml names. *)
Definition as_loaded (w : generate.WidgetConfig.t) : loader.WidgetConfig :=
  loader.mkWidgetConfig
    (generate.WidgetConfig.Type_ w) (generate.WidgetConfig.Title w)
    (generate.WidgetConfig.ValueCol w) (generate.WidgetConfig.LabelCol w)
    (generate.WidgetConfig.XCol w) (generate.WidgetConfig.YCol w) ""
    (generate.WidgetConfig.CatCol w) (generate.WidgetConfig.Aggregation w) 0.

Definition source_as_loaded (s : generate.Source.t) : loader.Source.t :=
  loader.Source.mk (generate.Source.Type_ s) (generate.Source.Path s) (generate.Source.URL s).

(** The data source of the generator and that of the loader are the same. *)
Definition same_source (g : generate.DataSource) (l : loader.DataSource) : Prop :=
  match g, l with
  | generate.CSVDataSource p, loader.CSVDataSource q => p = q
  | generate.JSONDataSource p, loader.JSONDataSource q => p = q
  | generate.APIDataSource u, loader.APIDataSource v => u = v
  | generate.SystemMetricsDataSource, loader.SystemMetricsDataSource => True
  | _, _ => False
  end.

(** A number test for closed examples: the digits 1 to 3. *)
Definition small_isNumeric (s : string) : bool :=
  String.eqb s "1" || String.eqb s "2" || String.eqb s "3".

(** A number test for closed examples that accepts two decimal prices. *)
Definition price_isNumeric (s : string) : bool :=
  String.eqb s "1.5" || String.eqb s "2.5".

(** The drawing primitives of termdash write into the canvas they are given
    and leave its area alone. *)
Definition keeps_area (H : Host) : Prop :=
  (forall cvs s p o, canvas.Area (fst (draw_Text cvs s p o)) = canvas.Area cvs) /\
  (forall cvs r c o, canvas.Area (fst (SetAreaCells cvs r c o)) = canvas.Area cvs).

(** A run of mouse events. *)
Definition clicks (ms : list Table.MouseEvent) (tb : Table.t) : Table.t :=
  fold_left (fun tb m => fst (Table.Mouse tb m)) ms tb.

(** * Part II: properties *)

(** ** Arithmetic of [int] *)

Lemma wrap_in_range z : GoInt.in_range (GoInt.wrap z).
Proof.
  unfold GoInt.in_range, GoInt.wrap, GoInt.min_int, GoInt.max_int, GoInt.int_bits.
  pose proof (Z.mod_pos_bound (z + 2 ^ (64 - 1)) (2 ^ 64) ltac:(lia)).
  change (2 ^ 64) with (2 * 2 ^ (64 - 1)) in *. lia.
Qed.

Lemma wrap_small z : GoInt.in_range z -> GoInt.wrap z = z.
Proof.
  unfold GoInt.in_range, GoInt.wrap, GoInt.min_int, GoInt.max_int, GoInt.int_bits.
  intros H. rewrite Z.mod_small; [lia|].
  change (2 ^ 64) with (2 * 2 ^ (64 - 1)). lia.
Qed.

Lemma wrap_add_l a b : GoInt.wrap (GoInt.wrap a + b) = GoInt.wrap (a + b).
Proof.
  unfold GoInt.wrap.
  replace ((a + 2 ^ (GoInt.int_bits - 1)) mod 2 ^ GoInt.int_bits
           - 2 ^ (GoInt.int_bits - 1) + b + 2 ^ (GoInt.int_bits - 1))
    with ((a + 2 ^ (GoInt.int_bits - 1)) mod 2 ^ GoInt.int_bits + b) by lia.
  rewrite Z.add_mod_idemp_l by (unfold GoInt.int_bits; lia).
  f_equal. f_equal. lia.
Qed.

(** *** Facts about the summation loop *)

Lemma range_sum_ok_iff vs acc :
  snd (range_sum vs acc) = None <-> Forall (fun v => 0 <= v) vs.
Proof.
  revert acc. induction vs as [|v vs IH]; intros acc; simpl.
  - split; [constructor | reflexivity].
  - destruct (Z.ltb_spec v 0) as [Hneg | Hpos]; simpl.
    + split; [discriminate | intros H; inversion H; lia].
    + rewrite IH. split; [intros H; constructor; assumption | intros H; inversion H; assumption].
  Qed.

Lemma range_sum_total vs acc :
  GoInt.in_range acc ->
  Forall (fun v => 0 <= v) vs ->
  fst (range_sum vs acc) = GoInt.wrap (acc + sumZ vs).
Proof.
  revert acc. induction vs as [|v vs IH]; intros acc Hacc Hall; simpl.
  - rewrite Z.add_0_r. symmetry. by apply wrap_small.
  - inversion Hall as [|? ? Hv Hvs]; subst.
    destruct (Z.ltb_spec v 0) as [Hneg | _]; [lia|].
    rewrite IH by (assumption || apply wrap_in_range).
    unfold GoInt.add. rewrite wrap_add_l. f_equal. lia.
Qed.

Lemma sumZ_nonneg vs : Forall (fun v => 0 <= v) vs -> 0 <= sumZ vs.
Proof. induction 1; simpl; lia. Qed.

(** ** [Funnel.Values] and [PieChart.Values] *)

(** The two methods are the same function of their arguments. *)
Lemma Funnel_Values_unfold f vs cs :
  Funnel.Values f vs cs =
    match vs, cs with
    | [], _ => (f, Some "values cannot be empty"%string)
    | _, [] => (f, Some "colors cannot be empty"%string)
    | _, _ => (Funnel.mk vs cs (fst (range_sum vs 0)), snd (range_sum vs 0))
    end.
Proof.
  unfold Funnel.Values. destruct vs as [|v vs]; [reflexivity|].
  destruct cs as [|c cs]; [reflexivity|].
  cbn [length Nat.eqb]. destruct (range_sum (v :: vs) 0); reflexivity.
Qed.

Lemma PieChart_Values_unfold p vs cs :
  PieChart.Values p vs cs =
    match vs, cs with
    | [], _ => (p, Some "values cannot be empty"%string)
    | _, [] => (p, Some "colors cannot be empty"%string)
    | _, _ => (PieChart.mk vs cs (fst (range_sum vs 0)), snd (range_sum vs 0))
    end.
Proof.
  unfold PieChart.Values. destruct vs as [|v vs]; [reflexivity|].
  destruct cs as [|c cs]; [reflexivity|].
  cbn [length Nat.eqb]. destruct (range_sum (v :: vs) 0); reflexivity.
Qed.

(** The errors raised before the fields are written leave the state alone. *)
Lemma Funnel_Values_empty_keeps_state f vs cs :
  vs = [] \/ cs = [] -> fst (Funnel.Values f vs cs) = f.
Proof.
  rewrite Funnel_Values_unfold. intros [-> | ->]; [reflexivity|].
  destruct vs; reflexivity.
Qed.

Lemma PieChart_Values_empty_keeps_state p vs cs :
  vs = [] \/ cs = [] -> fst (PieChart.Values p vs cs) = p.
Proof.
  rewrite PieChart_Values_unfold. intros [-> | ->]; [reflexivity|].
  destruct vs; reflexivity.
Qed.

(** The error raised inside the loop comes after the fields are written: the
    widget then holds the rejected slices. *)
Lemma Funnel_Values_negative_overwrites f (vs : list Z) (cs : list Z) :
  vs <> [] -> cs <> [] -> ~ Forall (fun v => 0 <= v) vs ->
  snd (Funnel.Values f vs cs) <> None /\
  Funnel.values (fst (Funnel.Values f vs cs)) = vs /\
  Funnel.colors (fst (Funnel.Values f vs cs)) = cs.
Proof.
  intros Hvs Hcs Hneg. rewrite Funnel_Values_unfold.
  destruct vs as [|v vs']; [contradiction|]. destruct cs as [|c cs']; [contradiction|].
  cbn [fst snd Funnel.values Funnel.colors]. split; [|split; reflexivity].
  intros Hok. apply Hneg. by apply (range_sum_ok_iff _ 0).
Qed.

Lemma PieChart_Values_negative_overwrites p (vs : list Z) (cs : list Z) :
  vs <> [] -> cs <> [] -> ~ Forall (fun v => 0 <= v) vs ->
  snd (PieChart.Values p vs cs) <> None /\
  PieChart.values (fst (PieChart.Values p vs cs)) = vs /\
  PieChart.colors (fst (PieChart.Values p vs cs)) = cs.
Proof.
  intros Hvs Hcs Hneg. rewrite PieChart_Values_unfold.
  destruct vs as [|v vs']; [contradiction|]. destruct cs as [|c cs']; [contradiction|].
  cbn [fst snd PieChart.values PieChart.colors]. split; [|split; reflexivity].
  intros Hok. apply Hneg. by apply (range_sum_ok_iff _ 0).
Qed.

Lemma zero_in_range : GoInt.in_range 0.
Proof. unfold GoInt.in_range, GoInt.min_int, GoInt.max_int, GoInt.int_bits. lia. Qed.

(** C1, at the input that breaks it: a funnel (and a pie chart) holding the
    valid series [3; 4] is given the values [5; -1].  The call reports the
    negative value, yet the fields already hold the rejected slices and the
    running sum of the values before the negative one. *)
Theorem C1_rejected_values_overwrite_state :
  let f := fst (Funnel.Values Funnel.NewFunnel [3; 4] [1]) in
  let p := fst (PieChart.Values PieChart.NewPieChart [3; 4] [1]) in
  f = Funnel.mk [3; 4] [1] 7 /\
  Funnel.Values f [5; -1] [2]
    = (Funnel.mk [5; -1] [2] 5, Some "all values must be non-negative"%string) /\
  p = PieChart.mk [3; 4] [1] 7 /\
  PieChart.Values p [5; -1] [2]
    = (PieChart.mk [5; -1] [2] 5, Some "all values must be non-negative"%string).
Proof. repeat split; vm_compute; reflexivity. Qed.

(** C2 as stated fails: two values whose sum leaves the range of [int] are
    accepted, and the stored total is the wrapped sum, not the sum. *)
Lemma C2_total_not_exact_sum :
  let vs := [GoInt.max_int; 1] in
  snd (Funnel.Values Funnel.NewFunnel vs [1]) = None /\
  Funnel.total (fst (Funnel.Values Funnel.NewFunnel vs [1])) = GoInt.min_int /\
  Funnel.total (fst (Funnel.Values Funnel.NewFunnel vs [1])) <> sumZ vs.
Proof. repeat split; vm_compute; congruence. Qed.

(** C2, amended: a [Values] call of either widget succeeds exactly when the
    values and the colours are non-empty and every value is at least 0; on
    success [total] is the sum of the values reduced into the range of
    [int], which is the exact sum whenever that sum fits in an [int]. *)
Theorem C2_values_success_and_total :
  forall (vs : list Z) (cs : list Color),
    (forall f,
        (snd (Funnel.Values f vs cs) = None
         <-> vs <> [] /\ cs <> [] /\ Forall (fun v => 0 <= v) vs) /\
        (snd (Funnel.Values f vs cs) = None ->
         Funnel.total (fst (Funnel.Values f vs cs)) = GoInt.wrap (sumZ vs) /\
         (sumZ vs <= GoInt.max_int ->
          Funnel.total (fst (Funnel.Values f vs cs)) = sumZ vs))) /\
    (forall p,
        (snd (PieChart.Values p vs cs) = None
         <-> vs <> [] /\ cs <> [] /\ Forall (fun v => 0 <= v) vs) /\
        (snd (PieChart.Values p vs cs) = None ->
         PieChart.total (fst (PieChart.Values p vs cs)) = GoInt.wrap (sumZ vs) /\
         (sumZ vs <= GoInt.max_int ->
          PieChart.total (fst (PieChart.Values p vs cs)) = sumZ vs))).
Proof.
  intros vs cs.
  assert (Hsum : snd (range_sum vs 0) = None ->
                 fst (range_sum vs 0) = GoInt.wrap (sumZ vs) /\
                 (sumZ vs <= GoInt.max_int -> fst (range_sum vs 0) = sumZ vs)).
  { intros Hok. apply range_sum_ok_iff in Hok.
    rewrite (range_sum_total vs 0 zero_in_range Hok). simpl. split; [reflexivity|].
    intros Hle. apply wrap_small. split; [|assumption].
    pose proof (sumZ_nonneg vs Hok). unfold GoInt.min_int, GoInt.int_bits. lia. }
  split; intros st.
  - rewrite Funnel_Values_unfold.
    destruct vs as [|v vs'] eqn:Evs; [|destruct cs as [|c cs'] eqn:Ecs]; cbn [fst snd].
    + split; [split; [discriminate | tauto] | discriminate].
    + split; [split; [discriminate | tauto] | discriminate].
    + split; [|exact Hsum].
      rewrite range_sum_ok_iff. split; [intros H; repeat split; [discriminate..|exact H] | tauto].
  - rewrite PieChart_Values_unfold.
    destruct vs as [|v vs'] eqn:Evs; [|destruct cs as [|c cs'] eqn:Ecs]; cbn [fst snd].
    + split; [split; [discriminate | tauto] | discriminate].
    + split; [split; [discriminate | tauto] | discriminate].
    + split; [|exact Hsum].
      rewrite range_sum_ok_iff. split; [intros H; repeat split; [discriminate..|exact H] | tauto].
Qed.

(** ** [Radar.SetValues] *)

Lemma range_check_ok_iff max entries :
  Radar.range_check max entries = None
  <-> Forall (fun kv => Radar.out_of_range max (snd kv) = false) entries.
Proof.
  induction entries as [|[k v] rest IH]; simpl.
  - split; [constructor | reflexivity].
  - destruct (Radar.out_of_range max v) eqn:E.
    + split; [discriminate | intros H; inversion H; simpl in *; congruence].
    + rewrite IH. split; [intros H; constructor; assumption | intros H; inversion H; assumption].
Qed.

(** The loop's verdict does not depend on the order of the visit. *)
Lemma range_check_perm max l1 l2 :
  l1 ≡ₚ l2 -> Radar.range_check max l1 = None <-> Radar.range_check max l2 = None.
Proof. intros HP. rewrite !range_check_ok_iff. by rewrite HP. Qed.

(** What the code tests, in the terms of its comparisons. *)
Lemma Radar_SetValues_ok_iff r vals os :
  snd (Radar.SetValues r vals os) = None
  <-> exists v, vals = Some v /\
        (3 <= size (Radar.Data v))%nat /\
        Float64.leb (Radar.Max v) Float64.zero = false /\
        (forall k x, Radar.Data v !! k = Some x ->
                     Radar.out_of_range (Radar.Max v) x = false).
Proof.
  unfold Radar.SetValues. destruct vals as [v|]; cycle 1.
  { split; [discriminate | intros (v & Hv & _); discriminate]. }
  destruct (Nat.ltb_spec (size (Radar.Data v)) 3) as [Hlt | Hge]; simpl.
  { split; [discriminate | intros (v' & [= <-] & H3 & _); lia]. }
  destruct (Float64.leb (Radar.Max v) Float64.zero) eqn:Emax; simpl.
  { split; [discriminate | intros (v' & [= <-] & _ & Hm & _); congruence]. }
  destruct (Radar.range_check (Radar.Max v) (map_to_list (Radar.Data v))) as [e|] eqn:Erc; simpl.
  - split; [discriminate|]. intros (v' & [= <-] & _ & _ & Hall).
    assert (Radar.range_check (Radar.Max v) (map_to_list (Radar.Data v)) = None) as Hnone;
      [|congruence].
    apply range_check_ok_iff, Forall_forall. intros [k x] Hin. simpl.
    apply (Hall k). by apply elem_of_map_to_list.
  - split; [|reflexivity]. intros _. exists v. repeat split; try assumption.
    intros k x Hkx. apply range_check_ok_iff in Erc.
    rewrite Forall_forall in Erc. apply (Erc (k, x)). by apply elem_of_map_to_list.
Qed.

(** A call that reports an error returns the radar as it was. *)
Lemma Radar_SetValues_error_keeps_state r vals os :
  snd (Radar.SetValues r vals os) <> None -> fst (Radar.SetValues r vals os) = r.
Proof.
  unfold Radar.SetValues. destruct vals as [v|]; [|reflexivity].
  destruct (size (Radar.Data v) <? 3)%nat; [reflexivity|].
  destruct (Float64.leb (Radar.Max v) Float64.zero); [reflexivity|].
  destruct (Radar.range_check _ _); [reflexivity|].
  simpl. congruence.
Qed.

(** Comparisons of two numbers that are not NaN are each other's mirror. *)
Lemma SFcompare_mirror x y :
  Float64.is_nan x = false -> Float64.is_nan y = false ->
  exists c, SFcompare x y = Some c /\ SFcompare y x = Some (CompOpp c).
Proof.
  destruct x as [sx|sx| |sx mx ex], y as [sy|sy| |sy my ey]; simpl; try discriminate;
    intros _ _; try (destruct sx); try (destruct sy); eauto;
    (eexists; split; [reflexivity|]); f_equal;
    rewrite (Z.compare_antisym ex ey); destruct (ex ?= ey); simpl; try reflexivity.
  - rewrite CompOpp_involutive. apply (Pos.compare_cont_antisym my mx Eq).
  - symmetry. apply (Pos.compare_cont_antisym mx my Eq).
Qed.

Lemma float_not_ltb_iff_leb x y :
  Float64.is_nan x = false -> Float64.is_nan y = false ->
  Float64.ltb x y = false <-> Float64.leb y x = true.
Proof.
  intros Hx Hy. destruct (SFcompare_mirror x y Hx Hy) as (c & Hxy & Hyx).
  unfold Float64.ltb, Float64.leb, SFltb, SFleb. rewrite Hxy, Hyx.
  destruct c; simpl; split; congruence.
Qed.

Lemma float_not_leb_iff_ltb x y :
  Float64.is_nan x = false -> Float64.is_nan y = false ->
  Float64.leb x y = false <-> Float64.ltb y x = true.
Proof.
  intros Hx Hy. destruct (SFcompare_mirror x y Hx Hy) as (c & Hxy & Hyx).
  unfold Float64.ltb, Float64.leb, SFltb, SFleb. rewrite Hxy, Hyx.
  destruct c; simpl; split; congruence.
Qed.

(** On value maps free of NaN the method does what C3 says: it succeeds
    exactly when there are at least three entries, [Max > 0] and every value
    lies between 0 and [Max]; otherwise it fails and keeps the old state. *)
Lemma Radar_SetValues_without_NaN r v os :
  Float64.is_nan (Radar.Max v) = false ->
  (forall k x, Radar.Data v !! k = Some x -> Float64.is_nan x = false) ->
  (snd (Radar.SetValues r (Some v) os) = None
   <-> (3 <= size (Radar.Data v))%nat /\
       Float64.ltb Float64.zero (Radar.Max v) = true /\
       (forall k x, Radar.Data v !! k = Some x ->
                    float_between Float64.zero (Radar.Max v) x)) /\
  (snd (Radar.SetValues r (Some v) os) <> None ->
   fst (Radar.SetValues r (Some v) os) = r).
Proof.
  intros Hmax Hdata. split; [|apply Radar_SetValues_error_keeps_state].
  rewrite Radar_SetValues_ok_iff. split.
  - intros (v' & [= <-] & H3 & Hm & Hall). split; [assumption|]. split.
    + by apply float_not_leb_iff_ltb.
    + intros k x Hkx. specialize (Hall k x Hkx). specialize (Hdata k x Hkx).
      unfold Radar.out_of_range in Hall. apply orb_false_elim in Hall as [H0 H1].
      split; by apply float_not_ltb_iff_leb.
  - intros (H3 & Hm & Hall). exists v. split; [reflexivity|]. split; [assumption|]. split.
    + by apply float_not_leb_iff_ltb.
    + intros k x Hkx. specialize (Hall k x Hkx) as [H0 H1]. specialize (Hdata k x Hkx).
      unfold Radar.out_of_range. apply orb_false_intro; by apply float_not_ltb_iff_leb.
Qed.

(** C3, at the input that breaks it: a radar showing valid values is given
    the map [a -> NaN, b -> 1, c -> 2] with [Max = 2].  NaN is not between 0
    and [Max], yet both comparisons of the loop are false for it: the call
    returns [nil] and the stored values are replaced by the map with NaN. *)
Theorem C3_SetValues_accepts_NaN :
  let one := Float64.of_int 1 in
  let two := Float64.of_int 2 in
  let good := radar_values [("a", one); ("b", one); ("c", two)]%string two in
  let bad := radar_values [("a", Float64.NaN); ("b", one); ("c", two)]%string two in
  let r0 := Radar.mk None Radar.newRadarOptions in
  let r := fst (Radar.SetValues r0 (Some good) []) in
  Radar.NewRadar [] = Ok r0 /\
  Radar.values r = Some good /\
  Radar.Data bad !! "a"%string = Some Float64.NaN /\
  Float64.leb Float64.zero Float64.NaN = false /\
  Float64.leb Float64.NaN (Radar.Max bad) = false /\
  snd (Radar.SetValues r (Some bad) []) = None /\
  Radar.values (fst (Radar.SetValues r (Some bad) [])) = Some bad.
Proof. repeat split; vm_compute; reflexivity. Qed.

(** ** The layout packer *)

Section PackFacts.

Context {W : Type}.
Implicit Types (ws : list (Layout.widgetWithConfig W)) (st : Layout.packer W).

Lemma widgetWidth_cases typ :
  Layout.widgetWidth typ = 30 \/ Layout.widgetWidth typ = 50.
Proof. unfold Layout.widgetWidth. destruct (_ || _); auto. Qed.

Lemma row_width_app (r1 r2 : list (Layout.Column W)) :
  Layout.row_width (r1 ++ r2) = Layout.row_width r1 + Layout.row_width r2.
Proof.
  unfold Layout.row_width. rewrite map_app.
  induction (map Layout.widthPerc r1) as [|x l IH]; simpl; lia.
Qed.

Lemma breaks_forced_snoc (rows : list (list (Layout.Column W))) r c cs :
  breaks_forced (rows ++ [r]) ->
  100 < Layout.row_width r + Layout.widthPerc c ->
  breaks_forced ((rows ++ [r]) ++ [c :: cs]).
Proof.
  induction rows as [|r0 rows IH]; simpl.
  - intros _ H. auto.
  - destruct (rows ++ [r]) as [|r1 rest] eqn:E.
    { destruct rows; discriminate. }
    simpl. intros [H1 H2] Hw. split; [assumption|]. apply IH; assumption.
Qed.

(** Extending the last row keeps the breaks forced: only its tail grows. *)
Lemma breaks_forced_grow (rows : list (list (Layout.Column W))) c cs x :
  breaks_forced (rows ++ [c :: cs]) ->
  breaks_forced (rows ++ [(c :: cs) ++ [x]]).
Proof.
  induction rows as [|r0 rows IH]; simpl; [auto|].
  destruct rows as [|r1 rows']; simpl in *.
  - intros [H _]. auto.
  - intros [H1 H2]. split; [assumption|]. apply IH. assumption.
Qed.

Lemma row_width_one (c : Layout.Column W) :
  Layout.row_width [c] = Layout.widthPerc c.
Proof. unfold Layout.row_width. cbn. lia. Qed.

Lemma row_width_nil : Layout.row_width (@nil (Layout.Column W)) = 0.
Proof. reflexivity. Qed.

Local Ltac proj := cbn [Layout.rows Layout.currentRow Layout.currentWidth].

Lemma pack_step_inv ws st w :
  pack_inv ws st -> pack_inv (ws ++ [w]) (Layout.pack_step st w).
Proof.
  intros [Hord Hwid Hbnd Hcur Hemp Hbrk].
  unfold Layout.pack_step. fold (column_of w).
  pose proof (widgetWidth_cases (Layout.typ w)) as Hw.
  assert (Hcol : Layout.widthPerc (column_of w) = Layout.widgetWidth (Layout.typ w))
    by reflexivity.
  destruct (Z.ltb_spec 100 (Layout.currentWidth st + Layout.widgetWidth (Layout.typ w)))
    as [Hover | Hfit];
    destruct (Layout.currentRow st) as [|c cs] eqn:Ecur; cbn [andb length Nat.ltb Nat.leb].
  - (* the row is empty: the widget opens it *)
    rewrite (Hemp eq_refl) in *. rewrite row_width_nil in *.
    constructor; proj; rewrite ?app_nil_l, ?row_width_one, ?Hcol.
    + rewrite map_app, <- Hord. reflexivity.
    + lia.
    + constructor.
    + lia.
    + discriminate.
    + exact I.
  - (* the widget does not fit: the row is closed *)
    constructor; proj; rewrite ?row_width_one, ?Hcol.
    + rewrite map_app, <- Hord, concat_app. cbn. rewrite app_nil_r. reflexivity.
    + reflexivity.
    + apply Forall_app. split; [assumption|]. constructor; [|constructor].
      split; [discriminate | assumption].
    + lia.
    + discriminate.
    + unfold closed_rows in *. rewrite Ecur in Hbrk. revert Hbrk. proj.
      cbn [length Nat.ltb Nat.leb]. intros Hbrk.
      apply breaks_forced_snoc; [assumption|]. rewrite Hcol, <- Hwid. lia.
  - (* the row is empty and the widget fits *)
    rewrite (Hemp eq_refl) in *. rewrite row_width_nil in *.
    constructor; proj; rewrite ?app_nil_l, ?row_width_one, ?Hcol.
    + rewrite map_app, <- Hord. reflexivity.
    + lia.
    + constructor.
    + lia.
    + discriminate.
    + exact I.
  - (* the widget joins the row *)
    constructor; proj; rewrite ?row_width_app, ?row_width_one, ?Hcol.
    + rewrite map_app, <- Hord, <- app_assoc. reflexivity.
    + lia.
    + assumption.
    + lia.
    + discriminate.
    + unfold closed_rows in *. rewrite Ecur in Hbrk. revert Hbrk. proj.
      cbn [length Nat.ltb Nat.leb app]. intros Hbrk.
      apply (breaks_forced_grow _ c cs). assumption.
Qed.

Lemma pack_inv_init : pack_inv (W:=W) [] Layout.pack_init.
Proof. constructor; cbn; done. Qed.

Lemma pack_fold_inv ws : pack_inv ws (fold_left Layout.pack_step ws Layout.pack_init).
Proof.
  induction ws as [|w ws IH] using rev_ind; [apply pack_inv_init|].
  rewrite fold_left_app. cbn. by apply pack_step_inv.
Qed.

End PackFacts.

(** [dynamicGridLayout] hands the packed rows to the grid builder, each with
    the same share of the height left under the title row. *)
Lemma dynamicGridLayout_rows {W} (widgets : gmap string (Layout.Iface W))
    (confs : list Layout.WidgetConfig) (title_row : Z * W) (body : list (Layout.Row W)) :
  Layout.dynamicGridLayout W widgets confs = Layout.Built W title_row body ->
  body = [] \/
  exists ws, Layout.collect W (delete "title"%string widgets) confs = Ok ws /\
             Layout.columns W <$> body = Layout.pack ws /\
             Forall (fun row => Layout.heightPerc W row = 95 / Z.of_nat (length body)) body.
Proof.
  unfold Layout.dynamicGridLayout, Layout.build.
  destruct (widgets !! "title"%string) as [[tw|]|]; try discriminate.
  destruct (size (delete "title"%string widgets) =? 0)%nat.
  { destruct (Layout.Build W _ _); [discriminate|]. intros [= _ <-]. by left. }
  destruct (Layout.collect W _ confs) as [ws|e]; [|discriminate].
  destruct (length (Layout.pack ws) =? 0)%nat; [discriminate|].
  destruct (Layout.Build W _ _); [discriminate|].
  intros [= _ <-]. right. exists ws. split; [reflexivity|]. split.
  - rewrite <- list_fmap_compose. apply list_fmap_id.
  - rewrite length_map. apply Forall_fmap, Forall_forall. intros r _. reflexivity.
Qed.

(** C4: every widget gets the width 30 when its type is pie, donut, gauge or
    radar and 50 otherwise; the rows hold the widgets in their order, no row
    is empty or wider than 100, and a row ends only where the next widget
    would have pushed it past 100.  Five widgets of widths 50, 30, 50, 30, 50
    give the rows [50; 30], [50; 30], [50]. *)
Theorem C4_layout_rows :
  forall (W : Type) (ws : list (Layout.widgetWithConfig W)),
    (forall typ : string,
        Layout.widgetWidth typ =
          if bool_decide (typ ∈ ["pie"; "donut"; "gauge"; "radar"]%string) then 30 else 50) /\
    concat (Layout.pack ws) = map column_of ws /\
    Forall (fun r => r <> [] /\ Layout.row_width r <= 100) (Layout.pack ws) /\
    breaks_forced (Layout.pack ws) /\
    (forall a b c d e : Layout.widgetWithConfig W,
        map (fun w => Layout.widgetWidth (Layout.typ w)) [a; b; c; d; e] = [50; 30; 50; 30; 50] ->
        map (map Layout.widthPerc) (Layout.pack [a; b; c; d; e]) = [[50; 30]; [50; 30]; [50]]).
Proof.
  intros W ws. split; [|split; [|split; [|split]]].
  - intros typ. unfold Layout.widgetWidth.
    destruct (String.eqb_spec typ "pie") as [->|H1]; [reflexivity|].
    destruct (String.eqb_spec typ "donut") as [->|H2]; [reflexivity|].
    destruct (String.eqb_spec typ "gauge") as [->|H3]; [reflexivity|].
    destruct (String.eqb_spec typ "radar") as [->|H4]; [reflexivity|].
    cbn [orb]. rewrite bool_decide_eq_false_2; [reflexivity|].
    rewrite !elem_of_cons, elem_of_nil. tauto.
  - destruct (pack_fold_inv ws) as [Hord _ _ _ Hemp _]. unfold Layout.pack.
    destruct (Layout.currentRow _) as [|c cs] eqn:E; cbn [length Nat.ltb Nat.leb].
    + rewrite <- Hord, app_nil_r. reflexivity.
    + rewrite concat_app. cbn. rewrite app_nil_r. exact Hord.
  - destruct (pack_fold_inv ws) as [_ _ Hbnd Hcur _ _]. unfold Layout.pack.
    destruct (Layout.currentRow _) as [|c cs] eqn:E; cbn [length Nat.ltb Nat.leb].
    + assumption.
    + apply Forall_app. split; [assumption|]. constructor; [|constructor].
      split; [discriminate | assumption].
  - destruct (pack_fold_inv ws) as [_ _ _ _ _ Hbrk]. exact Hbrk.
  - intros a b c d e [= Ha Hb Hc Hd He].
    unfold Layout.pack. cbn [fold_left]. unfold Layout.pack_step, Layout.pack_init.
    cbn [Layout.rows Layout.currentRow Layout.currentWidth].
    rewrite Ha, Hb, Hc, Hd, He. reflexivity.
Qed.

(** ** [NewTable] and the page methods *)

Lemma check_rows_ok_iff numCols rows :
  Table.check_rows numCols rows = None
  <-> Forall (fun row => Table.len row = numCols) rows.
Proof.
  induction rows as [|row rest IH]; simpl.
  - split; [constructor | reflexivity].
  - destruct (Z.eqb_spec (Table.len row) numCols) as [Heq | Hne]; simpl.
    + rewrite IH. split; [intros H; constructor; assumption | intros H; inversion H; assumption].
    + split; [discriminate | intros H; inversion H; contradiction].
Qed.

Lemma NewTable_ok_iff headers rows os :
  is_ok (Table.NewTable headers rows os) = true
  <-> Table.check_rows (Table.expected_cols headers rows) rows = None.
Proof.
  unfold Table.NewTable.
  destruct (Table.check_rows _ rows); simpl; split; congruence.
Qed.

Lemma expected_cols_header h hs rows :
  Table.expected_cols (h :: hs) rows = Z.of_nat (length (h :: hs)).
Proof.
  unfold Table.expected_cols, Table.len.
  destruct (Z.ltb_spec 0 (Z.of_nat (length (h :: hs)))) as [_ | H]; [reflexivity|].
  cbn [length] in H. lia.
Qed.

Lemma expected_cols_no_header rows :
  Table.expected_cols [] rows =
    match rows with row0 :: _ => Z.of_nat (length row0) | [] => 0 end.
Proof. reflexivity. Qed.

Lemma Forall_len_nat {A} (rows : list (list A)) (n : nat) :
  Forall (fun row => Table.len row = Z.of_nat n) rows
  <-> Forall (fun row => length row = n) rows.
Proof.
  unfold Table.len. split; intros H; (eapply Forall_impl; [exact H|]); cbn; intros; lia.
Qed.

(** C5: [NewTable] succeeds exactly when every row is as long as the header,
    if the header is not empty, and as long as the first row otherwise. *)
Theorem C5_NewTable_succeeds_iff :
  forall (headers : list Table.Cell) (rows : list (list Table.Cell))
         (os : list Table.TableOption),
    is_ok (Table.NewTable headers rows os) = true
    <-> (headers <> [] -> Forall (fun row => length row = length headers) rows) /\
        (headers = [] ->
         forall row0, head rows = Some row0 ->
                      Forall (fun row => length row = length row0) rows).
Proof.
  intros headers rows os. rewrite NewTable_ok_iff, check_rows_ok_iff.
  destruct headers as [|h hs].
  - rewrite expected_cols_no_header. destruct rows as [|row0 rest].
    + split; [intros _; split; [congruence | intros _ ? [=]] | constructor].
    + rewrite Forall_len_nat. split.
      * intros H. split; [congruence|]. intros _ r [= <-]. exact H.
      * intros [_ H]. exact (H eq_refl row0 eq_refl).
  - rewrite expected_cols_header, Forall_len_nat. split.
    + intros H. split; [intros _; exact H | discriminate].
    + intros [H _]. apply H. discriminate.
Qed.

(** The page count agrees with the integer ceiling on small tables. *)
Lemma page_count_is_ceiling :
  forallb (fun n => forallb (fun r => Table.page_count n r =? (n + r - 1) / r)
                            (seqZ 1 16))
          (seqZ 1 64) = true.
Proof. vm_compute. reflexivity. Qed.

(** A click inside the rectangle of a button is the page action of that
    button; any other event leaves the table alone. *)
Lemma Mouse_clicks (tb : Table.t) (m : Table.MouseEvent) :
  Table.Mouse tb m =
    if (0 <? Table.MouseButton m) && image.In (Table.Position m) (Table.prevButtonRect tb)
    then (Table.prevPage tb, None)
    else if (0 <? Table.MouseButton m) && image.In (Table.Position m) (Table.nextButtonRect tb)
    then (Table.nextPage tb, None)
    else (tb, None).
Proof.
  unfold Table.Mouse. destruct (0 <? Table.MouseButton m); [|reflexivity].
  cbn [andb]. reflexivity.
Qed.

(** The page stays inside the pages of the table. *)
Lemma page_methods_in_range (tb : Table.t) :
  0 <= Table.currentPage tb < Table.numPages tb ->
  0 <= Table.currentPage (Table.nextPage tb) < Table.numPages (Table.nextPage tb) /\
  0 <= Table.currentPage (Table.prevPage tb) < Table.numPages (Table.prevPage tb).
Proof.
  destruct tb as [h rs o cp rpp np pb nb pr nr]. cbn. intros Hcp.
  unfold Table.nextPage, Table.prevPage. cbn.
  destruct (Z.leb_spec np 1); cbn; [lia|].
  destruct (Z.leb_spec np (cp + 1)); destruct (Z.leb_spec cp 0); cbn; lia.
Qed.

(** C6: a table of 12 rows with 5 rows per page has 3 pages and starts on
    page 0; the next-page action leads from page 0 to page 1 and changes
    nothing on the last page; the previous-page action changes nothing on
    page 0.  The Next button's closure is that next-page action. *)
Theorem C6_pagination :
  forall (headers : list Table.Cell) (rows : list (list Table.Cell))
         (os : list Table.TableOption) (tb : Table.t),
    length rows = 12%nat ->
    Table.NewTable headers rows os = Ok tb ->
    Table.rowsPerPage tb = 5 ->
    Table.numPages tb = 3 /\
    Table.currentPage tb = 0 /\
    Table.currentPage (Table.nextPage tb) = 1 /\
    (forall last, Table.numPages last = 3 -> Table.currentPage last = 2 ->
                  Table.nextPage last = last) /\
    Table.currentPage (Table.nextPage (Table.nextPage tb)) = 2 /\
    Table.nextPage (Table.nextPage (Table.nextPage tb)) = Table.nextPage (Table.nextPage tb) /\
    Table.prevPage tb = tb /\
    (exists b, Table.nextButton tb = Some b /\ Table.press b tb = (Table.nextPage tb, None)).
Proof.
  intros headers rows os tb Hlen Hnew Hrpp.
  unfold Table.NewTable in Hnew.
  destruct (Table.check_rows _ rows); [discriminate|].
  cbn in Hnew. injection Hnew as <-. cbn in Hrpp.
  unfold Table.len. rewrite Hlen, Hrpp.
  assert (Hpc : Table.page_count (Z.of_nat 12) 5 = 3) by (vm_compute; reflexivity).
  rewrite Hpc.
  repeat split; try reflexivity.
  - intros [] Hnp Hcp. cbn in *. subst. reflexivity.
  - eexists. split; reflexivity.
Qed.

(** The witness of C6: twelve one-column rows under the default options. *)
Lemma C6_pagination_witness :
  let rows := replicate 12 [Table.NewCell "x"] in
  exists tb, Table.NewTable [Table.NewCell "h"] rows [] = Ok tb /\
             Table.numPages tb = 3 /\
             Table.currentPage (Table.nextPage tb) = 1 /\
             Table.prevPage tb = tb.
Proof.
  eexists. split; [vm_compute; reflexivity|].
  match goal with |- context [Table.numPages ?t] =>
    pose proof (C6_pagination [Table.NewCell "h"] (replicate 12 [Table.NewCell "x"]) [] t
                  eq_refl eq_refl eq_refl) as H
  end.
  destruct H as (H1 & _ & H3 & _ & _ & _ & H7 & _).
  repeat split; assumption.
Defined.

(** ** [Histogram.SetBins] *)

(** C10: [SetBins] checks nothing: whatever the bins, the bounds, the labels
    and the alert index are, it returns [nil] and stores them as given; the
    two colours are kept. *)
Theorem C10_SetBins_stores_anything :
  forall (h : Histogram.t) (bins : list Z) (min max : Float64.t)
         (labels : list string) (alertBin : Z),
    snd (Histogram.SetBins h bins min max labels alertBin) = None /\
    let h' := fst (Histogram.SetBins h bins min max labels alertBin) in
    Histogram.bins h' = bins /\
    Histogram.min h' = min /\
    Histogram.max h' = max /\
    Histogram.labels h' = labels /\
    Histogram.alertBin h' = alertBin /\
    Histogram.barColor h' = Histogram.barColor h /\
    Histogram.alertCol h' = Histogram.alertCol h.
Proof. intros. cbn. repeat split. Qed.

(** Inputs a validating setter would refuse are stored all the same. *)
Example SetBins_odd_input :
  Histogram.SetBins Histogram.NewHistogram [-3; 7] (Float64.of_int 9) (Float64.of_int 1)
                    ["only one label"%string] 40
  = (Histogram.mk [-3; 7] (Float64.of_int 9) (Float64.of_int 1) ["only one label"%string]
                  (cell.ColorNumber 42) 40 cell.ColorRed, None).
Proof. reflexivity. Qed.

(** ** The dot canvas: [setDot] *)

Lemma or_all_snoc l b : or_all (l ++ [b]) = Z.lor (or_all l) b.
Proof.
  unfold or_all. induction l as [|a l IH]; simpl.
  - apply Z.lor_comm.
  - rewrite IH. apply Z.lor_assoc.
Qed.

Lemma run_dots_snoc calls c st :
  run_dots (calls ++ [c]) st
  = braille.setDot (call_x c) (call_y c) (call_col c) (run_dots calls st).
Proof. unfold run_dots. rewrite fold_left_app. reflexivity. Qed.

Lemma run_dots_app l1 l2 st : run_dots (l1 ++ l2) st = run_dots l2 (run_dots l1 st).
Proof. unfold run_dots. apply fold_left_app. Qed.

Lemma setDot_unfold (bx by_ : Z) (col : Color) (bm : gmap image.Point Z)
    (cm : gmap image.Point Color) :
  braille.setDot bx by_ col (bm, cm) =
    let c := mkCall bx by_ col in
    (<[cell_of c := Z.lor (default 0x2800 (bm !! cell_of c)) (bit_of c)]> bm,
     <[cell_of c := col]> cm).
Proof.
  unfold braille.setDot, cell_of, bit_of. cbn.
  destruct (bm !! image.mkPoint (Z.quot bx 2) (Z.quot by_ 4)); reflexivity.
Qed.

Lemma hits_snoc (pt : image.Point) (calls : list dot_call) (c : dot_call) :
  hits pt (calls ++ [c]) = if decide (cell_of c = pt) then hits pt calls ++ [c] else hits pt calls.
Proof.
  unfold hits. rewrite filter_app, filter_cons, filter_nil.
  destruct (decide (cell_of c = pt)); [reflexivity | apply app_nil_r].
Qed.

(** The state of the two maps after any sequence of calls on empty maps. *)
Lemma run_dots_lookup (calls : list dot_call) (pt : image.Point) :
  fst (run_dots calls braille.no_dots) !! pt
    = (if hits pt calls is [] then None
       else Some (Z.lor 0x2800 (or_all (bit_of <$> hits pt calls)))) /\
  snd (run_dots calls braille.no_dots) !! pt = last (call_col <$> hits pt calls).
Proof.
  induction calls as [|c calls [IHb IHc]] using rev_ind.
  - split; reflexivity.
  - rewrite run_dots_snoc, hits_snoc.
    destruct (run_dots calls braille.no_dots) as [bm cm] eqn:E.
    destruct c as [bx by_ col]. cbn [call_x call_y call_col].
    rewrite setDot_unfold. cbn [fst snd] in *.
    destruct (decide (cell_of (mkCall bx by_ col) = pt)) as [<- | Hne].
    + rewrite !lookup_insert_eq, IHb. split.
      * destruct (hits _ calls) as [|h0 hs] eqn:Eh.
        -- cbn. rewrite Z.lor_0_r. reflexivity.
        -- destruct ((h0 :: hs) ++ [mkCall bx by_ col]) eqn:E2;
             [destruct hs; discriminate|]. rewrite <- E2.
           cbn [default id]. rewrite fmap_app.
           change (bit_of <$> [mkCall bx by_ col]) with [bit_of (mkCall bx by_ col)].
           rewrite or_all_snoc, Z.lor_assoc. reflexivity.
      * rewrite fmap_app.
        change (call_col <$> [mkCall bx by_ col]) with [col].
        rewrite last_snoc. reflexivity.
    + rewrite !lookup_insert_ne by assumption. split; assumption.
Qed.

Lemma mask_of_byte sx sy : Z.land (braille.mask_of sx sy) 0xFF = braille.mask_of sx sy.
Proof.
  unfold braille.mask_of.
  repeat match goal with |- context [if ?b then _ else _] => destruct b end; reflexivity.
Qed.

Lemma or_all_byte l :
  Forall (fun b => Z.land b 0xFF = b) l -> Z.land (or_all l) 0xFF = or_all l.
Proof.
  induction 1 as [|b l Hb _ IH]; [reflexivity|].
  change (or_all (b :: l)) with (Z.lor b (or_all l)).
  rewrite Z.land_lor_distr_l, Hb, IH. reflexivity.
Qed.

(** The low byte of a cell's rune is the OR of the bits set in it. *)
Lemma glyph_mask l :
  Forall (fun b => Z.land b 0xFF = b) l ->
  Z.land (Z.lor 0x2800 (or_all l)) 0xFF = or_all l.
Proof.
  intros H. rewrite Z.land_lor_distr_l, (or_all_byte l H). reflexivity.
Qed.

(** Inside the grid every dot position has a bit of its own. *)
Lemma bit_of_position (bx by_ : Z) (col : Color) :
  0 <= bx -> 0 <= by_ ->
  bit_of (mkCall bx by_ col) = Z.shiftl 1 (dot_index (bx mod 2) (by_ mod 4)) /\
  0 <= dot_index (bx mod 2) (by_ mod 4) < 8.
Proof.
  intros Hx Hy. unfold bit_of. cbn [call_x call_y].
  rewrite !Z.rem_mod_nonneg by lia.
  pose proof (Z.mod_pos_bound bx 2 ltac:(lia)) as H2.
  pose proof (Z.mod_pos_bound by_ 4 ltac:(lia)) as H4.
  assert (Hsx : bx mod 2 = 0 \/ bx mod 2 = 1) by lia.
  assert (Hsy : by_ mod 4 = 0 \/ by_ mod 4 = 1 \/ by_ mod 4 = 2 \/ by_ mod 4 = 3) by lia.
  destruct Hsx as [-> | ->]; destruct Hsy as [-> | [-> | [-> | ->]]];
    (split; [reflexivity | cbn; lia]).
Qed.

(** The scatter plot's closure builds the same [brailleMap]. *)
Lemma setDot_plain_fst (bx by_ : Z) (col : Color) (st : braille.dots) :
  braille.setDot_plain bx by_ (fst st) = fst (braille.setDot bx by_ col st).
Proof.
  destruct st as [bm cm]. unfold braille.setDot_plain, braille.setDot. cbn.
  reflexivity.
Qed.

Lemma run_dots_plain_fst (calls : list dot_call) (st : braille.dots) :
  run_dots_plain calls (fst st) = fst (run_dots calls st).
Proof.
  revert st. induction calls as [|c calls IH]; intros st; [reflexivity|].
  unfold run_dots_plain, run_dots in *. cbn [fold_left].
  rewrite (setDot_plain_fst _ _ (call_col c)). apply IH.
Qed.

Lemma run_dots_plain_app (l1 l2 : list dot_call) (m : gmap image.Point Z) :
  run_dots_plain (l1 ++ l2) m = run_dots_plain l2 (run_dots_plain l1 m).
Proof. unfold run_dots_plain. apply fold_left_app. Qed.

Lemma for_range_plain_calls (lo hi : Z) (body : Z -> gmap image.Point Z -> gmap image.Point Z)
    (f : Z -> list dot_call) (m : gmap image.Point Z) :
  (forall x m', body x m' = run_dots_plain (f x) m') ->
  for_range lo hi body m = run_dots_plain (seqZ lo (hi - lo) ≫= f) m.
Proof.
  intros Hbody. unfold for_range. generalize (seqZ lo (hi - lo)). intros l.
  revert m. induction l as [|x l IH]; intros m; [reflexivity|].
  cbn [fold_left]. rewrite IH, Hbody, bind_cons, run_dots_plain_app. reflexivity.
Qed.

(** The painting of [ScatterPlot.Draw] is a sequence of calls of its
    [setDot] on an empty map: the axes, then one call at most per point. *)
Lemma ScatterPlot_paint_calls (s : ScatterPlot.t) (brailleW brailleH : Z) :
  exists calls, ScatterPlot.paint s brailleW brailleH = run_dots_plain calls ∅.
Proof.
  unfold ScatterPlot.paint.
  destruct (ScatterPlot.bounds _) as [[minX maxX] [minY maxY]].
  destruct (ScatterPlot.widen (minX, maxX)) as [minX' maxX'].
  destruct (ScatterPlot.widen (minY, maxY)) as [minY' maxY'].
  rewrite (for_range_plain_calls ScatterPlot.padding (brailleH - ScatterPlot.padding) _
             (fun y => [mkCall ScatterPlot.padding y 0])) by reflexivity.
  rewrite (for_range_plain_calls ScatterPlot.padding (brailleW - ScatterPlot.padding) _
             (fun x => [mkCall x (brailleH - ScatterPlot.padding) 0])) by reflexivity.
  rewrite <- run_dots_plain_app.
  generalize (ScatterPlot.points s). intros pts.
  match goal with |- context [run_dots_plain ?l ∅] => generalize l end.
  induction pts as [|pt pts IH]; intros axes; [by exists axes|].
  cbn [fold_left]. unfold ScatterPlot.plot_point at 2.
  destruct (_ && _); [|apply IH].
  match goal with
  | |- context [braille.setDot_plain ?bx ?by_ (run_dots_plain axes ∅)] =>
      change (braille.setDot_plain bx by_ (run_dots_plain axes ∅))
        with (run_dots_plain [mkCall bx by_ 0] (run_dots_plain axes ∅))
  end.
  rewrite <- run_dots_plain_app. apply IH.
Qed.

(** The bit a call sets is the bit of its dot, and no bit when the call has
    no dot. *)
Lemma bit_of_dot (c : dot_call) :
  match dot_of c with
  | Some j => 0 <= j < 8 /\ bit_of c = Z.shiftl 1 j
  | None => bit_of c = 0
  end.
Proof.
  unfold dot_of, bit_of.
  pose proof (Z.rem_bound_abs (call_x c) 2 ltac:(lia)) as Hx.
  pose proof (Z.rem_bound_abs (call_y c) 4 ltac:(lia)) as Hy.
  generalize dependent (Z.rem (call_x c) 2). intros sx Hx.
  generalize dependent (Z.rem (call_y c) 4). intros sy Hy.
  assert (Hsx : sx = -1 \/ sx = 0 \/ sx = 1) by lia.
  assert (Hsy : sy = -3 \/ sy = -2 \/ sy = -1 \/ sy = 0 \/ sy = 1 \/ sy = 2 \/ sy = 3) by lia.
  destruct Hsx as [-> | [-> | ->]];
    destruct Hsy as [-> | [-> | [-> | [-> | [-> | [-> | ->]]]]]];
    cbn; (reflexivity || (split; [lia | reflexivity])).
Qed.

Lemma testbit_braille_base (k : Z) : 0 <= k < 8 -> Z.testbit 0x2800 k = false.
Proof.
  intros Hk.
  assert (H : k = 0 \/ k = 1 \/ k = 2 \/ k = 3 \/ k = 4 \/ k = 5 \/ k = 6 \/ k = 7) by lia.
  destruct H as [-> | [-> | [-> | [-> | [-> | [-> | [-> | ->]]]]]]]; reflexivity.
Qed.

(** The bits of a rune built from the calls [l]: bit [k] is set exactly when
    one of the calls sets the dot [k]. *)
Lemma glyph_bits (l : list dot_call) (k : Z) :
  0 <= k < 8 ->
  Z.testbit (Z.lor 0x2800 (or_all (bit_of <$> l))) k = true
  <-> exists c, c ∈ l /\ dot_of c = Some k.
Proof.
  intros Hk. rewrite Z.lor_spec, (testbit_braille_base k Hk), orb_false_l.
  induction l as [|c l IH].
  - cbn. rewrite Z.testbit_0_l. split; [discriminate|].
    intros (c & Hc & _). inversion Hc.
  - rewrite fmap_cons. change (or_all (bit_of c :: (bit_of <$> l)))
      with (Z.lor (bit_of c) (or_all (bit_of <$> l))).
    rewrite Z.lor_spec, orb_true_iff, IH.
    assert (Hbit : Z.testbit (bit_of c) k = true <-> dot_of c = Some k).
    { pose proof (bit_of_dot c) as Hc. destruct (dot_of c) as [j|].
      - destruct Hc as [Hj ->]. rewrite Z.shiftl_1_l, Z.pow2_bits_eqb by lia.
        rewrite Z.eqb_eq. split; [intros ->; reflexivity | intros [= ->]; reflexivity].
      - rewrite Hc, Z.testbit_0_l. split; discriminate. }
    rewrite Hbit. split.
    + intros [Hc | (c' & Hc' & Hd)]; [exists c | exists c']; split; auto; [left | by right].
    + intros (c' & Hc' & Hd). apply elem_of_cons in Hc' as [-> | Hc']; [by left | right; eauto].
Qed.

(** Above the low byte a rune keeps the empty braille rune. *)
Lemma glyph_block (l : list Z) :
  Forall (fun b => Z.land b 0xFF = b) l -> Z.shiftr (Z.lor 0x2800 (or_all l)) 8 = 0x28.
Proof.
  intros H. rewrite Z.shiftr_lor, <- (or_all_byte l H), Z.shiftr_land.
  change (Z.shiftr 0xFF 8) with 0. rewrite Z.land_0_r. reflexivity.
Qed.

(** On the dot grid (coordinates not below 0) a call targets the cell its
    dot lies in, and its dot is the dot at the position inside that cell. *)
Lemma dot_on_grid (c : dot_call) :
  0 <= call_x c -> 0 <= call_y c ->
  cell_of c = image.mkPoint (call_x c / 2) (call_y c / 4) /\
  dot_of c = Some (dot_index (call_x c mod 2) (call_y c mod 4)).
Proof.
  intros Hx Hy. unfold cell_of, dot_of.
  rewrite !Z.quot_div_nonneg, !Z.rem_mod_nonneg by lia.
  pose proof (Z.mod_pos_bound (call_x c) 2 ltac:(lia)).
  pose proof (Z.mod_pos_bound (call_y c) 4 ltac:(lia)).
  destruct (Z.leb_spec 0 (call_x c mod 2)); [|lia].
  destruct (Z.leb_spec 0 (call_y c mod 4)); [|lia].
  split; reflexivity.
Qed.

(** The eight positions of a cell have eight different dots. *)
Lemma dot_index_injective (sx sy sx' sy' : Z) :
  0 <= sx < 2 -> 0 <= sy < 4 -> 0 <= sx' < 2 -> 0 <= sy' < 4 ->
  0 <= dot_index sx sy < 8 /\
  (dot_index sx sy = dot_index sx' sy' -> sx = sx' /\ sy = sy').
Proof.
  intros Hx Hy Hx' Hy'. unfold dot_index.
  destruct (Z.eqb_spec sy 3); destruct (Z.eqb_spec sy' 3); lia.
Qed.

(** C7: after any sequence of [setDot] calls of one draw (the maps start
    empty), a cell no call targeted is absent from both maps; a cell some call
    targeted holds the empty braille rune OR-ed with the bit of every call
    that targeted it: above its low byte the rune is that of the braille
    block, and bit [k] of the low byte (the glyph mask) is set exactly when a
    call that targeted the cell set the braille dot [k]; the colour of the
    cell is the colour of the last call that targeted it.  The scatter plot's
    [setDot] builds the same runes.  On the dot grid a call targets the cell
    its dot lies in and sets the dot at its position inside the cell, and the
    eight positions of a cell have eight different dots, so each has a bit
    of its own. *)
Theorem C7_setDot_accumulates :
  forall (calls : list dot_call) (pt : image.Point),
    let st := run_dots calls braille.no_dots in
    let targeting := hits pt calls in
    (targeting = [] -> fst st !! pt = None /\ snd st !! pt = None) /\
    (targeting <> [] ->
     exists r, fst st !! pt = Some r /\
               r = Z.lor 0x2800 (or_all (bit_of <$> targeting)) /\
               Z.land r 0xFF = or_all (bit_of <$> targeting) /\
               Z.shiftr r 8 = 0x28 /\
               (forall k, 0 <= k < 8 ->
                  (Z.testbit r k = true <-> exists c, c ∈ targeting /\ dot_of c = Some k)) /\
               snd st !! pt = last (call_col <$> targeting) /\
               is_Some (last (call_col <$> targeting))) /\
    run_dots_plain calls ∅ = fst st /\
    (forall c, 0 <= call_x c -> 0 <= call_y c ->
       cell_of c = image.mkPoint (call_x c / 2) (call_y c / 4) /\
       dot_of c = Some (dot_index (call_x c mod 2) (call_y c mod 4))) /\
    (forall sx sy sx' sy',
       0 <= sx < 2 -> 0 <= sy < 4 -> 0 <= sx' < 2 -> 0 <= sy' < 4 ->
       0 <= dot_index sx sy < 8 /\
       (dot_index sx sy = dot_index sx' sy' -> sx = sx' /\ sy = sy')).
Proof.
  intros calls pt st targeting.
  destruct (run_dots_lookup calls pt) as [Hb Hc]. fold st targeting in Hb, Hc.
  split; [|split; [|split; [|split]]].
  - intros Hnil. rewrite Hb, Hc, Hnil. split; reflexivity.
  - intros Hne. destruct targeting as [|h0 hs] eqn:E; [contradiction|].
    assert (Hbytes : Forall (fun b => Z.land b 0xFF = b) (bit_of <$> h0 :: hs)).
    { apply Forall_fmap, Forall_forall. intros c _. apply mask_of_byte. }
    eexists. split; [exact Hb|]. split; [reflexivity|].
    split; [apply glyph_mask, Hbytes|].
    split; [apply glyph_block, Hbytes|].
    split; [intros k Hk; apply glyph_bits, Hk|].
    split; [exact Hc|].
    rewrite fmap_cons. destruct (last_is_Some (call_col h0 :: (call_col <$> hs))) as [_ H].
    apply H. discriminate.
  - apply (run_dots_plain_fst calls braille.no_dots).
  - apply dot_on_grid.
  - apply dot_index_injective.
Qed.

(** ** [Histogram.Draw] *)

(** *** The loops as sequences of calls *)

Lemma for_range_calls (lo hi : Z) (body : Z -> braille.dots -> braille.dots)
    (f : Z -> list dot_call) (st : braille.dots) :
  (forall x s, body x s = run_dots (f x) s) ->
  for_range lo hi body st = run_dots (seqZ lo (hi - lo) ≫= f) st.
Proof.
  intros Hbody. unfold for_range. generalize (seqZ lo (hi - lo)). intros l.
  revert st. induction l as [|x l IH]; intros st; [reflexivity|].
  cbn [fold_left]. rewrite IH, Hbody, bind_cons, run_dots_app. reflexivity.
Qed.

Lemma for_each_calls {A} (l : list A) (body : Z -> A -> braille.dots -> braille.dots)
    (f : Z -> A -> list dot_call) (st : braille.dots) :
  (forall i v s, body i v s = run_dots (f i v) s) ->
  for_each l body st = run_dots (concat (imap (fun i v => f (Z.of_nat i) v) l)) st.
Proof.
  intros Hbody. unfold for_each.
  assert (Hgen : forall (k : nat) st,
             fold_left (fun s iv => body (Z.of_nat (fst iv)) (snd iv) s)
                       (imap (fun i v => (k + i, v)%nat) l) st
             = run_dots (concat (imap (fun i v => f (Z.of_nat (k + i)) v) l)) st).
  { induction l as [|a l IH]; intros k st'; [reflexivity|].
    cbn [imap fold_left concat fst snd]. rewrite run_dots_app, <- Hbody.
    rewrite Nat.add_0_r.
    rewrite (imap_ext ((fun i v => ((k + i)%nat, v)) ∘ S)
                      (fun i v => ((S k + i)%nat, v)) l)
      by (intros i x _; cbn; f_equal; lia).
    rewrite (imap_ext ((fun i v => f (Z.of_nat (k + i)) v) ∘ S)
                      (fun i v => f (Z.of_nat (S k + i)) v) l)
      by (intros i x _; cbn; do 2 f_equal; lia).
    apply IH. }
  apply (Hgen 0%nat).
Qed.

Lemma draw_bar_calls (h : Histogram.t) (g : Histogram.geometry) (maxBin i v : Z)
    (st : braille.dots) :
  Histogram.draw_bar h g maxBin i v st = run_dots (bar_calls h g maxBin i v) st.
Proof.
  unfold Histogram.draw_bar, bar_calls.
  apply for_range_calls. intros x s.
  apply for_range_calls. intros y s'.
  destruct (_ && _); reflexivity.
Qed.

Lemma tagged_calls_snd (h : Histogram.t) (g : Histogram.geometry) :
  snd <$> tagged_calls h g
  = concat (imap (fun i v => bar_calls h g (Histogram.max_bin (Histogram.bins h))
                               (Z.of_nat i) v) (Histogram.bins h)).
Proof.
  unfold tagged_calls. generalize (Histogram.max_bin (Histogram.bins h)). intros mb.
  generalize (Histogram.bins h). intros l.
  assert (Hgen : forall k : nat,
             snd <$> concat (imap (fun i v => pair (Z.of_nat (k + i)) <$>
                                     bar_calls h g mb (Z.of_nat (k + i)) v) l)
             = concat (imap (fun i v => bar_calls h g mb (Z.of_nat (k + i)) v) l)).
  { induction l as [|a l IH]; intros k; [reflexivity|].
    cbn [imap concat]. rewrite fmap_app, <- list_fmap_compose.
    rewrite (list_fmap_ext (snd ∘ pair (Z.of_nat (k + 0))) id) by reflexivity.
    rewrite list_fmap_id. f_equal.
    rewrite (imap_ext ((fun i v => pair (Z.of_nat (k + i)) <$>
                          bar_calls h g mb (Z.of_nat (k + i)) v) ∘ S)
                      (fun i v => pair (Z.of_nat (S k + i)) <$>
                          bar_calls h g mb (Z.of_nat (S k + i)) v) l)
      by (intros i x _; cbn; replace (k + S i)%nat with (S (k + i)) by lia; reflexivity).
    rewrite (imap_ext ((fun i v => bar_calls h g mb (Z.of_nat (k + i)) v) ∘ S)
                      (fun i v => bar_calls h g mb (Z.of_nat (S k + i)) v) l)
      by (intros i x _; cbn; replace (k + S i)%nat with (S (k + i)) by lia; reflexivity).
    apply IH. }
  apply (Hgen 0%nat).
Qed.

(** The painting of [Draw] is a sequence of [setDot] calls on empty maps. *)
Lemma paint_calls (h : Histogram.t) (g : Histogram.geometry) :
  Histogram.paint h g = run_dots (snd <$> tagged_calls h g) braille.no_dots.
Proof.
  unfold Histogram.paint. rewrite tagged_calls_snd.
  apply for_each_calls. intros i v s. apply draw_bar_calls.
Qed.

(** *** Writing the cells, whatever the order of the visit *)

Lemma SetCell_size (cvs : canvas.t) (p : image.Point) (r : Z) (opts : list cell.Option) :
  canvas.width (fst (canvas.SetCell cvs p r opts)) = canvas.width cvs /\
  canvas.height (fst (canvas.SetCell cvs p r opts)) = canvas.height cvs.
Proof. unfold canvas.SetCell. destruct (image.In _ _); split; reflexivity. Qed.

Lemma SetCell_Area (cvs : canvas.t) (p : image.Point) (r : Z) (opts : list cell.Option) :
  canvas.Area (fst (canvas.SetCell cvs p r opts)) = canvas.Area cvs.
Proof.
  unfold canvas.Area. destruct (SetCell_size cvs p r opts) as [-> ->]. reflexivity.
Qed.

Lemma write_cells_lookup (entries : list (image.Point * Z)) (color_of : image.Point -> Color)
    (cvs : canvas.t) (k : image.Point) :
  NoDup entries.*1 ->
  canvas.cells (braille.write_cells entries color_of cvs) !! k
    = canvas.cells (written (list_to_map entries) color_of cvs) !! k /\
  canvas.width (braille.write_cells entries color_of cvs) = canvas.width cvs /\
  canvas.height (braille.write_cells entries color_of cvs) = canvas.height cvs.
Proof.
  revert cvs. induction entries as [|[p r] es IH]; intros cvs Hnd.
  - cbn. rewrite map_imap_empty, (left_id_L ∅ (∪)). repeat split.
  - apply NoDup_cons in Hnd as [Hp Hnd]. cbn [fmap list_fmap fst] in Hp.
    unfold braille.write_cells in *. cbn [fold_left fst snd].
    destruct (IH (fst (canvas.SetCell cvs p r [cell.FgColor (color_of p)])) Hnd)
      as (Hc & Hw & Hh).
    destruct (SetCell_size cvs p r [cell.FgColor (color_of p)]) as [Hw' Hh'].
    rewrite Hc, Hw, Hh, Hw', Hh'. split; [|split; reflexivity].
    unfold written. cbn [canvas.cells list_to_map foldr fst snd uncurry].
    rewrite !lookup_union, !map_lookup_imap, SetCell_Area.
    assert (Hes : (list_to_map es : gmap image.Point Z) !! p = None)
      by (apply not_elem_of_list_to_map_1; exact Hp).
    destruct (decide (p = k)) as [-> | Hne].
    + rewrite Hes, lookup_insert_eq. cbn [mbind option_bind].
      unfold canvas.SetCell. destruct (image.In k (canvas.Area cvs)) eqn:Ein.
      * cbn. rewrite lookup_insert_eq. destruct (canvas.cells cvs !! k); reflexivity.
      * cbn. destruct (canvas.cells cvs !! k); reflexivity.
    + rewrite lookup_insert_ne by assumption.
      assert (Hsame : canvas.cells (fst (canvas.SetCell cvs p r [cell.FgColor (color_of p)])) !! k
                      = canvas.cells cvs !! k).
      { unfold canvas.SetCell. destruct (image.In p (canvas.Area cvs)); [|reflexivity].
        cbn. apply lookup_insert_ne. assumption. }
      rewrite Hsame. reflexivity.
Qed.

Lemma canvas_eq (c1 c2 : canvas.t) :
  canvas.width c1 = canvas.width c2 -> canvas.height c1 = canvas.height c2 ->
  (forall k, canvas.cells c1 !! k = canvas.cells c2 !! k) -> c1 = c2.
Proof.
  destruct c1, c2. cbn. intros -> -> H. f_equal. apply map_eq. exact H.
Qed.

(** The last loop of a draw gives the same canvas in every order. *)
Lemma write_cells_any_order (ord : map_order) (brailleMap : gmap image.Point Z)
    (color_of : image.Point -> Color) (cvs : canvas.t) :
  (forall l, ord l ≡ₚ l) ->
  braille.write_cells (ord (map_to_list brailleMap)) color_of cvs
  = written brailleMap color_of cvs.
Proof.
  intros Hord.
  assert (Hnd : NoDup (ord (map_to_list brailleMap)).*1).
  { rewrite (Hord (map_to_list brailleMap)). apply NoDup_fst_map_to_list. }
  assert (Hmap : list_to_map (ord (map_to_list brailleMap)) = brailleMap).
  { rewrite <- (list_to_map_to_list brailleMap) at 2.
    apply list_to_map_proper; [exact Hnd | apply Hord]. }
  apply canvas_eq.
  - apply (write_cells_lookup _ color_of cvs (0, 0) Hnd).
  - apply (write_cells_lookup _ color_of cvs (0, 0) Hnd).
  - intros k. destruct (write_cells_lookup _ color_of cvs k Hnd) as (Hc & _ & _).
    rewrite Hc, Hmap. reflexivity.
Qed.

(** *** Where the bars lie *)

Lemma Area_eq (cvs : canvas.t) :
  canvas.Area cvs
  = image.mkRect (image.mkPoint 0 0)
                 (image.mkPoint (Z.of_nat (canvas.width cvs)) (Z.of_nat (canvas.height cvs))).
Proof.
  unfold canvas.Area, image.Rect.
  destruct (Z.ltb_spec (Z.of_nat (canvas.width cvs)) 0); [lia|].
  destruct (Z.ltb_spec (Z.of_nat (canvas.height cvs)) 0); [lia|]. reflexivity.
Qed.

Lemma In_Area (cvs : canvas.t) (x y : Z) :
  image.In (image.mkPoint x y) (canvas.Area cvs) = true
  <-> 0 <= x < Z.of_nat (canvas.width cvs) /\ 0 <= y < Z.of_nat (canvas.height cvs).
Proof.
  rewrite Area_eq. unfold image.In. cbn.
  rewrite !andb_true_iff, !Z.leb_le, !Z.ltb_lt. lia.
Qed.

Lemma geometry_of_facts (h : Histogram.t) (cvs : canvas.t) :
  let g := Histogram.geometry_of h cvs in
  Histogram.brailleW g = Z.of_nat (canvas.width cvs) * 2 /\
  Histogram.brailleH g = Z.of_nat (canvas.height cvs) * 4 /\
  Histogram.originX g = 4 /\
  Histogram.originY g = Z.of_nat (canvas.height cvs) * 4 - 4 /\
  Histogram.actualBarWidth g
    = Histogram.barWidth g - (if 2 <? Histogram.barWidth g then 1 else 0).
Proof.
  unfold Histogram.geometry_of. rewrite Area_eq. cbn. unfold image.Dx, image.Dy. cbn.
  unfold Histogram.padding. repeat split; try lia.
Qed.

Lemma elem_of_bar_calls (h : Histogram.t) (g : Histogram.geometry) (maxBin i v : Z)
    (c : dot_call) :
  c ∈ bar_calls h g maxBin i v ->
  exists x y,
    0 <= x < Histogram.actualBarWidth g /\ 0 <= y /\
    Histogram.originX g + i * Histogram.barWidth g + x < Histogram.brailleW g /\
    0 <= Histogram.originY g - 1 - y /\
    c = mkCall (Histogram.originX g + i * Histogram.barWidth g + x)
               (Histogram.originY g - 1 - y) (Histogram.bar_color h i).
Proof.
  unfold bar_calls. intros Hin.
  apply list_elem_of_bind in Hin as (x & Hin & Hx).
  apply list_elem_of_bind in Hin as (y & Hin & Hy).
  apply elem_of_seqZ in Hx. apply elem_of_seqZ in Hy.
  destruct (Z.ltb_spec (Histogram.originX g + i * Histogram.barWidth g + x)
                       (Histogram.brailleW g)) as [Hbx | ?]; cbn [andb] in Hin;
    [|by apply elem_of_nil in Hin].
  destruct (Z.leb_spec 0 (Histogram.originY g - 1 - y)) as [Hby | ?];
    [|by apply elem_of_nil in Hin].
  apply list_elem_of_singleton in Hin. exists x, y. repeat split; try lia. exact Hin.
Qed.

Lemma elem_of_tagged_calls (h : Histogram.t) (g : Histogram.geometry) (j : Z) (c : dot_call) :
  (j, c) ∈ tagged_calls h g ->
  0 <= j /\ exists v, c ∈ bar_calls h g (Histogram.max_bin (Histogram.bins h)) j v.
Proof.
  unfold tagged_calls. generalize (Histogram.max_bin (Histogram.bins h)). intros mb.
  generalize (Histogram.bins h). intros l.
  assert (Hgen : forall k : nat,
             (j, c) ∈ concat (imap (fun i v => pair (Z.of_nat (k + i)) <$>
                                      bar_calls h g mb (Z.of_nat (k + i)) v) l) ->
             0 <= j /\ exists v, c ∈ bar_calls h g mb j v).
  { induction l as [|a l IH]; intros k Hin.
    - by apply elem_of_nil in Hin.
    - cbn [imap concat] in Hin. apply elem_of_app in Hin as [Hin | Hin].
      + apply list_elem_of_fmap in Hin as (c' & [= -> ->] & Hc). split; [lia|]. eauto.
      + apply (IH (S k)).
        rewrite <- (imap_ext ((fun i v => pair (Z.of_nat (k + i)) <$>
                                 bar_calls h g mb (Z.of_nat (k + i)) v) ∘ S) _ l); [exact Hin|].
        intros i x _. cbn. replace (k + S i)%nat with (S (k + i)) by lia. reflexivity. }
  apply (Hgen 0%nat).
Qed.

(** What a call of bar [j] looks like on the canvas [cvs]. *)
Lemma tagged_call_facts (h : Histogram.t) (cvs : canvas.t) (j : Z) (c : dot_call) :
  let g := Histogram.geometry_of h cvs in
  let bw := Histogram.barWidth g in
  (j, c) ∈ tagged_calls h g ->
  0 <= j /\
  4 + j * bw <= call_x c /\
  call_x c <= 4 + j * bw + (bw - (if 2 <? bw then 1 else 0)) - 1 /\
  call_x c < Z.of_nat (canvas.width cvs) * 2 /\
  0 <= call_y c < Z.of_nat (canvas.height cvs) * 4 /\
  call_col c = Histogram.bar_color h j.
Proof.
  intros g bw Hin. apply elem_of_tagged_calls in Hin as (Hj & v & Hin).
  apply elem_of_bar_calls in Hin as (x & y & Hx & Hy & Hbx & Hby & ->).
  destruct (geometry_of_facts h cvs) as (HW & HH & HoX & HoY & Habw).
  fold g in HW, HH, HoX, HoY, Habw. fold bw in Habw.
  rewrite HoX, HW in *. rewrite HoY in *. rewrite Habw in Hx. fold bw in Hbx |- *.
  cbn [call_x call_y call_col]. repeat split; try lia.
Qed.

(** Bars at least two dots wide never meet in a cell: the cell columns of an
    earlier bar lie left of those of a later one. *)
Lemma bars_apart (bw i j xi xj : Z) :
  2 <= bw -> 0 <= i < j ->
  4 + i * bw <= xi <= 4 + i * bw + (bw - (if 2 <? bw then 1 else 0)) - 1 ->
  4 + j * bw <= xj ->
  Z.quot xi 2 < Z.quot xj 2.
Proof.
  intros Hbw Hij Hxi Hxj.
  assert (Hi : 0 <= i * bw) by nia.
  assert (Hj : (i + 1) * bw <= j * bw) by nia.
  rewrite !Z.quot_div_nonneg by lia.
  destruct (Z.ltb_spec 2 bw) as [Hwide | Htwo].
  - assert (Hstep : xi + 2 <= xj) by lia.
    apply (Z.div_le_mono _ _ 2 ltac:(lia)) in Hstep.
    replace (xi + 2) with (xi + 1 * 2) in Hstep by lia.
    rewrite Z.div_add in Hstep by lia. lia.
  - assert (bw = 2) as -> by lia.
    assert (Hl : xi / 2 < 3 + i).
    { apply Z.div_lt_upper_bound; lia. }
    assert (Hr : 3 + i <= xj / 2).
    { apply Z.div_le_lower_bound; lia. }
    lia.
Qed.

Lemma bars_share_no_cell (h : Histogram.t) (cvs : canvas.t) (i j : Z) (ci cj : dot_call) :
  let g := Histogram.geometry_of h cvs in
  2 <= Histogram.barWidth g ->
  (i, ci) ∈ tagged_calls h g -> (j, cj) ∈ tagged_calls h g ->
  cell_of ci = cell_of cj -> i = j.
Proof.
  intros g Hbw Hi Hj Hcell.
  apply tagged_call_facts in Hi as (Hi0 & Hil & Hih & _).
  apply tagged_call_facts in Hj as (Hj0 & Hjl & Hjh & _).
  fold g in Hil, Hih, Hjl, Hjh.
  injection Hcell as Hx _.
  destruct (Z.lt_trichotomy i j) as [Hlt | [Heq | Hgt]]; [|exact Heq|].
  - pose proof (bars_apart (Histogram.barWidth g) i j (call_x ci) (call_x cj)
                  Hbw ltac:(lia) ltac:(lia) Hjl). lia.
  - pose proof (bars_apart (Histogram.barWidth g) j i (call_x cj) (call_x ci)
                  Hbw ltac:(lia) ltac:(lia) Hil). lia.
Qed.

(** *** The colour a painted cell ends with *)

Lemma last_all_eq {A} (l : list A) (a : A) :
  l <> [] -> Forall (fun x => x = a) l -> last l = Some a.
Proof.
  induction l as [|x l IH] using rev_ind; [contradiction|].
  intros _ Hall. rewrite last_snoc. apply Forall_app in Hall as [_ Hx].
  inversion Hx; subst. reflexivity.
Qed.

Lemma elem_of_hits (pt : image.Point) (calls : list dot_call) (c : dot_call) :
  c ∈ hits pt calls <-> c ∈ calls /\ cell_of c = pt.
Proof. unfold hits. rewrite list_elem_of_filter. tauto. Qed.

(** In the maps of the painting a cell painted only by bar [i] has a rune
    and the colour of bar [i]. *)
Lemma paint_cell (h : Histogram.t) (g : Histogram.geometry) (i : Z) (c : dot_call) :
  (i, c) ∈ tagged_calls h g ->
  (forall j c', (j, c') ∈ tagged_calls h g -> cell_of c' = cell_of c ->
                call_col c' = Histogram.bar_color h i) ->
  is_Some (fst (Histogram.paint h g) !! cell_of c) /\
  snd (Histogram.paint h g) !! cell_of c = Some (Histogram.bar_color h i).
Proof.
  intros Hin Hall. rewrite paint_calls.
  destruct (run_dots_lookup (snd <$> tagged_calls h g) (cell_of c)) as [Hb Hc].
  assert (Hhit : c ∈ hits (cell_of c) (snd <$> tagged_calls h g)).
  { apply elem_of_hits. split; [|reflexivity].
    apply list_elem_of_fmap. exists (i, c). split; [reflexivity | exact Hin]. }
  assert (Hne : hits (cell_of c) (snd <$> tagged_calls h g) <> []).
  { intros E. rewrite E in Hhit. by apply elem_of_nil in Hhit. }
  split.
  - rewrite Hb. destruct (hits _ _); [contradiction | eauto].
  - rewrite Hc. apply last_all_eq.
    + intros E. apply fmap_nil_inv in E. contradiction.
    + apply Forall_fmap, Forall_forall. intros c' Hc'. cbn.
      apply elem_of_hits in Hc' as [Hc' Hcell].
      apply list_elem_of_fmap in Hc' as ([j c''] & -> & Hc'').
      apply (Hall j c''); assumption.
Qed.

(** *** The canvas [Draw] leaves *)

Lemma Histogram_Draw_canvas (ord : map_order) (h : Histogram.t) (cvs : canvas.t) :
  (forall l, ord l ≡ₚ l) ->
  drawn_calls h cvs <> [] ->
  let g := Histogram.geometry_of h cvs in
  drawn_calls h cvs = tagged_calls h g /\
  canvas_after (Histogram.Draw ord h cvs)
  = written (fst (Histogram.paint h g))
            (fun pt => default 0 (snd (Histogram.paint h g) !! pt)) cvs.
Proof.
  intros Hord Hdrawn g. unfold drawn_calls, Histogram.Draw in *. fold g in Hdrawn |- *.
  destruct (length (Histogram.bins h) =? 0)%nat; [contradiction|].
  destruct ((Histogram.plotW g <=? 0) || (Histogram.plotH g <=? 0)); [contradiction|].
  split; [reflexivity|].
  destruct (Histogram.paint h g) as [bm cm]. cbn.
  apply write_cells_any_order. exact Hord.
Qed.

(** A cell painted by one bar only shows that bar's colour on the canvas. *)
Lemma Histogram_Draw_cell (ord : map_order) (h : Histogram.t) (cvs : canvas.t)
    (i : Z) (c : dot_call) :
  (forall l, ord l ≡ₚ l) ->
  (i, c) ∈ drawn_calls h cvs ->
  (forall j c', (j, c') ∈ drawn_calls h cvs -> cell_of c' = cell_of c -> j = i) ->
  2 <= Histogram.barWidth (Histogram.geometry_of h cvs) ->
  fg_at (canvas_after (Histogram.Draw ord h cvs)) (cell_of c)
  = Some (Histogram.bar_color h i).
Proof.
  intros Hord Hin Honly Hbw.
  assert (Hne : drawn_calls h cvs <> []).
  { intros E. rewrite E in Hin. by apply elem_of_nil in Hin. }
  destruct (Histogram_Draw_canvas ord h cvs Hord Hne) as [Hcalls Hcvs].
  rewrite Hcalls in Hin, Honly. rewrite Hcvs.
  destruct (paint_cell h (Histogram.geometry_of h cvs) i c Hin) as [[r Hr] Hcol].
  { intros j c' Hj Hcell. rewrite (Honly j c' Hj Hcell) in Hj.
    apply (tagged_call_facts h cvs) in Hj. tauto. }
  unfold fg_at, written. cbn [canvas.cells].
  rewrite lookup_union, map_lookup_imap, Hr. cbn [mbind option_bind].
  assert (Hin_area : image.In (cell_of c) (canvas.Area cvs) = true).
  { pose proof (tagged_call_facts h cvs i c Hin) as (Hi & Hxl & _ & Hxh & Hy & _).
    cbv zeta in Hxl.
    set (bw := Histogram.barWidth (Histogram.geometry_of h cvs)) in *.
    assert (0 <= i * bw) by nia.
    unfold cell_of. apply In_Area.
    rewrite !Z.quot_div_nonneg by lia. split; split.
    - apply Z.div_pos; lia.
    - apply Z.div_lt_upper_bound; lia.
    - apply Z.div_pos; lia.
    - apply Z.div_lt_upper_bound; lia. }
  rewrite Hin_area, Hcol. cbn. destruct (canvas.cells cvs !! cell_of c); reflexivity.
Qed.

(** Five bars are at least two dots wide on canvases 9 to 500 cells wide. *)
Lemma five_bars_two_dots_wide (h : Histogram.t) (cvs : canvas.t) :
  length (Histogram.bins h) = 5%nat ->
  (9 <= canvas.width cvs <= 500)%nat ->
  2 <= Histogram.barWidth (Histogram.geometry_of h cvs).
Proof.
  intros Hlen Hw.
  assert (Hall : forallb (fun w => 2 <=? Histogram.bar_width (Z.of_nat w * 2 - 8) 5)
                         (seq 9 492) = true) by (vm_compute; reflexivity).
  rewrite forallb_forall in Hall.
  specialize (Hall (canvas.width cvs) ltac:(apply in_seq; lia)).
  apply Z.leb_le in Hall.
  unfold Histogram.geometry_of. rewrite Area_eq, Hlen. cbn [Histogram.barWidth].
  unfold image.Dx. cbn [image.X image.Max image.Min image.mkPoint fst snd].
  unfold Histogram.padding.
  replace ((Z.of_nat (canvas.width cvs) - 0) * 2 - 4 * 2)
    with (Z.of_nat (canvas.width cvs) * 2 - 8) by lia.
  exact Hall.
Qed.

(** C8 as stated fails on a narrow canvas: on 5 by 5 cells the five bars are
    one dot wide, the bars of the bins 2 and 3 fall into the cell column 3,
    and the cell (3, 3), painted for bin 2, ends with the base colour. *)
Lemma C8_narrow_canvas_hides_alert :
  let h := histogram_1_to_5 in
  let cvs := empty_canvas 5 5 in
  Histogram.bins h = [1; 2; 3; 4; 5] /\ Histogram.alertBin h = 2 /\
  painted_for h cvs 2 (image.mkPoint 3 3) /\
  fg_at (canvas_after (Histogram.Draw (fun l => l) h cvs)) (image.mkPoint 3 3)
    = Some (Histogram.barColor h) /\
  Histogram.barColor h <> Histogram.alertCol h.
Proof.
  cbv zeta. split; [reflexivity|]. split; [reflexivity|]. split; [|split].
  - exists (mkCall 6 15 (Histogram.alertCol histogram_1_to_5)). split; [|reflexivity].
    apply (bool_decide_unpack _). vm_compute. reflexivity.
  - vm_compute. reflexivity.
  - vm_compute. discriminate.
Qed.

(** C8, amended: when the bars are at least two dots wide, every cell [Draw]
    paints for the bin of index 2 ends with the alert colour and every cell it
    paints for another bin ends with the base colour, in whatever order the
    cells are written. *)
Theorem C8_alert_bar_colour :
  forall (ord : map_order) (h : Histogram.t) (cvs : canvas.t),
    (forall l, ord l ≡ₚ l) ->
    Histogram.bins h = [1; 2; 3; 4; 5] ->
    Histogram.alertBin h = 2 ->
    2 <= Histogram.barWidth (Histogram.geometry_of h cvs) ->
    forall (i : Z) (pt : image.Point),
      painted_for h cvs i pt ->
      fg_at (canvas_after (Histogram.Draw ord h cvs)) pt
      = Some (if i =? 2 then Histogram.alertCol h else Histogram.barColor h).
Proof.
  intros ord h cvs Hord Hbins Halert Hbw i pt (c & Hin & <-).
  rewrite (Histogram_Draw_cell ord h cvs i c Hord Hin); [| |exact Hbw].
  - unfold Histogram.bar_color. rewrite Halert, (Z.eqb_sym 2 i). reflexivity.
  - intros j c' Hj Hcell.
    assert (Hne : drawn_calls h cvs <> []).
    { intros E. rewrite E in Hin. by apply elem_of_nil in Hin. }
    destruct (Histogram_Draw_canvas ord h cvs Hord Hne) as [Hcalls _].
    rewrite Hcalls in Hin, Hj.
    exact (bars_share_no_cell h cvs j i c' c Hbw Hj Hin Hcell).
Qed.

(** The witness of C8: the claim's histogram on a canvas of 9 by 5 cells,
    where the bars are two dots wide and the cell (4, 3) belongs to bin 2. *)
Lemma C8_alert_bar_colour_witness :
  fg_at (canvas_after (Histogram.Draw (fun l => l) histogram_1_to_5 (empty_canvas 9 5)))
        (image.mkPoint 4 3)
  = Some (Histogram.alertCol histogram_1_to_5).
Proof.
  apply (C8_alert_bar_colour (fun l => l) histogram_1_to_5 (empty_canvas 9 5)
           (fun l => reflexivity l) eq_refl eq_refl
           ltac:(vm_compute; discriminate) 2 (image.mkPoint 4 3)).
  exists (mkCall 8 15 (Histogram.alertCol histogram_1_to_5)). split; [|reflexivity].
  apply (bool_decide_unpack _). vm_compute. reflexivity.
Defined.

(** ** Drawing twice *)

Ltac destruct_matches :=
  repeat match goal with
         | |- context [match ?x with _ => _ end] => destruct x eqn:?
         end.

(** *** The widgets whose [Draw] writes no field *)

Lemma Funnel_Draw_state `{Host} (f : Funnel.t) (cvs : canvas.t) :
  widget_after (Funnel.Draw f cvs) = f.
Proof. unfold Funnel.Draw. destruct_matches; reflexivity. Qed.

Lemma PieChart_Draw_state `{Host} (n : nat) (p : PieChart.t) (cvs : canvas.t) :
  widget_after (PieChart.Draw n p cvs) = p.
Proof. unfold PieChart.Draw. destruct_matches; reflexivity. Qed.

Lemma Radar_Draw_state `{Host} (r : Radar.t) (cvs : canvas.t) :
  widget_after (Radar.Draw r cvs) = r.
Proof. unfold Radar.Draw. destruct_matches; reflexivity. Qed.

Lemma ScatterPlot_Draw_state (ord : map_order) (s : ScatterPlot.t) (cvs : canvas.t) :
  widget_after (ScatterPlot.Draw ord s cvs) = s.
Proof. unfold ScatterPlot.Draw. destruct_matches; reflexivity. Qed.

Lemma Histogram_Draw_state (ord : map_order) (h : Histogram.t) (cvs : canvas.t) :
  widget_after (Histogram.Draw ord h cvs) = h.
Proof. unfold Histogram.Draw. destruct_matches; reflexivity. Qed.

(** *** The two widgets that range over a map *)

Lemma ScatterPlot_Draw_any_order (ord1 ord2 : map_order) (s : ScatterPlot.t) (cvs : canvas.t) :
  (forall l, ord1 l ≡ₚ l) -> (forall l, ord2 l ≡ₚ l) ->
  ScatterPlot.Draw ord1 s cvs = ScatterPlot.Draw ord2 s cvs.
Proof.
  intros H1 H2. unfold ScatterPlot.Draw.
  destruct (length (ScatterPlot.points s) =? 0)%nat; [reflexivity|].
  destruct (_ || _); [reflexivity|].
  cbv zeta. rewrite !write_cells_any_order by assumption. reflexivity.
Qed.

Lemma Histogram_Draw_any_order (ord1 ord2 : map_order) (h : Histogram.t) (cvs : canvas.t) :
  (forall l, ord1 l ≡ₚ l) -> (forall l, ord2 l ≡ₚ l) ->
  Histogram.Draw ord1 h cvs = Histogram.Draw ord2 h cvs.
Proof.
  intros H1 H2. unfold Histogram.Draw.
  destruct (length (Histogram.bins h) =? 0)%nat; [reflexivity|].
  destruct (_ || _); [reflexivity|].
  destruct (Histogram.paint h _) as [bm cm].
  rewrite !write_cells_any_order by assumption. reflexivity.
Qed.

(** *** The table *)

Lemma reset_page_with_rects (pr nr : image.Rectangle) (tb : Table.t) :
  Table.reset_page (with_rects pr nr tb) = with_rects pr nr (Table.reset_page tb).
Proof.
  destruct tb. unfold Table.reset_page, Table.page_bounds, with_rects. cbn.
  destruct (_ && _); reflexivity.
Qed.

Lemma reset_page_idem (tb : Table.t) :
  Table.reset_page (Table.reset_page tb) = Table.reset_page tb.
Proof.
  destruct tb as [h rs o cp rpp np pb nb pr nr].
  pose (b := (Table.len rs <=? cp * rpp) && (0 <? Table.len rs)).
  assert (E1 : (Table.len rs <=? cp * rpp) && (0 <? Table.len rs) = b) by reflexivity.
  clearbody b. destruct b.
  - assert (Hreset : Table.reset_page (Table.mk h rs o cp rpp np pb nb pr nr)
                     = Table.mk h rs o (np - 1) rpp np pb nb pr nr).
    { unfold Table.reset_page, Table.page_bounds. cbn. rewrite E1. reflexivity. }
    rewrite Hreset. clear E1 Hreset. unfold Table.reset_page, Table.page_bounds. cbn.
    destruct (_ && _); reflexivity.
  - assert (Hreset : Table.reset_page (Table.mk h rs o cp rpp np pb nb pr nr)
                     = Table.mk h rs o cp rpp np pb nb pr nr).
    { unfold Table.reset_page, Table.page_bounds. cbn. rewrite E1. reflexivity. }
    rewrite !Hreset. reflexivity.
Qed.

Lemma same_data_with_rects (pr nr : image.Rectangle) (tb : Table.t) :
  same_data (with_rects pr nr tb) tb.
Proof. destruct tb. repeat split. Qed.

Lemma same_data_reset_page (tb : Table.t) : same_data (Table.reset_page tb) tb.
Proof.
  destruct tb. unfold Table.reset_page. destruct (_ && _); repeat split.
Qed.

(** The state [Draw] leaves: the table as it was, or the table on its reset
    page with the rectangles of the buttons set. *)
Lemma Table_Draw_state `{Host} (tb : Table.t) (cvs : canvas.t) :
  widget_after (Table.Draw tb cvs) = tb \/
  exists pr nr, widget_after (Table.Draw tb cvs) = with_rects pr nr (Table.reset_page tb).
Proof.
  unfold Table.Draw.
  destruct (Table.draw_cols tb =? 0); [left; reflexivity|].
  destruct (Z.quot _ _ =? 0); [left; reflexivity|].
  destruct (if 0 <? Table.len (Table.headers tb) then _ else _) as [[cvs1 curY] [e|]];
    [left; reflexivity|].
  right. destruct (Table.reset_page tb) as [h rs o cp rpp np pb nb pr nr].
  destruct (Table.page_bounds _) as [lo hi].
  destruct (Table.slice _ lo hi) as [page|]; [|eexists _, _; reflexivity].
  destruct (loop_until page _ _) as [[cvs2 curY2] [c|]]; [eexists _, _; reflexivity|].
  unfold Table.drawPagination. cbn [Table.numPages].
  destruct (1 <? np).
  - cbv zeta. cbn [Table.set_prevButtonRect Table.set_nextButtonRect
                   Table.prevButtonRect Table.nextButtonRect].
    destruct (draw_Text cvs2 _ _ _) as [cvs3 [e|]]; [eexists _, _; reflexivity|].
    destruct (draw_Text cvs3 _ _ _) as [cvs4 [e|]]; [eexists _, _; reflexivity|].
    destruct (draw_Text cvs4 _ _ _) as [cvs5 [e|]]; eexists _, _; reflexivity.
  - cbv zeta. destruct (SetAreaCells cvs2 _ _ _). eexists _, _; reflexivity.
Qed.

(** What [Draw] shows depends on the data and on the page it resets to. *)
Lemma Table_Draw_respects `{Host} (t1 t2 : Table.t) (cvs : canvas.t) :
  same_data t1 t2 ->
  Table.currentPage (Table.reset_page t1) = Table.currentPage (Table.reset_page t2) ->
  output (Table.Draw t1 cvs) = output (Table.Draw t2 cvs).
Proof.
  intros (Hh & Hr & Ho & Hrpp & Hnp) Hcp.
  assert (Hreset : forall t, Table.reset_page t
                             = Table.set_currentPage (Table.currentPage (Table.reset_page t)) t).
  { intros []. unfold Table.reset_page. destruct (_ && _); reflexivity. }
  unfold Table.Draw.
  rewrite (Hreset t1), (Hreset t2), Hcp.
  generalize (Table.currentPage (Table.reset_page t2)). intros cp.
  destruct t1 as [h1 r1 o1 cp1 rpp1 np1 pb1 nb1 pr1 nr1].
  destruct t2 as [h2 r2 o2 cp2 rpp2 np2 pb2 nb2 pr2 nr2].
  cbn in Hh, Hr, Ho, Hrpp, Hnp. subst.
  unfold Table.draw_cols. cbn [Table.headers Table.rows Table.opts Table.set_currentPage].
  destruct (_ =? 0); [reflexivity|].
  destruct (Z.quot _ _ =? 0); [reflexivity|].
  destruct (if 0 <? Table.len h2 then _ else _) as [[cvs1 curY] [e|]]; [reflexivity|].
  unfold Table.page_bounds. cbn [Table.currentPage Table.rowsPerPage Table.rows Table.opts].
  destruct (Table.slice _ _ _) as [page|]; [|reflexivity].
  destruct (loop_until page _ _) as [[cvs2 curY2] [c|]]; [reflexivity|].
  unfold Table.drawPagination.
  cbn [Table.numPages Table.set_prevButtonRect Table.set_nextButtonRect
       Table.prevButtonRect Table.nextButtonRect Table.currentPage Table.opts].
  destruct (1 <? np2).
  - destruct (draw_Text cvs2 _ _ _) as [cvs3 [e|]]; [reflexivity|].
    destruct (draw_Text cvs3 _ _ _) as [cvs4 [e|]]; [reflexivity|].
    destruct (draw_Text cvs4 _ _ _) as [cvs5 [e|]]; reflexivity.
  - destruct (SetAreaCells cvs2 _ _ _). reflexivity.
Qed.

Lemma Table_Draw_twice `{Host} (tb : Table.t) (cvs : canvas.t) :
  output (Table.Draw (widget_after (Table.Draw tb cvs)) cvs) = output (Table.Draw tb cvs).
Proof.
  destruct (Table_Draw_state tb cvs) as [-> | (pr & nr & ->)]; [reflexivity|].
  apply Table_Draw_respects.
  - destruct (same_data_with_rects pr nr (Table.reset_page tb)) as (H1 & H2 & H3 & H4 & H5).
    destruct (same_data_reset_page tb) as (G1 & G2 & G3 & G4 & G5).
    repeat split; congruence.
  - rewrite reset_page_with_rects, reset_page_idem.
    destruct (Table.reset_page tb); reflexivity.
Qed.

(** C9: for each of the six widgets, a second [Draw] on the state the first
    one left and on the same canvas gives the same cells, colours and result
    as the first, and so does a second [Draw] on the unchanged widget; the
    order in which a draw visits its map of cells plays no part. *)
Theorem C9_Draw_twice_same_output :
  forall (host : Host) (first second : schedule) (w : Widget) (cvs : canvas.t),
    (forall l, visit first l ≡ₚ l) ->
    (forall l, visit second l ≡ₚ l) ->
    turns first = turns second ->
    output (Draw second (widget_after (Draw first w cvs)) cvs) = output (Draw first w cvs) /\
    output (Draw second w cvs) = output (Draw first w cvs).
Proof.
  intros host [ord1 n1] [ord2 n2] w cvs H1 H2 Hn. cbn in H1, H2, Hn. subst n2.
  destruct w as [tb | f | p | r | s | h]; cbn [Draw visit turns].
  - pose proof (Table_Draw_twice tb cvs) as Htw.
    destruct (Table.Draw tb cvs) as [[tb1 cvs1] c1] eqn:E1.
    cbn [widget_after fst Draw] in *.
    destruct (Table.Draw tb1 cvs) as [[tb2 cvs2] c2] eqn:E2.
    split; [exact Htw | reflexivity].
  - pose proof (Funnel_Draw_state f cvs) as Hst.
    destruct (Funnel.Draw f cvs) as [[f1 cvs1] c1] eqn:E1.
    cbn [widget_after fst Draw] in *. subst f1. rewrite E1. split; reflexivity.
  - pose proof (PieChart_Draw_state n1 p cvs) as Hst.
    destruct (PieChart.Draw n1 p cvs) as [[p1 cvs1] c1] eqn:E1.
    cbn [widget_after fst Draw turns] in *. subst p1. rewrite E1. split; reflexivity.
  - pose proof (Radar_Draw_state r cvs) as Hst.
    destruct (Radar.Draw r cvs) as [[r1 cvs1] c1] eqn:E1.
    cbn [widget_after fst Draw] in *. subst r1. rewrite E1. split; reflexivity.
  - pose proof (ScatterPlot_Draw_state ord1 s cvs) as Hst.
    rewrite (ScatterPlot_Draw_any_order ord2 ord1 s cvs H2 H1).
    destruct (ScatterPlot.Draw ord1 s cvs) as [[s1 cvs1] c1] eqn:E1.
    cbn [widget_after fst Draw visit] in *. subst s1.
    rewrite (ScatterPlot_Draw_any_order ord2 ord1 s cvs H2 H1), E1. split; reflexivity.
  - pose proof (Histogram_Draw_state ord1 h cvs) as Hst.
    rewrite (Histogram_Draw_any_order ord2 ord1 h cvs H2 H1).
    destruct (Histogram.Draw ord1 h cvs) as [[h1 cvs1] c1] eqn:E1.
    cbn [widget_after fst Draw visit] in *. subst h1.
    rewrite (Histogram_Draw_any_order ord2 ord1 h cvs H2 H1), E1. split; reflexivity.
Qed.

(** The witness of C9: a table of twelve rows drawn twice on a canvas of 20 by
    10 cells.  The first draw sets the rectangles of the two buttons, so the
    second one starts from another state, and shows the same. *)
Lemma C9_Draw_twice_same_output_witness :
  let sch := mkSchedule (fun l => l) 100 in
  let cvs := empty_canvas 20 10 in
  exists tb,
    Table.NewTable [Table.NewCell "h"] (replicate 12 [Table.NewCell "x"]) [] = Ok tb /\
    widget_after (Draw (H := idle_host) sch (OfTable tb) cvs) <> OfTable tb /\
    output (Draw (H := idle_host) sch (widget_after (Draw (H := idle_host) sch (OfTable tb) cvs)) cvs)
    = output (Draw (H := idle_host) sch (OfTable tb) cvs).
Proof.
  cbv zeta. eexists. split; [vm_compute; reflexivity|]. split.
  - vm_compute. discriminate.
  - apply (C9_Draw_twice_same_output idle_host
             (mkSchedule (fun l => l) 100) (mkSchedule (fun l => l) 100)
             _ (empty_canvas 20 10)
             (fun l => reflexivity l) (fun l => reflexivity l) eq_refl).
Defined.

(** * Part III: further properties of the code *)

(** ** The setters of the widgets *)

(** X1: on a value map without NaN, [Radar.SetValues] succeeds exactly when
    the map has at least three entries, [Max] is greater than 0 and every
    value lies between 0 and [Max]; a call that fails returns the radar as it
    was. *)
Theorem X1_SetValues_on_numbers :
  forall (r : Radar.t) (v : Radar.Values) (os : list Radar.RadarOption),
    Float64.is_nan (Radar.Max v) = false ->
    map_Forall (fun _ x => Float64.is_nan x = false) (Radar.Data v) ->
    (snd (Radar.SetValues r (Some v) os) = None
     <-> (3 <= size (Radar.Data v))%nat /\
         Float64.ltb Float64.zero (Radar.Max v) = true /\
         map_Forall (fun _ x => float_between Float64.zero (Radar.Max v) x) (Radar.Data v)) /\
    (snd (Radar.SetValues r (Some v) os) <> None ->
     fst (Radar.SetValues r (Some v) os) = r).
Proof.
  intros r v os Hmax Hdata.
  destruct (Radar_SetValues_without_NaN r v os Hmax Hdata) as [Hiff Hkeep].
  split; [|exact Hkeep]. rewrite Hiff. reflexivity.
Qed.

Lemma X1_SetValues_on_numbers_witness :
  let one := Float64.of_int 1 in
  let two := Float64.of_int 2 in
  let v := radar_values [("a", one); ("b", one); ("c", two)]%string two in
  let r := Radar.mk None Radar.newRadarOptions in
  snd (Radar.SetValues r (Some v) []) = None
  <-> (3 <= size (Radar.Data v))%nat /\
      Float64.ltb Float64.zero (Radar.Max v) = true /\
      map_Forall (fun _ x => float_between Float64.zero (Radar.Max v) x) (Radar.Data v).
Proof.
  cbv zeta.
  apply (X1_SetValues_on_numbers
           (Radar.mk None Radar.newRadarOptions)
           (radar_values [("a", Float64.of_int 1); ("b", Float64.of_int 1);
                          ("c", Float64.of_int 2)]%string (Float64.of_int 2)) []).
  - reflexivity.
  - apply (bool_decide_unpack _). vm_compute. reflexivity.
Defined.

(** X2: [Radar.SetValues] is all or nothing.  A call that reports an error
    changes neither the stored values nor the options, whatever options it
    was given; a call that succeeds stores the given values and applies the
    options, in their order, to the options of the radar. *)
Theorem X2_SetValues_all_or_nothing :
  forall (r : Radar.t) (vals : option Radar.Values) (os : list Radar.RadarOption),
    match snd (Radar.SetValues r vals os) with
    | Some _ => fst (Radar.SetValues r vals os) = r
    | None =>
        exists v, vals = Some v /\
                  fst (Radar.SetValues r vals os)
                  = Radar.mk (Some v) (fold_left (fun acc o => Radar.set o acc) os (Radar.opts r))
    end.
Proof.
  intros r vals os. unfold Radar.SetValues.
  destruct vals as [v|]; [|reflexivity].
  destruct (size (Radar.Data v) <? 3)%nat; [reflexivity|].
  destruct (Float64.leb (Radar.Max v) Float64.zero); [reflexivity|].
  destruct (Radar.range_check _ _); [reflexivity|].
  cbn. eauto.
Qed.

Lemma range_sum_stops (pre post : list Z) (v acc : Z) :
  GoInt.in_range acc ->
  Forall (fun x => 0 <= x) pre -> v < 0 ->
  range_sum (pre ++ v :: post) acc
  = (GoInt.wrap (acc + sumZ pre), Some "all values must be non-negative"%string).
Proof.
  revert acc. induction pre as [|x pre IH]; intros acc Hacc Hpre Hv; cbn [app range_sum].
  - destruct (Z.ltb_spec v 0); [|lia]. cbn. rewrite Z.add_0_r, wrap_small by assumption.
    reflexivity.
  - inversion Hpre as [|? ? Hx Hpre']; subst.
    destruct (Z.ltb_spec x 0); [lia|].
    rewrite IH by (assumption || apply wrap_in_range).
    unfold GoInt.add. rewrite wrap_add_l. unfold sumZ. cbn [fold_right].
    f_equal. f_equal. lia.
Qed.

(** X3: the state a rejected [Values] call of the funnel or of the pie
    chart leaves.  With no values or no colours the call reports the missing
    slice, the values first, and leaves the widget as it was.  With a first
    negative value that stands after the values [pre], the call reports it,
    and the widget is left with the new values and colours and with the
    wrapped sum of [pre] as its total. *)
Theorem X3_Values_rejected_state :
  forall (vs cs : list Z),
    (vs = [] \/ cs = [] ->
     (forall f, Funnel.Values f vs cs
                = (f, Some (if decide (vs = []) then "values cannot be empty"
                            else "colors cannot be empty")%string)) /\
     (forall p, PieChart.Values p vs cs
                = (p, Some (if decide (vs = []) then "values cannot be empty"
                            else "colors cannot be empty")%string))) /\
    (forall (pre post : list Z) (v : Z),
        vs = pre ++ v :: post ->
        Forall (fun x => 0 <= x) pre -> v < 0 -> cs <> [] ->
        (forall f, Funnel.Values f vs cs
                   = (Funnel.mk vs cs (GoInt.wrap (sumZ pre)),
                      Some "all values must be non-negative"%string)) /\
        (forall p, PieChart.Values p vs cs
                   = (PieChart.mk vs cs (GoInt.wrap (sumZ pre)),
                      Some "all values must be non-negative"%string))).
Proof.
  intros vs cs. split.
  - intros Hempty. split; intros w.
    + rewrite Funnel_Values_unfold. destruct vs as [|v vs']; [reflexivity|].
      destruct Hempty as [? | ->]; [discriminate | reflexivity].
    + rewrite PieChart_Values_unfold. destruct vs as [|v vs']; [reflexivity|].
      destruct Hempty as [? | ->]; [discriminate | reflexivity].
  - intros pre post v -> Hpre Hv Hcs.
    pose proof (range_sum_stops pre post v 0 zero_in_range Hpre Hv) as Hsum.
    cbn [Z.add] in Hsum.
    split; intros w.
    + rewrite Funnel_Values_unfold, Hsum.
      destruct (pre ++ v :: post) eqn:E; [destruct pre; discriminate|].
      destruct cs; [contradiction | reflexivity].
    + rewrite PieChart_Values_unfold, Hsum.
      destruct (pre ++ v :: post) eqn:E; [destruct pre; discriminate|].
      destruct cs; [contradiction | reflexivity].
Qed.

(** ** The table: construction, events and draws *)

Lemma rowsPerPage_fold (os : list Table.TableOption) (o : tableOptions.t) :
  tableOptions.rowsPerPage (fold_left (fun acc o => Table.set o acc) os o)
  = fold_left (fun acc o => match o with
                            | Table.RowsPerPage count => if 0 <? count then count else acc
                            | _ => acc
                            end) os (tableOptions.rowsPerPage o).
Proof.
  revert o. induction os as [|x os IH]; intros o; [reflexivity|].
  cbn [fold_left]. rewrite IH. f_equal.
  destruct o, x; cbn; try reflexivity. destruct (0 <? count); reflexivity.
Qed.

Lemma rows_per_page_positive (os : list Table.TableOption) (acc : Z) :
  0 < acc ->
  0 < fold_left (fun acc o => match o with
                              | Table.RowsPerPage count => if 0 <? count then count else acc
                              | _ => acc
                              end) os acc.
Proof.
  revert acc. induction os as [|x os IH]; intros acc Hacc; [assumption|].
  cbn [fold_left]. apply IH. destruct x; try assumption.
  destruct (Z.ltb_spec 0 count); assumption.
Qed.

Lemma NewTable_fields (headers : list Table.Cell) (rows : list (list Table.Cell))
    (os : list Table.TableOption) (tb : Table.t) :
  Table.NewTable headers rows os = Ok tb ->
  tb = Table.mk headers rows (fold_left (fun acc o => Table.set o acc) os Table.newTableOptions)
         0 (effective_rows_per_page os)
         (Table.page_count (Table.len rows) (effective_rows_per_page os))
         (Some (Table.mkButton "Prev" Table.CallPrevPage))
         (Some (Table.mkButton "Next" Table.CallNextPage))
         image.ZR image.ZR.
Proof.
  unfold Table.NewTable. destruct (Table.check_rows _ rows); [discriminate|].
  cbn [Table.button_New String.eqb Ascii.eqb Bool.eqb]. intros [= <-].
  unfold effective_rows_per_page. rewrite rowsPerPage_fold. reflexivity.
Qed.

Lemma In_ZR (p : image.Point) : image.In p image.ZR = false.
Proof.
  unfold image.In, image.ZR. cbn.
  destruct (Z.leb_spec 0 (image.X p)), (Z.ltb_spec (image.X p) 0); cbn; try reflexivity; lia.
Qed.

(** X5: the table [NewTable] returns holds the headers and rows it was given,
    shows page 0, and has as rows per page the last positive [RowsPerPage]
    among the options, or 5 when there is none, so a positive number; a table
    without rows has no page.  Until the first draw no mouse event changes
    the table, wherever it lands. *)
Theorem X5_NewTable_result :
  forall (headers : list Table.Cell) (rows : list (list Table.Cell))
         (os : list Table.TableOption) (tb : Table.t),
    Table.NewTable headers rows os = Ok tb ->
    Table.headers tb = headers /\
    Table.rows tb = rows /\
    Table.currentPage tb = 0 /\
    Table.rowsPerPage tb = effective_rows_per_page os /\
    tableOptions.rowsPerPage (Table.opts tb) = Table.rowsPerPage tb /\
    0 < Table.rowsPerPage tb /\
    (rows = [] -> Table.numPages tb = 0) /\
    (forall m, Table.Mouse tb m = (tb, None)).
Proof.
  intros headers rows os tb Hnew. apply NewTable_fields in Hnew. subst tb.
  cbn [Table.headers Table.rows Table.currentPage Table.rowsPerPage Table.opts Table.numPages].
  repeat split.
  - rewrite rowsPerPage_fold. reflexivity.
  - apply rows_per_page_positive. reflexivity.
  - intros ->. reflexivity.
  - intros m. unfold Table.Mouse.
    cbn [Table.prevButtonRect Table.nextButtonRect]. rewrite !In_ZR.
    destruct (0 <? Table.MouseButton m); reflexivity.
Qed.

Lemma X5_NewTable_result_witness :
  exists tb,
    Table.NewTable [Table.NewCell "h"] (replicate 12 [Table.NewCell "x"])
      [Table.RowsPerPage 4; Table.CellFillColor 3; Table.RowsPerPage 0] = Ok tb /\
    Table.rowsPerPage tb = 4 /\
    Table.Mouse tb (Table.mkMouse (image.mkPoint 0 0) 1) = (tb, None).
Proof.
  eexists. split; [vm_compute; reflexivity|].
  match goal with |- context [Table.rowsPerPage ?t] =>
    pose proof (X5_NewTable_result [Table.NewCell "h"] (replicate 12 [Table.NewCell "x"])
                  [Table.RowsPerPage 4; Table.CellFillColor 3; Table.RowsPerPage 0] t
                  eq_refl) as H
  end.
  destruct H as (_ & _ & _ & H4 & _ & _ & _ & H8).
  split; [exact H4 | apply H8].
Defined.

Lemma ceiling_last_page (n r : Z) :
  0 < r -> 0 < n -> 1 <= (n + r - 1) / r /\ ((n + r - 1) / r - 1) * r < n.
Proof.
  intros Hr Hn.
  pose proof (Z.mul_div_le (n + r - 1) r Hr).
  pose proof (Z.mul_succ_div_gt (n + r - 1) r Hr).
  split; nia.
Qed.

Lemma ceiling_of_nothing (r : Z) : 0 < r -> (0 + r - 1) / r = 0.
Proof. intros Hr. apply Z.div_small. lia. Qed.

Lemma well_paged_page_has_rows (tb : Table.t) :
  well_paged tb ->
  Table.currentPage tb * Table.rowsPerPage tb < Table.len (Table.rows tb) \/
  (Table.currentPage tb = 0 /\ Table.rows tb = []).
Proof.
  destruct tb as [h rs o cp rpp np pb nb pr nr]. unfold well_paged. cbn.
  intros (Hrpp & Hnp & Hcp & Hpage).
  destruct rs as [|row rs].
  - right. split; [|reflexivity]. destruct Hpage as [|Hlt]; [assumption|].
    unfold Table.len in Hnp. cbn in Hnp. rewrite ceiling_of_nothing in Hnp by assumption. lia.
  - left. assert (Hlen : 0 < Table.len (row :: rs)) by (unfold Table.len; cbn; lia).
    destruct (ceiling_last_page _ _ Hrpp Hlen) as [H1 H2]. rewrite <- Hnp in H1, H2.
    destruct Hpage as [-> | Hlt]; [lia | nia].
Qed.

Lemma well_paged_reset_page (tb : Table.t) : well_paged tb -> Table.reset_page tb = tb.
Proof.
  intros Hwp. pose proof (well_paged_page_has_rows tb Hwp) as Hrows.
  unfold Table.reset_page, Table.page_bounds. cbn [fst].
  destruct (Z.leb_spec (Table.len (Table.rows tb))
                       (Table.currentPage tb * Table.rowsPerPage tb)) as [Hle|]; [|reflexivity].
  destruct (Z.ltb_spec 0 (Table.len (Table.rows tb))) as [Hpos|]; [|reflexivity].
  destruct Hrows as [? | [_ Hnil]]; [lia|]. rewrite Hnil in Hpos. discriminate Hpos.
Qed.

Lemma well_paged_with_rects (pr nr : image.Rectangle) (tb : Table.t) :
  well_paged tb -> well_paged (with_rects pr nr tb).
Proof. destruct tb. exact (fun H => H). Qed.

Lemma well_paged_pages (tb : Table.t) :
  well_paged tb -> well_paged (Table.nextPage tb) /\ well_paged (Table.prevPage tb).
Proof.
  destruct tb as [h rs o cp rpp np pb nb pr nr]. unfold well_paged. cbn.
  intros (Hrpp & Hnp & Hcp & Hpage).
  unfold Table.nextPage, Table.prevPage. cbn.
  destruct (Z.leb_spec np 1); cbn; [repeat split; assumption|].
  destruct (Z.leb_spec np (cp + 1)); destruct (Z.leb_spec cp 0); cbn;
    repeat split; try assumption; lia.
Qed.

Lemma same_data_pages (tb : Table.t) :
  same_data (Table.nextPage tb) tb /\ same_data (Table.prevPage tb) tb.
Proof.
  destruct tb as [h rs o cp rpp np pb nb pr nr].
  unfold Table.nextPage, Table.prevPage. cbn.
  destruct (np <=? 1); [repeat split|].
  destruct (np <=? cp + 1); destruct (cp <=? 0); repeat split.
Qed.

Lemma handle_cases (tb : Table.t) (ev : table_event) :
  handle tb ev = tb \/ handle tb ev = Table.nextPage tb \/ handle tb ev = Table.prevPage tb.
Proof.
  destruct ev as [m | [l []]]; cbn; [|auto..].
  rewrite Mouse_clicks. destruct (_ && _); [auto|]. destruct (_ && _); auto.
Qed.

Lemma same_data_refl (tb : Table.t) : same_data tb tb.
Proof. repeat split. Qed.

Lemma same_data_trans (t1 t2 t3 : Table.t) :
  same_data t1 t2 -> same_data t2 t3 -> same_data t1 t3.
Proof.
  intros (H1 & H2 & H3 & H4 & H5) (G1 & G2 & G3 & G4 & G5). repeat split; congruence.
Qed.

Lemma well_paged_step `{Host} (tb : Table.t) (s : table_step) :
  well_paged tb -> well_paged (step tb s) /\ same_data (step tb s) tb.
Proof.
  intros Hwp. destruct s as [ev | cvs]; cbn [step].
  - destruct (handle_cases tb ev) as [-> | [-> | ->]].
    + split; [assumption | apply same_data_refl].
    + split; [apply well_paged_pages, Hwp | apply same_data_pages].
    + split; [apply well_paged_pages, Hwp | apply same_data_pages].
  - destruct (Table_Draw_state tb cvs) as [-> | (pr & nr & ->)].
    + split; [assumption | apply same_data_refl].
    + rewrite well_paged_reset_page by assumption.
      split; [apply well_paged_with_rects, Hwp | apply same_data_with_rects].
Qed.

Lemma well_paged_session `{Host} (steps : list table_step) (tb : Table.t) :
  well_paged tb ->
  well_paged (fold_left step steps tb) /\ same_data (fold_left step steps tb) tb.
Proof.
  revert tb. induction steps as [|s steps IH]; intros tb Hwp; cbn [fold_left].
  - split; [assumption | apply same_data_refl].
  - destruct (well_paged_step tb s Hwp) as [Hwp' Hsame].
    destruct (IH _ Hwp') as [Hwp'' Hsame'].
    split; [assumption | exact (same_data_trans _ _ _ Hsame' Hsame)].
Qed.

Lemma well_paged_slice (tb : Table.t) :
  well_paged tb ->
  Table.slice (Table.rows tb) (fst (Table.page_bounds tb)) (snd (Table.page_bounds tb)) <> None.
Proof.
  intros Hwp. pose proof (well_paged_page_has_rows tb Hwp) as Hrows.
  destruct Hwp as (Hrpp & _ & Hcp & _).
  unfold Table.slice, Table.page_bounds. cbn [fst snd].
  set (lo := Table.currentPage tb * Table.rowsPerPage tb) in *.
  assert (Hlo : 0 <= lo) by (subst lo; nia).
  assert (Hlen : lo <= Table.len (Table.rows tb)).
  { destruct Hrows as [? | [Hz Hnil]]; [lia|]. subst lo. rewrite Hz, Hnil. unfold Table.len. cbn [length]. lia. }
  destruct (Z.ltb_spec (Table.len (Table.rows tb)) (lo + Table.rowsPerPage tb)).
  - destruct (Z.leb_spec 0 lo); [|lia].
    destruct (Z.leb_spec lo (Table.len (Table.rows tb))); [|lia].
    destruct (Z.leb_spec (Table.len (Table.rows tb)) (Table.len (Table.rows tb))); [|lia].
    discriminate.
  - destruct (Z.leb_spec 0 lo); [|lia].
    destruct (Z.leb_spec lo (lo + Table.rowsPerPage tb)); [|lia].
    destruct (Z.leb_spec (lo + Table.rowsPerPage tb) (Table.len (Table.rows tb))); [|lia].
    discriminate.
Qed.

Lemma loop_until_drawRow_returns `{Host} (o : tableOptions.t) (ar : image.Rectangle)
    (colWidth : Z) (page : list (list Table.Cell)) (st : canvas.t * Z) :
  snd (loop_until page
         (fun row st => leave_on_error (Table.drawRow o ar row colWidth false st)) st)
  <> Some Panics.
Proof.
  revert st. induction page as [|row page IH]; intros st; cbn [loop_until]; [discriminate|].
  destruct (Table.drawRow o ar row colWidth false st) as [st' [e|]]; cbn [leave_on_error snd].
  - discriminate.
  - apply IH.
Qed.

Lemma drawPagination_returns `{Host} (tb : Table.t) (cvs : canvas.t) :
  snd (Table.drawPagination tb cvs) <> Panics.
Proof.
  unfold Table.drawPagination. destruct (1 <? Table.numPages tb).
  - cbv zeta.
    destruct (draw_Text cvs _ _ _) as [cvs3 [e|]]; [discriminate|].
    destruct (draw_Text cvs3 _ _ _) as [cvs4 [e|]]; [discriminate|].
    destruct (draw_Text cvs4 _ _ _) as [cvs5 [e|]]; discriminate.
  - cbv zeta. destruct (SetAreaCells cvs _ _ _). discriminate.
Qed.

Lemma well_paged_Draw_returns `{Host} (tb : Table.t) (cvs : canvas.t) :
  well_paged tb -> snd (Table.Draw tb cvs) <> Panics.
Proof.
  intros Hwp. pose proof (well_paged_slice tb Hwp) as Hslice.
  unfold Table.Draw.
  destruct (Table.draw_cols tb =? 0); [discriminate|].
  destruct (Z.quot _ _ =? 0); [discriminate|].
  destruct (if 0 <? Table.len (Table.headers tb) then _ else _) as [[cvs1 curY] [e|]];
    [discriminate|].
  rewrite (well_paged_reset_page tb Hwp).
  destruct (Table.page_bounds tb) as [lo hi]. cbn [fst snd] in Hslice.
  destruct (Table.slice _ lo hi) as [page|]; [|contradiction].
  pose proof (loop_until_drawRow_returns (Table.opts tb) (canvas.Area cvs)
                (Z.quot (image.Dx (canvas.Area cvs)) (Table.draw_cols tb)) page (cvs1, curY))
    as Hloop.
  destruct (loop_until page _ _) as [[cvs2 curY2] [c|]]; cbn [snd] in *.
  - intros ->. apply Hloop. reflexivity.
  - apply drawPagination_returns.
Qed.

(** X6: take a table built by [NewTable] whose page count is the count of
    pages its rows fill, and let any sequence of mouse events, button presses
    and draws pass.  The table still holds the same headers, rows, options
    and page count; its page is one of its pages (page 0 when it has none);
    and a draw of it on any canvas does not panic on the slice of the rows
    and leaves the page where it was. *)
Theorem X6_table_session :
  forall (H : Host) (headers : list Table.Cell) (rows : list (list Table.Cell))
         (os : list Table.TableOption) (tb0 : Table.t)
         (steps : list table_step) (cvs : canvas.t),
    Table.NewTable headers rows os = Ok tb0 ->
    Table.numPages tb0
    = (Table.len rows + Table.rowsPerPage tb0 - 1) / Table.rowsPerPage tb0 ->
    let tb := fold_left step steps tb0 in
    same_data tb tb0 /\
    0 <= Table.currentPage tb /\
    (Table.currentPage tb = 0 \/ Table.currentPage tb < Table.numPages tb) /\
    snd (Table.Draw tb cvs) <> Panics /\
    Table.currentPage (widget_after (Table.Draw tb cvs)) = Table.currentPage tb.
Proof.
  intros H headers rows os tb0 steps cvs Hnew Hpages tb.
  assert (Hwp0 : well_paged tb0).
  { pose proof (NewTable_fields _ _ _ _ Hnew) as Hfields.
    assert (Hrows : Table.rows tb0 = rows) by (rewrite Hfields; reflexivity).
    assert (Hcp : Table.currentPage tb0 = 0) by (rewrite Hfields; reflexivity).
    assert (Hrpp : Table.rowsPerPage tb0 = effective_rows_per_page os)
      by (rewrite Hfields; reflexivity).
    unfold well_paged. rewrite Hrows, Hcp. repeat split; [|assumption|lia|left; reflexivity].
    rewrite Hrpp. apply rows_per_page_positive. reflexivity. }
  destruct (well_paged_session steps tb0 Hwp0) as [Hwp Hsame]. fold tb in Hwp, Hsame.
  split; [assumption|].
  split; [apply Hwp|]. split; [apply Hwp|].
  split; [apply well_paged_Draw_returns, Hwp|].
  destruct (Table_Draw_state tb cvs) as [-> | (pr & nr & ->)]; [reflexivity|].
  rewrite (well_paged_reset_page tb Hwp). destruct tb; reflexivity.
Qed.

Lemma X6_table_session_witness :
  let steps := [Event (Pressed (Table.mkButton "Next" Table.CallNextPage));
                Drawn (empty_canvas 20 10);
                Event (MouseAt (Table.mkMouse (image.mkPoint 15 9) 1))] in
  exists tb0,
    Table.NewTable [Table.NewCell "h"] (replicate 12 [Table.NewCell "x"]) [] = Ok tb0 /\
    Table.currentPage (fold_left (step (H := idle_host)) steps tb0) = 2 /\
    snd (Table.Draw (H := idle_host) (fold_left (step (H := idle_host)) steps tb0)
           (empty_canvas 20 10)) <> Panics.
Proof.
  cbv zeta. eexists. split; [vm_compute; reflexivity|].
  split; [vm_compute; reflexivity|].
  match goal with |- context [fold_left _ ?s ?t] =>
    pose proof (X6_table_session idle_host [Table.NewCell "h"]
                  (replicate 12 [Table.NewCell "x"]) [] t s (empty_canvas 20 10)
                  eq_refl eq_refl) as H
  end.
  cbv zeta in H. destruct H as (_ & _ & _ & H4 & _). exact H4.
Defined.

(** X7: on a table whose page is one of its pages, going to the next page
    and back returns to the same table exactly when the table was not on its
    last page (or has a single page), and going to the previous page and
    forth exactly when it was not on page 0 (or has a single page). *)
Theorem X7_page_round_trips :
  forall (tb : Table.t),
    0 <= Table.currentPage tb < Table.numPages tb ->
    (Table.prevPage (Table.nextPage tb) = tb
     <-> Table.currentPage tb + 1 < Table.numPages tb \/ Table.numPages tb <= 1) /\
    (Table.nextPage (Table.prevPage tb) = tb
     <-> 0 < Table.currentPage tb \/ Table.numPages tb <= 1).
Proof.
  intros [h rs o cp rpp np pb nb pr nr]. cbn. intros Hcp.
  unfold Table.nextPage, Table.prevPage. cbn.
  destruct (Z.leb_spec np 1) as [Hnp | Hnp]; cbn.
  - destruct (Z.leb_spec np 1); [|lia]. split; (split; [intros _; right; assumption | reflexivity]).
  - split.
    + destruct (Z.leb_spec np (cp + 1)); cbn.
      * destruct (Z.leb_spec np 1); [lia|]. destruct (Z.leb_spec cp 0); cbn.
        -- split; [intros _; lia | reflexivity].
        -- split; [intros [= Heq]; lia | lia].
      * destruct (Z.leb_spec np 1); [lia|]. destruct (Z.leb_spec (cp + 1) 0); [lia|]. cbn.
        split; [intros _; left; assumption|]. intros _. do 2 f_equal. lia.
    + destruct (Z.leb_spec cp 0); cbn.
      * destruct (Z.leb_spec np 1); [lia|]. destruct (Z.leb_spec np (cp + 1)); cbn.
        -- split; [intros _; lia | reflexivity].
        -- split; [intros [= Heq]; lia | lia].
      * destruct (Z.leb_spec np 1); [lia|]. destruct (Z.leb_spec np (cp - 1 + 1)); [lia|]. cbn.
        split; [intros _; left; assumption|]. intros _. do 2 f_equal. lia.
Qed.

Lemma X7_page_round_trips_witness :
  let tb := Table.mk [] [] Table.newTableOptions 2 5 3 None None image.ZR image.ZR in
  Table.prevPage (Table.nextPage tb) <> tb /\ Table.nextPage (Table.prevPage tb) = tb.
Proof.
  cbv zeta.
  pose proof (X7_page_round_trips
                (Table.mk [] [] Table.newTableOptions 2 5 3 None None image.ZR image.ZR)
                ltac:(cbn; lia)) as [H1 H2].
  split.
  - intros Heq. apply H1 in Heq. cbn in Heq. lia.
  - apply H2. cbn. lia.
Defined.

Lemma draw_cols_expected (tb : Table.t) :
  Table.draw_cols tb = Table.expected_cols (Table.headers tb) (Table.rows tb).
Proof.
  unfold Table.draw_cols, Table.expected_cols, Table.len.
  destruct (Table.headers tb) as [|h hs], (Table.rows tb) as [|row rows]; cbn [length];
    reflexivity.
Qed.

Lemma expected_cols_nonneg (headers : list Table.Cell) (rows : list (list Table.Cell)) :
  0 <= Table.expected_cols headers rows.
Proof.
  unfold Table.expected_cols, Table.len. destruct (0 <? _); [lia|]. destruct rows; lia.
Qed.

(** X8: a table whose column count (that of its headers, or of its first row
    when it has no headers) is 0 or exceeds the width of the canvas is not
    drawn: [Draw] returns an error, the first one for no columns, and
    changes neither the canvas nor the table. *)
Theorem X8_Draw_refuses :
  forall (H : Host) (tb : Table.t) (cvs : canvas.t),
    let cols := Table.expected_cols (Table.headers tb) (Table.rows tb) in
    cols = 0 \/ Z.of_nat (canvas.width cvs) < cols ->
    Table.Draw tb cvs
    = (tb, cvs, Returns (Some (if cols =? 0
                               then "cannot draw table without headers or rows"%string
                               else "not enough space to draw the table"%string))).
Proof.
  intros H tb cvs cols Hcols. unfold Table.Draw.
  rewrite draw_cols_expected. fold cols.
  destruct (Z.eqb_spec cols 0) as [|Hne]; [reflexivity|].
  destruct Hcols as [|Hlt]; [contradiction|].
  rewrite Area_eq. unfold image.Dx. cbn [image.Max image.Min image.X image.mkPoint fst].
  rewrite Z.sub_0_r, Z.quot_small by lia. reflexivity.
Qed.

Lemma X8_Draw_refuses_witness :
  let tb := Table.mk [Table.NewCell "a"; Table.NewCell "b"; Table.NewCell "c"] []
              Table.newTableOptions 0 5 0 None None image.ZR image.ZR in
  Table.Draw (H := idle_host) tb (empty_canvas 2 10)
  = (tb, empty_canvas 2 10, Returns (Some "not enough space to draw the table"%string)).
Proof.
  cbv zeta.
  apply (X8_Draw_refuses idle_host
           (Table.mk [Table.NewCell "a"; Table.NewCell "b"; Table.NewCell "c"] []
              Table.newTableOptions 0 5 0 None None image.ZR image.ZR)
           (empty_canvas 2 10)).
  right. vm_compute. reflexivity.
Defined.

(** X9: [NewTable] accepts a table without columns, that is no headers and
    rows that are all empty (or no rows at all), under any options; no draw
    of the table it returns succeeds. *)
Theorem X9_table_without_columns :
  forall (rows : list (list Table.Cell)) (os : list Table.TableOption),
    Forall (fun row => row = []) rows ->
    exists tb,
      Table.NewTable [] rows os = Ok tb /\
      forall (H : Host) (cvs : canvas.t),
        Table.Draw tb cvs
        = (tb, cvs, Returns (Some "cannot draw table without headers or rows"%string)).
Proof.
  intros rows os Hrows.
  assert (Hcols : Table.expected_cols [] rows = 0).
  { rewrite expected_cols_no_header. destruct rows as [|row rows]; [reflexivity|].
    inversion Hrows; subst. reflexivity. }
  assert (Hok : is_ok (Table.NewTable [] rows os) = true).
  { apply NewTable_ok_iff, check_rows_ok_iff. rewrite Hcols.
    eapply Forall_impl; [exact Hrows|]. intros row ->. reflexivity. }
  destruct (Table.NewTable [] rows os) as [tb|e] eqn:Hnew; [|discriminate].
  exists tb. split; [reflexivity|]. intros H cvs.
  pose proof (NewTable_fields _ _ _ _ Hnew) as Hfields.
  unfold Table.Draw. rewrite draw_cols_expected.
  replace (Table.headers tb) with (@nil Table.Cell) by (rewrite Hfields; reflexivity).
  replace (Table.rows tb) with rows by (rewrite Hfields; reflexivity).
  rewrite Hcols. reflexivity.
Qed.

Lemma X9_table_without_columns_witness :
  exists tb,
    Table.NewTable [] [[]; []] [Table.RowsPerPage 1] = Ok tb /\
    Table.Draw (H := idle_host) tb (empty_canvas 20 10)
    = (tb, empty_canvas 20 10, Returns (Some "cannot draw table without headers or rows"%string)).
Proof.
  destruct (X9_table_without_columns [[]; []] [Table.RowsPerPage 1]
              ltac:(repeat constructor)) as (tb & Hnew & Hdraw).
  exists tb. split; [exact Hnew | apply Hdraw].
Defined.

Lemma concat_chunks {A} (n k : nat) (l : list A) :
  (0 < n)%nat -> (length l <= k * n)%nat ->
  concat (map (chunk n l) (seq 0 k)) = l.
Proof.
  intros Hn. revert l. induction k as [|k IH]; intros l Hlen.
  - destruct l; [reflexivity | cbn in Hlen; lia].
  - cbn [seq map concat]. rewrite <- fmap_S_seq.
    change (map (chunk n l) (S <$> seq 0 k)) with ((chunk n l) <$> (S <$> seq 0 k)).
    rewrite <- list_fmap_compose.
    rewrite (list_fmap_ext (chunk n l ∘ S) (chunk n (drop n l)) (seq 0 k)).
    + change (chunk n (drop n l) <$> seq 0 k) with (map (chunk n (drop n l)) (seq 0 k)).
      rewrite IH by (rewrite length_drop; lia).
      unfold chunk. cbn [Nat.mul drop]. apply take_drop.
    + intros i p _. unfold chunk, compose. rewrite drop_drop. reflexivity.
Qed.

Lemma length_chunk {A} (n p : nat) (l : list A) :
  length (chunk n l p) = Nat.min n (length l - p * n).
Proof. unfold chunk. rewrite length_take, length_drop. reflexivity. Qed.

Lemma page_rows_chunk (tb : Table.t) (p : Z) :
  0 < Table.rowsPerPage tb -> 0 <= p ->
  p * Table.rowsPerPage tb <= Table.len (Table.rows tb) ->
  page_rows tb p
  = Some (chunk (Z.to_nat (Table.rowsPerPage tb)) (Table.rows tb) (Z.to_nat p)).
Proof.
  destruct tb as [h rs o cp rpp np pb nb pr nr].
  unfold page_rows, Table.page_bounds, Table.slice, chunk, Table.len. cbn.
  intros Hrpp Hp Hlen.
  rewrite <- Z2Nat.inj_mul by lia.
  destruct (Z.ltb_spec (Z.of_nat (length rs)) (p * rpp + rpp)).
  - destruct (Z.leb_spec 0 (p * rpp)); [|nia].
    destruct (Z.leb_spec (p * rpp) (Z.of_nat (length rs))); [|lia].
    destruct (Z.leb_spec (Z.of_nat (length rs)) (Z.of_nat (length rs))); [|lia].
    cbn [andb]. f_equal.
    rewrite !take_ge by (rewrite length_drop; lia). reflexivity.
  - destruct (Z.leb_spec 0 (p * rpp)); [|nia].
    destruct (Z.leb_spec (p * rpp) (p * rpp + rpp)); [|lia].
    destruct (Z.leb_spec (p * rpp + rpp) (Z.of_nat (length rs))); [|lia].
    cbn [andb]. do 3 f_equal. lia.
Qed.

(** X10: when the page count of a table is the count of pages its rows fill,
    the slices of the rows that [Draw] takes for the pages 0, 1, ... up to
    the last are all defined, none is empty, none holds more rows than fit
    on a page, and one after the other they make up the rows of the table:
    no row is shown twice and none is left out. *)
Theorem X10_pages_partition_rows :
  forall (tb : Table.t),
    0 < Table.rowsPerPage tb ->
    Table.numPages tb
    = (Table.len (Table.rows tb) + Table.rowsPerPage tb - 1) / Table.rowsPerPage tb ->
    exists pages : list (list (list Table.Cell)),
      Forall2 (fun p rs => page_rows tb p = Some rs /\ rs <> [] /\
                           Table.len rs <= Table.rowsPerPage tb)
              (seqZ 0 (Table.numPages tb)) pages /\
      concat pages = Table.rows tb.
Proof.
  intros tb Hrpp Hnp.
  set (n := Z.to_nat (Table.rowsPerPage tb)).
  set (k := Z.to_nat (Table.numPages tb)).
  assert (Hn : (0 < n)%nat) by (subst n; lia).
  assert (Hfill : Table.len (Table.rows tb) <= Table.numPages tb * Table.rowsPerPage tb).
  { rewrite Hnp. pose proof (Z.mul_succ_div_gt
      (Table.len (Table.rows tb) + Table.rowsPerPage tb - 1) _ Hrpp). lia. }
  assert (Hnp0 : 0 <= Table.numPages tb).
  { rewrite Hnp. apply Z.div_pos; unfold Table.len; lia. }
  assert (Hlast : forall p, 0 <= p < Table.numPages tb ->
                            p * Table.rowsPerPage tb < Table.len (Table.rows tb)).
  { intros p Hp.
    assert (Hpos : 0 < Table.len (Table.rows tb)).
    { destruct (Table.rows tb) eqn:E; [|unfold Table.len; cbn [length]; lia].
      rewrite ceiling_of_nothing in Hnp by assumption. lia. }
    destruct (ceiling_last_page _ _ Hrpp Hpos) as [_ H2]. rewrite <- Hnp in H2. nia. }
  exists (map (chunk n (Table.rows tb)) (seq 0 k)). split.
  - unfold seqZ. fold k.
    change (map (chunk n (Table.rows tb)) (seq 0 k))
      with (chunk n (Table.rows tb) <$> seq 0 k).
    apply Forall2_fmap, Forall_Forall2_diag, Forall_forall. intros i Hi.
    apply elem_of_seq in Hi.
    assert (Hp : 0 <= Z.of_nat i + 0 < Table.numPages tb) by (subst k; lia).
    specialize (Hlast _ Hp).
    rewrite page_rows_chunk by lia. fold n.
    replace (Z.to_nat (Z.of_nat i + 0)) with i by lia.
    assert (Hlen : length (chunk n (Table.rows tb) i)
                   = Nat.min n (length (Table.rows tb) - i * n)) by apply length_chunk.
    unfold Table.len in *. split; [reflexivity|]. split.
    + intros Hnil. rewrite Hnil in Hlen. cbn [length] in Hlen. subst n. nia.
    + subst n. lia.
  - apply concat_chunks; [assumption|]. subst n k. unfold Table.len in Hfill. nia.
Qed.

Lemma X10_pages_partition_rows_witness :
  let rows := [[Table.NewCell "1"]; [Table.NewCell "2"]; [Table.NewCell "3"];
               [Table.NewCell "4"]; [Table.NewCell "5"]] in
  let tb := Table.mk [] rows Table.newTableOptions 0 2 3 None None image.ZR image.ZR in
  exists pages : list (list (list Table.Cell)),
    Forall2 (fun p rs => page_rows tb p = Some rs /\ rs <> [] /\
                         Table.len rs <= Table.rowsPerPage tb)
            (seqZ 0 (Table.numPages tb)) pages /\
    concat pages = Table.rows tb.
Proof.
  cbv zeta.
  apply (X10_pages_partition_rows
           (Table.mk [] [[Table.NewCell "1"]; [Table.NewCell "2"]; [Table.NewCell "3"];
                         [Table.NewCell "4"]; [Table.NewCell "5"]]
              Table.newTableOptions 0 2 3 None None image.ZR image.ZR)).
  - reflexivity.
  - reflexivity.
Defined.

(** ** The buttons of the table on a narrow canvas *)

Lemma drawCells_area `{Host} (rowAr : image.Rectangle) (colWidth : Z) (isHeader : bool)
    (textColor : Z) (row : list Table.Cell) (curX : Z) (cvs : canvas.t) :
  keeps_area _ ->
  canvas.Area (fst (Table.drawCells rowAr colWidth isHeader textColor row curX cvs))
  = canvas.Area cvs.
Proof.
  intros [Htext _]. revert curX cvs. induction row as [|c cells IH]; intros curX cvs;
    cbn [Table.drawCells]; [reflexivity|].
  cbv zeta.
  match goal with |- context [draw_Text ?a ?b ?c ?d] =>
    pose proof (Htext a b c d) as Ha; destruct (draw_Text a b c d) as [cvs1 [e|]]
  end; cbn [fst] in *; [assumption|].
  rewrite IH. assumption.
Qed.

Lemma drawRow_area `{Host} (o : tableOptions.t) (cvsAr : image.Rectangle)
    (row : list Table.Cell) (colWidth : Z) (isHeader : bool) (st : canvas.t * Z) :
  keeps_area _ ->
  canvas.Area (fst (fst (Table.drawRow o cvsAr row colWidth isHeader st)))
  = canvas.Area (fst st).
Proof.
  intros Hkeep. pose proof Hkeep as [_ Hset]. unfold Table.drawRow. destruct st as [cvs curY].
  cbv zeta. destruct (image.Dy _ =? 0); [reflexivity|].
  match goal with |- context [SetAreaCells ?a ?b ?c ?d] =>
    pose proof (Hset a b c d) as Ha; destruct (SetAreaCells a b c d) as [cvs1 [e|]]
  end; cbn [fst] in *; [assumption|].
  match goal with |- context [Table.drawCells ?x1 ?x2 ?x3 ?x4 ?x5 ?x6 ?x7] =>
    pose proof (drawCells_area x1 x2 x3 x4 x5 x6 x7 Hkeep) as Hb;
    destruct (Table.drawCells x1 x2 x3 x4 x5 x6 x7) as [cvs2 [err|]]
  end; cbn [fst] in *; congruence.
Qed.

Lemma rows_loop_area `{Host} (o : tableOptions.t) (cvsAr : image.Rectangle) (colWidth : Z)
    (page : list (list Table.Cell)) (st : canvas.t * Z) :
  keeps_area _ ->
  canvas.Area (fst (fst (loop_until page
                           (fun row st => leave_on_error
                                            (Table.drawRow o cvsAr row colWidth false st)) st)))
  = canvas.Area (fst st).
Proof.
  intros Hkeep. revert st. induction page as [|r rest IH]; intros st; cbn [loop_until];
    [reflexivity|].
  pose proof (drawRow_area o cvsAr r colWidth false st Hkeep) as Hrow.
  destruct (Table.drawRow o cvsAr r colWidth false st) as [st' [e|]];
    cbn [leave_on_error fst] in *; [assumption|].
  rewrite IH. assumption.
Qed.

Lemma Table_Draw_buttons `{Host} (tb : Table.t) (cvs : canvas.t) :
  keeps_area _ ->
  let tb' := widget_after (Table.Draw tb cvs) in
  let w := Z.of_nat (canvas.width cvs) in
  let h := Z.of_nat (canvas.height cvs) in
  Table.nextButtonRect tb' = Table.nextButtonRect tb \/
  (Table.nextButtonRect tb' = image.Rect (w - 7) (h - 1) w h /\
   Table.prevButtonRect tb' = image.Rect 0 (h - 1) 7 h).
Proof.
  intros Hkeep. pose proof Hkeep as [Htext Hset]. cbv zeta. unfold Table.Draw.
  destruct (Table.draw_cols tb =? 0); [left; reflexivity|].
  destruct (Z.quot _ _ =? 0); [left; reflexivity|].
  assert (Hhead : canvas.Area
            (fst (fst (if 0 <? Table.len (Table.headers tb)
                       then Table.drawRow (Table.opts tb) (canvas.Area cvs) (Table.headers tb)
                              (Z.quot (image.Dx (canvas.Area cvs)) (Table.draw_cols tb)) true
                              (cvs, 0)
                       else ((cvs, 0), None))))
            = canvas.Area cvs).
  { destruct (0 <? Table.len (Table.headers tb)); [|reflexivity].
    apply (drawRow_area _ _ _ _ _ (cvs, 0) Hkeep). }
  destruct (if 0 <? Table.len (Table.headers tb) then _ else _) as [[cvs1 curY] [e|]];
    [left; reflexivity|].
  cbn [fst] in Hhead.
  assert (Hnext : Table.nextButtonRect (Table.reset_page tb) = Table.nextButtonRect tb).
  { destruct tb. unfold Table.reset_page. destruct (_ && _); reflexivity. }
  rewrite <- Hnext. clear Hnext.
  destruct (Table.reset_page tb) as [hd rs o cp rpp np pb nb pr nr].
  destruct (Table.page_bounds _) as [lo hi].
  destruct (Table.slice _ lo hi) as [page|]; [|left; reflexivity].
  match goal with
  | |- context [loop_until page
                  (fun row st => leave_on_error (Table.drawRow ?o' ?ar row ?cw false st)) ?st0] =>
      pose proof (rows_loop_area o' ar cw page st0 Hkeep) as Hloop;
      destruct (loop_until page
                  (fun row st => leave_on_error (Table.drawRow o' ar row cw false st)) st0)
        as [[cvs2 curY2] [c|]]
  end; [left; reflexivity|].
  cbn [fst] in Hloop. rewrite Hhead in Hloop.
  unfold Table.drawPagination. cbn [Table.numPages].
  destruct (1 <? np).
  - cbv zeta. cbn [Table.set_prevButtonRect Table.set_nextButtonRect
                   Table.prevButtonRect Table.nextButtonRect].
    destruct (draw_Text cvs2 _ _ _) as [cvs3 [e|]]; [left; reflexivity|].
    assert (Hrects :
      image.Rect
        (image.X (image.Max (image.Rect (image.X (image.Min (canvas.Area cvs2)))
                               (image.Y (image.Max (canvas.Area cvs2)) - 1)
                               (image.X (image.Max (canvas.Area cvs2)))
                               (image.Y (image.Max (canvas.Area cvs2))))) -
         Z.of_nat (String.length "Next > "))
        (image.Y (image.Min (image.Rect (image.X (image.Min (canvas.Area cvs2)))
                               (image.Y (image.Max (canvas.Area cvs2)) - 1)
                               (image.X (image.Max (canvas.Area cvs2)))
                               (image.Y (image.Max (canvas.Area cvs2))))))
        (image.X (image.Max (image.Rect (image.X (image.Min (canvas.Area cvs2)))
                               (image.Y (image.Max (canvas.Area cvs2)) - 1)
                               (image.X (image.Max (canvas.Area cvs2)))
                               (image.Y (image.Max (canvas.Area cvs2))))))
        (image.Y (image.Max (image.Rect (image.X (image.Min (canvas.Area cvs2)))
                               (image.Y (image.Max (canvas.Area cvs2)) - 1)
                               (image.X (image.Max (canvas.Area cvs2)))
                               (image.Y (image.Max (canvas.Area cvs2))))))
      = image.Rect (Z.of_nat (canvas.width cvs) - 7) (Z.of_nat (canvas.height cvs) - 1)
                   (Z.of_nat (canvas.width cvs)) (Z.of_nat (canvas.height cvs)) /\
      image.Rect
        (image.X (image.Min (image.Rect (image.X (image.Min (canvas.Area cvs2)))
                               (image.Y (image.Max (canvas.Area cvs2)) - 1)
                               (image.X (image.Max (canvas.Area cvs2)))
                               (image.Y (image.Max (canvas.Area cvs2))))))
        (image.Y (image.Min (image.Rect (image.X (image.Min (canvas.Area cvs2)))
                               (image.Y (image.Max (canvas.Area cvs2)) - 1)
                               (image.X (image.Max (canvas.Area cvs2)))
                               (image.Y (image.Max (canvas.Area cvs2))))))
        (image.X (image.Min (image.Rect (image.X (image.Min (canvas.Area cvs2)))
                               (image.Y (image.Max (canvas.Area cvs2)) - 1)
                               (image.X (image.Max (canvas.Area cvs2)))
                               (image.Y (image.Max (canvas.Area cvs2))))) +
         Z.of_nat (String.length " < Prev"))
        (image.Y (image.Max (image.Rect (image.X (image.Min (canvas.Area cvs2)))
                               (image.Y (image.Max (canvas.Area cvs2)) - 1)
                               (image.X (image.Max (canvas.Area cvs2)))
                               (image.Y (image.Max (canvas.Area cvs2))))))
      = image.Rect 0 (Z.of_nat (canvas.height cvs) - 1) 7 (Z.of_nat (canvas.height cvs))).
    { rewrite Hloop, Area_eq.
      cbn [image.Max image.Min image.X image.Y image.mkPoint fst snd].
      assert (Hpag : image.Rect 0 (Z.of_nat (canvas.height cvs) - 1)
                       (Z.of_nat (canvas.width cvs)) (Z.of_nat (canvas.height cvs))
                     = image.mkRect (image.mkPoint 0 (Z.of_nat (canvas.height cvs) - 1))
                         (image.mkPoint (Z.of_nat (canvas.width cvs))
                                        (Z.of_nat (canvas.height cvs)))).
      { unfold image.Rect.
        destruct (Z.ltb_spec (Z.of_nat (canvas.width cvs)) 0); [lia|].
        destruct (Z.ltb_spec (Z.of_nat (canvas.height cvs))
                             (Z.of_nat (canvas.height cvs) - 1)); [lia|]. reflexivity. }
      rewrite Hpag. cbn [image.Max image.Min image.X image.Y image.mkPoint fst snd].
      split; reflexivity. }
    destruct Hrects as [Hnr Hpr].
    destruct (draw_Text cvs3 _ _ _) as [cvs4 [e|]];
      [right; cbn; split; assumption|].
    destruct (draw_Text cvs4 _ _ _) as [cvs5 [e|]]; right; cbn; split; assumption.
  - cbv zeta. destruct (SetAreaCells cvs2 _ _ _). left. reflexivity.
Qed.

(** X4: on a canvas at most 7 cells wide the Next button of the table
    cannot be clicked.  [Draw] puts the button of the previous page over the
    first 7 cells of the last row and tests it first, so every click on the
    Next button is taken for a click on Prev: after a table from [NewTable]
    is drawn on such a canvas, no run of mouse events (at positions right of
    the left edge of the terminal) changes the table, and it stays on page
    0. *)
Theorem X4_narrow_canvas_hides_next_button :
  forall (H : Host) (headers : list Table.Cell) (rows : list (list Table.Cell))
         (os : list Table.TableOption) (tb : Table.t) (cvs : canvas.t)
         (ms : list Table.MouseEvent),
    keeps_area H ->
    Table.NewTable headers rows os = Ok tb ->
    (canvas.width cvs <= 7)%nat ->
    Forall (fun m => 0 <= image.X (Table.Position m)) ms ->
    let drawn := widget_after (Table.Draw tb cvs) in
    clicks ms drawn = drawn /\ Table.currentPage drawn = 0.
Proof.
  intros H headers rows os tb cvs ms Hkeep Hnew Hw Hms drawn.
  pose proof (NewTable_fields _ _ _ _ Hnew) as Hfields.
  assert (Hcp : Table.currentPage tb = 0) by (rewrite Hfields; reflexivity).
  assert (Hnr : Table.nextButtonRect tb = image.ZR) by (rewrite Hfields; reflexivity).
  assert (Hreset : Table.reset_page tb = tb).
  { destruct tb as [hd rs o cp rpp np pb nb pr nr]. cbn in Hcp. subst cp.
    unfold Table.reset_page, Table.page_bounds.
    cbn [Table.rows Table.currentPage Table.rowsPerPage fst]. rewrite Z.mul_0_l.
    destruct (Z.leb_spec (Table.len rs) 0); destruct (Z.ltb_spec 0 (Table.len rs));
      cbn [andb]; try reflexivity; lia. }
  assert (Hpage : Table.currentPage drawn = 0).
  { subst drawn. destruct (Table_Draw_state tb cvs) as [-> | (pr & nr & ->)]; [assumption|].
    rewrite Hreset. destruct tb; exact Hcp. }
  split; [|exact Hpage].
  pose proof (Table_Draw_buttons tb cvs Hkeep) as Hbuttons. cbv zeta in Hbuttons.
  fold drawn in Hbuttons. rewrite Hnr in Hbuttons.
  assert (Hstill : forall m, 0 <= image.X (Table.Position m) ->
                             fst (Table.Mouse drawn m) = drawn).
  { intros m Hx. rewrite Mouse_clicks.
    assert (Hprev : Table.prevPage drawn = drawn).
    { destruct drawn as [hd rs o cp rpp np pb nb pr nr]. cbn in Hpage. subst cp.
      unfold Table.prevPage. cbn. destruct (np <=? 1); reflexivity. }
    destruct (_ && image.In _ (Table.prevButtonRect drawn)) eqn:Eprev; [exact Hprev|].
    destruct (_ && image.In _ (Table.nextButtonRect drawn)) eqn:Enext; [|reflexivity].
    exfalso. apply andb_prop in Enext as [Hbtn Hin].
    rewrite Hbtn in Eprev. cbn [andb] in Eprev.
    destruct Hbuttons as [Hzr | [Hnext Hprevr]].
    - rewrite Hzr, In_ZR in Hin. discriminate.
    - rewrite Hnext in Hin. rewrite Hprevr in Eprev.
      unfold image.In, image.Rect in Hin, Eprev.
      destruct (Z.ltb_spec (Z.of_nat (canvas.width cvs)) (Z.of_nat (canvas.width cvs) - 7));
        [lia|].
      destruct (Z.ltb_spec (Z.of_nat (canvas.height cvs)) (Z.of_nat (canvas.height cvs) - 1));
        [lia|].
      destruct (Z.ltb_spec 7 0); [lia|].
      cbn [image.Max image.Min image.X image.Y image.mkPoint fst snd] in Hin, Eprev.
      apply andb_prop in Hin as [Hin Hy2]. apply andb_prop in Hin as [Hin Hy1].
      apply andb_prop in Hin as [Hx1 Hx2].
      rewrite Hy1, Hy2 in Eprev.
      apply Z.ltb_lt in Hx2.
      destruct (Z.leb_spec 0 (image.X (Table.Position m))); [|unfold image.X in *; lia].
      destruct (Z.ltb_spec (image.X (Table.Position m)) 7); [|unfold image.X in *; lia].
      discriminate. }
  clear Hbuttons. unfold clicks.
  induction Hms as [|m ms Hm _ IH]; [reflexivity|].
  cbn [fold_left]. rewrite (Hstill m Hm). exact IH.
Qed.

Lemma X4_narrow_canvas_hides_next_button_witness :
  let cvs := empty_canvas 7 10 in
  let click := Table.mkMouse (image.mkPoint 3 9) 1 in
  exists tb,
    Table.NewTable [Table.NewCell "h"] (replicate 12 [Table.NewCell "x"]) [] = Ok tb /\
    Table.numPages tb = 3 /\
    image.In (Table.Position click)
             (Table.nextButtonRect (widget_after (Table.Draw (H := idle_host) tb cvs))) = true /\
    clicks [click; click] (widget_after (Table.Draw (H := idle_host) tb cvs))
    = widget_after (Table.Draw (H := idle_host) tb cvs).
Proof.
  cbv zeta. eexists. split; [vm_compute; reflexivity|].
  split; [vm_compute; reflexivity|]. split; [vm_compute; reflexivity|].
  match goal with |- context [Table.Draw ?t ?c] =>
    pose proof (X4_narrow_canvas_hides_next_button idle_host [Table.NewCell "h"]
                  (replicate 12 [Table.NewCell "x"]) [] t c
                  [Table.mkMouse (image.mkPoint 3 9) 1; Table.mkMouse (image.mkPoint 3 9) 1]
                  ltac:(split; reflexivity) eq_refl ltac:(cbn; lia)
                  ltac:(repeat constructor; cbn; lia)) as Hx
  end.
  cbv zeta in Hx. exact (proj1 Hx).
Defined.

(** ** Drawing the funnel and the pie chart after any calls of [Values] *)

Lemma loop_until_never {A St} (l : list A) (body : A -> St -> St * option completion)
    (c : completion) :
  (forall i a s, l !! i = Some a -> snd (body a s) <> Some c) ->
  forall s, snd (loop_until l body s) <> Some c.
Proof.
  induction l as [|a l IH]; intros Hbody s; cbn [loop_until]; [discriminate|].
  pose proof (Hbody 0%nat a s eq_refl) as Ha.
  destruct (body a s) as [s' [c'|]]; cbn [snd] in *; [assumption|].
  apply IH. intros i a' s'' Hi. apply (Hbody (S i)). exact Hi.
Qed.

Lemma color_at_is_Some (colors : list Z) (i : nat) :
  colors <> [] -> is_Some (Funnel.color_at colors (Z.of_nat i)).
Proof.
  intros Hne. unfold Funnel.color_at.
  destruct colors as [|c colors]; [contradiction|]. cbn [length Nat.eqb].
  apply lookup_lt_is_Some.
  pose proof (Z.rem_bound_pos (Z.of_nat i) (Z.of_nat (S (length colors)))) as Hrem.
  cbn [length]. lia.
Qed.

Lemma funnel_after_colors (calls : list (list Z * list Z)) :
  Funnel.total (funnel_after calls) <= 0 \/ Funnel.colors (funnel_after calls) <> [].
Proof.
  unfold funnel_after.
  assert (Hinit : Funnel.total Funnel.NewFunnel <= 0 \/ Funnel.colors Funnel.NewFunnel <> [])
    by (left; reflexivity).
  revert Hinit. generalize Funnel.NewFunnel.
  induction calls as [|[vs cs] calls IH]; intros f Hf; cbn [fold_left]; [assumption|].
  apply IH. cbn [fst snd]. rewrite Funnel_Values_unfold.
  destruct vs as [|v vs]; [assumption|]. destruct cs as [|c cs]; [assumption|].
  right. discriminate.
Qed.

Lemma pie_after_colors (calls : list (list Z * list Z)) :
  PieChart.total (pie_after calls) <= 0 \/ PieChart.colors (pie_after calls) <> [].
Proof.
  unfold pie_after.
  assert (Hinit : PieChart.total PieChart.NewPieChart <= 0 \/
                  PieChart.colors PieChart.NewPieChart <> [])
    by (left; reflexivity).
  revert Hinit. generalize PieChart.NewPieChart.
  induction calls as [|[vs cs] calls IH]; intros p Hp; cbn [fold_left]; [assumption|].
  apply IH. cbn [fst snd]. rewrite PieChart_Values_unfold.
  destruct vs as [|v vs]; [assumption|]. destruct cs as [|c cs]; [assumption|].
  right. discriminate.
Qed.

Lemma draw_segment_returns `{Host} (f : Funnel.t) (centerX funnelHeight topWidth bottomWidth : Z)
    (i : nat) (value : Z) (cur : Funnel.cursor) :
  Funnel.colors f <> [] ->
  snd (Funnel.draw_segment f centerX funnelHeight topWidth bottomWidth (i, value) cur)
  <> Some Panics.
Proof.
  intros Hne. unfold Funnel.draw_segment. cbn [fst snd].
  destruct (color_at_is_Some (Funnel.colors f) i Hne) as [color ->].
  match goal with |- context [loop_until ?l ?body ?s] =>
    pose proof (loop_until_never l body Panics) as Hloop;
    destruct (loop_until l body s) as [bc' [c|]] eqn:E
  end; [|discriminate].
  cbn [snd]. intros [= ->].
  refine (Hloop _ (Funnel.bc cur) _); [|rewrite E; reflexivity].
  intros j y bc _. cbv beta zeta.
  destruct (BrailleLine bc _ _ _) as [bc2 [e|]]; discriminate.
Qed.

Lemma sweep_returns `{Host} (turns : nat) (mid : image.Point)
    (innerRadiusX innerRadiusY radiusX radiusY : Z) (color : Z)
    (angle endAngle : Float64.t) (bc : BrailleCanvas) :
  snd (PieChart.sweep turns mid innerRadiusX innerRadiusY radiusX radiusY color
         angle endAngle bc) <> Some Panics.
Proof.
  revert angle bc. induction turns as [|turns IH]; intros angle bc; cbn [PieChart.sweep].
  - discriminate.
  - destruct (Float64.ltb angle endAngle); [|discriminate].
    cbv zeta. destruct (BrailleLine bc _ _ _) as [bc2 [e|]]; [discriminate|]. apply IH.
Qed.

Lemma draw_slice_returns `{Host} (turns : nat) (p : PieChart.t) (mid : image.Point)
    (innerRadiusX innerRadiusY radiusX radiusY : Z) (i : nat) (value : Z)
    (st : BrailleCanvas * Float64.t) :
  PieChart.colors p <> [] ->
  snd (PieChart.draw_slice turns p mid innerRadiusX innerRadiusY radiusX radiusY (i, value) st)
  <> Some Panics.
Proof.
  intros Hne. unfold PieChart.draw_slice. destruct st as [bc currentAngle]. cbn [fst snd].
  destruct (color_at_is_Some (PieChart.colors p) i Hne) as [color Hcolor].
  change (Funnel.color_at (PieChart.colors p) (Z.of_nat i))
    with (PieChart.color_at (PieChart.colors p) (Z.of_nat i)) in Hcolor.
  rewrite Hcolor.
  match goal with |- context [PieChart.sweep ?t ?m ?a ?b ?c ?d ?col ?x ?y ?z] =>
    pose proof (sweep_returns t m a b c d col x y z) as Hsweep;
    destruct (PieChart.sweep t m a b c d col x y z) as [bc' [c'|]]
  end; [|discriminate].
  cbn [snd] in *. exact Hsweep.
Qed.

(** X11: whatever [Values] calls a new funnel or a new pie chart has seen,
    accepted or rejected, [Draw] never indexes into an empty slice of
    colours, so it does not panic; the funnel is always drawn to the end
    (with an error or without), and the pie chart is drawn to the end unless
    the angle loop is still running after the given number of turns. *)
Theorem X11_Draw_after_Values_no_panic :
  forall (H : Host) (calls : list (list Z * list Z)) (cvs : canvas.t),
    (exists e, snd (Funnel.Draw (funnel_after calls) cvs) = Returns e) /\
    (forall turns, snd (PieChart.Draw turns (pie_after calls) cvs) <> Panics).
Proof.
  intros H calls cvs. split.
  - assert (Hnp : snd (Funnel.Draw (funnel_after calls) cvs) <> Panics /\
                  snd (Funnel.Draw (funnel_after calls) cvs) <> StillRunning).
    { pose proof (funnel_after_colors calls) as Hinv.
      unfold Funnel.Draw.
      destruct (Z.leb_spec (Funnel.total (funnel_after calls)) 0); [split; discriminate|].
      destruct Hinv as [|Hne]; [lia|].
      destruct (braille_New _) as [bc0|e]; [|split; discriminate].
      cbv zeta.
      match goal with |- context [loop_until ?l ?body ?s] =>
        pose proof (loop_until_never l body Panics) as Hloop;
        pose proof (loop_until_never l body StillRunning) as Hrun;
        destruct (loop_until l body s) as [cur [c|]] eqn:E
      end.
      - cbn [snd]. split; intros ->.
        + refine (Hloop _ _ _); [|rewrite E; reflexivity].
          intros i [j v] s _. apply draw_segment_returns, Hne.
        + refine (Hrun _ _ _); [|rewrite E; reflexivity].
          intros i [j v] s _. unfold Funnel.draw_segment. cbn [fst snd].
          destruct (Funnel.color_at _ _); [|discriminate].
          match goal with |- context [loop_until ?l ?body ?s] =>
            pose proof (loop_until_never l body StillRunning) as Hin;
            destruct (loop_until l body s) as [bc' [c|]] eqn:E'
          end; [|discriminate].
          cbn [snd]. intros [= ->].
          refine (Hin _ (Funnel.bc s) _); [|rewrite E'; reflexivity].
          intros k y bc _. cbv beta zeta.
          destruct (BrailleLine bc _ _ _) as [bc2 [e|]]; discriminate.
      - destruct (CopyTo _ cvs) as [cvs' [e|]]; split; discriminate. }
    destruct (snd (Funnel.Draw (funnel_after calls) cvs)) as [e| |];
      [eauto | destruct Hnp as [Hp _]; contradiction | destruct Hnp as [_ Hr]; contradiction].
  - intros turns. pose proof (pie_after_colors calls) as Hinv.
    unfold PieChart.Draw.
    destruct (Z.leb_spec (PieChart.total (pie_after calls)) 0); [discriminate|].
    destruct Hinv as [|Hne]; [lia|].
    destruct (braille_New _) as [bc0|e]; [|discriminate].
    destruct (PieChart.pieChartMidAndRadii _) as [[mid rx] ry].
    cbv zeta.
    match goal with |- context [loop_until ?l ?body ?s] =>
      pose proof (loop_until_never l body Panics) as Hloop;
      destruct (loop_until l body s) as [[bc ang] [c|]] eqn:E
    end.
    + cbn [snd]. intros ->.
      refine (Hloop _ _ _); [|rewrite E; reflexivity].
      intros i [j v] s _. apply draw_slice_returns, Hne.
    + destruct (CopyTo _ cvs) as [cvs' [e|]]; discriminate.
Qed.

(** ** What [Histogram.Draw] writes and what it leaves *)

Lemma written_lookup (bm : gmap image.Point Z) (color_of : image.Point -> Z)
    (cvs : canvas.t) (pt : image.Point) :
  canvas.cells (written bm color_of cvs) !! pt
  = match bm !! pt with
    | Some r =>
        if image.In pt (canvas.Area cvs)
        then Some (canvas.mkCell r (color_of pt)
                     (canvas.Bg (default canvas.blank (canvas.cells cvs !! pt))))
        else canvas.cells cvs !! pt
    | None => canvas.cells cvs !! pt
    end.
Proof.
  unfold written. cbn [canvas.cells]. rewrite lookup_union, map_lookup_imap.
  destruct (bm !! pt) as [r|]; cbn [mbind option_bind].
  - destruct (image.In pt (canvas.Area cvs)); destruct (canvas.cells cvs !! pt); reflexivity.
  - destruct (canvas.cells cvs !! pt); reflexivity.
Qed.

Lemma written_nothing (color_of : image.Point -> Z) (cvs : canvas.t) :
  written ∅ color_of cvs = cvs.
Proof.
  apply canvas_eq; try reflexivity. intros k. rewrite written_lookup, lookup_empty. reflexivity.
Qed.

(** The canvas of a draw, from the calls the draw makes. *)
Lemma Histogram_Draw_written (ord : map_order) (h : Histogram.t) (cvs : canvas.t) :
  (forall l, ord l ≡ₚ l) ->
  let st := run_dots (snd <$> drawn_calls h cvs) braille.no_dots in
  canvas_after (Histogram.Draw ord h cvs)
  = written (fst st) (fun pt => default 0 (snd st !! pt)) cvs.
Proof.
  intros Hord. cbv zeta. unfold drawn_calls, Histogram.Draw.
  destruct (length (Histogram.bins h) =? 0)%nat.
  { cbn. rewrite written_nothing. reflexivity. }
  destruct (_ || _).
  { cbn. rewrite written_nothing. reflexivity. }
  rewrite <- paint_calls.
  destruct (Histogram.paint h _) as [bm cm]. cbn.
  apply write_cells_any_order. exact Hord.
Qed.

Lemma drawn_call_facts (h : Histogram.t) (cvs : canvas.t) (j : Z) (c : dot_call) :
  (j, c) ∈ drawn_calls h cvs ->
  0 <= call_x c /\ 0 <= call_y c /\
  image.In (cell_of c) (canvas.Area cvs) = true /\
  call_col c = Histogram.bar_color h j.
Proof.
  intros Hin. unfold drawn_calls in Hin.
  destruct (length (Histogram.bins h) =? 0)%nat; [by apply elem_of_nil in Hin|].
  destruct (_ || _); [by apply elem_of_nil in Hin|].
  pose proof (tagged_call_facts h cvs j c Hin) as (Hj & Hxl & Hxr & Hxh & Hy & Hcol).
  cbv zeta in Hxl, Hxr.
  set (bw := Histogram.barWidth (Histogram.geometry_of h cvs)) in *.
  assert (Hbw : 1 <= bw) by (destruct (2 <? bw); lia).
  assert (0 <= j * bw) by nia.
  split; [lia|]. split; [lia|]. split; [|assumption].
  unfold cell_of. apply In_Area.
  rewrite !Z.quot_div_nonneg by lia. split; split.
  - apply Z.div_pos; lia.
  - apply Z.div_lt_upper_bound; lia.
  - apply Z.div_pos; lia.
  - apply Z.div_lt_upper_bound; lia.
Qed.

Lemma or_all_bounds (l : list Z) :
  Forall (fun b => Z.land b 0xFF = b) l -> 0 <= or_all l <= 0xFF.
Proof.
  intros Hl. pose proof (or_all_byte l Hl) as Hbyte.
  change 0xFF with (Z.ones 8) in Hbyte. rewrite Z.land_ones in Hbyte by lia.
  pose proof (Z.mod_pos_bound (or_all l) (2 ^ 8) ltac:(lia)). lia.
Qed.

Lemma braille_rune_of_dots (l : list dot_call) :
  l <> [] ->
  Forall (fun c => 0 <= call_x c /\ 0 <= call_y c) l ->
  braille_rune (Z.lor 0x2800 (or_all (bit_of <$> l))).
Proof.
  intros Hne Hpos.
  assert (Hbytes : Forall (fun b => Z.land b 0xFF = b) (bit_of <$> l)).
  { apply Forall_fmap, Forall_forall. intros c _. apply mask_of_byte. }
  pose proof (or_all_bounds _ Hbytes) as Hbound.
  assert (Hnz : or_all (bit_of <$> l) <> 0).
  { destruct l as [|[bx by_ col] l]; [contradiction|].
    inversion Hpos as [|? ? [Hx Hy] _]; subst. cbn [call_x call_y] in Hx, Hy.
    destruct (bit_of_position bx by_ col Hx Hy) as [Hbit Hk].
    rewrite fmap_cons. change (or_all (?b :: ?bs)) with (Z.lor b (or_all bs)).
    intros Hz. apply Z.lor_eq_0_l in Hz. rewrite Hbit in Hz.
    rewrite Z.shiftl_1_l in Hz.
    pose proof (Z.pow_pos_nonneg 2 (dot_index (bx mod 2) (by_ mod 4)) ltac:(lia) ltac:(lia)).
    lia. }
  assert (Hdisj : Z.land 0x2800 (or_all (bit_of <$> l)) = 0).
  { rewrite <- (or_all_byte _ Hbytes), (Z.land_comm (or_all _)), Z.land_assoc. reflexivity. }
  rewrite <- (Z.add_nocarry_lor _ _ Hdisj). unfold braille_rune. lia.
Qed.

Lemma hits_nonempty (pt : image.Point) (calls : list dot_call) :
  hits pt calls <> [] <-> exists c, c ∈ calls /\ cell_of c = pt.
Proof.
  split.
  - destruct (hits pt calls) as [|c l] eqn:E; [contradiction|]. intros _.
    exists c. apply elem_of_hits. rewrite E. left.
  - intros (c & Hc & Hcell) E.
    assert (Hin : c ∈ hits pt calls) by (apply elem_of_hits; split; assumption).
    rewrite E in Hin. by apply elem_of_nil in Hin.
Qed.

Lemma painted_hits (h : Histogram.t) (cvs : canvas.t) (pt : image.Point) :
  hits pt (snd <$> drawn_calls h cvs) <> [] <-> exists i, painted_for h cvs i pt.
Proof.
  rewrite hits_nonempty. unfold painted_for. split.
  - intros (c & Hc & Hcell). apply list_elem_of_fmap in Hc as ([i c'] & -> & Hin). eauto.
  - intros (i & c & Hin & Hcell). exists c. split; [|assumption].
    apply list_elem_of_fmap. exists (i, c). split; [reflexivity | assumption].
Qed.

(** X12: [Histogram.Draw] keeps the size of the canvas and changes only the
    cells in which a bar has a dot.  Each of those cells lies inside the
    canvas (no write of the last loop is ever clipped), and ends with a
    braille rune of at least one dot, with the bar colour or the alert colour
    as its foreground, and with the background it had.  Every other cell is
    as it was; on a canvas too small for the padding or without bins that is
    every cell. *)
Theorem X12_Histogram_Draw_frame :
  forall (ord : map_order) (h : Histogram.t) (cvs : canvas.t),
    (forall l, ord l ≡ₚ l) ->
    let cvs' := canvas_after (Histogram.Draw ord h cvs) in
    canvas.width cvs' = canvas.width cvs /\
    canvas.height cvs' = canvas.height cvs /\
    forall pt : image.Point,
      ((exists i, painted_for h cvs i pt) ->
       image.In pt (canvas.Area cvs) = true /\
       exists r col,
         canvas.cells cvs' !! pt
         = Some (canvas.mkCell r col
                   (canvas.Bg (default canvas.blank (canvas.cells cvs !! pt)))) /\
         braille_rune r /\
         (col = Histogram.barColor h \/ col = Histogram.alertCol h)) /\
      (~ (exists i, painted_for h cvs i pt) ->
       canvas.cells cvs' !! pt = canvas.cells cvs !! pt).
Proof.
  intros ord h cvs Hord cvs'. subst cvs'.
  rewrite (Histogram_Draw_written ord h cvs Hord). cbv zeta.
  split; [reflexivity|]. split; [reflexivity|]. intros pt.
  rewrite written_lookup.
  destruct (run_dots_lookup (snd <$> drawn_calls h cvs) pt) as [Hb Hc].
  rewrite Hb, Hc. rewrite <- painted_hits.
  destruct (hits pt (snd <$> drawn_calls h cvs)) as [|c0 l] eqn:E.
  - split; [intros Hne; contradiction | reflexivity].
  - split; [|intros Hnot; exfalso; apply Hnot; discriminate]. intros _.
    assert (Hall : forall c, c ∈ c0 :: l ->
              0 <= call_x c /\ 0 <= call_y c /\
              image.In pt (canvas.Area cvs) = true /\
              (call_col c = Histogram.barColor h \/ call_col c = Histogram.alertCol h)).
    { intros c Hin. rewrite <- E in Hin. apply elem_of_hits in Hin as [Hin Hcell].
      apply list_elem_of_fmap in Hin as ([j c'] & -> & Hin). cbn [snd] in *.
      destruct (drawn_call_facts h cvs j c' Hin) as (Hx & Hy & Harea & Hcol).
      rewrite Hcell in Harea.
      repeat split; try assumption. rewrite Hcol. unfold Histogram.bar_color.
      destruct (_ =? _); auto. }
    destruct (Hall c0 ltac:(left)) as (_ & _ & Harea & _).
    split; [assumption|]. rewrite Harea.
    destruct (last (call_col <$> c0 :: l)) as [col|] eqn:Elast.
    + exists (Z.lor 0x2800 (or_all (bit_of <$> c0 :: l))), col.
      split; [reflexivity|]. split.
      * apply braille_rune_of_dots; [discriminate|].
        apply Forall_forall. intros c Hin. destruct (Hall c Hin) as (? & ? & _). split; assumption.
      * rewrite fmap_last in Elast.
        destruct (last (c0 :: l)) as [c|] eqn:Elast'; [|discriminate].
        injection Elast as <-.
        apply last_Some in Elast' as [l' Hl'].
        destruct (Hall c) as (_ & _ & _ & Hcol); [|assumption].
        rewrite Hl'. apply elem_of_app. right. left.
    + rewrite fmap_cons in Elast.
      destruct (last_is_Some (call_col c0 :: (call_col <$> l))) as [_ Hsome].
      destruct Hsome as [x Hx]; [discriminate|]. rewrite Hx in Elast. discriminate.
Qed.

Lemma X12_Histogram_Draw_frame_witness :
  let cvs := empty_canvas 9 5 in
  let cvs' := canvas_after (Histogram.Draw (fun l => l) histogram_1_to_5 cvs) in
  exists r col,
    canvas.cells cvs' !! image.mkPoint 4 3
    = Some (canvas.mkCell r col
              (canvas.Bg (default canvas.blank (canvas.cells cvs !! image.mkPoint 4 3)))) /\
    braille_rune r /\
    (col = Histogram.barColor histogram_1_to_5 \/ col = Histogram.alertCol histogram_1_to_5).
Proof.
  cbv zeta.
  destruct (X12_Histogram_Draw_frame (fun l => l) histogram_1_to_5 (empty_canvas 9 5)
              (fun l => reflexivity l)) as (_ & _ & Hpt).
  destruct (Hpt (image.mkPoint 4 3)) as [Hpainted _].
  destruct Hpainted as [_ Hcell]; [|exact Hcell].
  exists 2, (mkCall 8 15 (Histogram.alertCol histogram_1_to_5)). split; [|reflexivity].
  apply (bool_decide_unpack _). vm_compute. reflexivity.
Defined.

Lemma tagged_group_last (F : Z -> Z -> list dot_call) (P : Z * dot_call -> Prop)
    `{!forall x, Decision (P x)} (bins : list Z) (j : Z) (c : dot_call) :
  let T := concat (imap (fun i v => pair (Z.of_nat i) <$> F (Z.of_nat i) v) bins) in
  last (filter P T) = Some (j, c) ->
  forall j' c', (j', c') ∈ T -> P (j', c') -> j' <= j.
Proof.
  cbv zeta. revert j c. induction bins as [|v bins IH] using rev_ind; intros j c.
  - cbn. discriminate.
  - rewrite imap_app, concat_app. cbn [imap concat]. rewrite app_nil_r, Nat.add_0_r.
    set (A := concat (imap (fun i v => pair (Z.of_nat i) <$> F (Z.of_nat i) v) bins)) in *.
    set (B := pair (Z.of_nat (length bins)) <$> F (Z.of_nat (length bins)) v).
    assert (HA : forall j' c', (j', c') ∈ A -> j' < Z.of_nat (length bins)).
    { intros j' c' Hin. subst A.
      apply list_elem_of_In, in_concat in Hin as (grp & Hgrp & Hin).
      apply list_elem_of_In in Hgrp, Hin.
      apply elem_of_lookup_imap in Hgrp as (i & v' & -> & Hi).
      apply list_elem_of_fmap in Hin as (c'' & [= -> ->] & _).
      apply lookup_lt_Some in Hi. lia. }
    assert (HB : forall j' c', (j', c') ∈ B -> j' = Z.of_nat (length bins)).
    { intros j' c' Hin. subst B. apply list_elem_of_fmap in Hin as (c'' & [= -> ->] & _).
      reflexivity. }
    rewrite filter_app, last_app.
    destruct (last (filter P B)) as [y|] eqn:EB.
    + intros [= ->] j' c' Hin _.
      assert (Hj : j = Z.of_nat (length bins)).
      { apply (HB j c). apply last_Some in EB as [l' Hl'].
        assert (Hy : (j, c) ∈ filter P B) by (rewrite Hl'; apply elem_of_app; right; left).
        apply list_elem_of_filter in Hy. tauto. }
      apply elem_of_app in Hin as [Hin | Hin]; [apply HA in Hin | apply HB in Hin]; lia.
    + intros HlastA j' c' Hin HP.
      apply elem_of_app in Hin as [Hin | Hin]; [exact (IH j c HlastA j' c' Hin HP)|].
      apply last_None in EB.
      assert (Hy : (j', c') ∈ filter P B) by (apply list_elem_of_filter; split; assumption).
      rewrite EB in Hy. by apply elem_of_nil in Hy.
Qed.

Lemma hits_tagged (pt : image.Point) (T : list (Z * dot_call)) :
  hits pt (snd <$> T) = snd <$> filter (fun tc => cell_of (snd tc) = pt) T.
Proof.
  unfold hits. induction T as [|[j c] T IH]; [reflexivity|].
  rewrite fmap_cons, !filter_cons. cbn [snd].
  destruct (decide (cell_of c = pt)); rewrite IH; reflexivity.
Qed.

(** X13: where the bars of several bins have dots in one cell, the bar drawn
    last wins: on every canvas, a cell painted for the bin [i] and for no bin
    after [i] ends with the colour of bar [i], the alert colour when [i] is
    the alert bin and the bar colour when it is not. *)
Theorem X13_last_bar_colours_cell :
  forall (ord : map_order) (h : Histogram.t) (cvs : canvas.t) (i : Z) (pt : image.Point),
    (forall l, ord l ≡ₚ l) ->
    painted_for h cvs i pt ->
    (forall j, painted_for h cvs j pt -> j <= i) ->
    fg_at (canvas_after (Histogram.Draw ord h cvs)) pt
    = Some (if Histogram.alertBin h =? i then Histogram.alertCol h else Histogram.barColor h).
Proof.
  intros ord h cvs i pt Hord Hpainted Hlast.
  rewrite (Histogram_Draw_written ord h cvs Hord). cbv zeta.
  unfold fg_at. rewrite written_lookup.
  destruct (run_dots_lookup (snd <$> drawn_calls h cvs) pt) as [Hb Hc].
  rewrite Hb, Hc.
  assert (Hne : hits pt (snd <$> drawn_calls h cvs) <> []) by (apply painted_hits; eauto).
  destruct (hits pt (snd <$> drawn_calls h cvs)) as [|c0 l] eqn:E; [contradiction|].
  rewrite <- E. clear Hne.
  destruct Hpainted as (ci & Hci & Hcell).
  destruct (drawn_call_facts h cvs i ci Hci) as (_ & _ & Harea & _).
  rewrite Hcell in Harea. rewrite Harea. cbn [fmap option_fmap option_map canvas.Fg].
  rewrite hits_tagged, <- list_fmap_compose, fmap_last.
  destruct (last (filter (fun tc => cell_of (snd tc) = pt) (drawn_calls h cvs)))
    as [[j c]|] eqn:Elast.
  - assert (Hjc : (j, c) ∈ drawn_calls h cvs /\ cell_of c = pt).
    { apply last_Some in Elast as [l' Hl'].
      assert (Hy : (j, c) ∈ filter (fun tc => cell_of (snd tc) = pt) (drawn_calls h cvs))
        by (rewrite Hl'; apply elem_of_app; right; left).
      apply list_elem_of_filter in Hy. cbn [snd] in Hy. tauto. }
    destruct Hjc as [Hj Hjcell].
    assert (Hle : j <= i) by (apply Hlast; exists c; split; assumption).
    assert (Hge : i <= j).
    { unfold drawn_calls in Elast, Hci.
      destruct (length (Histogram.bins h) =? 0)%nat; [by apply elem_of_nil in Hci|].
      destruct (_ || _); [by apply elem_of_nil in Hci|].
      exact (tagged_group_last _ _ _ j c Elast i ci Hci Hcell). }
    assert (j = i) by lia. subst j.
    destruct (drawn_call_facts h cvs i c Hj) as (_ & _ & _ & Hcol).
    cbn [fmap option_fmap option_map compose snd]. rewrite Hcol. reflexivity.
  - apply last_None in Elast. rewrite hits_tagged, Elast in E. discriminate.
Qed.

Lemma X13_last_bar_colours_cell_witness :
  fg_at (canvas_after (Histogram.Draw (fun l => l) histogram_1_to_5 (empty_canvas 5 5)))
        (image.mkPoint 3 3)
  = Some (Histogram.barColor histogram_1_to_5).
Proof.
  apply (X13_last_bar_colours_cell (fun l => l) histogram_1_to_5 (empty_canvas 5 5)
           3 (image.mkPoint 3 3) (fun l => reflexivity l)).
  - exists (mkCall 7 15 (Histogram.barColor histogram_1_to_5)). split; [|reflexivity].
    apply (bool_decide_unpack _). vm_compute. reflexivity.
  - intros j (c & Hin & Hcell).
    assert (Hall : Forall (fun tc => cell_of (snd tc) = image.mkPoint 3 3 -> fst tc <= 3)
                          (drawn_calls histogram_1_to_5 (empty_canvas 5 5))).
    { apply (bool_decide_unpack _). vm_compute. reflexivity. }
    rewrite Forall_forall in Hall. exact (Hall (j, c) Hin Hcell).
Defined.

(** ** What [ScatterPlot.Draw] writes and what it leaves *)

Lemma ScatterPlot_paint_dots (s : ScatterPlot.t) (brailleW brailleH : Z) :
  exists calls,
    ScatterPlot.paint s brailleW brailleH
    = run_dots_plain (axis_dots brailleW brailleH ++ calls) ∅ /\
    Forall (fun c => 0 <= call_x c < brailleW /\ 0 <= call_y c < brailleH) calls.
Proof.
  unfold ScatterPlot.paint, axis_dots.
  destruct (ScatterPlot.bounds _) as [[minX maxX] [minY maxY]].
  destruct (ScatterPlot.widen (minX, maxX)) as [minX' maxX'].
  destruct (ScatterPlot.widen (minY, maxY)) as [minY' maxY'].
  rewrite (for_range_plain_calls ScatterPlot.padding (brailleH - ScatterPlot.padding) _
             (fun y => [mkCall ScatterPlot.padding y 0])) by reflexivity.
  rewrite (for_range_plain_calls ScatterPlot.padding (brailleW - ScatterPlot.padding) _
             (fun x => [mkCall x (brailleH - ScatterPlot.padding) 0])) by reflexivity.
  rewrite <- run_dots_plain_app.
  generalize (ScatterPlot.points s). intros pts.
  match goal with |- context [run_dots_plain ?l ∅] => generalize l end.
  intros axes.
  assert (Hgen : forall m pre,
    m = run_dots_plain (axes ++ pre) ∅ ->
    Forall (fun c => 0 <= call_x c < brailleW /\ 0 <= call_y c < brailleH) pre ->
    exists calls,
      fold_left (fun m pt => ScatterPlot.plot_point brailleW brailleH
                               (brailleW - ScatterPlot.padding * 2)
                               (brailleH - ScatterPlot.padding * 2)
                               ScatterPlot.padding (brailleH - ScatterPlot.padding)
                               minX' maxX' minY' maxY' pt m) pts m
      = run_dots_plain (axes ++ calls) ∅ /\
      Forall (fun c => 0 <= call_x c < brailleW /\ 0 <= call_y c < brailleH) calls).
  { induction pts as [|pt pts IH]; intros m pre Hm Hpre; [exists pre; split; assumption|].
    cbn [fold_left]. unfold ScatterPlot.plot_point at 2.
    match goal with |- context [if ?b then _ else _] => destruct b eqn:Eb end.
    - match goal with
      | |- context [braille.setDot_plain ?bx ?by_ m] =>
          apply (IH _ (pre ++ [mkCall bx by_ 0]));
            [rewrite app_assoc, run_dots_plain_app, <- Hm; reflexivity|];
            apply Forall_app; split; [assumption|];
            apply Forall_singleton; cbn [call_x call_y];
            apply andb_prop in Eb as [Eb Hy2]; apply andb_prop in Eb as [Eb Hy1];
            apply andb_prop in Eb as [Hx1 Hx2]; lia
      end.
    - apply (IH _ pre); assumption. }
  apply (Hgen _ []); [rewrite app_nil_r; reflexivity | constructor].
Qed.

Lemma axis_dots_facts (brailleW brailleH : Z) (c : dot_call) :
  c ∈ axis_dots brailleW brailleH ->
  8 < brailleW -> 8 < brailleH ->
  0 <= call_x c < brailleW /\ 0 <= call_y c < brailleH.
Proof.
  unfold axis_dots, ScatterPlot.padding. intros Hin HW HH.
  apply elem_of_app in Hin as [Hin | Hin];
    apply list_elem_of_bind in Hin as (v & Hc & Hv);
    apply list_elem_of_singleton in Hc as ->; apply elem_of_seqZ in Hv;
    cbn [call_x call_y]; lia.
Qed.

(** The canvas of a draw of the scatter plot, from the dots it sets. *)
Lemma ScatterPlot_Draw_written (ord : map_order) (s : ScatterPlot.t) (cvs : canvas.t) :
  (forall l, ord l ≡ₚ l) ->
  let W := Z.of_nat (canvas.width cvs) * 2 in
  let H := Z.of_nat (canvas.height cvs) * 4 in
  (canvas_after (ScatterPlot.Draw ord s cvs) = cvs /\
   (ScatterPlot.points s = [] \/ W <= 8 \/ H <= 8)) \/
  (ScatterPlot.points s <> [] /\ 8 < W /\ 8 < H /\
   exists calls,
     Forall (fun c => 0 <= call_x c < W /\ 0 <= call_y c < H) calls /\
     canvas_after (ScatterPlot.Draw ord s cvs)
     = written (fst (run_dots (axis_dots W H ++ calls) braille.no_dots))
               (fun _ => ScatterPlot.color s) cvs).
Proof.
  intros Hord W H. unfold ScatterPlot.Draw.
  destruct (ScatterPlot.points s) as [|p0 pts] eqn:Epts; [left; split; [reflexivity | auto]|].
  cbn [length Nat.eqb]. cbv zeta.
  rewrite Area_eq. unfold image.Dx, image.Dy, ScatterPlot.padding.
  cbn [image.Max image.Min image.X image.Y image.mkPoint fst snd].
  rewrite !Z.sub_0_r. fold W H.
  destruct (Z.leb_spec (W - 4 * 2) 0); [left; split; [reflexivity | right; left; lia]|].
  destruct (Z.leb_spec (H - 4 * 2) 0); [left; split; [reflexivity | right; right; lia]|].
  cbn [orb]. right. split; [discriminate|]. split; [lia|]. split; [lia|].
  destruct (ScatterPlot_paint_dots s W H) as (calls & Hpaint & Hcalls).
  exists calls. split; [assumption|].
  unfold canvas_after. cbn [fst snd].
  rewrite write_cells_any_order by assumption.
  rewrite Hpaint. rewrite <- (run_dots_plain_fst _ braille.no_dots). reflexivity.
Qed.

Lemma dots_in_canvas (cvs : canvas.t) (c : dot_call) :
  0 <= call_x c < Z.of_nat (canvas.width cvs) * 2 ->
  0 <= call_y c < Z.of_nat (canvas.height cvs) * 4 ->
  image.In (cell_of c) (canvas.Area cvs) = true.
Proof.
  intros Hx Hy. unfold cell_of. apply In_Area.
  rewrite !Z.quot_div_nonneg by lia. split; split.
  - apply Z.div_pos; lia.
  - apply Z.div_lt_upper_bound; lia.
  - apply Z.div_pos; lia.
  - apply Z.div_lt_upper_bound; lia.
Qed.

Lemma ScatterPlot_cell (calls : list dot_call) (col : Z) (cvs : canvas.t) (pt : image.Point) :
  Forall (fun c => 0 <= call_x c < Z.of_nat (canvas.width cvs) * 2 /\
                   0 <= call_y c < Z.of_nat (canvas.height cvs) * 4) calls ->
  let cvs' := written (fst (run_dots calls braille.no_dots)) (fun _ => col) cvs in
  (hits pt calls = [] -> canvas.cells cvs' !! pt = canvas.cells cvs !! pt) /\
  (hits pt calls <> [] ->
   image.In pt (canvas.Area cvs) = true /\
   exists r, canvas.cells cvs' !! pt
             = Some (canvas.mkCell r col
                       (canvas.Bg (default canvas.blank (canvas.cells cvs !! pt)))) /\
             braille_rune r).
Proof.
  intros Hcalls. cbv zeta. rewrite written_lookup.
  destruct (run_dots_lookup calls pt) as [Hb _]. rewrite Hb.
  destruct (hits pt calls) as [|c0 l] eqn:E.
  - split; [reflexivity | contradiction].
  - split; [discriminate|]. intros _.
    assert (Hall : forall c, c ∈ c0 :: l ->
              (0 <= call_x c /\ 0 <= call_y c) /\ image.In pt (canvas.Area cvs) = true).
    { intros c Hin. rewrite <- E in Hin. apply elem_of_hits in Hin as [Hin Hcell].
      rewrite Forall_forall in Hcalls. destruct (Hcalls c Hin) as [Hx Hy].
      split; [lia|]. rewrite <- Hcell. apply dots_in_canvas; assumption. }
    destruct (Hall c0 ltac:(left)) as [_ Harea]. rewrite Harea.
    split; [reflexivity|]. eexists. split; [reflexivity|].
    apply braille_rune_of_dots; [discriminate|].
    apply Forall_forall. intros c Hin. apply (Hall c Hin).
Qed.

(** X14: [ScatterPlot.Draw] keeps the size of the canvas, and every cell
    either stays as it was or, lying inside the canvas, ends with a braille
    rune of at least one dot in the colour of the plot and with the
    background it had.  No dot of the axes or of a point falls outside the
    canvas, so no write of the last loop is ever clipped. *)
Theorem X14_ScatterPlot_Draw_frame :
  forall (ord : map_order) (s : ScatterPlot.t) (cvs : canvas.t),
    (forall l, ord l ≡ₚ l) ->
    let cvs' := canvas_after (ScatterPlot.Draw ord s cvs) in
    canvas.width cvs' = canvas.width cvs /\
    canvas.height cvs' = canvas.height cvs /\
    forall pt : image.Point,
      canvas.cells cvs' !! pt = canvas.cells cvs !! pt \/
      (image.In pt (canvas.Area cvs) = true /\
       exists r, canvas.cells cvs' !! pt
                 = Some (canvas.mkCell r (ScatterPlot.color s)
                           (canvas.Bg (default canvas.blank (canvas.cells cvs !! pt)))) /\
                 braille_rune r).
Proof.
  intros ord s cvs Hord cvs'. subst cvs'.
  destruct (ScatterPlot_Draw_written ord s cvs Hord)
    as [[-> _] | (_ & HW & HH & calls & Hcalls & ->)].
  - split; [reflexivity|]. split; [reflexivity|]. intros pt. left. reflexivity.
  - split; [reflexivity|]. split; [reflexivity|]. intros pt.
    match goal with |- context [run_dots ?l _] => set (all := l) end.
    assert (Hall : Forall (fun c => 0 <= call_x c < Z.of_nat (canvas.width cvs) * 2 /\
                                    0 <= call_y c < Z.of_nat (canvas.height cvs) * 4) all).
    { apply Forall_app. split; [|assumption].
      apply Forall_forall. intros c Hc. apply (axis_dots_facts _ _ c Hc); assumption. }
    destruct (ScatterPlot_cell all (ScatterPlot.color s) cvs pt Hall) as [Hnone Hsome].
    destruct (hits pt all) as [|c0 l] eqn:E.
    + left. apply Hnone. reflexivity.
    + right. apply Hsome. discriminate.
Qed.

Lemma X14_ScatterPlot_Draw_frame_witness :
  let s := fst (ScatterPlot.SetPoints ScatterPlot.NewScatterPlot
                  [ScatterPlot.mkPoint (Float64.of_int 1) (Float64.of_int 2)] "x" "y") in
  let cvs' := canvas_after (ScatterPlot.Draw (fun l => l) s (empty_canvas 6 4)) in
  canvas.width cvs' = 6%nat /\ canvas.height cvs' = 4%nat.
Proof.
  cbv zeta.
  destruct (X14_ScatterPlot_Draw_frame (fun l => l)
              (fst (ScatterPlot.SetPoints ScatterPlot.NewScatterPlot
                      [ScatterPlot.mkPoint (Float64.of_int 1) (Float64.of_int 2)] "x" "y"))
              (empty_canvas 6 4) (fun l => reflexivity l)) as (Hw & Hh & _).
  split; [exact Hw | exact Hh].
Defined.

(** X15: a scatter plot with at least one point, drawn on a canvas of at
    least 5 by 3 cells, always shows its two axes, whatever the points are
    (NaN and infinities included): every cell of the column 2 above the last
    row, and every cell of the last row from the column 2 to the column
    [width - 3], ends with a braille rune in the colour of the plot. *)
Theorem X15_ScatterPlot_axes :
  forall (ord : map_order) (s : ScatterPlot.t) (cvs : canvas.t) (pt : image.Point),
    (forall l, ord l ≡ₚ l) ->
    ScatterPlot.points s <> [] ->
    (5 <= canvas.width cvs)%nat -> (3 <= canvas.height cvs)%nat ->
    on_axes cvs pt ->
    exists r,
      canvas.cells (canvas_after (ScatterPlot.Draw ord s cvs)) !! pt
      = Some (canvas.mkCell r (ScatterPlot.color s)
                (canvas.Bg (default canvas.blank (canvas.cells cvs !! pt)))) /\
      braille_rune r.
Proof.
  intros ord s cvs pt Hord Hpts Hw Hh Hpt.
  destruct (ScatterPlot_Draw_written ord s cvs Hord)
    as [[_ [? | [? | ?]]] | (_ & HW & HH & calls & Hcalls & ->)];
    [contradiction | lia | lia |].
  match goal with |- context [run_dots ?l _] => set (all := l) end.
  assert (Hall : Forall (fun c => 0 <= call_x c < Z.of_nat (canvas.width cvs) * 2 /\
                                  0 <= call_y c < Z.of_nat (canvas.height cvs) * 4) all).
  { apply Forall_app. split; [|assumption].
    apply Forall_forall. intros c Hc. apply (axis_dots_facts _ _ c Hc); assumption. }
  destruct (ScatterPlot_cell all (ScatterPlot.color s) cvs pt Hall) as [_ Hsome].
  apply Hsome. apply hits_nonempty.
  destruct pt as [px py]. unfold on_axes in Hpt. cbn [image.X image.Y fst snd] in Hpt.
  destruct Hpt as [[-> Hy] | [-> Hx]].
  - exists (mkCall 4 (4 * py) 0). split.
    + subst all. apply elem_of_app. left. unfold axis_dots. apply elem_of_app. left.
      apply list_elem_of_bind. exists (4 * py). split; [apply list_elem_of_singleton; reflexivity|].
      apply elem_of_seqZ. unfold ScatterPlot.padding. lia.
    + unfold cell_of. cbn [call_x call_y]. unfold image.mkPoint. f_equal.
      rewrite Z.quot_div_nonneg by lia. rewrite Z.mul_comm, Z.div_mul by lia. reflexivity.
  - exists (mkCall (2 * px) (Z.of_nat (canvas.height cvs) * 4 - 4) 0). split.
    + subst all. apply elem_of_app. left. unfold axis_dots. apply elem_of_app. right.
      apply list_elem_of_bind. exists (2 * px).
      split; [apply list_elem_of_singleton; reflexivity|].
      apply elem_of_seqZ. unfold ScatterPlot.padding. lia.
    + unfold cell_of. cbn [call_x call_y]. unfold image.mkPoint. f_equal.
      * rewrite Z.quot_div_nonneg by lia. rewrite Z.mul_comm, Z.div_mul by lia. reflexivity.
      * rewrite Z.quot_div_nonneg by lia.
        replace (Z.of_nat (canvas.height cvs) * 4 - 4)
          with ((Z.of_nat (canvas.height cvs) - 1) * 4) by lia.
        rewrite Z.div_mul by lia. reflexivity.
Qed.

Lemma X15_ScatterPlot_axes_witness :
  let s := fst (ScatterPlot.SetPoints ScatterPlot.NewScatterPlot
                  [ScatterPlot.mkPoint Float64.NaN (Float64.of_int 2)] "x" "y") in
  let cvs := empty_canvas 6 4 in
  exists r,
    canvas.cells (canvas_after (ScatterPlot.Draw (fun l => l) s cvs)) !! image.mkPoint 2 3
    = Some (canvas.mkCell r (ScatterPlot.color s)
              (canvas.Bg (default canvas.blank (canvas.cells cvs !! image.mkPoint 2 3)))) /\
    braille_rune r.
Proof.
  cbv zeta.
  apply (X15_ScatterPlot_axes (fun l => l)
           (fst (ScatterPlot.SetPoints ScatterPlot.NewScatterPlot
                   [ScatterPlot.mkPoint Float64.NaN (Float64.of_int 2)] "x" "y"))
           (empty_canvas 6 4) (image.mkPoint 2 3) (fun l => reflexivity l)).
  - discriminate.
  - cbn. lia.
  - cbn. lia.
  - right. cbn. lia.
Defined.

(** ** The rows of the layout *)

Lemma pack_closed {W} (ws : list (Layout.widgetWithConfig W)) :
  Layout.pack ws = closed_rows (fold_left Layout.pack_step ws Layout.pack_init).
Proof. reflexivity. Qed.

Lemma pack_concat {W} (ws : list (Layout.widgetWithConfig W)) :
  concat (Layout.pack ws) = map column_of ws.
Proof.
  destruct (pack_fold_inv ws) as [Hord _ _ _ Hemp _]. unfold Layout.pack.
  destruct (Layout.currentRow _) as [|c cs] eqn:E; cbn [length Nat.ltb Nat.leb].
  - rewrite <- Hord, app_nil_r. reflexivity.
  - rewrite concat_app. cbn. rewrite app_nil_r. exact Hord.
Qed.

Lemma pack_bound {W} (ws : list (Layout.widgetWithConfig W)) :
  Forall (fun r => r <> [] /\ Layout.row_width r <= 100) (Layout.pack ws).
Proof.
  destruct (pack_fold_inv ws) as [_ _ Hbnd Hcur _ _]. unfold Layout.pack.
  destruct (Layout.currentRow _) as [|c cs] eqn:E; cbn [length Nat.ltb Nat.leb].
  - assumption.
  - apply Forall_app. split; [assumption|]. constructor; [|constructor].
    split; [discriminate | assumption].
Qed.

Lemma pack_breaks {W} (ws : list (Layout.widgetWithConfig W)) : breaks_forced (Layout.pack ws).
Proof. destruct (pack_fold_inv ws) as [_ _ _ _ _ Hbrk]. exact Hbrk. Qed.

Lemma row_width_bounds {W} (r : list (Layout.Column W)) :
  Forall (fun c => Layout.widthPerc c = 30 \/ Layout.widthPerc c = 50) r ->
  30 * Z.of_nat (length r) <= Layout.row_width r <= 50 * Z.of_nat (length r).
Proof.
  induction 1 as [|c r Hc _ IH]; [cbn; lia|].
  change (Layout.row_width (c :: r)) with (Layout.widthPerc c + Layout.row_width r).
  cbn [length]. lia.
Qed.

Lemma breaks_forced_next {W} (rows : list (list (Layout.Column W))) (i : nat)
    (r r' : list (Layout.Column W)) :
  breaks_forced rows -> rows !! i = Some r -> rows !! S i = Some r' ->
  exists c cs, r' = c :: cs /\ 100 < Layout.row_width r + Layout.widthPerc c.
Proof.
  revert i. induction rows as [|r0 rows IH]; intros i Hbrk Hi Hi'; [discriminate|].
  destruct rows as [|r1 rows]; [discriminate|].
  cbn [breaks_forced] in Hbrk. destruct Hbrk as [Hhere Hrest].
  destruct i as [|i].
  - cbn in Hi, Hi'. injection Hi as <-. injection Hi' as <-.
    destruct r1 as [|c cs]; [contradiction|]. eauto.
  - exact (IH i Hrest Hi Hi').
Qed.

Lemma rows_count {A} (rows : list (list A)) :
  Forall (fun r => (1 <= length r <= 3)%nat) rows ->
  (forall i r, rows !! i = Some r -> (S i < length rows)%nat -> (2 <= length r)%nat) ->
  (length (concat rows) <= 3 * length rows)%nat /\
  (2 * length rows <= length (concat rows) + 1)%nat.
Proof.
  induction rows as [|r rows IH]; intros Hall Hfull; [cbn; lia|].
  inversion Hall as [|? ? Hr Hrest]; subst.
  cbn [concat length]. rewrite length_app.
  destruct rows as [|r1 rows].
  - cbn. lia.
  - pose proof (Hfull 0%nat r eq_refl ltac:(cbn; lia)).
    destruct (IH Hrest) as [H1 H2].
    { intros i r' Hi Hlt. apply (Hfull (S i) r' Hi). cbn [length] in *. lia. }
    cbn [length] in *. lia.
Qed.

(** X16: in the layout every row holds one, two or three widgets, and every
    row but the last holds at least two; so [k] widgets fill at least [k/3]
    and at most [(k+1)/2] rows. *)
Theorem X16_rows_hold_two_or_three :
  forall (W : Type) (ws : list (Layout.widgetWithConfig W)),
    let rows := Layout.pack ws in
    Forall (fun r => (1 <= length r <= 3)%nat) rows /\
    (forall i r, rows !! i = Some r -> (S i < length rows)%nat -> (2 <= length r)%nat) /\
    (length ws <= 3 * length rows)%nat /\
    (2 * length rows <= length ws + 1)%nat.
Proof.
  intros W ws rows.
  assert (Hwidths : forall r, r ∈ rows ->
            Forall (fun c => Layout.widthPerc c = 30 \/ Layout.widthPerc c = 50) r).
  { intros r Hr. apply Forall_forall. intros c Hc.
    assert (Hin : c ∈ map column_of ws).
    { rewrite <- pack_concat. apply list_elem_of_In, in_concat. exists r.
      split; apply list_elem_of_In; assumption. }
    apply list_elem_of_In, in_map_iff in Hin as (w & <- & _).
    apply widgetWidth_cases. }
  assert (Hsize : Forall (fun r => (1 <= length r <= 3)%nat) rows).
  { apply Forall_forall. intros r Hr.
    pose proof (pack_bound ws) as Hbnd. rewrite Forall_forall in Hbnd.
    destruct (Hbnd r Hr) as [Hne Hle].
    pose proof (row_width_bounds r (Hwidths r Hr)).
    destruct r; [contradiction|]. cbn [length] in *. lia. }
  assert (Hfull : forall i r, rows !! i = Some r -> (S i < length rows)%nat ->
                              (2 <= length r)%nat).
  { intros i r Hi Hlt.
    destruct (lookup_lt_is_Some_2 rows (S i) Hlt) as [r' Hi'].
    destruct (breaks_forced_next rows i r r' (pack_breaks ws) Hi Hi') as (c & cs & -> & Hover).
    pose proof (row_width_bounds r (Hwidths r (list_elem_of_lookup_2 _ _ _ Hi))).
    assert (Hc : Layout.widthPerc c = 30 \/ Layout.widthPerc c = 50).
    { pose proof (Hwidths _ (list_elem_of_lookup_2 _ _ _ Hi')) as Hr'.
      inversion Hr'; assumption. }
    lia. }
  split; [assumption|]. split; [assumption|].
  destruct (rows_count rows Hsize Hfull) as [H1 H2].
  subst rows. rewrite pack_concat, length_map in H1, H2. split; assumption.
Qed.

(** ** The validation of the grid builder *)

Lemma pack_widths {W} (ws : list (Layout.widgetWithConfig W)) :
  Forall (Forall (fun c => Layout.widthPerc c = 30 \/ Layout.widthPerc c = 50))
         (Layout.pack ws).
Proof.
  apply Forall_forall. intros r Hr. apply Forall_forall. intros c Hc.
  assert (Hin : c ∈ map column_of ws).
  { rewrite <- pack_concat. apply list_elem_of_In, in_concat. exists r.
    split; apply list_elem_of_In; assumption. }
  apply list_elem_of_In, in_map_iff in Hin as (w & <- & _).
  apply widgetWidth_cases.
Qed.

(** The number of rows against the number of widgets. *)
Lemma pack_rows_count {W} (ws : list (Layout.widgetWithConfig W)) :
  (length ws <= 3 * length (Layout.pack ws))%nat /\
  (2 * length (Layout.pack ws) <= length ws + 1)%nat.
Proof.
  pose proof (pack_widths ws) as Hwidths. rewrite Forall_forall in Hwidths.
  assert (Hsize : Forall (fun r => (1 <= length r <= 3)%nat) (Layout.pack ws)).
  { apply Forall_forall. intros r Hr.
    pose proof (pack_bound ws) as Hbnd. rewrite Forall_forall in Hbnd.
    destruct (Hbnd r Hr) as [Hne Hle].
    pose proof (row_width_bounds r (Hwidths r Hr)).
    destruct r; [contradiction|]. cbn [length] in *. lia. }
  assert (Hfull : forall i r, Layout.pack ws !! i = Some r ->
                              (S i < length (Layout.pack ws))%nat -> (2 <= length r)%nat).
  { intros i r Hi Hlt.
    destruct (lookup_lt_is_Some_2 (Layout.pack ws) (S i) Hlt) as [r' Hi'].
    destruct (breaks_forced_next (Layout.pack ws) i r r' (pack_breaks ws) Hi Hi')
      as (c & cs & -> & Hover).
    pose proof (row_width_bounds r (Hwidths r (list_elem_of_lookup_2 _ _ _ Hi))).
    assert (Hc : Layout.widthPerc c = 30 \/ Layout.widthPerc c = 50).
    { pose proof (Hwidths _ (list_elem_of_lookup_2 _ _ _ Hi')) as Hr'.
      inversion Hr'; assumption. }
    lia. }
  destruct (rows_count (Layout.pack ws) Hsize Hfull) as [H1 H2].
  rewrite pack_concat, length_map in H1, H2. split; assumption.
Qed.

Lemma percent_in_range z : 0 <= z <= 200 -> GoInt.in_range z.
Proof. unfold GoInt.in_range, GoInt.min_int, GoInt.max_int, GoInt.int_bits. lia. Qed.

(** Columns of width 30 or 50 that sum to 100 at most pass the validation. *)
Lemma validate_columns_ok {W} (cols : list (Layout.Column W)) (widthSum : Z) :
  Forall (fun c => Layout.widthPerc c = 30 \/ Layout.widthPerc c = 50) cols ->
  0 <= widthSum -> widthSum + Layout.row_width cols <= 100 ->
  Layout.validate_columns W cols widthSum = None.
Proof.
  revert widthSum. induction cols as [|c cols IH]; intros widthSum Hall Hs Hle.
  - cbn in *. destruct (Z.ltb_spec 100 widthSum); [lia | reflexivity].
  - inversion Hall as [|? ? Hc Hrest]; subst.
    change (Layout.row_width (c :: cols)) with (Layout.widthPerc c + Layout.row_width cols) in Hle.
    pose proof (row_width_bounds cols Hrest) as Hrow.
    cbn [Layout.validate_columns]. unfold Layout.out_of_range, GoInt.add.
    rewrite wrap_small by (apply percent_in_range; lia).
    destruct (Z.leb_spec (Layout.widthPerc c) 0); [lia|].
    destruct (Z.leb_spec 100 (Layout.widthPerc c)); [lia|].
    cbn [orb]. apply IH; [assumption | lia | lia].
Qed.

(** Rows of one height [h] between 0 and 100 whose heights sum to 100 at
    most pass, when their columns do. *)
Lemma validate_rows_ok {W} (rows : list (list (Layout.Column W))) (h heightSum : Z) :
  Forall (fun r => Layout.validate_columns W r 0 = None) rows ->
  0 < h < 100 -> 0 <= heightSum -> heightSum + h * Z.of_nat (length rows) <= 100 ->
  Layout.validate_rows W (map (Layout.RowHeightPerc h) rows) heightSum = None.
Proof.
  intros Hall Hh. revert heightSum.
  induction Hall as [|r rows Hr _ IH]; intros heightSum Hs Hle.
  - cbn in *. destruct (Z.ltb_spec 100 heightSum); [lia | reflexivity].
  - cbn [map Layout.validate_rows Layout.heightPerc Layout.columns length] in *.
    unfold Layout.out_of_range, GoInt.add.
    destruct (Z.leb_spec h 0); [lia|]. destruct (Z.leb_spec 100 h); [lia|].
    cbn [orb]. rewrite Hr.
    rewrite wrap_small by (apply percent_in_range; lia).
    apply IH; lia.
Qed.

(** [Build] on the rows of the layout: it fails exactly when there are more
    than 95 rows, for then their height [95 / n] is 0. *)
Lemma Build_rows {W} (t : W) (ws : list (Layout.widgetWithConfig W)) :
  Layout.pack ws <> [] ->
  Layout.Build W (5, t)
    (map (Layout.RowHeightPerc ((100 - 5) / Z.of_nat (length (Layout.pack ws))))
         (Layout.pack ws))
  = if (length (Layout.pack ws) <=? 95)%nat then None
    else Some Layout.invalid_row.
Proof.
  intros Hne. unfold Layout.Build. cbn [fst]. change (Layout.out_of_range 5) with false.
  cbv iota. unfold GoInt.add. rewrite wrap_small by (apply percent_in_range; lia).
  change (0 + 5) with 5. change (100 - 5) with 95.
  set (n := length (Layout.pack ws)).
  assert (Hn : (0 < n)%nat) by (subst n; destruct (Layout.pack ws); [contradiction | cbn; lia]).
  destruct (Nat.leb_spec n 95) as [Hle | Hgt].
  - apply validate_rows_ok.
    + pose proof (pack_widths ws) as Hw. pose proof (pack_bound ws) as Hb.
      rewrite Forall_forall in Hw, Hb. apply Forall_forall. intros r Hr.
      apply validate_columns_ok; [apply Hw, Hr | lia | destruct (Hb r Hr); lia].
    + pose proof (Z.div_le_lower_bound 95 (Z.of_nat n) 1 ltac:(lia) ltac:(lia)).
      pose proof (Z.div_le_upper_bound 95 (Z.of_nat n) 95 ltac:(lia) ltac:(nia)). lia.
    + lia.
    + fold n. pose proof (Z.mul_div_le 95 (Z.of_nat n) ltac:(lia)). lia.
  - rewrite (Z.div_small 95 (Z.of_nat n)) by lia.
    destruct (Layout.pack ws) as [|r rows]; [contradiction|]. reflexivity.
Qed.

(** [dynamicGridLayout] once the configured widgets are found in the map. *)
Lemma layout_of_collected {W} (widgets : gmap string (Layout.Iface W))
    (confs : list Layout.WidgetConfig) (t : W) (ws : list (Layout.widgetWithConfig W)) :
  widgets !! "title"%string = Some (Layout.IsWidget t) ->
  delete "title"%string widgets <> ∅ ->
  Layout.collect W (delete "title"%string widgets) confs = Ok ws ->
  Layout.dynamicGridLayout W widgets confs
  = if decide (ws = []) then Layout.Panic W
    else if (length (Layout.pack ws) <=? 95)%nat
         then Layout.Built W (5, t)
                (map (Layout.RowHeightPerc (95 / Z.of_nat (length (Layout.pack ws))))
                     (Layout.pack ws))
         else Layout.Failed W Layout.invalid_row.
Proof.
  intros Ht Hne Hws. unfold Layout.dynamicGridLayout. rewrite Ht.
  destruct (Nat.eqb_spec (size (delete "title"%string widgets)) 0) as [Hsize | _];
    [apply map_size_empty_iff in Hsize; contradiction|].
  rewrite Hws.
  assert (Hpack : Layout.pack ws = [] <-> ws = []).
  { split; [|intros ->; reflexivity].
    intros E. pose proof (pack_concat ws) as Hcat. rewrite E in Hcat.
    destruct ws; [reflexivity | discriminate]. }
  destruct (decide (ws = [])) as [-> | Hws'].
  - reflexivity.
  - assert (Hrows : Layout.pack ws <> []) by (intros E; apply Hws', Hpack, E).
    destruct (Nat.eqb_spec (length (Layout.pack ws)) 0) as [Hzero | _].
    { destruct (Layout.pack ws); [contradiction | discriminate]. }
    unfold Layout.build. rewrite (Build_rows t ws Hrows).
    destruct (length (Layout.pack ws) <=? 95)%nat; reflexivity.
Qed.

(** ** From the configured widgets to the layout *)

Lemma last_titled_cons (c : Layout.WidgetConfig) (confs : list Layout.WidgetConfig) (k : string) :
  last_titled (c :: confs) k
  = match last_titled confs k with
    | Some c' => Some c'
    | None => if decide (Layout.Title c = k) then Some c else None
    end.
Proof.
  unfold last_titled. rewrite filter_cons.
  destruct (decide (Layout.Title c = k)); [|destruct (last _); reflexivity].
  rewrite last_cons. reflexivity.
Qed.

Lemma last_titled_member (confs : list Layout.WidgetConfig) (c : Layout.WidgetConfig) :
  c ∈ confs -> is_Some (last_titled confs (Layout.Title c)).
Proof.
  intros Hin. unfold last_titled. apply last_is_Some. intros E.
  assert (Hc : c ∈ filter (fun c' => Layout.Title c' = Layout.Title c) confs)
    by (apply list_elem_of_filter; split; [reflexivity | assumption]).
  rewrite E in Hc. by apply elem_of_nil in Hc.
Qed.

Lemma last_titled_None (confs : list Layout.WidgetConfig) (k : string) :
  Forall (fun c => Layout.Title c <> k) confs -> last_titled confs k = None.
Proof.
  intros Hall. unfold last_titled. apply last_None.
  induction Hall as [|c confs Hc _ IH]; [reflexivity|].
  rewrite filter_cons. destruct (decide (Layout.Title c = k)); [contradiction | exact IH].
Qed.

Lemma create_all_ok {W} (mk : Main.makers W) (confs : list Layout.WidgetConfig)
    (m0 : gmap string (Layout.Iface W)) :
  Forall (fun c => is_ok (Main.create mk c) = true) confs ->
  exists m, Main.create_all mk confs m0 = Ok m.
Proof.
  intros Hall. revert m0. induction Hall as [|c confs Hc _ IH]; intros m0; cbn [Main.create_all].
  - eauto.
  - destruct (Main.create mk c); [apply IH | discriminate].
Qed.

Lemma create_all_lookup {W} (mk : Main.makers W) (confs : list Layout.WidgetConfig)
    (m0 m : gmap string (Layout.Iface W)) (k : string) :
  Main.create_all mk confs m0 = Ok m ->
  match last_titled confs k with
  | Some c => exists w, Main.create mk c = Ok w /\ m !! k = Some (Layout.IsWidget w)
  | None => m !! k = m0 !! k
  end.
Proof.
  revert m0. induction confs as [|c confs IH]; intros m0; cbn [Main.create_all].
  - intros [= <-]. reflexivity.
  - destruct (Main.create mk c) as [w|e] eqn:Ec; [|discriminate].
    intros Hrest. specialize (IH _ Hrest). rewrite last_titled_cons.
    destruct (last_titled confs k) as [c'|]; [exact IH|].
    rewrite IH. destruct (decide (Layout.Title c = k)) as [<- | Hne].
    + exists w. split; [assumption | apply lookup_insert_eq].
    + apply lookup_insert_ne. assumption.
Qed.

Lemma collect_ok {W} (M : gmap string (Layout.Iface W)) (confs : list Layout.WidgetConfig) :
  Forall (fun c => exists w, M !! Layout.Title c = Some (Layout.IsWidget w)) confs ->
  exists ws,
    Layout.collect W M confs = Ok ws /\
    Forall2 (fun c w => Layout.typ w = Layout.Type_ c /\ Layout.title W w = Layout.Title c /\
                        M !! Layout.Title c = Some (Layout.IsWidget (Layout.element W w)))
            confs ws.
Proof.
  induction 1 as [|c confs [w Hw] _ (ws & Hws & Hall)]; cbn [Layout.collect].
  - exists []. split; [reflexivity | constructor].
  - rewrite Hw, Hws. eexists. split; [reflexivity|].
    constructor; [|assumption]. cbn. auto.
Qed.

Lemma collect_fails {W} (M : gmap string (Layout.Iface W)) (confs : list Layout.WidgetConfig)
    (c : Layout.WidgetConfig) :
  c ∈ confs -> M !! Layout.Title c = None ->
  Layout.collect W M confs = Err "the widget '%s' is not a valid widget".
Proof.
  intros Hin Hnone. induction confs as [|c0 confs IH]; [by apply elem_of_nil in Hin|].
  cbn [Layout.collect].
  destruct (M !! Layout.Title c0) as [[w|]|] eqn:E; try reflexivity.
  apply elem_of_cons in Hin as [-> | Hin]; [congruence|].
  rewrite (IH Hin). reflexivity.
Qed.

Lemma Forall2_impl_elem {A B} (P Q : A -> B -> Prop) (l : list A) (k : list B) :
  Forall2 P l k -> (forall x y, x ∈ l -> P x y -> Q x y) -> Forall2 Q l k.
Proof.
  induction 1 as [|x y l k Hxy _ IH]; intros Himpl; constructor.
  - apply Himpl; [left | assumption].
  - apply IH. intros x' y' Hin. apply Himpl. right. assumption.
Qed.

(** X17: when every configured widget can be created and none of them is
    titled "title", the created widgets are laid out under the title text,
    which fills a first row 5 high: one widget for each configured widget, in
    the order of the configuration and with its type and title; the widget
    shown for a title is the one created for the last configured widget of
    that title, so two widgets of one title show the same widget twice.  The
    layout is built when these widgets fill 95 rows at most, as up to 190
    widgets do, with rows of equal height; with more rows the height of a
    row is 0, the grid builder refuses it and [main] panics, as it does from
    286 widgets on. *)
Theorem X17_dashboard_is_built :
  forall (W : Type) (mk : Main.makers W) (title : string) (confs : list Layout.WidgetConfig),
    Forall (fun c => is_ok (Main.create mk c) = true) confs ->
    Forall (fun c => Layout.Title c <> "title"%string) confs ->
    confs <> [] ->
    exists ws,
      Forall2 (fun c w =>
                 Layout.typ w = Layout.Type_ c /\ Layout.title W w = Layout.Title c /\
                 exists c', last_titled confs (Layout.Title c) = Some c' /\
                            Main.create mk c' = Ok (Layout.element W w))
              confs ws /\
      ((length (Layout.pack ws) <= 95)%nat ->
       exists body,
         Main.dashboard mk title confs = Layout.Built W (5, Main.titleText mk title) body /\
         body <> [] /\
         Layout.columns W <$> body = Layout.pack ws /\
         Forall (fun row => Layout.heightPerc W row = 95 / Z.of_nat (length body)) body) /\
      ((95 < length (Layout.pack ws))%nat ->
       Main.dashboard mk title confs
       = Layout.Failed W Layout.invalid_row) /\
      ((length confs <= 190)%nat -> (length (Layout.pack ws) <= 95)%nat) /\
      ((286 <= length confs)%nat -> (95 < length (Layout.pack ws))%nat).
Proof.
  intros W mk title confs Hok Hfree Hne.
  destruct (create_all_ok mk confs ∅ Hok) as [m Hm].
  set (M := <["title"%string := Layout.IsWidget (Main.titleText mk title)]> m).
  assert (Hlook : forall c, c ∈ confs ->
            exists c' w, last_titled confs (Layout.Title c) = Some c' /\
                         Main.create mk c' = Ok w /\
                         delete "title"%string M !! Layout.Title c = Some (Layout.IsWidget w)).
  { intros c Hc. pose proof (create_all_lookup mk confs ∅ m (Layout.Title c) Hm) as Hk.
    destruct (last_titled_member confs c Hc) as [c' Hc']. rewrite Hc' in Hk.
    destruct Hk as (w & Hw & Hmk). exists c', w. split; [assumption|]. split; [assumption|].
    rewrite Forall_forall in Hfree. subst M.
    rewrite lookup_delete_ne by (intros E; exact (Hfree c Hc (eq_sym E))).
    rewrite lookup_insert_ne by (intros E; exact (Hfree c Hc (eq_sym E))).
    assumption. }
  destruct (collect_ok (delete "title"%string M) confs) as (ws & Hws & Hall).
  { apply Forall_forall. intros c Hc. destruct (Hlook c Hc) as (c' & w & _ & _ & Hw). eauto. }
  assert (Hlen : length ws = length confs) by (symmetry; exact (Forall2_length _ _ _ Hall)).
  assert (Hwne : ws <> []).
  { intros ->. destruct confs; [contradiction | discriminate]. }
  assert (Hpack : Layout.pack ws <> []).
  { intros E. pose proof (pack_concat ws) as Hcat. rewrite E in Hcat.
    destruct ws; [contradiction | discriminate]. }
  assert (Hnonempty : delete "title"%string M <> ∅).
  { destruct confs as [|c0 confs']; [contradiction|].
    destruct (Hlook c0 ltac:(left)) as (c' & w & _ & _ & Hw).
    intros E. rewrite E, lookup_empty in Hw. discriminate. }
  assert (Hrun : Main.dashboard mk title confs
                 = if (length (Layout.pack ws) <=? 95)%nat
                   then Layout.Built W (5, Main.titleText mk title)
                          (map (Layout.RowHeightPerc (95 / Z.of_nat (length (Layout.pack ws))))
                               (Layout.pack ws))
                   else Layout.Failed W Layout.invalid_row).
  { unfold Main.dashboard, Main.createWidgets. rewrite Hm. fold M.
    rewrite (layout_of_collected M confs (Main.titleText mk title) ws
               (lookup_insert_eq _ _ _) Hnonempty Hws).
    destruct (decide (ws = [])); [contradiction | reflexivity]. }
  pose proof (pack_rows_count ws) as [Hlow Hhigh].
  exists ws. split; [|split; [|split; [|split]]].
  - apply (Forall2_impl_elem _ _ _ _ Hall). intros c w Hc (Ht & Htt & Hmw).
    split; [assumption|]. split; [assumption|].
    destruct (Hlook c Hc) as (c' & w' & Hc' & Hw' & Hmw').
    exists c'. split; [assumption|]. rewrite Hmw in Hmw'. injection Hmw' as ->. assumption.
  - intros Hle. rewrite Hrun.
    destruct (Nat.leb_spec (length (Layout.pack ws)) 95) as [_ | Hgt]; [|lia].
    eexists. split; [reflexivity|]. split; [|split].
    + destruct (Layout.pack ws); [contradiction | discriminate].
    + rewrite <- list_fmap_compose. apply list_fmap_id.
    + rewrite length_map. apply Forall_fmap, Forall_forall. intros r _. reflexivity.
  - intros Hgt. rewrite Hrun.
    destruct (Nat.leb_spec (length (Layout.pack ws)) 95) as [Hle | _]; [lia | reflexivity].
  - lia.
  - lia.
Qed.

Lemma X17_dashboard_is_built_witness :
  let confs := [Layout.mkConfig "bar" "sales"; Layout.mkConfig "pie" "share";
                Layout.mkConfig "line" "sales"] in
  exists ws,
    Forall2 (fun c w =>
               Layout.typ w = Layout.Type_ c /\ Layout.title string w = Layout.Title c /\
               exists c', last_titled confs (Layout.Title c) = Some c' /\
                          Main.create plain_makers c' = Ok (Layout.element string w))
            confs ws /\
    ((length (Layout.pack ws) <= 95)%nat ->
     exists body,
       Main.dashboard plain_makers "shop" confs = Layout.Built string (5, "shop"%string) body /\
       body <> [] /\
       Layout.columns string <$> body = Layout.pack ws /\
       Forall (fun row => Layout.heightPerc string row = 95 / Z.of_nat (length body)) body) /\
    ((95 < length (Layout.pack ws))%nat ->
     Main.dashboard plain_makers "shop" confs
     = Layout.Failed string Layout.invalid_row) /\
    ((length confs <= 190)%nat -> (length (Layout.pack ws) <= 95)%nat) /\
    ((286 <= length confs)%nat -> (95 < length (Layout.pack ws))%nat).
Proof.
  cbv zeta.
  apply (X17_dashboard_is_built string plain_makers "shop"
           [Layout.mkConfig "bar" "sales"; Layout.mkConfig "pie" "share";
            Layout.mkConfig "line" "sales"]).
  - repeat constructor.
  - repeat constructor; discriminate.
  - discriminate.
Defined.

(** X18: a configured widget titled "title" is lost to the title text of
    the dashboard, which is stored under the same key.  When every configured
    widget can be created: if all of them are titled "title" (or there is
    none), the layout is built with the title row alone; if one is titled
    "title" and another is not, the layout fails on the widget titled
    "title" and [main] panics. *)
Theorem X18_widget_titled_title :
  forall (W : Type) (mk : Main.makers W) (title : string) (confs : list Layout.WidgetConfig),
    Forall (fun c => is_ok (Main.create mk c) = true) confs ->
    (Forall (fun c => Layout.Title c = "title"%string) confs ->
     Main.dashboard mk title confs = Layout.Built W (5, Main.titleText mk title) []) /\
    (Exists (fun c => Layout.Title c = "title"%string) confs ->
     Exists (fun c => Layout.Title c <> "title"%string) confs ->
     Main.dashboard mk title confs
     = Layout.Failed W "the widget '%s' is not a valid widget").
Proof.
  intros W mk title confs Hok.
  destruct (create_all_ok mk confs ∅ Hok) as [m Hm].
  unfold Main.dashboard, Main.createWidgets. rewrite Hm.
  unfold Layout.dynamicGridLayout. rewrite lookup_insert_eq.
  set (M := delete "title"%string
              (<["title"%string := Layout.IsWidget (Main.titleText mk title)]> m)).
  split.
  - intros Hall.
    assert (HM : M = ∅).
    { apply map_eq. intros k. rewrite lookup_empty. subst M.
      destruct (decide (k = "title"%string)) as [-> | Hk]; [apply lookup_delete_eq|].
      rewrite lookup_delete_ne, lookup_insert_ne by congruence.
      pose proof (create_all_lookup mk confs ∅ m k Hm) as Hlook.
      rewrite last_titled_None in Hlook; [rewrite Hlook; apply lookup_empty|].
      eapply Forall_impl; [exact Hall|]. cbn. intros c ->. congruence. }
    rewrite HM, map_size_empty. reflexivity.
  - intros Htitled Hother.
    apply Exists_exists in Htitled as (c1 & Hc1 & Ht1).
    apply Exists_exists in Hother as (c2 & Hc2 & Ht2).
    destruct (Nat.eqb_spec (size M) 0) as [Hsize | _].
    { apply map_size_empty_iff in Hsize.
      pose proof (create_all_lookup mk confs ∅ m (Layout.Title c2) Hm) as Hlook.
      destruct (last_titled_member confs c2 Hc2) as [c' Hc']. rewrite Hc' in Hlook.
      destruct Hlook as (w & _ & Hw).
      assert (HMw : M !! Layout.Title c2 = Some (Layout.IsWidget w)).
      { subst M. rewrite lookup_delete_ne, lookup_insert_ne by congruence. assumption. }
      rewrite Hsize, lookup_empty in HMw. discriminate. }
    rewrite (collect_fails M confs c1 Hc1); [reflexivity|].
    rewrite Ht1. subst M. apply lookup_delete_eq.
Qed.

Lemma X18_widget_titled_title_witness :
  Main.dashboard plain_makers "shop"
    [Layout.mkConfig "bar" "sales"; Layout.mkConfig "pie" "title"]
  = Layout.Failed string "the widget '%s' is not a valid widget".
Proof.
  apply (X18_widget_titled_title string plain_makers "shop"
           [Layout.mkConfig "bar" "sales"; Layout.mkConfig "pie" "title"]).
  - repeat constructor.
  - apply Exists_exists. exists (Layout.mkConfig "pie" "title"). split; [|reflexivity].
    right. left.
  - apply Exists_exists. exists (Layout.mkConfig "bar" "sales"). split; [left | discriminate].
Defined.

(** ** The constructors of the main package on loaded data *)

Lemma check_records_ok_iff (header : list string) (records : list (list string)) :
  loader.check_records header records = None
  <-> Forall (fun r => length r = length header) records.
Proof.
  induction records as [|r rest IH]; cbn [loader.check_records].
  - split; [constructor | reflexivity].
  - destruct (Nat.eqb_spec (length r) (length header)) as [Heq | Hne]; cbn [negb].
    + rewrite IH. split; [intros H; constructor; assumption | intros H; inversion H; assumption].
    + split; [discriminate | intros H; inversion H; contradiction].
Qed.

Lemma Load_well_formed (file : loader.csv_file) (data : loader.DataDataSource) :
  loader.Load file = Ok data ->
  well_formed data /\
  exists rest, file = loader.Parsed (loader.Header data :: rest) /\ loader.Records data = rest.
Proof.
  destruct file as [| |[|header rest]]; cbn [loader.Load]; try discriminate.
  destruct (loader.check_records header rest) eqn:E; [discriminate|].
  intros [= <-]. split; [|exists rest; split; reflexivity].
  apply check_records_ok_iff. exact E.
Qed.

(** X19: on data [Load] has read from a CSV file, [createTable] never
    fails: the record check of [Load] is the row check of [NewTable].  The
    table holds the header and every record of the file, shows page 0 and
    has 5 rows on a page. *)
Theorem X19_createTable_on_csv :
  forall (file : loader.csv_file) (data : loader.DataDataSource) (w : loader.WidgetConfig),
    loader.Load file = Ok data ->
    exists tb,
      Creators.createTable w data = Ok tb /\
      Table.headers tb = Table.NewCell <$> loader.Header data /\
      Table.rows tb = (fun r : list string => Table.NewCell <$> r) <$> loader.Records data /\
      Table.currentPage tb = 0 /\
      Table.rowsPerPage tb = 5.
Proof.
  intros file data w Hload. apply Load_well_formed in Hload as [Hwf _].
  unfold Creators.createTable.
  set (headers := Table.NewCell <$> loader.Header data).
  set (rows := (fun r : list string => Table.NewCell <$> r) <$> loader.Records data).
  set (opts := [Table.CellFillColor cell.ColorDefault; Table.HeaderFillColor cell.ColorBlack]).
  assert (Hrows : Forall (fun row => Table.len row = Z.of_nat (length (loader.Header data))) rows).
  { subst rows. apply Forall_fmap. eapply Forall_impl; [exact Hwf|].
    intros r Hr. cbn. unfold Table.len. rewrite length_fmap, Hr. reflexivity. }
  assert (Hcols : Table.expected_cols headers rows = Z.of_nat (length (loader.Header data))).
  { unfold Table.expected_cols, Table.len. subst headers. rewrite length_fmap.
    destruct (Z.ltb_spec 0 (Z.of_nat (length (loader.Header data)))) as [|Hz]; [reflexivity|].
    destruct rows as [|row0 rows']; [lia|].
    inversion Hrows as [|? ? H0 _]; subst. exact H0. }
  assert (Hok : is_ok (Table.NewTable headers rows opts) = true).
  { apply NewTable_ok_iff, check_rows_ok_iff. rewrite Hcols. exact Hrows. }
  destruct (Table.NewTable headers rows opts) as [tb|e] eqn:Hnew; [|discriminate].
  exists tb. split; [reflexivity|].
  apply NewTable_fields in Hnew. subst tb. cbn. auto.
Qed.

Lemma X19_createTable_on_csv_witness :
  let file := loader.Parsed [["name"; "sales"]; ["a"; "1"]; ["b"; "2"]]%string in
  let w := loader.mkWidgetConfig "table" "Table" "" "" "" "" "" "" "" 0 in
  exists data tb,
    loader.Load file = Ok data /\
    Creators.createTable w data = Ok tb /\
    Table.rowsPerPage tb = 5.
Proof.
  cbv zeta. eexists.
  match goal with |- exists tb, loader.Load ?f = Ok ?d /\ _ =>
    assert (Hload : loader.Load f = Ok d) by (vm_compute; reflexivity)
  end.
  destruct (X19_createTable_on_csv _ _
              (loader.mkWidgetConfig "table" "Table" "" "" "" "" "" "" "" 0) Hload)
    as (tb & Hnew & _ & _ & _ & Hrpp).
  exists tb. split; [exact Hload|]. split; [exact Hnew | exact Hrpp].
Defined.

Lemma index_from_absent (col : string) (header : list string) (k : Z) :
  col ∉ header -> Creators.index_from col header k = -1.
Proof.
  revert k. induction header as [|h rest IH]; intros k Hnot; cbn [Creators.index_from].
  - reflexivity.
  - destruct (String.eqb_spec h col) as [-> | _].
    + exfalso. apply Hnot. left.
    + apply IH. intros Hin. apply Hnot. right. assumption.
Qed.

Lemma index_from_first (col : string) (header : list string) (k : Z) (i : nat) :
  header !! i = Some col ->
  (forall j, (j < i)%nat -> header !! j <> Some col) ->
  Creators.index_from col header k = k + Z.of_nat i.
Proof.
  revert k i. induction header as [|h rest IH]; intros k i Hi Hfirst; [discriminate|].
  cbn [Creators.index_from]. destruct i as [|i].
  - cbn in Hi. injection Hi as ->. rewrite String.eqb_refl. lia.
  - destruct (String.eqb_spec h col) as [-> | _].
    + exfalso. apply (Hfirst 0%nat); [lia | reflexivity].
    + rewrite (IH (k + 1) i Hi); [lia|].
      intros j Hj. apply (Hfirst (S j)). lia.
Qed.

Lemma first_occurrence (col : string) (header : list string) :
  col ∈ header ->
  exists i, header !! i = Some col /\ forall j, (j < i)%nat -> header !! j <> Some col.
Proof.
  induction header as [|h rest IH]; intros Hin; [by apply elem_of_nil in Hin|].
  destruct (decide (h = col)) as [-> | Hne].
  - exists 0%nat. split; [reflexivity | lia].
  - apply elem_of_cons in Hin as [-> | Hin]; [contradiction|].
    destruct (IH Hin) as (i & Hi & Hfirst). exists (S i). split; [exact Hi|].
    intros [|j] Hj; cbn; [congruence | apply Hfirst; lia].
Qed.

Lemma column_values_spec (Atoi : string -> option Z) (i : nat) (records : list (list string))
    (acc : list Z) :
  Forall (fun r => (i < length r)%nat) records ->
  Creators.column_values Atoi i records acc = Some (acc ++ parsed_column Atoi i records).
Proof.
  intros Hall. revert acc. induction Hall as [|r rest Hr _ IH]; intros acc.
  - cbn. rewrite app_nil_r. reflexivity.
  - cbn [Creators.column_values]. unfold parsed_column. cbn [omap list_omap].
    destruct (lookup_lt_is_Some_2 r i Hr) as [field Hfield]. rewrite Hfield.
    cbn [mbind option_bind]. destruct (Atoi field) as [v|].
    + rewrite IH, <- app_assoc. reflexivity.
    + apply IH.
Qed.

Lemma range_sum_message (vs : list Z) (acc : Z) :
  ~ Forall (fun v => 0 <= v) vs ->
  snd (range_sum vs acc) = Some "all values must be non-negative"%string.
Proof.
  revert acc. induction vs as [|v vs IH]; intros acc Hnot; cbn [range_sum].
  - exfalso. apply Hnot. constructor.
  - destruct (Z.ltb_spec v 0); [reflexivity|].
    apply IH. intros Hall. apply Hnot. constructor; assumption.
Qed.

Lemma PieChart_Values_outcome (p : PieChart.t) (values colors : list Z) :
  colors <> [] ->
  match PieChart.Values p values colors with
  | (_, Some e) => Creators.Refused e
  | (pc, None) => Creators.Created pc
  end = values_outcome PieChart.mk values colors.
Proof.
  intros Hcol. rewrite PieChart_Values_unfold. unfold values_outcome.
  destruct values as [|v vs]; [reflexivity|]. destruct colors as [|c cs]; [contradiction|].
  destruct (decide (v :: vs = [])); [discriminate|].
  destruct (decide (Forall (fun v => 0 <= v) (v :: vs))) as [Hall | Hnot].
  - pose proof (proj2 (range_sum_ok_iff (v :: vs) 0) Hall) as Hok.
    pose proof (range_sum_total (v :: vs) 0 zero_in_range Hall) as Htot.
    destruct (range_sum (v :: vs) 0) as [tot err]. cbn [fst snd] in *. subst.
    reflexivity.
  - pose proof (range_sum_message (v :: vs) 0 Hnot) as Herr.
    destruct (range_sum (v :: vs) 0) as [tot err]. cbn [fst snd] in *. subst. reflexivity.
Qed.

Lemma Funnel_Values_outcome (f : Funnel.t) (values colors : list Z) :
  (values <> [] -> colors <> []) ->
  match Funnel.Values f values colors with
  | (_, Some e) => Creators.Refused e
  | (fn, None) => Creators.Created fn
  end = values_outcome Funnel.mk values colors.
Proof.
  intros Hcol. rewrite Funnel_Values_unfold. unfold values_outcome.
  destruct values as [|v vs]; [reflexivity|].
  destruct colors as [|c cs]; [exfalso; apply Hcol; [discriminate | reflexivity]|].
  destruct (decide (v :: vs = [])); [discriminate|].
  destruct (decide (Forall (fun v => 0 <= v) (v :: vs))) as [Hall | Hnot].
  - pose proof (proj2 (range_sum_ok_iff (v :: vs) 0) Hall) as Hok.
    pose proof (range_sum_total (v :: vs) 0 zero_in_range Hall) as Htot.
    destruct (range_sum (v :: vs) 0) as [tot err]. cbn [fst snd] in *. subst.
    reflexivity.
  - pose proof (range_sum_message (v :: vs) 0 Hnot) as Herr.
    destruct (range_sum (v :: vs) 0) as [tot err]. cbn [fst snd] in *. subst. reflexivity.
Qed.

(** X20: on data in which every record has the length of the header (the
    data [Load] reads from a CSV file), [createPieChart] does not panic.  It
    fails when the value column is not a header; otherwise it reads the
    first column of that name, keeps the fields that parse as integers,
    and fails when none does or when one is negative; else the pie chart
    holds these values, the nine colours and the wrapped sum as total. *)
Theorem X20_createPieChart_outcome :
  forall (Atoi : string -> option Z) (w : loader.WidgetConfig) (data : loader.DataDataSource),
    well_formed data ->
    (loader.ValueCol w ∉ loader.Header data ->
     Creators.createPieChart Atoi w data
     = Creators.Refused "column '%s' not found for widget '%s'") /\
    (forall i : nat,
        loader.Header data !! i = Some (loader.ValueCol w) ->
        (forall j, (j < i)%nat -> loader.Header data !! j <> Some (loader.ValueCol w)) ->
        Creators.createPieChart Atoi w data
        = values_outcome PieChart.mk (parsed_column Atoi i (loader.Records data))
            (Creators.pie_colors)).
Proof.
  intros Atoi w data Hwf. unfold Creators.createPieChart, Creators.first_index. split.
  - intros Hnot. rewrite index_from_absent by assumption. reflexivity.
  - intros i Hi Hfirst. rewrite (index_from_first _ _ 0 i Hi Hfirst).
    destruct (Z.eqb_spec (0 + Z.of_nat i) (-1)); [lia|].
    replace (Z.to_nat (0 + Z.of_nat i)) with i by lia.
    rewrite column_values_spec.
    + cbn [app]. apply PieChart_Values_outcome. discriminate.
    + eapply Forall_impl; [exact Hwf|]. cbn. intros r ->.
      apply lookup_lt_Some in Hi. exact Hi.
Qed.

Lemma X20_createPieChart_outcome_witness :
  let data := loader.mkData ["name"; "sales"] [["a"; "1"]; ["b"; "x"]; ["c"; "3"]]%string in
  let w := loader.mkWidgetConfig "pie" "Pie" "sales" "name" "" "" "" "" "" 0 in
  Creators.createPieChart small_Atoi w data
  = Creators.Created (PieChart.mk [1; 3] Creators.pie_colors 4).
Proof.
  cbv zeta.
  pose proof (X20_createPieChart_outcome small_Atoi
                (loader.mkWidgetConfig "pie" "Pie" "sales" "name" "" "" "" "" "" 0)
                (loader.mkData ["name"; "sales"] [["a"; "1"]; ["b"; "x"]; ["c"; "3"]]%string)
                ltac:(repeat constructor)) as [_ H].
  rewrite (H 1%nat eq_refl).
  - reflexivity.
  - intros [|j] Hj; [discriminate | lia].
Defined.

Lemma funnel_values_panics (Atoi : string -> option Z) (records : list (list string))
    (data colors : list Z) :
  Exists (fun r => (length r < 2)%nat) records ->
  Creators.funnel_values Atoi records data colors = None.
Proof.
  intros Hex. revert data colors.
  induction records as [|r rest IH]; intros data colors; [inversion Hex|].
  cbn [Creators.funnel_values].
  destruct (r !! 1%nat) as [field|] eqn:Hfield; [|reflexivity].
  apply lookup_lt_Some in Hfield.
  inversion Hex as [? ? Hshort | ? ? Hrest]; subst; [lia|].
  destruct (Atoi field); apply IH; assumption.
Qed.

Lemma funnel_values_spec (Atoi : string -> option Z) (records : list (list string))
    (data colors : list Z) :
  Forall (fun r => (2 <= length r)%nat) records ->
  Creators.funnel_values Atoi records data colors
  = Some (data ++ parsed_column Atoi 1 records,
          colors ++ (cell.ColorNumber <$>
                       seqZ (Z.of_nat (length colors) + 1)
                            (Z.of_nat (length (parsed_column Atoi 1 records))))).
Proof.
  intros Hall. revert data colors. induction Hall as [|r rest Hr _ IH]; intros data colors.
  - cbn. rewrite !app_nil_r. reflexivity.
  - cbn [Creators.funnel_values]. unfold parsed_column. cbn [omap list_omap].
    destruct (lookup_lt_is_Some_2 r 1 ltac:(lia)) as [field Hfield]. rewrite Hfield.
    cbn [mbind option_bind]. destruct (Atoi field) as [v|].
    + rewrite IH. fold (parsed_column Atoi 1 rest). cbn [length].
      rewrite <- !app_assoc, length_app. cbn [length app].
      rewrite (seqZ_cons (Z.of_nat (length colors) + 1)) by lia.
      rewrite fmap_cons.
      replace (Z.of_nat (length colors + 1) + 1)
        with (Z.succ (Z.of_nat (length colors) + 1)) by lia.
      replace (Z.pred (Z.of_nat (S (length (parsed_column Atoi 1 rest)))))
        with (Z.of_nat (length (parsed_column Atoi 1 rest))) by lia.
      reflexivity.
    + apply IH.
Qed.

(** X21: [createFunnel] reads the field 1 of every record, whatever columns
    the widget is configured with.  It panics when a record has fewer than
    two fields, as every record of a CSV file of one column has.  On other
    data it keeps the fields that parse as integers and fails when none does
    or when one is negative; else the funnel holds these values, the colours
    of the numbers 1, 2, ... up to their count, and the wrapped sum as
    total. *)
Theorem X21_createFunnel_outcome :
  forall (Atoi : string -> option Z) (w : loader.WidgetConfig) (data : loader.DataDataSource),
    (Exists (fun r => (length r < 2)%nat) (loader.Records data) ->
     Creators.createFunnel Atoi w data = Creators.Panicked) /\
    (Forall (fun r => (2 <= length r)%nat) (loader.Records data) ->
     let values := parsed_column Atoi 1 (loader.Records data) in
     Creators.createFunnel Atoi w data
     = values_outcome Funnel.mk values
         (cell.ColorNumber <$> seqZ 1 (Z.of_nat (length values)))).
Proof.
  intros Atoi w data. unfold Creators.createFunnel. split.
  - intros Hex. rewrite funnel_values_panics by assumption. reflexivity.
  - intros Hall. cbv zeta. rewrite funnel_values_spec by assumption. cbn [app length Z.of_nat Z.add].
    apply Funnel_Values_outcome.
    destruct (parsed_column Atoi 1 (loader.Records data)) as [|v vs]; [contradiction|].
    intros _. cbn [length]. rewrite (seqZ_cons 1) by lia. discriminate.
Qed.

Lemma X21_createFunnel_outcome_witness :
  let w := loader.mkWidgetConfig "funnel" "Funnel" "sales" "" "" "" "" "" "" 0 in
  Creators.createFunnel small_Atoi w (loader.mkData ["sales"] [["1"]; ["2"]]%string)
  = Creators.Panicked /\
  Creators.createFunnel small_Atoi w
    (loader.mkData ["name"; "sales"] [["a"; "1"]; ["b"; "x"]; ["c"; "3"]]%string)
  = Creators.Created (Funnel.mk [1; 3] [2; 3] 4).
Proof.
  cbv zeta. split.
  - apply (proj1 (X21_createFunnel_outcome small_Atoi
                    (loader.mkWidgetConfig "funnel" "Funnel" "sales" "" "" "" "" "" "" 0)
                    (loader.mkData ["sales"] [["1"]; ["2"]]%string))).
    left. cbn. lia.
  - rewrite (proj2 (X21_createFunnel_outcome small_Atoi
                      (loader.mkWidgetConfig "funnel" "Funnel" "sales" "" "" "" "" "" "" 0)
                      (loader.mkData ["name"; "sales"]
                         [["a"; "1"]; ["b"; "x"]; ["c"; "3"]]%string)));
      [reflexivity|].
    repeat constructor.
Defined.

Lemma xy_indexes_snoc (xCol yCol : string) (header : list string) (h : string) :
  Creators.xy_indexes xCol yCol (header ++ [h])
  = (if String.eqb h xCol then Z.of_nat (length header)
     else fst (Creators.xy_indexes xCol yCol header),
     if String.eqb h yCol then Z.of_nat (length header)
     else snd (Creators.xy_indexes xCol yCol header)).
Proof.
  unfold Creators.xy_indexes. rewrite imap_app, fold_left_app. cbn [imap fold_left fst snd].
  rewrite Nat.add_0_r. reflexivity.
Qed.

Lemma xy_indexes_last (xCol yCol : string) (header : list string) :
  let last_of (col : string) (idx : Z) :=
    ((col ∉ header) /\ idx = -1) \/
    (exists i : nat, idx = Z.of_nat i /\ header !! i = Some col /\
                     forall j, (i < j)%nat -> header !! j <> Some col) in
  last_of xCol (fst (Creators.xy_indexes xCol yCol header)) /\
  last_of yCol (snd (Creators.xy_indexes xCol yCol header)).
Proof.
  cbv zeta. induction header as [|h header IH] using rev_ind.
  - split; left; (split; [apply not_elem_of_nil | reflexivity]).
  - rewrite xy_indexes_snoc. cbn [fst snd].
    assert (Hstep : forall col idx,
      (((col ∉ header) /\ idx = -1) \/
       (exists i : nat, idx = Z.of_nat i /\ header !! i = Some col /\
                        forall j, (i < j)%nat -> header !! j <> Some col)) ->
      ((col ∉ header ++ [h]) /\
       (if String.eqb h col then Z.of_nat (length header) else idx) = -1) \/
      (exists i : nat,
          (if String.eqb h col then Z.of_nat (length header) else idx) = Z.of_nat i /\
          (header ++ [h]) !! i = Some col /\
          forall j, (i < j)%nat -> (header ++ [h]) !! j <> Some col)).
    { intros col idx Hidx. destruct (String.eqb_spec h col) as [-> | Hne].
      - right. exists (length header). split; [reflexivity|]. split.
        + rewrite lookup_app_r by lia. rewrite Nat.sub_diag. reflexivity.
        + intros j Hj Hlook. apply lookup_lt_Some in Hlook.
          rewrite length_app in Hlook. cbn in Hlook. lia.
      - destruct Hidx as [[Hnot ->] | (i & -> & Hi & Hlast)].
        + left. split; [|reflexivity]. intros Hin.
          apply elem_of_app in Hin as [Hin | Hin]; [contradiction|].
          apply list_elem_of_singleton in Hin. congruence.
        + right. exists i. split; [reflexivity|]. split.
          * apply lookup_app_l_Some. exact Hi.
          * intros j Hj Hlook.
            destruct (decide (j < length header)%nat) as [Hlt | Hge].
            -- rewrite lookup_app_l in Hlook by assumption. exact (Hlast j Hj Hlook).
            -- rewrite lookup_app_r in Hlook by lia.
               apply list_elem_of_lookup_2, list_elem_of_singleton in Hlook. congruence. }
    destruct IH as [IHx IHy]. split; apply Hstep; assumption.
Qed.

(** X22: how the constructors find a column.  The loop with [break] (pie
    chart, gauge, donut, sparkline, text) gives -1 for a name that is no
    header and the index of the first header of that name otherwise; the
    loop of the line chart and the bar chart gives the index of the last
    one, so with two headers of one name the charts read different columns.
    The line chart and the bar chart fail exactly when their x or y column
    is no header. *)
Theorem X22_column_lookup :
  forall (col : string) (w : loader.WidgetConfig) (data : loader.DataDataSource),
    let header := loader.Header data in
    (col ∉ header -> Creators.first_index col header = -1) /\
    (forall i : nat, header !! i = Some col ->
                     (forall j, (j < i)%nat -> header !! j <> Some col) ->
                     Creators.first_index col header = Z.of_nat i) /\
    (forall i k : nat,
        header !! i = Some (loader.XCol w) ->
        (forall j, (i < j)%nat -> header !! j <> Some (loader.XCol w)) ->
        header !! k = Some (loader.YCol w) ->
        (forall j, (k < j)%nat -> header !! j <> Some (loader.YCol w)) ->
        Creators.chart_columns w data = Ok (Z.of_nat i, Z.of_nat k)) /\
    (is_ok (Creators.chart_columns w data) = false
     <-> loader.XCol w ∉ header \/ loader.YCol w ∉ header).
Proof.
  intros col w data header. split; [|split; [|split]].
  - apply index_from_absent.
  - intros i Hi Hfirst. unfold Creators.first_index.
    rewrite (index_from_first col header 0 i Hi Hfirst). lia.
  - intros i k Hi Hlasti Hk Hlastk. unfold Creators.chart_columns. fold header.
    destruct (xy_indexes_last (loader.XCol w) (loader.YCol w) header) as [Hx Hy].
    destruct (Creators.xy_indexes _ _ header) as [x y]. cbn [fst snd] in Hx, Hy.
    destruct Hx as [[Hnot _] | (i' & -> & Hi' & Hlast')];
      [exfalso; apply Hnot; eapply list_elem_of_lookup_2; exact Hi|].
    destruct Hy as [[Hnot _] | (k' & -> & Hk' & Hlastk')];
      [exfalso; apply Hnot; eapply list_elem_of_lookup_2; exact Hk|].
    assert (i' = i).
    { destruct (Nat.lt_trichotomy i i') as [Hlt | [Heq | Hgt]]; [|congruence|].
      - exfalso. exact (Hlasti i' Hlt Hi').
      - exfalso. exact (Hlast' i Hgt Hi). }
    assert (k' = k).
    { destruct (Nat.lt_trichotomy k k') as [Hlt | [Heq | Hgt]]; [|congruence|].
      - exfalso. exact (Hlastk k' Hlt Hk').
      - exfalso. exact (Hlastk' k Hgt Hk). }
    subst. destruct (Z.eqb_spec (Z.of_nat i) (-1)); [lia|].
    destruct (Z.eqb_spec (Z.of_nat k) (-1)); [lia|]. reflexivity.
  - unfold Creators.chart_columns. fold header.
    destruct (xy_indexes_last (loader.XCol w) (loader.YCol w) header) as [Hx Hy].
    destruct (Creators.xy_indexes _ _ header) as [x y]. cbn [fst snd] in Hx, Hy.
    destruct Hx as [[Hnotx ->] | (i' & -> & Hi' & _)].
    + cbn. split; [auto | reflexivity].
    + destruct (Z.eqb_spec (Z.of_nat i') (-1)); [lia|]. cbn [orb].
      destruct Hy as [[Hnoty ->] | (k' & -> & Hk' & _)].
      * cbn. split; [auto | reflexivity].
      * destruct (Z.eqb_spec (Z.of_nat k') (-1)); [lia|]. cbn.
        split; [discriminate|].
        intros [Hnot | Hnot]; exfalso; apply Hnot; eapply list_elem_of_lookup_2; eassumption.
Qed.

(** ** The generated configuration *)

Lemma data_source_never_fails (sourcePath : string) :
  exists ds title,
    generate.data_source (generate.source_type sourcePath) sourcePath = Ok (ds, title).
Proof.
  destruct (String.eqb_spec sourcePath "") as [-> | Hne].
  - eexists _, _. reflexivity.
  - unfold generate.source_type, generate.data_source.
    apply String.eqb_neq in Hne.
    destruct (generate.HasSuffix sourcePath ".csv").
    { cbn [String.eqb Ascii.eqb Bool.eqb andb]. rewrite Hne. eauto. }
    destruct (generate.HasSuffix sourcePath ".json").
    { cbn [String.eqb Ascii.eqb Bool.eqb andb]. rewrite Hne. eauto. }
    destruct (_ || _).
    { cbn [String.eqb Ascii.eqb Bool.eqb andb]. rewrite Hne. eauto. }
    cbn [String.eqb Ascii.eqb Bool.eqb andb]. eauto.
Qed.

Lemma scan_spec (isNumeric : string -> bool) (data : loader.DataDataSource)
    (header : string) (index : nat) (records : list (list string)) (isNum : bool) :
  Creators.first_index header (loader.Header data) = Z.of_nat index ->
  Forall (fun r => (index < length r)%nat) records ->
  generate.scan isNumeric header data records isNum
  = Some (match records with
          | [] => isNum
          | _ => forallb (fun r : list string => default false (isNumeric <$> r !! index))
                         records
          end).
Proof.
  intros Hidx Hall. revert isNum. induction Hall as [|r rest Hr _ IH]; intros isNum.
  - reflexivity.
  - cbn [generate.scan]. rewrite Hidx.
    destruct (Z.eqb_spec (Z.of_nat index) (-1)); [lia|].
    rewrite Nat2Z.id.
    destruct (lookup_lt_is_Some_2 r index Hr) as [field Hfield]. rewrite Hfield.
    cbn [forallb]. rewrite Hfield.
    change (default false (isNumeric <$> Some field)) with (isNumeric field).
    destruct (isNumeric field); [|reflexivity].
    rewrite IH. cbn [andb]. destruct rest; reflexivity.
Qed.

Lemma column_is_numeric_spec (isNumeric : string -> bool) (data : loader.DataDataSource)
    (header : string) :
  well_formed data -> header ∈ loader.Header data ->
  generate.column_is_numeric isNumeric header data
  = Some (numeric_column isNumeric data header).
Proof.
  intros Hwf Hin. unfold generate.column_is_numeric, numeric_column.
  destruct (first_occurrence header (loader.Header data) Hin) as (i & Hi & Hfirst).
  assert (Hidx : Creators.first_index header (loader.Header data) = Z.of_nat i).
  { unfold Creators.first_index. rewrite (index_from_first _ _ 0 i Hi Hfirst). lia. }
  rewrite Hidx, Nat2Z.id.
  destruct (loader.Records data) as [|r0 rest] eqn:Erec; [reflexivity|].
  cbn [length Nat.ltb Nat.leb andb].
  rewrite (scan_spec isNumeric data header i _ false Hidx).
  - reflexivity.
  - apply Forall_take. unfold well_formed in Hwf. rewrite Erec in Hwf.
    eapply Forall_impl; [exact Hwf|]. cbn. intros r ->.
    apply lookup_lt_Some in Hi. exact Hi.
Qed.

Lemma analyse_spec (isNumeric : string -> bool) (data : loader.DataDataSource)
    (headers : list string) (st : generate.analysis) :
  well_formed data ->
  Forall (fun h => h ∈ loader.Header data) headers ->
  exists st',
    generate.analyse isNumeric headers data st = Some st' /\
    (forall h, generate.numericCols st' !! h
               = if decide (h ∈ headers) then Some (numeric_column isNumeric data h)
                 else generate.numericCols st !! h) /\
    generate.firstCategoricCol st'
    = if String.eqb (generate.firstCategoricCol st) ""
      then first_categoric (numeric_column isNumeric data) headers
      else generate.firstCategoricCol st.
Proof.
  intros Hwf Hall. revert st. induction Hall as [|h rest Hh _ IH]; intros st.
  - exists st. split; [reflexivity|]. split.
    + intros h. destruct (decide (h ∈ [])) as [Hin|]; [by apply elem_of_nil in Hin | reflexivity].
    + cbn. destruct (String.eqb_spec (generate.firstCategoricCol st) ""); congruence.
  - cbn [generate.analyse]. rewrite (column_is_numeric_spec isNumeric data h Hwf Hh).
    edestruct IH as (st' & Hst' & Hmap & Hcat). exists st'. split; [exact Hst'|]. split.
    + intros k. rewrite Hmap. cbn [generate.numericCols].
      destruct (decide (k ∈ rest)) as [Hin | Hnin].
      * rewrite decide_True by (right; assumption). reflexivity.
      * destruct (decide (k = h)) as [-> | Hne].
        -- rewrite decide_True by left. apply lookup_insert_eq.
        -- rewrite decide_False; [apply lookup_insert_ne; congruence|].
           intros Hin. apply elem_of_cons in Hin as [? | ?]; contradiction.
    + rewrite Hcat. cbn [generate.firstCategoricCol first_categoric].
      destruct (String.eqb_spec (generate.firstCategoricCol st) "") as [Hempty | Hset].
      * rewrite andb_true_r.
        destruct (numeric_column isNumeric data h); cbn [negb andb].
        -- rewrite Hempty. reflexivity.
        -- destruct (String.eqb_spec h "") as [-> | Hh']; reflexivity.
      * rewrite andb_false_r. apply String.eqb_neq in Hset. rewrite Hset. reflexivity.
Qed.

(** X23: [GenerateDashboardConfig] fails only when the data cannot be
    loaded: the errors of a missing path and of an unsupported type cannot
    occur, and an empty path selects the system metrics.  On data in which
    every record has the length of the header it does not panic, and the
    configuration has the refresh 5, the source type and the path, and as
    first widget the table with one column for each header; after it come,
    for each header in order that is numeric, a pie, bar, line and radar
    chart labelled by the first named column that is not numeric (when
    there is one), then a gauge and a text with the sum. *)
Theorem X23_generated_configuration :
  forall (Load : generate.DataSource -> result loader.DataDataSource)
         (isNumeric : string -> bool) (column_title : string -> string) (sourcePath : string),
    exists ds title,
      generate.data_source (generate.source_type sourcePath) sourcePath = Ok (ds, title) /\
      (sourcePath = ""%string -> ds = generate.SystemMetricsDataSource) /\
      (is_ok (Load ds) = false ->
       generate.GenerateDashboardConfig Load isNumeric column_title sourcePath
       = Creators.Refused "error loading data: %w") /\
      (forall data, Load ds = Ok data -> well_formed data ->
         exists st,
           (forall h, h ∈ loader.Header data ->
                      generate.numericCols st !! h = Some (numeric_column isNumeric data h)) /\
           generate.firstCategoricCol st
           = first_categoric (numeric_column isNumeric data) (loader.Header data) /\
           generate.GenerateDashboardConfig Load isNumeric column_title sourcePath
           = Creators.Created
               (generate.Config.mk title 5
                  (generate.Source.mk (generate.source_type sourcePath) sourcePath "")
                  (generate.table_widget column_title data
                   :: (loader.Header data ≫= generate.widgets_of st)))).
Proof.
  intros Load isNumeric column_title sourcePath.
  destruct (data_source_never_fails sourcePath) as (ds & title & Hds).
  exists ds, title. split; [exact Hds|]. split; [|split].
  - intros ->. cbn in Hds. congruence.
  - intros Hfail. unfold generate.GenerateDashboardConfig. rewrite Hds.
    destruct (Load ds); [discriminate | reflexivity].
  - intros data Hload Hwf.
    destruct (analyse_spec isNumeric data (loader.Header data)
                (generate.mkAnalysis ∅ "" "") Hwf) as (st & Hst & Hmap & Hcat).
    { apply Forall_forall. auto. }
    exists st. split; [|split].
    + intros h Hh. rewrite Hmap, decide_True by assumption. reflexivity.
    + exact Hcat.
    + unfold generate.GenerateDashboardConfig. rewrite Hds, Hload, Hst. reflexivity.
Qed.

Lemma first_index_found (col : string) (header : list string) :
  col ∈ header -> Creators.first_index col header <> -1.
Proof.
  intros Hin. destruct (first_occurrence col header Hin) as (i & Hi & Hfirst).
  unfold Creators.first_index. rewrite (index_from_first _ _ 0 i Hi Hfirst). lia.
Qed.

Lemma chart_columns_found (w : loader.WidgetConfig) (data : loader.DataDataSource) :
  loader.XCol w ∈ loader.Header data -> loader.YCol w ∈ loader.Header data ->
  is_ok (Creators.chart_columns w data) = true.
Proof.
  intros Hx Hy. unfold Creators.chart_columns.
  destruct (xy_indexes_last (loader.XCol w) (loader.YCol w) (loader.Header data)) as [Hx' Hy'].
  destruct (Creators.xy_indexes _ _ _) as [x y]. cbn [fst snd] in Hx', Hy'.
  destruct Hx' as [[Hnot _] | (i & -> & _)]; [contradiction|].
  destruct Hy' as [[Hnot _] | (k & -> & _)]; [contradiction|].
  destruct (Z.eqb_spec (Z.of_nat i) (-1)); [lia|].
  destruct (Z.eqb_spec (Z.of_nat k) (-1)); [lia|]. reflexivity.
Qed.

Lemma first_categoric_member (numeric : string -> bool) (headers : list string) :
  first_categoric numeric headers <> ""%string -> first_categoric numeric headers ∈ headers.
Proof.
  induction headers as [|h rest IH]; cbn [first_categoric]; [congruence|].
  destruct (_ && _); [intros _; left | intros Hne; right; apply IH, Hne].
Qed.

(** X24: the loader accepts what the generator writes.  On data in which
    every record has the length of the header, each generated widget has a
    type [createWidgets] supports; the value column of every pie chart, gauge
    and text is found in the header by the lookup of its constructor, the x
    and y columns of every bar and line chart are found by theirs, and every
    text asks for the sum. *)
Theorem X24_generated_widgets_resolve :
  forall (Load : generate.DataSource -> result loader.DataDataSource)
         (isNumeric : string -> bool) (column_title : string -> string) (sourcePath : string)
         (ds : generate.DataSource) (title : string) (data : loader.DataDataSource),
    generate.data_source (generate.source_type sourcePath) sourcePath = Ok (ds, title) ->
    Load ds = Ok data ->
    well_formed data ->
    exists cfg,
      generate.GenerateDashboardConfig Load isNumeric column_title sourcePath
      = Creators.Created cfg /\
      Forall (fun w =>
                let ty := generate.WidgetConfig.Type_ w in
                ty ∈ ["table"; "pie"; "bar"; "line"; "radar"; "gauge"; "text"]%string /\
                (ty ∈ ["pie"; "gauge"; "text"]%string ->
                 Creators.first_index (loader.ValueCol (as_loaded w)) (loader.Header data)
                 <> -1) /\
                (ty ∈ ["bar"; "line"]%string ->
                 is_ok (Creators.chart_columns (as_loaded w) data) = true) /\
                (ty = "text"%string -> loader.Aggregation (as_loaded w) = "sum"%string))
             (generate.Config.Widgets cfg).
Proof.
  intros Load isNumeric column_title sourcePath ds title data Hds Hload Hwf.
  destruct (analyse_spec isNumeric data (loader.Header data)
              (generate.mkAnalysis ∅ "" "") Hwf) as (st & Hst & Hmap & Hcat).
  { apply Forall_forall. auto. }
  eexists. split.
  { unfold generate.GenerateDashboardConfig. rewrite Hds, Hload, Hst. reflexivity. }
  cbn [generate.Config.Widgets app]. constructor.
  - cbv zeta. cbn [generate.table_widget generate.WidgetConfig.Type_].
    split; [left|]. split; [|split].
    + intros Hin. rewrite !elem_of_cons, elem_of_nil in Hin.
      destruct Hin as [? | [? | [? | []]]]; discriminate.
    + intros Hin. rewrite !elem_of_cons, elem_of_nil in Hin.
      destruct Hin as [? | [? | []]]; discriminate.
    + discriminate.
  - apply Forall_forall. intros w Hw.
    apply list_elem_of_bind in Hw as (h & Hw & Hh).
    unfold generate.widgets_of in Hw.
    destruct (default false (generate.numericCols st !! h)); [|by apply elem_of_nil in Hw].
    assert (Hcatin : generate.firstCategoricCol st <> ""%string ->
                     generate.firstCategoricCol st ∈ loader.Header data).
    { rewrite Hcat. cbn [generate.firstCategoricCol String.eqb]. apply first_categoric_member. }
    assert (Hval : Creators.first_index h (loader.Header data) <> -1)
      by (apply first_index_found, Hh).
    apply elem_of_app in Hw as [Hw | Hw].
    + destruct (String.eqb_spec (generate.firstCategoricCol st) "") as [|Hne];
        [by apply elem_of_nil in Hw|].
      cbn [negb] in Hw. specialize (Hcatin Hne).
      rewrite !elem_of_cons, elem_of_nil in Hw.
      destruct Hw as [-> | [-> | [-> | [-> | []]]]]; cbv zeta;
        cbn [generate.WidgetConfig.Type_ as_loaded loader.ValueCol loader.Aggregation
             generate.WidgetConfig.ValueCol generate.WidgetConfig.Aggregation].
      * split; [rewrite !elem_of_cons; auto|]. split; [auto|]. split; [|discriminate].
        intros Hin. rewrite !elem_of_cons, elem_of_nil in Hin.
        destruct Hin as [? | [? | []]]; discriminate.
      * split; [rewrite !elem_of_cons; auto|]. split; [|split; [|discriminate]].
        -- intros Hin. rewrite !elem_of_cons, elem_of_nil in Hin.
           destruct Hin as [? | [? | [? | []]]]; discriminate.
        -- intros _. apply chart_columns_found; assumption.
      * split; [rewrite !elem_of_cons; auto 10|]. split; [|split; [|discriminate]].
        -- intros Hin. rewrite !elem_of_cons, elem_of_nil in Hin.
           destruct Hin as [? | [? | [? | []]]]; discriminate.
        -- intros _. apply chart_columns_found; assumption.
      * split; [rewrite !elem_of_cons; auto 10|]. split; [|split; [|discriminate]].
        -- intros Hin. rewrite !elem_of_cons, elem_of_nil in Hin.
           destruct Hin as [? | [? | [? | []]]]; discriminate.
        -- intros Hin. rewrite !elem_of_cons, elem_of_nil in Hin.
           destruct Hin as [? | [? | []]]; discriminate.
    + rewrite !elem_of_cons, elem_of_nil in Hw.
      destruct Hw as [-> | [-> | []]]; cbv zeta;
        cbn [generate.WidgetConfig.Type_ as_loaded loader.ValueCol loader.Aggregation
             generate.WidgetConfig.ValueCol generate.WidgetConfig.Aggregation].
      * split; [rewrite !elem_of_cons; auto 10|]. split; [auto|]. split; [|discriminate].
        intros Hin. rewrite !elem_of_cons, elem_of_nil in Hin.
        destruct Hin as [? | [? | []]]; discriminate.
      * split; [rewrite !elem_of_cons; auto 10|]. split; [auto|]. split; [|reflexivity].
        intros Hin. rewrite !elem_of_cons, elem_of_nil in Hin.
        destruct Hin as [? | [? | []]]; discriminate.
Qed.

Lemma X24_generated_widgets_resolve_witness :
  let data := loader.mkData ["name"; "sales"] [["a"; "1"]; ["b"; "2"]]%string in
  exists cfg,
    generate.GenerateDashboardConfig (fun _ => Ok data) small_isNumeric (fun h => h) "shop.csv"
    = Creators.Created cfg /\
    length (generate.Config.Widgets cfg) = 7%nat.
Proof.
  cbv zeta.
  destruct (X24_generated_widgets_resolve
              (fun _ => Ok (loader.mkData ["name"; "sales"] [["a"; "1"]; ["b"; "2"]]%string))
              small_isNumeric (fun h => h) "shop.csv" _ _ _ eq_refl eq_refl
              ltac:(repeat constructor)) as (cfg & Hcfg & _).
  exists cfg. split; [exact Hcfg|].
  vm_compute in Hcfg. injection Hcfg as <-. reflexivity.
Defined.

(** X25: the source the generator writes is the source the loader reads,
    except for a URL.  For a path ending in .csv or .json and for the system
    metrics, [LoadConfigAndData] selects from the generated source the data
    source the configuration was generated from; for a URL the generator
    stores the URL as the path and leaves the url empty, so the loader
    requests the empty URL. *)
Theorem X25_generated_source_round_trip :
  forall (sourcePath : string),
    exists ds title,
      generate.data_source (generate.source_type sourcePath) sourcePath = Ok (ds, title) /\
      let written :=
        source_as_loaded
          (generate.Source.mk (generate.source_type sourcePath) sourcePath "") in
      match ds with
      | generate.APIDataSource url =>
          url = sourcePath /\ sourcePath <> ""%string /\
          loader.source_of written = Ok (loader.APIDataSource "")
      | _ => exists l, loader.source_of written = Ok l /\ same_source ds l
      end.
Proof.
  intros sourcePath.
  destruct (String.eqb_spec sourcePath "") as [-> | Hne].
  { eexists _, _. split; [reflexivity|]. cbn. eexists. split; [reflexivity | exact I]. }
  pose proof Hne as Hneb. apply String.eqb_neq in Hneb.
  unfold generate.source_type, generate.data_source, source_as_loaded, loader.source_of.
  cbn [generate.Source.Type_ generate.Source.Path generate.Source.URL
       loader.Source.Type_ loader.Source.Path loader.Source.URL].
  destruct (generate.HasSuffix sourcePath ".csv").
  { cbn [String.eqb Ascii.eqb Bool.eqb andb]. rewrite Hneb.
    eexists _, _. split; [reflexivity|]. cbv zeta. eexists. split; reflexivity. }
  destruct (generate.HasSuffix sourcePath ".json").
  { cbn [String.eqb Ascii.eqb Bool.eqb andb]. rewrite Hneb.
    eexists _, _. split; [reflexivity|]. cbv zeta. eexists. split; reflexivity. }
  destruct (_ || _).
  { cbn [String.eqb Ascii.eqb Bool.eqb andb]. rewrite Hneb.
    eexists _, _. split; [reflexivity|]. cbv zeta. cbv iota. repeat split. exact Hne. }
  cbn [String.eqb Ascii.eqb Bool.eqb andb].
  eexists _, _. split; [reflexivity|]. cbv zeta. eexists. split; [reflexivity | exact I].
Qed.

(** ** The radar chart and the text of the main package *)

Lemma radar_data_panics (ParseFloat : string -> option Float64.t)
    (records : list (list string)) (d : gmap string Float64.t) :
  Exists (fun r => (length r < 2)%nat) records ->
  Creators.radar_data ParseFloat records d = None.
Proof.
  intros Hex. revert d. induction records as [|r rest IH]; intros d; [inversion Hex|].
  cbn [Creators.radar_data].
  destruct (r !! 0%nat) as [label|]; [|reflexivity].
  destruct (r !! 1%nat) as [field|] eqn:Hfield; [|reflexivity].
  apply lookup_lt_Some in Hfield.
  inversion Hex as [? ? Hshort | ? ? Hrest]; subst; [lia|].
  destruct (ParseFloat field); apply IH; assumption.
Qed.

Lemma radar_data_spec (ParseFloat : string -> option Float64.t)
    (records : list (list string)) (d : gmap string Float64.t) :
  Forall (fun r => (2 <= length r)%nat) records ->
  exists d',
    Creators.radar_data ParseFloat records d = Some d' /\
    (size d' <= size d + length records)%nat /\
    forall k v, d' !! k = Some v ->
                d !! k = Some v \/
                exists record, record ∈ records /\ record !! 0%nat = Some k /\
                               record !! 1%nat ≫= ParseFloat = Some v.
Proof.
  intros Hall. revert d. induction Hall as [|r rest Hr _ IH]; intros d.
  - exists d. split; [reflexivity|]. split; [cbn; lia | auto].
  - cbn [Creators.radar_data].
    destruct (lookup_lt_is_Some_2 r 0 ltac:(lia)) as [label Hlabel].
    destruct (lookup_lt_is_Some_2 r 1 ltac:(lia)) as [field Hfield].
    rewrite Hlabel, Hfield.
    destruct (ParseFloat field) as [value|] eqn:Hparse.
    + destruct (IH (<[label := value]> d)) as (d' & Hd' & Hsize & Hfrom).
      exists d'. split; [exact Hd'|]. split.
      * pose proof (map_size_insert label value d) as Hins.
        destruct (d !! label); cbn [id length] in *; lia.
      * intros k v Hk. destruct (Hfrom k v Hk) as [Hold | (record & Hin & H0 & H1)].
        -- destruct (decide (k = label)) as [-> | Hne].
           ++ rewrite lookup_insert_eq in Hold. injection Hold as <-.
              right. exists r. split; [left|]. split; [assumption|].
              rewrite Hfield. exact Hparse.
           ++ rewrite lookup_insert_ne in Hold by congruence. auto.
        -- right. exists record. split; [right; assumption | auto].
    + destruct (IH d) as (d' & Hd' & Hsize & Hfrom).
      exists d'. split; [exact Hd'|]. split; [cbn [length]; lia|].
      intros k v Hk. destruct (Hfrom k v Hk) as [Hold | (record & Hin & H0 & H1)]; [auto|].
      right. exists record. split; [right; assumption | auto].
Qed.

(** X26: [createRadarChart] takes the labels from the field 0 and the
    values from the field 1 of the records, whatever columns the widget is
    configured with.  It panics when a record has fewer than two fields, and
    it fails on data of fewer than three records.  A radar it returns holds
    at least three labels; each value is the parsed field 1 of a record with
    that label, is not below zero and not above the stored maximum. *)
Theorem X26_createRadarChart_outcome :
  forall (ParseFloat : string -> option Float64.t)
         (ord : list (string * Float64.t) -> list (string * Float64.t))
         (w : loader.WidgetConfig) (data : loader.DataDataSource),
    (Exists (fun r => (length r < 2)%nat) (loader.Records data) ->
     Creators.createRadarChart ParseFloat ord w data = Creators.Panicked) /\
    (Forall (fun r => (2 <= length r)%nat) (loader.Records data) ->
     (length (loader.Records data) < 3)%nat ->
     exists msg, Creators.createRadarChart ParseFloat ord w data = Creators.Refused msg) /\
    (forall r, Creators.createRadarChart ParseFloat ord w data = Creators.Created r ->
       exists d max,
         Radar.values r = Some (Radar.mkValues d max) /\
         (3 <= size d)%nat /\
         forall k v, d !! k = Some v ->
           Float64.ltb v Float64.zero = false /\
           Float64.ltb max v = false /\
           exists record, record ∈ loader.Records data /\ record !! 0%nat = Some k /\
                          record !! 1%nat ≫= ParseFloat = Some v).
Proof.
  intros ParseFloat ord w data. unfold Creators.createRadarChart. split; [|split].
  - intros Hex. rewrite radar_data_panics by assumption. reflexivity.
  - intros Hall Hlen.
    destruct (radar_data_spec ParseFloat (loader.Records data) ∅ Hall) as (d & -> & Hsize & _).
    rewrite map_size_empty in Hsize.
    destruct (size d =? 0)%nat; [eauto|].
    cbn [Radar.NewRadar fold_left Radar.validate].
    unfold Radar.SetValues. cbn [Radar.Data].
    destruct (Nat.ltb_spec (size d) 3); [eauto | lia].
  - intros r.
    destruct (Creators.radar_data ParseFloat (loader.Records data) ∅) as [d|] eqn:Hd;
      [|discriminate].
    destruct (size d =? 0)%nat; [discriminate|].
    cbn [Radar.NewRadar fold_left Radar.validate].
    match goal with |- context [Radar.SetValues ?r0 (Some ?v) []] =>
      pose proof (Radar_SetValues_ok_iff r0 (Some v) []) as Hiff;
      destruct (Radar.SetValues r0 (Some v) []) as [r' [e|]] eqn:Hset
    end; [discriminate|].
    intros [= <-]. cbn [snd] in Hiff.
    destruct (proj1 Hiff eq_refl) as (v & [= <-] & H3 & _ & Hrange).
    cbn [Radar.Data Radar.Max] in *.
    unfold Radar.SetValues in Hset. cbn [Radar.Data Radar.Max] in Hset.
    destruct (size d <? 3)%nat; [discriminate|].
    destruct (Float64.leb _ Float64.zero); [discriminate|].
    destruct (Radar.range_check _ _); [discriminate|].
    cbn in Hset. injection Hset as <-.
    eexists _, _. split; [reflexivity|]. split; [assumption|].
    intros k v Hk. specialize (Hrange k v Hk). unfold Radar.out_of_range in Hrange.
    apply orb_false_elim in Hrange as [Hneg Hmax]. split; [assumption|]. split; [assumption|].
    assert (Hall : Forall (fun r => (2 <= length r)%nat) (loader.Records data)).
    { apply Forall_forall. intros rec Hrec.
      destruct (decide (2 <= length rec)%nat) as [|Hshort]; [assumption|].
      rewrite radar_data_panics in Hd; [discriminate|].
      apply Exists_exists. exists rec. split; [assumption | lia]. }
    destruct (radar_data_spec ParseFloat (loader.Records data) ∅ Hall) as (d' & Hd' & _ & Hfrom).
    rewrite Hd in Hd'. injection Hd' as <-.
    destruct (Hfrom k v Hk) as [Hempty | Hrec]; [|exact Hrec].
    rewrite lookup_empty in Hempty. discriminate.
Qed.

Lemma fold_add_wrap (values : list Z) (acc : Z) :
  GoInt.in_range acc ->
  fold_left GoInt.add values acc = GoInt.wrap (acc + sumZ values).
Proof.
  revert acc. induction values as [|v values IH]; intros acc Hacc; cbn [fold_left].
  - unfold sumZ. cbn [fold_right]. rewrite Z.add_0_r, wrap_small by assumption. reflexivity.
  - rewrite IH by apply wrap_in_range. unfold GoInt.add. rewrite wrap_add_l.
    unfold sumZ. cbn [fold_right]. f_equal. lia.
Qed.

Lemma fold_max_spec (values : list Z) (acc : Z) :
  let m := fold_left (fun max v => if max <? v then v else max) values acc in
  acc <= m /\ (forall v, v ∈ values -> v <= m) /\ (m = acc \/ m ∈ values).
Proof.
  cbv zeta. revert acc. induction values as [|v values IH]; intros acc; cbn [fold_left].
  - split; [lia|]. split; [|auto]. intros v Hv. by apply elem_of_nil in Hv.
  - destruct (IH (if acc <? v then v else acc)) as (Hge & Hall & Hmem).
    destruct (Z.ltb_spec acc v).
    + split; [lia|]. split.
      * intros x Hx. apply elem_of_cons in Hx as [-> | Hx]; [lia | auto].
      * right. destruct Hmem as [-> | Hin]; [left | right; assumption].
    + split; [lia|]. split.
      * intros x Hx. apply elem_of_cons in Hx as [-> | Hx]; [lia | auto].
      * destruct Hmem as [-> | Hin]; [auto | right; right; assumption].
Qed.

Lemma fold_min_spec (values : list Z) (acc : Z) :
  let m := fold_left (fun min v => if v <? min then v else min) values acc in
  m <= acc /\ (forall v, v ∈ values -> m <= v) /\ (m = acc \/ m ∈ values).
Proof.
  cbv zeta. revert acc. induction values as [|v values IH]; intros acc; cbn [fold_left].
  - split; [lia|]. split; [|auto]. intros v Hv. by apply elem_of_nil in Hv.
  - destruct (IH (if v <? acc then v else acc)) as (Hge & Hall & Hmem).
    destruct (Z.ltb_spec v acc).
    + split; [lia|]. split.
      * intros x Hx. apply elem_of_cons in Hx as [-> | Hx]; [lia | auto].
      * right. destruct Hmem as [-> | Hin]; [left | right; assumption].
    + split; [lia|]. split.
      * intros x Hx. apply elem_of_cons in Hx as [-> | Hx]; [lia | auto].
      * destruct Hmem as [-> | Hin]; [auto | right; right; assumption].
Qed.

(** X27: what [createText] shows for the first column named as the value
    column, on data with at least one record in which every record has the
    length of the header.  When no field of the column parses as an integer
    the text is the title with ": No valid data".  Otherwise "max" shows the
    largest parsed value, "min" the smallest, "sum" their wrapped sum, and
    "median" the middle of the sorted values (the truncated half of the sum
    of the two middle ones for an even count); any other aggregation but
    "avg" shows "Invalid aggregation type".  The call never panics. *)
Theorem X27_createText_shows :
  forall (Atoi : string -> option Z) (format_avg : Float64.t -> string)
         (w : loader.WidgetConfig) (data : loader.DataDataSource) (i : nat),
    well_formed data ->
    loader.Records data <> [] ->
    loader.Header data !! i = Some (loader.ValueCol w) ->
    (forall j, (j < i)%nat -> loader.Header data !! j <> Some (loader.ValueCol w)) ->
    let values := parsed_column Atoi i (loader.Records data) in
    let shown := Creators.createText Atoi format_avg w data in
    let agg := loader.Aggregation w in
    (values = [] -> shown = Creators.Created (Some (loader.Title w ++ ": No valid data")%string)) /\
    (values <> [] ->
     (agg = "sum"%string ->
      shown = Creators.Created (Some ("Sum: " ++ pretty (GoInt.wrap (sumZ values)))%string)) /\
     (agg = "max"%string ->
      exists m, shown = Creators.Created (Some ("Max: " ++ pretty m)%string) /\
                m ∈ values /\ forall v, v ∈ values -> v <= m) /\
     (agg = "min"%string ->
      exists m, shown = Creators.Created (Some ("Min: " ++ pretty m)%string) /\
                m ∈ values /\ forall v, v ∈ values -> m <= v) /\
     (agg = "median"%string ->
      exists sorted m,
        Sorted Z.le sorted /\ sorted ≡ₚ values /\
        shown = Creators.Created (Some ("Median: " ++ pretty m)%string) /\
        let n := length values in
        if (n mod 2 =? 0)%nat
        then exists a b, sorted !! (n / 2 - 1)%nat = Some a /\ sorted !! (n / 2)%nat = Some b /\
                         m = Z.quot (GoInt.add a b) 2
        else sorted !! (n / 2)%nat = Some m) /\
     (agg ∉ ["sum"; "avg"; "median"; "max"; "min"]%string ->
      shown = Creators.Created (Some "Invalid aggregation type"%string)) /\
     shown <> Creators.Panicked).
Proof.
  intros Atoi format_avg w data i Hwf Hrec Hi Hfirst values shown agg.
  assert (Hshown : shown
            = if (length values =? 0)%nat
              then Creators.Created (Some (loader.Title w ++ ": No valid data")%string)
              else match Creators.aggregate format_avg agg values with
                   | None => Creators.Panicked
                   | Some result => Creators.Created (Some result)
                   end).
  { subst shown. unfold Creators.createText, Creators.first_index.
    rewrite (index_from_first _ _ 0 i Hi Hfirst).
    destruct (Z.eqb_spec (0 + Z.of_nat i) (-1)); [lia|].
    replace (Z.to_nat (0 + Z.of_nat i)) with i by lia.
    assert (Hpos : (0 <? length (loader.Records data))%nat = true)
      by (destruct (loader.Records data); [contradiction | reflexivity]).
    rewrite Hpos, column_values_spec.
    - reflexivity.
    - eapply Forall_impl; [exact Hwf|]. cbn. intros r ->.
      apply lookup_lt_Some in Hi. exact Hi. }
  clearbody shown. subst shown. split.
  - intros ->. reflexivity.
  - intros Hne. destruct values as [|v0 vs] eqn:Evalues; [contradiction|].
    cbn [length Nat.eqb]. rewrite <- Evalues in *. clear Hne.
    assert (Hnonempty : values <> []) by (rewrite Evalues; discriminate).
    assert (Hsum : agg = "sum"%string ->
              Creators.aggregate format_avg agg values
              = Some ("Sum: " ++ pretty (GoInt.wrap (sumZ values)))%string).
    { intros ->. unfold Creators.aggregate. cbn [String.eqb Ascii.eqb Bool.eqb andb].
      rewrite fold_add_wrap by apply zero_in_range. reflexivity. }
    assert (Hmax : agg = "max"%string ->
              exists m, Creators.aggregate format_avg agg values
                        = Some ("Max: " ++ pretty m)%string /\
                        m ∈ values /\ forall v, v ∈ values -> v <= m).
    { intros ->. unfold Creators.aggregate. cbn [String.eqb Ascii.eqb Bool.eqb andb].
      rewrite Evalues. rewrite <- Evalues.
      destruct (fold_max_spec values v0) as (_ & Hall & Hmem).
      eexists. split; [reflexivity|]. split; [|exact Hall].
      destruct Hmem as [-> | Hin]; [rewrite Evalues; left | assumption]. }
    assert (Hmin : agg = "min"%string ->
              exists m, Creators.aggregate format_avg agg values
                        = Some ("Min: " ++ pretty m)%string /\
                        m ∈ values /\ forall v, v ∈ values -> m <= v).
    { intros ->. unfold Creators.aggregate. cbn [String.eqb Ascii.eqb Bool.eqb andb].
      rewrite Evalues. rewrite <- Evalues.
      destruct (fold_min_spec values v0) as (_ & Hall & Hmem).
      eexists. split; [reflexivity|]. split; [|exact Hall].
      destruct Hmem as [-> | Hin]; [rewrite Evalues; left | assumption]. }
    assert (Hmed : agg = "median"%string ->
              exists sorted m,
                Sorted Z.le sorted /\ sorted ≡ₚ values /\
                Creators.aggregate format_avg agg values
                = Some ("Median: " ++ pretty m)%string /\
                if (length values mod 2 =? 0)%nat
                then exists a b, sorted !! (length values / 2 - 1)%nat = Some a /\
                                 sorted !! (length values / 2)%nat = Some b /\
                                 m = Z.quot (GoInt.add a b) 2
                else sorted !! (length values / 2)%nat = Some m).
    { intros ->. unfold Creators.aggregate, Creators.sort_Ints.
      cbn [String.eqb Ascii.eqb Bool.eqb andb].
      pose proof (merge_sort_Permutation Z.le values) as Hperm.
      pose proof (Sorted_merge_sort Z.le values) as Hsorted.
      set (sorted := merge_sort Z.le values) in *.
      assert (Hlen : length sorted = length values) by (rewrite Hperm; reflexivity).
      assert (Hpos : (0 < length values)%nat) by (rewrite Evalues; cbn; lia).
      rewrite Hlen.
      pose proof (Nat.div_lt (length values) 2 Hpos ltac:(lia)) as Hhalf.
      destruct (lookup_lt_is_Some_2 sorted (length values / 2) ltac:(lia)) as [b Hb].
      destruct (lookup_lt_is_Some_2 sorted (length values / 2 - 1) ltac:(lia)) as [a Ha].
      exists sorted. destruct (length values mod 2 =? 0)%nat.
      - rewrite Ha, Hb. eexists. split; [assumption|]. split; [assumption|].
        split; [reflexivity|]. eauto.
      - rewrite Hb. exists b. auto. }
    assert (Hother : agg ∉ ["sum"; "avg"; "median"; "max"; "min"]%string ->
              Creators.aggregate format_avg agg values = Some "Invalid aggregation type"%string).
    { intros Hnot. unfold Creators.aggregate.
      assert (Hno : forall s, s ∈ ["sum"; "avg"; "median"; "max"; "min"]%string ->
                              String.eqb agg s = false).
      { intros s Hs. apply String.eqb_neq. intros ->. contradiction. }
      rewrite !Hno by (rewrite !elem_of_cons; auto 10). reflexivity. }
    split. { intros E. rewrite (Hsum E). reflexivity. }
    split. { intros E. destruct (Hmax E) as (m & Hm & Hin & Hall). exists m. rewrite Hm. auto. }
    split. { intros E. destruct (Hmin E) as (m & Hm & Hin & Hall). exists m. rewrite Hm. auto. }
    split.
    { intros E. destruct (Hmed E) as (sorted & m & Hs & Hp & Hm & Hmid).
      exists sorted, m. rewrite Hm.
      split; [assumption|]. split; [assumption|]. split; [reflexivity|].
      replace (length values) with (S (length vs)) in Hmid by (rewrite Evalues; reflexivity).
      exact Hmid. }
    split. { intros E. rewrite (Hother E). reflexivity. }
    destruct (decide (agg ∈ ["sum"; "avg"; "median"; "max"; "min"]%string)) as [Hin | Hnot].
    + rewrite !elem_of_cons, elem_of_nil in Hin.
      destruct Hin as [E | [E | [E | [E | [E | []]]]]].
      * rewrite (Hsum E). discriminate.
      * unfold Creators.aggregate. rewrite E. cbn [String.eqb Ascii.eqb Bool.eqb andb].
        discriminate.
      * destruct (Hmed E) as (sorted & m & _ & _ & -> & _). discriminate.
      * destruct (Hmax E) as (m & -> & _). discriminate.
      * destruct (Hmin E) as (m & -> & _). discriminate.
    + rewrite (Hother Hnot). discriminate.
Qed.

Lemma X27_createText_shows_witness :
  let data := loader.mkData ["name"; "sales"] [["a"; "3"]; ["b"; "x"]; ["c"; "1"]]%string in
  let w := loader.mkWidgetConfig "text" "Text" "sales" "" "" "" "" "" "sum" 0 in
  Creators.createText small_Atoi (fun _ => ""%string) w data
  = Creators.Created (Some ("Sum: " ++ pretty (GoInt.wrap (sumZ [3; 1])))%string).
Proof.
  cbv zeta.
  pose proof (X27_createText_shows small_Atoi (fun _ => ""%string)
                (loader.mkWidgetConfig "text" "Text" "sales" "" "" "" "" "" "sum" 0)
                (loader.mkData ["name"; "sales"] [["a"; "3"]; ["b"; "x"]; ["c"; "1"]]%string)
                1%nat ltac:(repeat constructor) ltac:(discriminate) eq_refl) as H.
  cbv zeta in H. destruct H as [_ H].
  - intros [|j] Hj; [discriminate | lia].
  - destruct H as [Hsum _]; [discriminate|]. exact (Hsum eq_refl).
Defined.

(** X28: the generator takes a column for numeric when its fields parse as
    floating-point numbers, the pie chart reads integers.  So on data with a
    named column that is not numeric and a numeric column none of whose
    fields parses as an integer (prices with decimals), the generated
    configuration holds a pie chart of that column which [createPieChart]
    refuses, and a dashboard started from it does not come up. *)
Theorem X28_generated_pie_of_decimals :
  forall (Load : generate.DataSource -> result loader.DataDataSource)
         (isNumeric : string -> bool) (column_title : string -> string)
         (Atoi : string -> option Z) (sourcePath : string)
         (ds : generate.DataSource) (title : string) (data : loader.DataDataSource)
         (h : string),
    generate.data_source (generate.source_type sourcePath) sourcePath = Ok (ds, title) ->
    Load ds = Ok data ->
    well_formed data ->
    h ∈ loader.Header data ->
    numeric_column isNumeric data h = true ->
    first_categoric (numeric_column isNumeric data) (loader.Header data) <> ""%string ->
    parsed_column Atoi (Z.to_nat (Creators.first_index h (loader.Header data)))
                  (loader.Records data) = [] ->
    exists cfg w,
      generate.GenerateDashboardConfig Load isNumeric column_title sourcePath
      = Creators.Created cfg /\
      w ∈ generate.Config.Widgets cfg /\
      generate.WidgetConfig.Type_ w = "pie"%string /\
      generate.WidgetConfig.ValueCol w = h /\
      Creators.createPieChart Atoi (as_loaded w) data
      = Creators.Refused "values cannot be empty".
Proof.
  intros Load isNumeric column_title Atoi sourcePath ds title data h
         Hds Hload Hwf Hh Hnum Hcatne Hnone.
  destruct (analyse_spec isNumeric data (loader.Header data)
              (generate.mkAnalysis ∅ "" "") Hwf) as (st & Hst & Hmap & Hcat).
  { apply Forall_forall. auto. }
  cbn [generate.firstCategoricCol String.eqb] in Hcat.
  set (w := generate.WidgetConfig.mk "pie" ("Pie Chart (" ++ h ++ ")") h
              (generate.firstCategoricCol st) "" "" "" "" []).
  eexists. exists w. split.
  { unfold generate.GenerateDashboardConfig. rewrite Hds, Hload, Hst. reflexivity. }
  split; [|split; [reflexivity|split; [reflexivity|]]].
  - cbn [generate.Config.Widgets app]. right.
    apply list_elem_of_bind. exists h. split; [|assumption].
    unfold generate.widgets_of. rewrite Hmap, decide_True by assumption.
    cbn [default]. rewrite Hnum.
    destruct (String.eqb_spec (generate.firstCategoricCol st) "") as [E | _];
      [rewrite Hcat in E; contradiction|].
    cbn [negb]. apply elem_of_app. left. left.
  - unfold Creators.createPieChart. cbn [as_loaded loader.ValueCol w generate.WidgetConfig.ValueCol].
    destruct (Z.eqb_spec (Creators.first_index h (loader.Header data)) (-1)) as [E | _];
      [exfalso; exact (first_index_found h _ Hh E)|].
    rewrite column_values_spec.
    + rewrite Hnone. reflexivity.
    + destruct (first_occurrence h (loader.Header data) Hh) as (i & Hi & Hfirst).
      unfold Creators.first_index. rewrite (index_from_first _ _ 0 i Hi Hfirst).
      replace (Z.to_nat (0 + Z.of_nat i)) with i by lia.
      eapply Forall_impl; [exact Hwf|]. cbn. intros r ->.
      apply lookup_lt_Some in Hi. exact Hi.
Qed.

Lemma X28_generated_pie_of_decimals_witness :
  let data := loader.mkData ["name"; "price"] [["a"; "1.5"]; ["b"; "2.5"]]%string in
  exists cfg w,
    generate.GenerateDashboardConfig (fun _ => Ok data) price_isNumeric (fun h => h) "shop.csv"
    = Creators.Created cfg /\
    w ∈ generate.Config.Widgets cfg /\
    generate.WidgetConfig.Type_ w = "pie"%string /\
    generate.WidgetConfig.ValueCol w = "price"%string /\
    Creators.createPieChart small_Atoi (as_loaded w) data
    = Creators.Refused "values cannot be empty".
Proof.
  cbv zeta.
  apply (X28_generated_pie_of_decimals
           (fun _ => Ok (loader.mkData ["name"; "price"] [["a"; "1.5"]; ["b"; "2.5"]]%string))
           price_isNumeric (fun h => h) small_Atoi "shop.csv" _ _ _ "price"%string
           eq_refl eq_refl).
  - repeat constructor.
  - right. left.
  - reflexivity.
  - vm_compute. discriminate.
  - reflexivity.
Defined.

(** ** The outcomes of the layout and the ellipse of the round charts *)

Lemma collect_outcome {W} (M : gmap string (Layout.Iface W)) (confs : list Layout.WidgetConfig) :
  (exists ws, Layout.collect W M confs = Ok ws /\ length ws = length confs /\
              Forall (fun c => exists w, M !! Layout.Title c = Some (Layout.IsWidget w)) confs) \/
  (Layout.collect W M confs = Err "the widget '%s' is not a valid widget" /\
   Exists (fun c => forall w, M !! Layout.Title c <> Some (Layout.IsWidget w)) confs).
Proof.
  induction confs as [|c confs IH]; cbn [Layout.collect].
  - left. exists []. split; [reflexivity|]. split; [reflexivity | constructor].
  - destruct (M !! Layout.Title c) as [[w|]|] eqn:E.
    + destruct IH as [(ws & -> & Hlen & Hall) | [-> Hex]].
      * left. eexists. split; [reflexivity|]. split; [cbn; lia|].
        constructor; [eauto | assumption].
      * right. split; [reflexivity|]. right. assumption.
    + right. split; [reflexivity|]. left. intros w. rewrite E. discriminate.
    + right. split; [reflexivity|]. left. intros w. rewrite E. discriminate.
Qed.

(** X29: the five ways [dynamicGridLayout] ends.  It fails when the map
    holds no widget under "title"; with the title alone in the map it builds
    the title row and ignores the configuration; otherwise it fails when a
    configured title is not the key of a widget, panics on the division by
    the number of rows when the configuration lists no widget, fails in the
    grid builder on a row of height 0 when the widgets fill more than 95
    rows (never up to 190 configured widgets, always from 286 on), and else
    builds at most 95 rows of one height, at least 1, that with the title
    row fill at most 100 per cent. *)
Theorem X29_dynamicGridLayout_outcomes :
  forall (W : Type) (widgets : gmap string (Layout.Iface W)) (confs : list Layout.WidgetConfig),
    let others := delete "title"%string widgets in
    let out := Layout.dynamicGridLayout W widgets confs in
    let missing := fun c => forall w, others !! Layout.Title c <> Some (Layout.IsWidget w) in
    let no_widget := Layout.Failed W "the widget '%s' is not a valid widget" in
    let invalid_row := Layout.Failed W Layout.invalid_row in
    ((forall t, widgets !! "title"%string <> Some (Layout.IsWidget t)) ->
     out = Layout.Failed W "the title widget is not a valid widget") /\
    (forall t, widgets !! "title"%string = Some (Layout.IsWidget t) ->
       (others = ∅ -> out = Layout.Built W (5, t) []) /\
       (others <> ∅ ->
        (out = no_widget <-> Exists missing confs) /\
        (out = Layout.Panic W <-> confs = []) /\
        (out = invalid_row -> (190 < length confs)%nat) /\
        ((286 <= length confs)%nat -> ~ Exists missing confs -> out = invalid_row) /\
        (forall title_row body, out = Layout.Built W title_row body ->
           title_row = (5, t) /\ body <> [] /\ (length body <= 95)%nat /\
           Forall (fun row => Layout.heightPerc W row = 95 / Z.of_nat (length body) /\
                              1 <= Layout.heightPerc W row) body /\
           5 + sumZ (Layout.heightPerc W <$> body) <= 100) /\
        (out = no_widget \/ out = Layout.Panic W \/ out = invalid_row \/
         exists body, out = Layout.Built W (5, t) body))).
Proof.
  intros W widgets confs others out missing no_widget invalid_row.
  split.
  - intros Hnot. subst out. unfold Layout.dynamicGridLayout.
    destruct (widgets !! "title"%string) as [[t|]|] eqn:E; try reflexivity.
    exfalso. exact (Hnot t eq_refl).
  - intros t Ht. split.
    + intros Hempty. subst out. unfold Layout.dynamicGridLayout. rewrite Ht.
      fold others. rewrite Hempty, map_size_empty. reflexivity.
    + intros Hne.
      destruct (collect_outcome others confs) as [(ws & Hws & Hlen & Hall) | [Herr Hex]].
      * assert (Hout : out = if decide (ws = []) then Layout.Panic W
                             else if (length (Layout.pack ws) <=? 95)%nat
                                  then Layout.Built W (5, t)
                                         (map (Layout.RowHeightPerc
                                                 (95 / Z.of_nat (length (Layout.pack ws))))
                                              (Layout.pack ws))
                                  else invalid_row)
          by exact (layout_of_collected widgets confs t ws Ht Hne Hws).
        assert (Hfound : ~ Exists missing confs).
        { intros Hex. apply Exists_exists in Hex as (c & Hc & Hnot).
          rewrite Forall_forall in Hall. destruct (Hall c Hc) as [w Hw]. exact (Hnot w Hw). }
        assert (Hnil : ws = [] <-> confs = []).
        { split; intros ->; [destruct confs | destruct ws]; (reflexivity || discriminate). }
        pose proof (pack_rows_count ws) as [Hlow Hhigh]. rewrite Hlen in Hlow, Hhigh.
        rewrite Hout. destruct (decide (ws = [])) as [Hws' | Hws'].
        -- repeat split; try discriminate; try (intros; exfalso; tauto); auto.
           ++ intros _. apply Hnil, Hws'.
           ++ intros Hbig _. apply Hnil in Hws'. subst confs. cbn in Hbig. lia.
        -- assert (Hrows : Layout.pack ws <> []).
           { intros E. pose proof (pack_concat ws) as Hcat. rewrite E in Hcat.
             destruct ws; [contradiction | discriminate]. }
           set (n := length (Layout.pack ws)) in *.
           assert (Hn : (0 < n)%nat)
             by (subst n; destruct (Layout.pack ws); [contradiction | cbn; lia]).
           destruct (Nat.leb_spec n 95) as [Hle | Hgt].
           ++ split; [split; [discriminate | intros; exfalso; tauto]|].
              split; [split; [discriminate | intros E; exfalso; apply Hws', Hnil, E]|].
              split; [discriminate|].
              split; [intros Hbig _; lia|].
              split; [|right; right; right; eexists; reflexivity].
              intros title_row body [= <- <-].
              split; [reflexivity|].
              split; [destruct (Layout.pack ws); [contradiction | discriminate]|].
              rewrite length_map. fold n. split; [exact Hle|].
              pose proof (Z.div_le_lower_bound 95 (Z.of_nat n) 1 ltac:(lia) ltac:(lia)) as Hone.
              split.
              ** apply Forall_fmap, Forall_forall. intros r _. cbn. split; [reflexivity | lia].
              ** assert (Hsum : forall (l : list (list (Layout.Column W))) (hgt : Z),
                           sumZ (Layout.heightPerc W <$> map (Layout.RowHeightPerc hgt) l)
                           = Z.of_nat (length l) * hgt).
                 { intros l hgt. induction l as [|r l IH]; [reflexivity|].
                   cbn [map length]. rewrite fmap_cons.
                   change (sumZ (?x :: ?xs)) with (x + sumZ xs).
                   cbn [Layout.heightPerc]. rewrite IH. lia. }
                 rewrite Hsum. fold n.
                 pose proof (Z.mul_div_le 95 (Z.of_nat n) ltac:(lia)). lia.
           ++ split; [split; [discriminate | intros; exfalso; tauto]|].
              split; [split; [discriminate | intros E; exfalso; apply Hws', Hnil, E]|].
              split; [intros _; lia|].
              split; [reflexivity|].
              split; [discriminate | right; right; left; reflexivity].
      * assert (Hout : out = no_widget).
        { subst out. unfold Layout.dynamicGridLayout. rewrite Ht. fold others.
          destruct (Nat.eqb_spec (size others) 0) as [Hsize | _];
            [apply map_size_empty_iff in Hsize; contradiction|].
          rewrite Herr. reflexivity. }
        rewrite Hout.
        split; [split; [intros _; assumption | reflexivity]|].
        split; [split; [discriminate | intros ->; inversion Hex]|].
        split; [discriminate|].
        split; [intros _ Hno; contradiction|].
        split; [discriminate | left; reflexivity].
Qed.

(** X30: the ellipse of the pie chart and of the radar.  On every canvas
    both radii are at least 1 and the centre is the middle of the dot grid;
    on a canvas of at least 2 by 1 cells the ellipse with its centre and
    radii lies inside the dot grid (2 dots for a column, 4 for a row), and
    both widgets compute the same centre and radii. *)
Theorem X30_round_charts_fit :
  forall (cvs : canvas.t),
    let '(mid, radiusX, radiusY) := PieChart.pieChartMidAndRadii (canvas.Area cvs) in
    Radar.midAndRadii (canvas.Area cvs) = (mid, radiusX, radiusY) /\
    mid = image.mkPoint (Z.of_nat (canvas.width cvs)) (Z.of_nat (canvas.height cvs) * 2) /\
    1 <= radiusX /\ 1 <= radiusY /\
    ((2 <= canvas.width cvs)%nat -> (1 <= canvas.height cvs)%nat ->
     0 <= image.X mid - radiusX /\
     image.X mid + radiusX < Z.of_nat (canvas.width cvs) * braille.ColMult /\
     0 <= image.Y mid - radiusY /\
     image.Y mid + radiusY < Z.of_nat (canvas.height cvs) * braille.RowMult).
Proof.
  intros cvs. unfold PieChart.pieChartMidAndRadii, Radar.midAndRadii.
  rewrite Area_eq. unfold image.Dx, image.Dy, braille.ColMult, braille.RowMult.
  cbn [image.Max image.Min image.X image.Y image.mkPoint fst snd].
  rewrite !Z.sub_0_r, !Z.mul_0_l, !Z.add_0_l.
  rewrite (Z.quot_div_nonneg (Z.of_nat (canvas.width cvs) * 2)) by lia.
  rewrite (Z.quot_div_nonneg (Z.of_nat (canvas.height cvs) * 4)) by lia.
  rewrite Z.div_mul by lia.
  replace (Z.of_nat (canvas.height cvs) * 4) with (Z.of_nat (canvas.height cvs) * 2 * 2) by lia.
  rewrite Z.div_mul by lia.
  split; [reflexivity|]. split; [reflexivity|].
  destruct (Z.ltb_spec (Z.of_nat (canvas.width cvs) - 2) 1);
    destruct (Z.ltb_spec (Z.of_nat (canvas.height cvs) * 2 - 2) 1);
    (split; [lia|]); (split; [lia|]); intros Hw Hh; lia.
Qed.
